(* ===== verification/_CoqProject ===== *)
-Q . S2P
Prelude.v
State.v
Start.v
Defines.v
Errors.v
Reader.v
Devices.v
Relocation.v
Tables.v
SymbolSpec.v
Paging.v
Emit.v
DeviceSpec.v
Expr.v
Bytes.v
Operands.v
OpsAtoJ.v
OpsLd.v
OpsMtoX.v
OpTable.v
Z80Ref.v
Z80Spec.v
Frame.v
Counts.v
Stream.v
Progress.v
DefTable.v
Messages.v
Numbers.v
Literals.v
ExprSpec.v
Substitution.v
Lines.v
Source.v
Repeat.v
Macros.v
Structures.v
DirData.v
DirSpace.v
Files.v
DirDefs.v
DirOpt.v
DirOutput.v
Trd.v
Tape.v
Snapshot.v
Cpc.v
Crc32c.v
NexFile.v
Nex.v
TextFiles.v
DirCond.v
LineParser.v
Driver.v
CmdLine.v
Reports.v
TrdSpec.v
NexSpec.v
NexBanks.v
MemorySpec.v
HexSpec.v
TapSpec.v
SpaceSpec.v
StartSpec.v
