(* ===== verification/Prelude.v ===== *)
(** * The sjasmplus assembler

    sjasmplus (src/sjasm/, C++) reads Z80 assembly source three times and writes machine
    code into files and into the memory of virtual machines, which it saves in the file
    formats of these machines.  This library has the program as definitions over one state
    and theorems about them.

    ** The program and where its parts are modelled

    The code keeps its state in globals.  [State] groups them in records by the file that
    owns them, with a setter for each field; [Start] has their values when the program
    starts.  A routine of the code is a program of the monad [M St] of this file: it
    returns a value and a state, leaves the assembler (FATAL errors, [ExitASM]), meets
    undefined behaviour ([undef]: a null pointer, a failed assert) or runs out of fuel.
    Routines that only look at a text are plain functions on [text], a pointer into a line
    with what is before and behind it.  Names are those of the code.

    - Errors and warnings (io_err.cpp): [Errors]; the define table (tables.cpp): [Defines],
      [DefTable].
    - The reader of words, numbers and strings (reader.cpp): [Reader]; expressions
      (parser.cpp): [Expr], which asks [Tables] for labels, [Relocation] (relocate.cpp) for
      the second evaluation with moved labels, [Emit] for bytes of the memory.
    - Labels, temporary labels, the symbol table (tables.cpp): [Tables].
    - Virtual machines, their slots and pages (devices.cpp): [Devices], [Paging].
    - Bytes into the write buffer, the output, raw, tape and HEX files, the memory of the
      machine, the listing (sjio.cpp): [Emit].
    - Instructions (z80.cpp): [Operands], the handlers in [OpsAtoJ], [OpsLd], [OpsMtoX], the
      tables of the three processors and [GetOpCode] in [OpTable].
    - Lines: [Lines] and [Source] cut a file into segments (sjio.cpp), [Substitution]
      replaces the defines (parser.cpp), [Repeat], [Macros], [Structures] expand (tables.cpp,
      directives.cpp), [DirCond] has the conditional blocks and includes.
    - Directives (directives.cpp): [Bytes], [DirData], [DirSpace], [DirDefs], [DirOpt],
      [DirOutput].
    - File formats: [Files] (binary, +3DOS, AMSDOS, Hobeta, HEX; sjio.cpp), [Trd] (io_trd.cpp),
      [Tape] (io_tape.cpp, io_tzx.cpp), [Snapshot] (io_snapshots.cpp), [Cpc] (io_cpc.cpp),
      [Crc32c] (src/crc32c/), [NexFile] and [Nex] (io_nex.cpp), [TextFiles] (listing, symbols,
      exports, SLD, breakpoints: sjio.cpp, tables.cpp).
    - [LineParser] ties the knot: [ParseLine] (parser.cpp) calls the directives of its
      table, which parse lines themselves.  [Driver] has [InitPass], the passes and the end
      of the program (sjasm.cpp), [CmdLine] the options and [sjasmplus], the whole program
      from the command line to the exit code.

    The model was run on the sources of the tests of the repository that use no Lua (but
    for a few that depend on where the host finds their files): the binary files,
    listings and symbol files it made are those the tests expect.

    ** The theorems

    - Instructions: against a decoder of the processor ([Z80Ref], [Z80Spec]): what the
      assembler makes of the text of an instruction is the code it was decoded from, on the
      Z80, the i8080 (which refuses all others) and the LR35902.
    - Every routine an instruction calls: [Frame] is the interface [AsmFrame] between the
      handlers and an invariant, proved once for all of them; [Counts] (messages and their
      counters) and [Stream] (the bytes are one stream, the address counts them: the
      refinement of the buffered emission) are its instances, and [ParseFrame] is the part
      of it for what emits nothing.  [Progress] has termination: the bound on every loop is
      enough.
    - Texts: [Numbers], [Literals] (round trips, exact overflow), [ExprSpec] (the parser
      computes what the grammar says), [Messages] (which messages are shown).
    - Tables: [SymbolSpec] (definitions of labels, temporary labels against the text),
      [DefTable] (a stack of definitions for each name), [StartSpec] (the options of the
      environment, the copy of the definitions, the order and the values of the dumps).
    - Memory: [DeviceSpec] (maps of the machines, a byte emitted is read back), [MemorySpec]
      (SAVEBIN), [HexSpec] and [TapSpec] (readers of Intel HEX and of tape files get back what
      the program saved), [SpaceSpec] (ALIGN).
    - Images: [TrdSpec] (the catalogue of a disk as an abstract list of files, refined by
      SAVETRD, with the exact condition of its success; INCTRD finds what it saved), [NexSpec] and [NexBanks] (an invariant over all
      commands of SAVENEX, the file can always be completed, a loader gets the memory back),
      [Crc32c] (the routine against the polynomial).

    Some theorems say what the code does where a comment, the documentation or the plain
    intent says something else: the decimal overflow test, a redefined name whose old value
    UNDEFINE brings back, the checksum of NEX files, the order of copied definitions, the
    start address of HEXEND, listings that are appended.

    ** Integers, fuel, parameters

    [aint] and the other words are [Z], cut to their width where the code does it
    ([wrap32], [u32], [u16], [u8], [size_t]).  Loops over a text have its length as fuel, which
    [Progress] shows to be enough for everything an instruction calls.  Loops over a file
    have its length.  The nesting of lines in lines (macros, includes, repeated blocks) is
    not bounded by the text: it is the parameter [depth] of [ParseLine], and the lines that
    an initialiser of a structure may take are [limit].

    What the program takes from its host is the class [FileSystem] (and [Host], for
    [CmdLine]): the files it can read, the names it can write, the directories of paths, the
    content of fresh memory, date and time.  A file that was written is read back as
    written.  The theorems hold for every instance; the witnesses take [plain_files].  A
    directive that is not modelled is the parameter [other] of the line parser.

    ** Not modelled

    - The Lua interpreter (src/lua5.5, a copy of another project) and its binding
      (lua_sjasm.cpp): LUA, ENDLUA and INCLUDELUA; SHELLEXEC, which runs other programs.
    - Sources from the standard input, failures of writes to a file that was opened, the
      removal of the output files by --cleanonerror.
    - The texts of the help, the logo, the colours of messages, the time the run took.
    - Hosts with big-endian words, and the code for one compiler (src/sjasmwin32).

    ** This file

    Words of machine width, C characters and strings, the monad and its combinators, the
    relations [keeps] (what a routine leaves alone) and [stays] (it does not leave the
    assembler), and their tactics and databases. *)

From Stdlib Require Export ZArith Lia Bool Ascii String List.
From stdpp Require Export base tactics list gmap strings.

#[global] Open Scope Z_scope.

(** ** Machine integers *)

(** [aint] is [int32_t]: values are kept as [Z] and wrapped back after each
    operation, as the two's complement hosts of the program do. *)
Definition wrap32 (z : Z) : Z := (z + 2 ^ 31) mod 2 ^ 32 - 2 ^ 31.
Definition u32 (z : Z) : Z := z mod 2 ^ 32.
Definition wrap16 (z : Z) : Z := (z + 2 ^ 15) mod 2 ^ 16 - 2 ^ 15.
(** A [size_t] of the hosts: a negative number is a huge one. *)
Definition size_t (z : Z) : Z := z mod 2 ^ 64.
Definition u16 (z : Z) : Z := z mod 2 ^ 16.
Definition u8 (z : Z) : Z := z mod 2 ^ 8.
Definition INT_MAX : Z := 2 ^ 31 - 1.
Definition INT_MIN : Z := - 2 ^ 31.
Definition in32 (z : Z) : Prop := INT_MIN <= z <= INT_MAX.
Definition is_byte (z : Z) : Prop := 0 <= z < 256.

#[export] Instance in32_dec z : Decision (in32 z).
Proof. unfold in32; apply _. Defined.
#[export] Instance is_byte_dec z : Decision (is_byte z).
Proof. unfold is_byte; apply _. Defined.

Lemma wrap32_range z : in32 (wrap32 z).
Proof.
  unfold in32, wrap32, INT_MIN, INT_MAX.
  pose proof (Z.mod_pos_bound (z + 2 ^ 31) (2 ^ 32) ltac:(lia)). lia.
Qed.

Lemma wrap32_id z : in32 z → wrap32 z = z.
Proof.
  unfold in32, wrap32, INT_MIN, INT_MAX; intros.
  rewrite Z.mod_small; lia.
Qed.

Lemma wrap32_mod z : wrap32 z mod 2 ^ 32 = z mod 2 ^ 32.
Proof.
  unfold wrap32. rewrite Zminus_mod, Zmod_mod, <- Zminus_mod. f_equal. lia.
Qed.

Lemma wrap32_eq a b : a mod 2 ^ 32 = b mod 2 ^ 32 → wrap32 a = wrap32 b.
Proof.
  intros H. unfold wrap32. rewrite Zplus_mod, H, <- Zplus_mod. reflexivity.
Qed.

Lemma wrap32_idemp z : wrap32 (wrap32 z) = wrap32 z.
Proof. apply wrap32_id, wrap32_range. Qed.

Lemma land255_byte z : is_byte (Z.land z 255).
Proof.
  unfold is_byte. change 255 with (Z.ones 8).
  rewrite Z.land_ones by lia. apply Z.mod_pos_bound. lia.
Qed.

Lemma land255_mod z : Z.land z 255 = z mod 256.
Proof. change 255 with (Z.ones 8). rewrite Z.land_ones by lia. reflexivity. Qed.

Lemma land65535_mod z : Z.land z 65535 = z mod 65536.
Proof. change 65535 with (Z.ones 16). rewrite Z.land_ones by lia. reflexivity. Qed.

Create HintDb sj discriminated.
#[export] Hint Resolve wrap32_range land255_byte : sj.

(** ** Characters and C strings *)

Definition code (c : ascii) : Z := Z.of_N (N_of_ascii c).
Definition char_of (z : Z) : ascii := ascii_of_N (Z.to_N (z mod 256)).
Definition NUL : ascii := "000"%char.
Definition LF : ascii := "010"%char.
(** The bytes of a text. *)
Definition bytes_of (l : list ascii) : list Z := code <$> l.

(** [(signed char)] value of a character, as plain [char] is on the hosts. *)
Definition schar (c : ascii) : Z := if code c <? 128 then code c else code c - 256.

Definition in_range (lo c hi : ascii) : bool := (code lo <=? code c) && (code c <=? code hi).
Arguments in_range lo%_char c%_char hi%_char.

(** <ctype.h> in the "C" locale. *)
Definition isdigit (c : ascii) : bool := in_range "0" c "9".
Definition isupper (c : ascii) : bool := in_range "A" c "Z".
Definition islower (c : ascii) : bool := in_range "a" c "z".
Definition isalpha (c : ascii) : bool := isupper c || islower c.
Definition isalnum (c : ascii) : bool := isalpha c || isdigit c.
Definition toupper (c : ascii) : ascii := if islower c then char_of (code c - 32) else c.
Definition tolower (c : ascii) : ascii := if isupper c then char_of (code c + 32) else c.

(** [c | 0x20] on a character. *)
Definition or20 (c : ascii) : ascii := char_of (Z.lor (code c) 32).

Lemma code_range c : is_byte (code c).
Proof.
  unfold is_byte, code. pose proof (N_ascii_bounded c). lia.
Qed.

Lemma char_of_code c : char_of (code c) = c.
Proof.
  unfold char_of. pose proof (code_range c) as H. unfold is_byte in H.
  rewrite Z.mod_small by lia. unfold code.
  rewrite N2Z.id. apply ascii_N_embedding.
Qed.

Lemma code_char_of z : is_byte z → code (char_of z) = z.
Proof.
  unfold is_byte; intros. unfold char_of, code.
  rewrite Z.mod_small by lia. rewrite N_ascii_embedding; lia.
Qed.

(** A [char*] into a NUL-terminated buffer: the characters behind the pointer
    (nearest first) and the characters from it up to the terminator.  Two
    pointers into the same buffer are equal iff the records are. *)
Record text := mk_text { bef : list ascii; aft : list ascii }.

#[export] Instance text_eq_dec : EqDecision text.
Proof. solve_decision. Defined.

Definition str (s : string) : list ascii := list_ascii_of_string s.
Arguments str s%_string.
Definition txt (s : string) : text := mk_text [] (str s).
Arguments txt s%_string.

(** [*p] and [p[n]]; the terminator reads as NUL. *)
Definition cur (p : text) : ascii := match aft p with [] => NUL | c :: _ => c end.
Definition pk (p : text) (n : nat) : ascii := nth n (aft p) NUL.
(** [p[-1]] *)
Definition prev (p : text) : ascii := match bef p with [] => NUL | c :: _ => c end.
(** [++p] and [--p] *)
Definition adv (p : text) : text :=
  match aft p with [] => p | c :: r => mk_text (c :: bef p) r end.
Definition back (p : text) : text :=
  match bef p with [] => p | c :: r => mk_text r (c :: aft p) end.
Fixpoint advn (n : nat) (p : text) : text :=
  match n with O => p | S n => advn n (adv p) end.

Definition isc (p : text) (c : ascii) : bool := Ascii.eqb (cur p) c.
Definition isn (p : text) (n : nat) (c : ascii) : bool := Ascii.eqb (pk p n) c.
Arguments isc p c%_char.
Arguments isn p n%_nat c%_char.

(** Characters left before the terminator. *)
Definition room (p : text) : nat := length (aft p).

(** The text as written: what stays after [p] once [l] has been consumed. *)
Definition skip (l : list ascii) (p : text) : text :=
  mk_text (rev l ++ bef p) (drop (length l) (aft p)).

(** *** printf

    The digits of a non-negative number, most significant first. *)
Definition digit_char (d : Z) : ascii := char_of (if d <? 10 then 48 + d else 55 + d).

Fixpoint digits_fuel (fuel : nat) (base n : Z) (acc : list ascii) : list ascii :=
  match fuel with
  | O => acc
  | Datatypes.S fuel =>
      let acc := digit_char (n mod base) :: acc in
      if n <? base then acc else digits_fuel fuel base (n / base) acc
  end.
Definition digits (base n : Z) : list ascii :=
  digits_fuel (Datatypes.S (Z.to_nat (Z.log2 n))) base n [].

(** [%d], [%+i], [%X] and [%0*X] *)
Definition fmt_d (n : Z) : list ascii :=
  if n <? 0 then "-"%char :: digits 10 (- n) else digits 10 n.
Definition fmt_plus (n : Z) : list ascii :=
  if n <? 0 then fmt_d n else "+"%char :: fmt_d n.
Definition fmt_X (n : Z) : list ascii := digits 16 (u32 n).
Definition fmt_0X (width : nat) (n : Z) : list ascii :=
  let d := fmt_X n in repeat "0"%char (width - length d) ++ d.

Fixpoint drop_while (f : ascii → bool) (l : list ascii) : list ascii :=
  match l with [] => [] | c :: l' => if f c then drop_while f l' else l end.
Fixpoint count_while (f : ascii → bool) (l : list ascii) : nat :=
  match l with [] => O | c :: l' => if f c then Datatypes.S (count_while f l') else O end.

Definition of_chars (l : list ascii) : string := string_of_list_ascii l.

(** ** Effects

    The program keeps its state in globals; a routine is a function from the
    state to an outcome.  [Exit] is [ExitASM] after a FATAL error, [Undef] a
    failing [assert] or an operation C++ leaves undefined, [NoFuel] is produced
    only by a loop whose bound (fuel) is too small: the termination theorems
    show it never is. *)
Inductive res (S A : Type) : Type :=
| Ret (a : A) (s : S)
| Exit (s : S)
| Undef
| NoFuel.
Arguments Ret {S A} a s.
Arguments Exit {S A} s.
Arguments Undef {S A}.
Arguments NoFuel {S A}.

Definition M (S A : Type) : Type := S → res S A.

#[export] Instance M_ret {S} : MRet (M S) := fun A a s => Ret a s.
#[export] Instance M_bind {S} : MBind (M S) := fun A B f m s =>
  match m s with
  | Ret a s' => f a s'
  | Exit s' => Exit s'
  | Undef => Undef
  | NoFuel => NoFuel
  end.

Definition gets {S A} (f : S → A) : M S A := fun s => Ret (f s) s.
Definition modify {S} (f : S → S) : M S unit := fun s => Ret tt (f s).
Definition undef {S A} : M S A := fun _ => Undef.
Definition exitasm {S A} : M S A := fun s => Exit s.
Definition nofuel {S A} : M S A := fun _ => NoFuel.

(** [assert(b)] *)
Definition massert {S} (b : bool) : M S unit := if b then mret tt else undef.
(** [if (b) m;] *)
Definition mwhen {S} (b : bool) (m : M S unit) : M S unit := if b then m else mret tt.

(** [do { body } while (...)]: [body] answers whether to go round again. *)
Fixpoint do_while {S} (fuel : nat) (body : M S bool) : M S unit :=
  match fuel with
  | O => nofuel
  | Datatypes.S n => c ← body; if (c : bool) then do_while n body else mret tt
  end.

(** [for (x : l) body(x)] *)
Fixpoint for_each {S A} (l : list A) (body : A → M S unit) : M S unit :=
  match l with
  | [] => mret tt
  | x :: l => body x ;; for_each l body
  end.

(** *** What a routine preserves

    [keeps R m]: whenever [m] ends (normally or through [ExitASM]) the final
    state is [R]-related to the initial one.  For a preorder [R] this is closed
    under all the combinators, so a routine keeps [R] when its primitives do. *)
Definition keeps {S A} (R : S → S → Prop) (m : M S A) : Prop :=
  ∀ s, match m s with
       | Ret _ s' | Exit s' => R s s'
       | _ => True
       end.

Section keeps.
Context {S : Type} (R : S → S → Prop) `{!PreOrder R}.

Lemma keeps_ret {A} (a : A) : keeps R (mret a).
Proof. intros s; simpl. reflexivity. Qed.

Lemma keeps_bind {A B} (m : M S A) (f : A → M S B) :
  keeps R m → (∀ a, keeps R (f a)) → keeps R (m ≫= f).
Proof.
  intros Hm Hf s. specialize (Hm s). unfold mbind, M_bind.
  destruct (m s) as [a s'|s'| |]; auto.
  specialize (Hf a s'). destruct (f a s'); auto; by etransitivity.
Qed.

Lemma keeps_gets {A} (f : S → A) : keeps R (gets f).
Proof. intros s; simpl. reflexivity. Qed.

Lemma keeps_modify f : (∀ s, R s (f s)) → keeps R (modify f).
Proof. intros H s; simpl. apply H. Qed.

Lemma keeps_undef {A} : keeps R (undef (A := A)).
Proof. intros s; exact I. Qed.
Lemma keeps_nofuel {A} : keeps R (nofuel (A := A)).
Proof. intros s; exact I. Qed.
Lemma keeps_exitasm {A} : keeps R (exitasm (A := A)).
Proof. intros s; simpl; reflexivity. Qed.

Lemma keeps_massert b : keeps R (massert b).
Proof. destruct b; [apply keeps_ret | apply keeps_undef]. Qed.

Lemma keeps_mwhen b m : keeps R m → keeps R (mwhen b m).
Proof. destruct b; simpl; auto using keeps_ret. Qed.

Lemma keeps_do_while n body : keeps R body → keeps R (do_while n body).
Proof.
  intros Hb. induction n as [|n IH]; simpl; [apply keeps_nofuel|].
  apply keeps_bind; [done|]. intros []; auto using keeps_ret.
Qed.

Lemma keeps_for_each {A} (l : list A) body :
  (∀ x, keeps R (body x)) → keeps R (for_each l body).
Proof.
  intros Hb. induction l as [|x l IH]; simpl; [apply keeps_ret|].
  apply keeps_bind; auto.
Qed.
End keeps.

Create HintDb keeps discriminated.
#[export] Hint Resolve keeps_ret keeps_gets keeps_undef keeps_nofuel keeps_exitasm
  keeps_massert : keeps.
#[export] Hint Constants Opaque : keeps.

(** [keep_step] peels one constructor of a routine; [keep] walks through the
    whole of it and closes the leaves with the [keeps] database. *)
Ltac keep_leaf := solve [ auto with keeps typeclass_instances ].
Ltac keep_step :=
  lazymatch goal with
  | |- keeps _ (mbind _ _) => apply keeps_bind; [try apply _ | | intros ?]
  | |- keeps _ (do_while _ _) => apply keeps_do_while; [try apply _ |]
  | |- keeps _ (for_each _ _) => apply keeps_for_each; [try apply _ | intros ?]
  | |- keeps _ (mwhen _ _) => apply keeps_mwhen; [try apply _ |]
  | |- keeps _ (if ?b then _ else _) => destruct b
  | |- keeps _ (match ?x with _ => _ end) => destruct x
  | |- keeps _ (let _ := _ in _) => cbv zeta
  | |- keeps _ ((fun _ => _) _) => cbv beta
  end.
Ltac keep := intros; repeat first [ keep_leaf | keep_step ].

(** [run] unfolds the combinators in front of a concrete state. *)
Ltac run := cbv beta iota zeta delta [mbind M_bind mret M_ret gets modify mwhen].

(** The frame rule for a read of the state: the value read is the state. *)
Lemma keeps_read {S A B} (R : S → S → Prop) (g : S → A) (f : A → M S B) :
  (∀ s, match f (g s) s with Ret _ s' | Exit s' => R s s' | _ => True end) →
  keeps R (gets g ≫= f).
Proof. intros H s. exact (H s). Qed.

(** What preserves a relation preserves a weaker one. *)
Lemma keeps_weaken {S A} (R R' : S → S → Prop) (m : M S A) :
  (∀ s s', R s s' → R' s s') → keeps R m → keeps R' m.
Proof. intros H Hm s. specialize (Hm s). destruct (m s); auto. Qed.

(** *** Routines that never leave the program *)
Definition stays {S A} (m : M S A) : Prop := ∀ s s', m s ≠ Exit s'.

Section stays.
Context {S : Type}.

Lemma stays_ret {A} (a : A) : stays (S := S) (mret a).
Proof. intros s s'. discriminate. Qed.
Lemma stays_gets {A} (f : S → A) : stays (gets f).
Proof. intros s s'. discriminate. Qed.
Lemma stays_modify (f : S → S) : stays (modify f).
Proof. intros s s'. discriminate. Qed.
Lemma stays_undef {A} : stays (S := S) (undef (A := A)).
Proof. intros s s'. discriminate. Qed.
Lemma stays_massert b : stays (S := S) (massert b).
Proof. destruct b; [apply stays_ret|apply stays_undef]. Qed.
Lemma stays_mwhen b (m : M S unit) : stays m → stays (mwhen b m).
Proof. destruct b; [done|]. intros _. apply stays_ret. Qed.
Lemma stays_bind {A B} (m : M S A) (f : A → M S B) :
  stays m → (∀ a, stays (f a)) → stays (m ≫= f).
Proof.
  intros Hm Hf s s'. unfold mbind, M_bind. destruct (m s) eqn:E; try discriminate.
  - apply Hf.
  - by apply Hm in E.
Qed.
End stays.

Create HintDb stays discriminated.
#[export] Hint Resolve stays_ret stays_gets stays_modify stays_undef stays_massert : stays.
#[export] Hint Constants Opaque : stays.

Ltac stay :=
  intros;
  repeat first
    [ solve [auto with stays]
    | lazymatch goal with
      | |- stays (mbind _ _) => apply stays_bind; [|intros ?]
      | |- stays (mwhen _ _) => apply stays_mwhen
      | |- stays (if ?b then _ else _) => destruct b
      | |- stays (match ?x with _ => _ end) => destruct x
      | |- stays (let _ := _ in _) => cbv zeta
      | |- stays ((fun _ => _) _) => cbv beta
      end ].

(** *** Results that never run out of fuel *)
Definition fuelled {S A} (m : M S A) : Prop := ∀ s, m s ≠ NoFuel.

Lemma fuelled_bind {S A B} (m : M S A) (f : A → M S B) :
  fuelled m → (∀ a, fuelled (f a)) → fuelled (m ≫= f).
Proof.
  intros Hm Hf s. unfold mbind, M_bind. specialize (Hm s).
  destruct (m s) as [a s'|s'| |]; try done. apply Hf.
Qed.
