(* ===== verification/State.v ===== *)
(** * State of the assembler

    The globals of the program, grouped by the file that owns them, as records
    with a functional update per field, and the data types they hold
    ([sjasm.h], [tables.h], [devices.h], [relocate.h], [io_err.h]). *)

From S2P Require Export Prelude.

(** ** Data *)

(** [EStatus] and [EWStatus] (io_err.h) *)
Inductive EStatus := ALL | FATAL | EARLY | PASS3 | IF_FIRST | SUPPRESS | PASS03.
Inductive EWStatus := W_ALL | W_EARLY | W_PASS3 | W_PASS03.

#[export] Instance EStatus_eq_dec : EqDecision EStatus.
Proof. solve_decision. Defined.
#[export] Instance EWStatus_eq_dec : EqDecision EWStatus.
Proof. solve_decision. Defined.

(** One line of diagnostic output: the warning id when there is one, the
    message and the optional [badValueMessage]. *)
Record diag := mk_diag {
  d_error : bool;
  d_id : option string;
  d_msg : string;
  d_bad : option (list ascii)
}.

(** The message [getNumericValueLastErr] points at (reader.cpp). *)
Inductive numerr :=
| getNumericValueErr_syntax | getNumericValueErr_digit
| getNumericValueErr_no_digit | getNumericValueErr_overflow.

#[export] Instance numerr_eq_dec : EqDecision numerr.
Proof. solve_decision. Defined.

(** [TextFilePos] (tables.h): file name, line and columns. *)
Record TextFilePos := mk_pos {
  filename : string;
  pos_line : Z;
  colBegin : Z;
  colEnd : Z
}.

#[export] Instance TextFilePos_eq_dec : EqDecision TextFilePos.
Proof. solve_decision. Defined.

(** [MultiArg] holds the address of [comma] or of [doubleComma]. *)
Inductive multi_arg := MA_comma | MA_doubleComma.
(** [ELstType] (sjasm.h) *)
Inductive ELstType := LST_T_ALL | LST_T_ACTIVE | LST_T_MC_ONLY.

(** [Options::SSyntax] (sjasm.h) *)
Record SSyntax := mk_syntax {
  IsPseudoOpBOF : bool;
  IsReversePOP : bool;
  FakeEnabled : bool;
  FakeWarning : bool;
  IsListingSuspended : bool;
  ListingType : ELstType;
  CaseInsensitiveInstructions : bool;
  WarningsAsErrors : bool;
  Is_M_Memory : bool;
  IsSubwordSubstitution : bool;
  MemoryBrackets : Z;
  IsNextEnabled : Z;
  MultiArg : multi_arg
}.

(** The default constructor of [SSyntax]. *)
Definition SSyntax_default : SSyntax := {|
  IsPseudoOpBOF := false; IsReversePOP := false; FakeEnabled := true;
  FakeWarning := false; IsListingSuspended := false; ListingType := LST_T_ALL;
  CaseInsensitiveInstructions := false; WarningsAsErrors := false;
  Is_M_Memory := false; IsSubwordSubstitution := true; MemoryBrackets := 0;
  IsNextEnabled := 0; MultiArg := MA_comma |}.

(** The options the code generation reads; [warn_enabled] is the [enabled]
    flag of each entry of [w_texts] (io_err.cpp). *)
Record Options := mk_options {
  syx : SSyntax;
  IsI8080 : bool;
  IsLR35902 : bool;
  IsLongPtr : bool;
  warn_enabled : string → bool
}.

(** Relocation::EType (relocate.h) *)
Definition OFF : Z := 0.
Definition REGULAR : Z := 1.
Definition HIGH : Z := 2.

(** [EDispMode] (sjasm.h) *)
Definition DISP_NONE : Z := 0.
Definition DISP_ACTIVE : Z := 1.
Definition DISP_INSIDE_RELOCATE : Z := 2.

Definition LASTPASS : Z := 3.

(** [page_t] constants and label traits (tables.h) *)
Definition LABEL_PAGE_UNDEFINED : Z := -1.
Definition LABEL_PAGE_MAX_RAM : Z := 30000.
Definition LABEL_PAGE_ROM : Z := 32512.
Definition LABEL_PAGE_OUT_OF_BOUNDS : Z := 32640.

Definition LABEL_IS_UNDEFINED : Z := 1.
Definition LABEL_IS_DEFL : Z := 2.
Definition LABEL_IS_EQU : Z := 4.
Definition LABEL_IS_STRUCT_D : Z := 8.
Definition LABEL_IS_STRUCT_E : Z := 16.
Definition LABEL_HAS_RELOC_TRAIT : Z := 32.
Definition LABEL_IS_RELOC : Z := 64.
Definition LABEL_IS_SMC : Z := 128.
Definition LABEL_IS_KEYWORD : Z := 256.
Definition LABEL_HAS_SIZE : Z := 512.
Definition LABEL_IS_LOCAL : Z := 1024.
Definition LABMAX : nat := 64.

Record SLabelTableEntry := mk_label {
  value : Z;
  ph_value : Z;
  size : Z;
  page : Z;
  ph_page : Z;
  traits : Z;
  updatePass : Z;
  used : bool;
  isRelocatable : Z
}.

Record TemporaryLabel := mk_temp {
  nummer : Z;
  tl_value : Z;
  tl_isRelocatable : bool
}.

(** [CDefineTableEntry] (tables.h): one definition of a bucket. *)
Record CDefineTableEntry := mk_define {
  def_name : list ascii;
  def_value : list ascii;
  def_nss : list (list ascii)
}.

(** [CDeviceSlot::ESlotOptions], slots, pages and devices (devices.h).  [RAM]
    is the offset of the page inside the [Memory] of its device; [Memory] maps
    an offset to the byte there, 0 when never written. *)
Inductive ESlotOptions := O_NONE | O_ERROR | O_WARNING | O_NEXT.

#[export] Instance ESlotOptions_eq_dec : EqDecision ESlotOptions.
Proof. solve_decision. Defined.

Record CDevicePage := mk_page {
  pg_Size : Z;
  pg_Number : Z;
  RAM : Z
}.

Record CDeviceSlot := mk_slot {
  sl_Address : Z;
  sl_Size : Z;
  sl_Page : option Z;
  InitialPage : Z;
  sl_Option : ESlotOptions
}.

Record CDevice := mk_device {
  dev_ID : list ascii;
  Slots : list CDeviceSlot;
  Pages : list CDevicePage;
  Memory : gmap Z Z;
  ZxRamTop : Z;
  CurrentSlot : Z;
  previousSlotI : Z;
  previousSlotOpt : ESlotOptions;
  limitExceeded : bool
}.

(** [CDeviceDef]: a device defined by the source being assembled. *)
Record CDeviceDef := mk_devdef {
  dd_ID : list ascii;
  dd_SlotSize : Z;
  dd_SlotsCount : Z;
  dd_PagesCount : Z;
  dd_initialPages : list Z
}.

(** ** Lines, macros, structures and repeated blocks (tables.h, sjasm.h) *)

(** A node of a [CStringsList]; [ls_string] is [None] in the node that ends a
    repeated block.  A list of nodes is [nullptr] when it is empty. *)
Record strline := mk_strline {
  ls_string : option (list ascii);
  ls_source : TextFilePos
}.

Record CMacroTableEntry := mk_macro {
  mac_args : list (list ascii);
  mac_body : list strline
}.

Inductive EStructureMembers :=
| SMEMBUNKNOWN | SMEMBALIGN | SMEMBBYTE | SMEMBWORD | SMEMBBLOCK | SMEMBDWORD | SMEMBD24
| SMEMBTEXT | SMEMBPARENOPEN | SMEMBPARENCLOSE.
#[export] Instance EStructureMembers_eq_dec : EqDecision EStructureMembers.
Proof. solve_decision. Defined.

(** [CStructureEntry1]: a label of a structure, [CStructureEntry2]: a member. *)
Record CStructureEntry1 := mk_se1 {
  se1_naam : list ascii;
  se1_offset : Z
}.
Record CStructureEntry2 := mk_se2 {
  se2_text : list Z;
  se2_offset : Z;
  se2_len : Z;
  se2_def : Z;
  se2_defDeltaType : Z;
  se2_type : EStructureMembers
}.
(** [mnf] is the list of the labels, [mbf] that of the members. *)
Record CStructure := mk_structure {
  st_naam : list ascii;
  maxAlignment : Z;
  noffset : Z;
  mnf : list CStructureEntry1;
  mbf : list CStructureEntry2
}.

(** [Pointer] is the last node of [dup_Lines]. *)
Record SRepeatStack := mk_repeat {
  RepeatCount : Z;
  RepeatCondition : option strline;
  dup_sourcePos : TextFilePos;
  dup_Lines : list strline;
  IsInWork : bool;
  Level : Z
}.

Inductive EEncoding := ENCDOS | ENCWIN.
#[export] Instance EEncoding_eq_dec : EqDecision EEncoding.
Proof. solve_decision. Defined.

(** [EDelimiterType] (sjdefs.h): the delimiters of a string argument. *)
Inductive EDelimiterType := DT_NONE | DT_QUOTES | DT_APOSTROPHE | DT_ANGLE | DT_COUNT.
#[export] Instance EDelimiterType_eq_dec : EqDecision EDelimiterType.
Proof. solve_decision. Defined.

(** [SInputFile] (sjio.h): the path to open and the name to show. *)
Record SInputFile := mk_input {
  in_full : list ascii;
  in_str : string
}.

(** ** The state *)

(** ** NEX files (io_nex.cpp) *)

(** [SNexHeader]: the header of 512 bytes; of the magic only the version digit changes. *)
Record SNexHeader := mk_NexHeader {
  nh_version : Z;
  nh_ramReq : Z;
  nh_numBanks : Z;
  nh_screen : Z;
  nh_border : Z;
  nh_sp : Z;
  nh_pc : Z;
  nh_banks : list Z;
  nh_loadbar : Z;
  nh_loadbarColour : Z;
  nh_loadDelay : Z;
  nh_startDelay : Z;
  nh_preserveNextRegs : Z;
  nh_coreVersion : list Z;
  nh_hiResColour : Z;
  nh_entryBank : Z;
  nh_fileHandleCfg : Z;
  nh_expBusDisable : Z;
  nh_hasChecksum : bool;
  nh_banksOffset : Z;
  nh_cliBuffer : Z;
  nh_cliBufferSize : Z;
  nh_screen2 : Z;
  nh_hasCopperCode : Z;
  nh_tilesScrConfig : list Z;
  nh_bigL2barPosY : Z;
  nh_crc32c : Z
}.

(** [SNexFile]: the file being written; [nx_f] is its name and what was written to it. *)
Record SNexFile := mk_NexFile {
  nx_h : SNexHeader;
  reqFileVersion : Z;
  minFileVersion : Z;
  nx_f : option (list ascii * list Z);
  lastBankIndex : Z;
  nx_copper : option (list Z);
  nx_palette : option (list Z);
  palDefined : bool;
  canAppend : bool
}.

(** [EBreakpointsFile] (sjio.h) and the file of breakpoints: its name, kind, number of
    breakpoints and the text written. *)
Inductive EBreakpointsFile := BPSF_UNREAL | BPSF_ZESARUX | BPSF_MAME | BPSF_FUSE.
#[export] Instance EBreakpointsFile_eq_dec : EqDecision EBreakpointsFile.
Proof. solve_decision. Defined.
Record BreakpointsFile := mk_Breakpoints {
  bp_name : list ascii;
  breakpointsType : EBreakpointsFile;
  breakpointsCounter : Z;
  bp_text : list ascii
}.

(** [EOutputVerbosity] (sjasm.h), by which the messages are filtered. *)
Inductive EOutputVerbosity := OV_ALL | OV_WARNING | OV_ERROR | OV_NONE | OV_LST.
#[export] Instance EOutputVerbosity_eq_dec : EqDecision EOutputVerbosity.
Proof. solve_decision. Defined.
Definition verbosity (v : EOutputVerbosity) : Z :=
  match v with OV_ALL => 0 | OV_WARNING => 1 | OV_ERROR => 2 | OV_NONE => 3 | OV_LST => 4 end.

(** io_err.cpp: error bookkeeping *)
Record ErrState := mk_Err {
  ErrorCount : Z;
  WarningCount : Z;
  IsSkipErrors : bool;
  PreviousErrorLine : Z;
  messages : list diag
}.

(** what is being assembled: pass, line, source positions *)
Record SrcState := mk_Src {
  pass : Z;
  CompiledCurrentLine : Z;
  IncludeLevel : Z;
  sourceBlockLevel : Z;
  sourcePosStack : list TextFilePos;
  smartSmcLines : list TextFilePos;
  smartSmcIndex : Z;
  eolComment : option (list ascii);
  PredefinedCounter : Z
}.

(** parser.cpp, reader.cpp, z80.cpp: pointers and flags of the line parser *)
Record ParState := mk_Par {
  lp : text;
  bp : text;
  line : text;
  synerr : bool;
  expectedAddressClosingBracket : Z;
  substitutedLine : option (list ascii);
  dg_one : Z;
  zeroInDgWarning : bool;
  getNumericValueLastErr : option numerr;
  lastDisplacementParsedP : option text;
  GetRegister_lastIxyD : Z;
  IsLabelNotFound : bool;
  IsSubstituting : bool;
  getLabel_invalidName : bool;
  nextWasInitialized : bool
}.

(** relocate.cpp: namespace Relocation *)
Record RelState := mk_Rel {
  rel_type : Z;
  alternative_offset : Z;
  areLabelsOffset : bool;
  isResultAffected : bool;
  deltaType : Z;
  offsets : list Z;
  offsetsPrevious : list Z;
  maxTableCount : Z;
  warnAboutContentChange : bool;
  startPos : option TextFilePos
}.

(** tables.cpp: symbol, temporary-label and define tables *)
Record TabState := mk_Tab {
  symbols : gmap string SLabelTableEntry;
  sizeofStack : list (string * Z);
  labels : list TemporaryLabel;
  nextPassLabels : list TemporaryLabel;
  ModuleName : list ascii;
  vorlab : list ascii;
  macrolabp : option (list ascii);
  defs : gmap Z (list CDefineTableEntry);
  DefArrayList : list (list ascii)
}.

(** addresses of the assembled code *)
Record OrgState := mk_Org {
  CurAddress : Z;
  PseudoORG : Z;
  adrdisp : Z;
  dispPageNum : Z;
  notWarnedCurAdr : bool;
  notWarnedDisp : bool
}.

(** devices.cpp: the devices opened so far and the current one *)
Record DevState := mk_Dev {
  Devices : list CDevice;
  Device : option nat;
  Page : CDevicePage;
  MemoryPointer : option Z;
  DefDevices : list CDeviceDef
}.

(** sjio.cpp: output buffers and files *)
Record OutState := mk_Out {
  WriteBuffer : list Z;
  destlen : Z;
  FP_Output : option (list Z);
  FP_RAW : option (list Z);
  FP_tapout : bool;
  tap_file : list Z;
  tape_seek : Z;
  tape_length : Z;
  tape_parity : Z;
  out_size : Z;
  outFile : list Z;
  out_tail : list Z;
  out_gap : Z;
  DestinationFName : list ascii;
  NoDestinationFile : bool;
  RAWFName : list ascii;
  tapName : list ascii;
  hexName : list ascii;
  ExportFName : list ascii;
  FP_HEX : option (list (list ascii));
  hexFile : list (list ascii);
  hexBytes : list Z;
  hexAddress : Z;
  ListEmittedBytes : list Z;
  someByteEmitted : bool;
  sldActive : bool;
  sldTrace : list (list ascii);
  PageDiffersWarningShown : bool
}.

(** parser.cpp, sjio.cpp, sjasm.cpp: reading of lines, macros, structures, repeated blocks, listing *)
Record LinState := mk_Lin {
  IsRunning : bool;
  FP_Input : list ascii;
  rlpbuf : list ascii;
  colonSubline : bool;
  blockComment : Z;
  comlin : Z;
  lijst : Z;
  lijstp : list strline;
  listmacro : Z;
  donotlist : bool;
  macronummer : Z;
  macs : gmap string CMacroTableEntry;
  mac_used : list Z;
  mdefs : list CDefineTableEntry;
  mdef_used : list Z;
  strs : gmap Z (list CStructure);
  PreviousIsLabel : option (list ascii);
  LastParsedLabel : option (list ascii);
  LastParsedLabelLine : Z;
  RepeatStack : list SRepeatStack;
  StartAddress : Z;
  maxlin : Z;
  ConvertEncoding : EEncoding;
  fileNameFull : option SInputFile;
  sldSwapSrcPos : Z;
  deviceDirectivesCount : Z;
  globalDeviceSourcePos : TextFilePos;
  sldCommentKeywords : list (list ascii);
  FP_ExportFile : bool;
  exports : list (list ascii * Z);
  syxStack : list SSyntax;
  saved_files : list (list ascii * list Z);
  archivedInputFiles : list (list ascii * (list ascii * EDelimiterType) * SInputFile);
  ListAddress : Z;
  lastListedLine : Z;
  reglenwidth : Z;
  listing : option (list (list ascii));
  nex : SNexFile
}.

(** sjio.cpp, tables.cpp: text files beside the code *)
Record TxtState := mk_Txt {
  IsDefaultListingName : bool;
  ListingFName : list ascii;
  OutputVerbosity : EOutputVerbosity;
  cerr : list (list ascii);
  listingFile : list ascii;
  AddLabelListing : bool;
  SortSymbols : bool;
  SymbolListFName : list ascii;
  IsDefaultSldName : bool;
  SourceLevelDebugFName : list ascii;
  UnrealLabelListFName : list ascii;
  EmitVirtualLabels : bool;
  CSpectMapFName : list ascii;
  CSpectMapPageSize : Z;
  breakpoints : option BreakpointsFile
}.

(** The whole state of the assembler. *)
Record St := mk_St {
  opt : Options;
  err : ErrState;
  src : SrcState;
  par : ParState;
  rel : RelState;
  tab : TabState;
  org : OrgState;
  dev : DevState;
  out : OutState;
  lin : LinState;
  tex : TxtState
}.

(** [gets st] reads the whole state. *)
Definition st : St → St := fun s => s.

(** *** Field updates *)
Definition on_opt (f : Options → Options) (s : St) : St :=
  {| opt := f s.(opt); err := s.(err); src := s.(src); par := s.(par); rel := s.(rel); tab := s.(tab); org := s.(org); dev := s.(dev); out := s.(out); lin := s.(lin); tex := s.(tex) |}.
Definition on_err (f : ErrState → ErrState) (s : St) : St :=
  {| opt := s.(opt); err := f s.(err); src := s.(src); par := s.(par); rel := s.(rel); tab := s.(tab); org := s.(org); dev := s.(dev); out := s.(out); lin := s.(lin); tex := s.(tex) |}.
Definition on_src (f : SrcState → SrcState) (s : St) : St :=
  {| opt := s.(opt); err := s.(err); src := f s.(src); par := s.(par); rel := s.(rel); tab := s.(tab); org := s.(org); dev := s.(dev); out := s.(out); lin := s.(lin); tex := s.(tex) |}.
Definition on_par (f : ParState → ParState) (s : St) : St :=
  {| opt := s.(opt); err := s.(err); src := s.(src); par := f s.(par); rel := s.(rel); tab := s.(tab); org := s.(org); dev := s.(dev); out := s.(out); lin := s.(lin); tex := s.(tex) |}.
Definition on_rel (f : RelState → RelState) (s : St) : St :=
  {| opt := s.(opt); err := s.(err); src := s.(src); par := s.(par); rel := f s.(rel); tab := s.(tab); org := s.(org); dev := s.(dev); out := s.(out); lin := s.(lin); tex := s.(tex) |}.
Definition on_tab (f : TabState → TabState) (s : St) : St :=
  {| opt := s.(opt); err := s.(err); src := s.(src); par := s.(par); rel := s.(rel); tab := f s.(tab); org := s.(org); dev := s.(dev); out := s.(out); lin := s.(lin); tex := s.(tex) |}.
Definition on_org (f : OrgState → OrgState) (s : St) : St :=
  {| opt := s.(opt); err := s.(err); src := s.(src); par := s.(par); rel := s.(rel); tab := s.(tab); org := f s.(org); dev := s.(dev); out := s.(out); lin := s.(lin); tex := s.(tex) |}.
Definition on_dev (f : DevState → DevState) (s : St) : St :=
  {| opt := s.(opt); err := s.(err); src := s.(src); par := s.(par); rel := s.(rel); tab := s.(tab); org := s.(org); dev := f s.(dev); out := s.(out); lin := s.(lin); tex := s.(tex) |}.
Definition on_out (f : OutState → OutState) (s : St) : St :=
  {| opt := s.(opt); err := s.(err); src := s.(src); par := s.(par); rel := s.(rel); tab := s.(tab); org := s.(org); dev := s.(dev); out := f s.(out); lin := s.(lin); tex := s.(tex) |}.
Definition on_lin (f : LinState → LinState) (s : St) : St :=
  {| opt := s.(opt); err := s.(err); src := s.(src); par := s.(par); rel := s.(rel); tab := s.(tab); org := s.(org); dev := s.(dev); out := s.(out); lin := f s.(lin); tex := s.(tex) |}.
Definition on_tex (f : TxtState → TxtState) (s : St) : St :=
  {| opt := s.(opt); err := s.(err); src := s.(src); par := s.(par); rel := s.(rel); tab := s.(tab); org := s.(org); dev := s.(dev); out := s.(out); lin := s.(lin); tex := f s.(tex) |}.
Definition set_ErrorCount (v : Z) : St → St := on_err (fun r =>
  {| ErrorCount := v; WarningCount := r.(WarningCount); IsSkipErrors := r.(IsSkipErrors); PreviousErrorLine := r.(PreviousErrorLine); messages := r.(messages) |}).
Definition set_WarningCount (v : Z) : St → St := on_err (fun r =>
  {| ErrorCount := r.(ErrorCount); WarningCount := v; IsSkipErrors := r.(IsSkipErrors); PreviousErrorLine := r.(PreviousErrorLine); messages := r.(messages) |}).
Definition set_IsSkipErrors (v : bool) : St → St := on_err (fun r =>
  {| ErrorCount := r.(ErrorCount); WarningCount := r.(WarningCount); IsSkipErrors := v; PreviousErrorLine := r.(PreviousErrorLine); messages := r.(messages) |}).
Definition set_PreviousErrorLine (v : Z) : St → St := on_err (fun r =>
  {| ErrorCount := r.(ErrorCount); WarningCount := r.(WarningCount); IsSkipErrors := r.(IsSkipErrors); PreviousErrorLine := v; messages := r.(messages) |}).
Definition set_messages (v : list diag) : St → St := on_err (fun r =>
  {| ErrorCount := r.(ErrorCount); WarningCount := r.(WarningCount); IsSkipErrors := r.(IsSkipErrors); PreviousErrorLine := r.(PreviousErrorLine); messages := v |}).
Definition set_pass (v : Z) : St → St := on_src (fun r =>
  {| pass := v; CompiledCurrentLine := r.(CompiledCurrentLine); IncludeLevel := r.(IncludeLevel); sourceBlockLevel := r.(sourceBlockLevel); sourcePosStack := r.(sourcePosStack); smartSmcLines := r.(smartSmcLines); smartSmcIndex := r.(smartSmcIndex); eolComment := r.(eolComment); PredefinedCounter := r.(PredefinedCounter) |}).
Definition set_CompiledCurrentLine (v : Z) : St → St := on_src (fun r =>
  {| pass := r.(pass); CompiledCurrentLine := v; IncludeLevel := r.(IncludeLevel); sourceBlockLevel := r.(sourceBlockLevel); sourcePosStack := r.(sourcePosStack); smartSmcLines := r.(smartSmcLines); smartSmcIndex := r.(smartSmcIndex); eolComment := r.(eolComment); PredefinedCounter := r.(PredefinedCounter) |}).
Definition set_IncludeLevel (v : Z) : St → St := on_src (fun r =>
  {| pass := r.(pass); CompiledCurrentLine := r.(CompiledCurrentLine); IncludeLevel := v; sourceBlockLevel := r.(sourceBlockLevel); sourcePosStack := r.(sourcePosStack); smartSmcLines := r.(smartSmcLines); smartSmcIndex := r.(smartSmcIndex); eolComment := r.(eolComment); PredefinedCounter := r.(PredefinedCounter) |}).
Definition set_sourceBlockLevel (v : Z) : St → St := on_src (fun r =>
  {| pass := r.(pass); CompiledCurrentLine := r.(CompiledCurrentLine); IncludeLevel := r.(IncludeLevel); sourceBlockLevel := v; sourcePosStack := r.(sourcePosStack); smartSmcLines := r.(smartSmcLines); smartSmcIndex := r.(smartSmcIndex); eolComment := r.(eolComment); PredefinedCounter := r.(PredefinedCounter) |}).
Definition set_sourcePosStack (v : list TextFilePos) : St → St := on_src (fun r =>
  {| pass := r.(pass); CompiledCurrentLine := r.(CompiledCurrentLine); IncludeLevel := r.(IncludeLevel); sourceBlockLevel := r.(sourceBlockLevel); sourcePosStack := v; smartSmcLines := r.(smartSmcLines); smartSmcIndex := r.(smartSmcIndex); eolComment := r.(eolComment); PredefinedCounter := r.(PredefinedCounter) |}).
Definition set_smartSmcLines (v : list TextFilePos) : St → St := on_src (fun r =>
  {| pass := r.(pass); CompiledCurrentLine := r.(CompiledCurrentLine); IncludeLevel := r.(IncludeLevel); sourceBlockLevel := r.(sourceBlockLevel); sourcePosStack := r.(sourcePosStack); smartSmcLines := v; smartSmcIndex := r.(smartSmcIndex); eolComment := r.(eolComment); PredefinedCounter := r.(PredefinedCounter) |}).
Definition set_smartSmcIndex (v : Z) : St → St := on_src (fun r =>
  {| pass := r.(pass); CompiledCurrentLine := r.(CompiledCurrentLine); IncludeLevel := r.(IncludeLevel); sourceBlockLevel := r.(sourceBlockLevel); sourcePosStack := r.(sourcePosStack); smartSmcLines := r.(smartSmcLines); smartSmcIndex := v; eolComment := r.(eolComment); PredefinedCounter := r.(PredefinedCounter) |}).
Definition set_eolComment (v : option (list ascii)) : St → St := on_src (fun r =>
  {| pass := r.(pass); CompiledCurrentLine := r.(CompiledCurrentLine); IncludeLevel := r.(IncludeLevel); sourceBlockLevel := r.(sourceBlockLevel); sourcePosStack := r.(sourcePosStack); smartSmcLines := r.(smartSmcLines); smartSmcIndex := r.(smartSmcIndex); eolComment := v; PredefinedCounter := r.(PredefinedCounter) |}).
Definition set_PredefinedCounter (v : Z) : St → St := on_src (fun r =>
  {| pass := r.(pass); CompiledCurrentLine := r.(CompiledCurrentLine); IncludeLevel := r.(IncludeLevel); sourceBlockLevel := r.(sourceBlockLevel); sourcePosStack := r.(sourcePosStack); smartSmcLines := r.(smartSmcLines); smartSmcIndex := r.(smartSmcIndex); eolComment := r.(eolComment); PredefinedCounter := v |}).
Definition set_lp (v : text) : St → St := on_par (fun r =>
  {| lp := v; bp := r.(bp); line := r.(line); synerr := r.(synerr); expectedAddressClosingBracket := r.(expectedAddressClosingBracket); substitutedLine := r.(substitutedLine); dg_one := r.(dg_one); zeroInDgWarning := r.(zeroInDgWarning); getNumericValueLastErr := r.(getNumericValueLastErr); lastDisplacementParsedP := r.(lastDisplacementParsedP); GetRegister_lastIxyD := r.(GetRegister_lastIxyD); IsLabelNotFound := r.(IsLabelNotFound); IsSubstituting := r.(IsSubstituting); getLabel_invalidName := r.(getLabel_invalidName); nextWasInitialized := r.(nextWasInitialized) |}).
Definition set_bp (v : text) : St → St := on_par (fun r =>
  {| lp := r.(lp); bp := v; line := r.(line); synerr := r.(synerr); expectedAddressClosingBracket := r.(expectedAddressClosingBracket); substitutedLine := r.(substitutedLine); dg_one := r.(dg_one); zeroInDgWarning := r.(zeroInDgWarning); getNumericValueLastErr := r.(getNumericValueLastErr); lastDisplacementParsedP := r.(lastDisplacementParsedP); GetRegister_lastIxyD := r.(GetRegister_lastIxyD); IsLabelNotFound := r.(IsLabelNotFound); IsSubstituting := r.(IsSubstituting); getLabel_invalidName := r.(getLabel_invalidName); nextWasInitialized := r.(nextWasInitialized) |}).
Definition set_line (v : text) : St → St := on_par (fun r =>
  {| lp := r.(lp); bp := r.(bp); line := v; synerr := r.(synerr); expectedAddressClosingBracket := r.(expectedAddressClosingBracket); substitutedLine := r.(substitutedLine); dg_one := r.(dg_one); zeroInDgWarning := r.(zeroInDgWarning); getNumericValueLastErr := r.(getNumericValueLastErr); lastDisplacementParsedP := r.(lastDisplacementParsedP); GetRegister_lastIxyD := r.(GetRegister_lastIxyD); IsLabelNotFound := r.(IsLabelNotFound); IsSubstituting := r.(IsSubstituting); getLabel_invalidName := r.(getLabel_invalidName); nextWasInitialized := r.(nextWasInitialized) |}).
Definition set_synerr (v : bool) : St → St := on_par (fun r =>
  {| lp := r.(lp); bp := r.(bp); line := r.(line); synerr := v; expectedAddressClosingBracket := r.(expectedAddressClosingBracket); substitutedLine := r.(substitutedLine); dg_one := r.(dg_one); zeroInDgWarning := r.(zeroInDgWarning); getNumericValueLastErr := r.(getNumericValueLastErr); lastDisplacementParsedP := r.(lastDisplacementParsedP); GetRegister_lastIxyD := r.(GetRegister_lastIxyD); IsLabelNotFound := r.(IsLabelNotFound); IsSubstituting := r.(IsSubstituting); getLabel_invalidName := r.(getLabel_invalidName); nextWasInitialized := r.(nextWasInitialized) |}).
Definition set_expectedAddressClosingBracket (v : Z) : St → St := on_par (fun r =>
  {| lp := r.(lp); bp := r.(bp); line := r.(line); synerr := r.(synerr); expectedAddressClosingBracket := v; substitutedLine := r.(substitutedLine); dg_one := r.(dg_one); zeroInDgWarning := r.(zeroInDgWarning); getNumericValueLastErr := r.(getNumericValueLastErr); lastDisplacementParsedP := r.(lastDisplacementParsedP); GetRegister_lastIxyD := r.(GetRegister_lastIxyD); IsLabelNotFound := r.(IsLabelNotFound); IsSubstituting := r.(IsSubstituting); getLabel_invalidName := r.(getLabel_invalidName); nextWasInitialized := r.(nextWasInitialized) |}).
Definition set_substitutedLine (v : option (list ascii)) : St → St := on_par (fun r =>
  {| lp := r.(lp); bp := r.(bp); line := r.(line); synerr := r.(synerr); expectedAddressClosingBracket := r.(expectedAddressClosingBracket); substitutedLine := v; dg_one := r.(dg_one); zeroInDgWarning := r.(zeroInDgWarning); getNumericValueLastErr := r.(getNumericValueLastErr); lastDisplacementParsedP := r.(lastDisplacementParsedP); GetRegister_lastIxyD := r.(GetRegister_lastIxyD); IsLabelNotFound := r.(IsLabelNotFound); IsSubstituting := r.(IsSubstituting); getLabel_invalidName := r.(getLabel_invalidName); nextWasInitialized := r.(nextWasInitialized) |}).
Definition set_dg_one (v : Z) : St → St := on_par (fun r =>
  {| lp := r.(lp); bp := r.(bp); line := r.(line); synerr := r.(synerr); expectedAddressClosingBracket := r.(expectedAddressClosingBracket); substitutedLine := r.(substitutedLine); dg_one := v; zeroInDgWarning := r.(zeroInDgWarning); getNumericValueLastErr := r.(getNumericValueLastErr); lastDisplacementParsedP := r.(lastDisplacementParsedP); GetRegister_lastIxyD := r.(GetRegister_lastIxyD); IsLabelNotFound := r.(IsLabelNotFound); IsSubstituting := r.(IsSubstituting); getLabel_invalidName := r.(getLabel_invalidName); nextWasInitialized := r.(nextWasInitialized) |}).
Definition set_zeroInDgWarning (v : bool) : St → St := on_par (fun r =>
  {| lp := r.(lp); bp := r.(bp); line := r.(line); synerr := r.(synerr); expectedAddressClosingBracket := r.(expectedAddressClosingBracket); substitutedLine := r.(substitutedLine); dg_one := r.(dg_one); zeroInDgWarning := v; getNumericValueLastErr := r.(getNumericValueLastErr); lastDisplacementParsedP := r.(lastDisplacementParsedP); GetRegister_lastIxyD := r.(GetRegister_lastIxyD); IsLabelNotFound := r.(IsLabelNotFound); IsSubstituting := r.(IsSubstituting); getLabel_invalidName := r.(getLabel_invalidName); nextWasInitialized := r.(nextWasInitialized) |}).
Definition set_getNumericValueLastErr (v : option numerr) : St → St := on_par (fun r =>
  {| lp := r.(lp); bp := r.(bp); line := r.(line); synerr := r.(synerr); expectedAddressClosingBracket := r.(expectedAddressClosingBracket); substitutedLine := r.(substitutedLine); dg_one := r.(dg_one); zeroInDgWarning := r.(zeroInDgWarning); getNumericValueLastErr := v; lastDisplacementParsedP := r.(lastDisplacementParsedP); GetRegister_lastIxyD := r.(GetRegister_lastIxyD); IsLabelNotFound := r.(IsLabelNotFound); IsSubstituting := r.(IsSubstituting); getLabel_invalidName := r.(getLabel_invalidName); nextWasInitialized := r.(nextWasInitialized) |}).
Definition set_lastDisplacementParsedP (v : option text) : St → St := on_par (fun r =>
  {| lp := r.(lp); bp := r.(bp); line := r.(line); synerr := r.(synerr); expectedAddressClosingBracket := r.(expectedAddressClosingBracket); substitutedLine := r.(substitutedLine); dg_one := r.(dg_one); zeroInDgWarning := r.(zeroInDgWarning); getNumericValueLastErr := r.(getNumericValueLastErr); lastDisplacementParsedP := v; GetRegister_lastIxyD := r.(GetRegister_lastIxyD); IsLabelNotFound := r.(IsLabelNotFound); IsSubstituting := r.(IsSubstituting); getLabel_invalidName := r.(getLabel_invalidName); nextWasInitialized := r.(nextWasInitialized) |}).
Definition set_GetRegister_lastIxyD (v : Z) : St → St := on_par (fun r =>
  {| lp := r.(lp); bp := r.(bp); line := r.(line); synerr := r.(synerr); expectedAddressClosingBracket := r.(expectedAddressClosingBracket); substitutedLine := r.(substitutedLine); dg_one := r.(dg_one); zeroInDgWarning := r.(zeroInDgWarning); getNumericValueLastErr := r.(getNumericValueLastErr); lastDisplacementParsedP := r.(lastDisplacementParsedP); GetRegister_lastIxyD := v; IsLabelNotFound := r.(IsLabelNotFound); IsSubstituting := r.(IsSubstituting); getLabel_invalidName := r.(getLabel_invalidName); nextWasInitialized := r.(nextWasInitialized) |}).
Definition set_IsLabelNotFound (v : bool) : St → St := on_par (fun r =>
  {| lp := r.(lp); bp := r.(bp); line := r.(line); synerr := r.(synerr); expectedAddressClosingBracket := r.(expectedAddressClosingBracket); substitutedLine := r.(substitutedLine); dg_one := r.(dg_one); zeroInDgWarning := r.(zeroInDgWarning); getNumericValueLastErr := r.(getNumericValueLastErr); lastDisplacementParsedP := r.(lastDisplacementParsedP); GetRegister_lastIxyD := r.(GetRegister_lastIxyD); IsLabelNotFound := v; IsSubstituting := r.(IsSubstituting); getLabel_invalidName := r.(getLabel_invalidName); nextWasInitialized := r.(nextWasInitialized) |}).
Definition set_IsSubstituting (v : bool) : St → St := on_par (fun r =>
  {| lp := r.(lp); bp := r.(bp); line := r.(line); synerr := r.(synerr); expectedAddressClosingBracket := r.(expectedAddressClosingBracket); substitutedLine := r.(substitutedLine); dg_one := r.(dg_one); zeroInDgWarning := r.(zeroInDgWarning); getNumericValueLastErr := r.(getNumericValueLastErr); lastDisplacementParsedP := r.(lastDisplacementParsedP); GetRegister_lastIxyD := r.(GetRegister_lastIxyD); IsLabelNotFound := r.(IsLabelNotFound); IsSubstituting := v; getLabel_invalidName := r.(getLabel_invalidName); nextWasInitialized := r.(nextWasInitialized) |}).
Definition set_getLabel_invalidName (v : bool) : St → St := on_par (fun r =>
  {| lp := r.(lp); bp := r.(bp); line := r.(line); synerr := r.(synerr); expectedAddressClosingBracket := r.(expectedAddressClosingBracket); substitutedLine := r.(substitutedLine); dg_one := r.(dg_one); zeroInDgWarning := r.(zeroInDgWarning); getNumericValueLastErr := r.(getNumericValueLastErr); lastDisplacementParsedP := r.(lastDisplacementParsedP); GetRegister_lastIxyD := r.(GetRegister_lastIxyD); IsLabelNotFound := r.(IsLabelNotFound); IsSubstituting := r.(IsSubstituting); getLabel_invalidName := v; nextWasInitialized := r.(nextWasInitialized) |}).
Definition set_nextWasInitialized (v : bool) : St → St := on_par (fun r =>
  {| lp := r.(lp); bp := r.(bp); line := r.(line); synerr := r.(synerr); expectedAddressClosingBracket := r.(expectedAddressClosingBracket); substitutedLine := r.(substitutedLine); dg_one := r.(dg_one); zeroInDgWarning := r.(zeroInDgWarning); getNumericValueLastErr := r.(getNumericValueLastErr); lastDisplacementParsedP := r.(lastDisplacementParsedP); GetRegister_lastIxyD := r.(GetRegister_lastIxyD); IsLabelNotFound := r.(IsLabelNotFound); IsSubstituting := r.(IsSubstituting); getLabel_invalidName := r.(getLabel_invalidName); nextWasInitialized := v |}).
Definition set_rel_type (v : Z) : St → St := on_rel (fun r =>
  {| rel_type := v; alternative_offset := r.(alternative_offset); areLabelsOffset := r.(areLabelsOffset); isResultAffected := r.(isResultAffected); deltaType := r.(deltaType); offsets := r.(offsets); offsetsPrevious := r.(offsetsPrevious); maxTableCount := r.(maxTableCount); warnAboutContentChange := r.(warnAboutContentChange); startPos := r.(startPos) |}).
Definition set_alternative_offset (v : Z) : St → St := on_rel (fun r =>
  {| rel_type := r.(rel_type); alternative_offset := v; areLabelsOffset := r.(areLabelsOffset); isResultAffected := r.(isResultAffected); deltaType := r.(deltaType); offsets := r.(offsets); offsetsPrevious := r.(offsetsPrevious); maxTableCount := r.(maxTableCount); warnAboutContentChange := r.(warnAboutContentChange); startPos := r.(startPos) |}).
Definition set_areLabelsOffset (v : bool) : St → St := on_rel (fun r =>
  {| rel_type := r.(rel_type); alternative_offset := r.(alternative_offset); areLabelsOffset := v; isResultAffected := r.(isResultAffected); deltaType := r.(deltaType); offsets := r.(offsets); offsetsPrevious := r.(offsetsPrevious); maxTableCount := r.(maxTableCount); warnAboutContentChange := r.(warnAboutContentChange); startPos := r.(startPos) |}).
Definition set_isResultAffected (v : bool) : St → St := on_rel (fun r =>
  {| rel_type := r.(rel_type); alternative_offset := r.(alternative_offset); areLabelsOffset := r.(areLabelsOffset); isResultAffected := v; deltaType := r.(deltaType); offsets := r.(offsets); offsetsPrevious := r.(offsetsPrevious); maxTableCount := r.(maxTableCount); warnAboutContentChange := r.(warnAboutContentChange); startPos := r.(startPos) |}).
Definition set_deltaType (v : Z) : St → St := on_rel (fun r =>
  {| rel_type := r.(rel_type); alternative_offset := r.(alternative_offset); areLabelsOffset := r.(areLabelsOffset); isResultAffected := r.(isResultAffected); deltaType := v; offsets := r.(offsets); offsetsPrevious := r.(offsetsPrevious); maxTableCount := r.(maxTableCount); warnAboutContentChange := r.(warnAboutContentChange); startPos := r.(startPos) |}).
Definition set_offsets (v : list Z) : St → St := on_rel (fun r =>
  {| rel_type := r.(rel_type); alternative_offset := r.(alternative_offset); areLabelsOffset := r.(areLabelsOffset); isResultAffected := r.(isResultAffected); deltaType := r.(deltaType); offsets := v; offsetsPrevious := r.(offsetsPrevious); maxTableCount := r.(maxTableCount); warnAboutContentChange := r.(warnAboutContentChange); startPos := r.(startPos) |}).
Definition set_offsetsPrevious (v : list Z) : St → St := on_rel (fun r =>
  {| rel_type := r.(rel_type); alternative_offset := r.(alternative_offset); areLabelsOffset := r.(areLabelsOffset); isResultAffected := r.(isResultAffected); deltaType := r.(deltaType); offsets := r.(offsets); offsetsPrevious := v; maxTableCount := r.(maxTableCount); warnAboutContentChange := r.(warnAboutContentChange); startPos := r.(startPos) |}).
Definition set_maxTableCount (v : Z) : St → St := on_rel (fun r =>
  {| rel_type := r.(rel_type); alternative_offset := r.(alternative_offset); areLabelsOffset := r.(areLabelsOffset); isResultAffected := r.(isResultAffected); deltaType := r.(deltaType); offsets := r.(offsets); offsetsPrevious := r.(offsetsPrevious); maxTableCount := v; warnAboutContentChange := r.(warnAboutContentChange); startPos := r.(startPos) |}).
Definition set_warnAboutContentChange (v : bool) : St → St := on_rel (fun r =>
  {| rel_type := r.(rel_type); alternative_offset := r.(alternative_offset); areLabelsOffset := r.(areLabelsOffset); isResultAffected := r.(isResultAffected); deltaType := r.(deltaType); offsets := r.(offsets); offsetsPrevious := r.(offsetsPrevious); maxTableCount := r.(maxTableCount); warnAboutContentChange := v; startPos := r.(startPos) |}).
Definition set_startPos (v : option TextFilePos) : St → St := on_rel (fun r =>
  {| rel_type := r.(rel_type); alternative_offset := r.(alternative_offset); areLabelsOffset := r.(areLabelsOffset); isResultAffected := r.(isResultAffected); deltaType := r.(deltaType); offsets := r.(offsets); offsetsPrevious := r.(offsetsPrevious); maxTableCount := r.(maxTableCount); warnAboutContentChange := r.(warnAboutContentChange); startPos := v |}).
Definition set_symbols (v : gmap string SLabelTableEntry) : St → St := on_tab (fun r =>
  {| symbols := v; sizeofStack := r.(sizeofStack); labels := r.(labels); nextPassLabels := r.(nextPassLabels); ModuleName := r.(ModuleName); vorlab := r.(vorlab); macrolabp := r.(macrolabp); defs := r.(defs); DefArrayList := r.(DefArrayList) |}).
Definition set_sizeofStack (v : list (string * Z)) : St → St := on_tab (fun r =>
  {| symbols := r.(symbols); sizeofStack := v; labels := r.(labels); nextPassLabels := r.(nextPassLabels); ModuleName := r.(ModuleName); vorlab := r.(vorlab); macrolabp := r.(macrolabp); defs := r.(defs); DefArrayList := r.(DefArrayList) |}).
Definition set_labels (v : list TemporaryLabel) : St → St := on_tab (fun r =>
  {| symbols := r.(symbols); sizeofStack := r.(sizeofStack); labels := v; nextPassLabels := r.(nextPassLabels); ModuleName := r.(ModuleName); vorlab := r.(vorlab); macrolabp := r.(macrolabp); defs := r.(defs); DefArrayList := r.(DefArrayList) |}).
Definition set_nextPassLabels (v : list TemporaryLabel) : St → St := on_tab (fun r =>
  {| symbols := r.(symbols); sizeofStack := r.(sizeofStack); labels := r.(labels); nextPassLabels := v; ModuleName := r.(ModuleName); vorlab := r.(vorlab); macrolabp := r.(macrolabp); defs := r.(defs); DefArrayList := r.(DefArrayList) |}).
Definition set_ModuleName (v : list ascii) : St → St := on_tab (fun r =>
  {| symbols := r.(symbols); sizeofStack := r.(sizeofStack); labels := r.(labels); nextPassLabels := r.(nextPassLabels); ModuleName := v; vorlab := r.(vorlab); macrolabp := r.(macrolabp); defs := r.(defs); DefArrayList := r.(DefArrayList) |}).
Definition set_vorlab (v : list ascii) : St → St := on_tab (fun r =>
  {| symbols := r.(symbols); sizeofStack := r.(sizeofStack); labels := r.(labels); nextPassLabels := r.(nextPassLabels); ModuleName := r.(ModuleName); vorlab := v; macrolabp := r.(macrolabp); defs := r.(defs); DefArrayList := r.(DefArrayList) |}).
Definition set_macrolabp (v : option (list ascii)) : St → St := on_tab (fun r =>
  {| symbols := r.(symbols); sizeofStack := r.(sizeofStack); labels := r.(labels); nextPassLabels := r.(nextPassLabels); ModuleName := r.(ModuleName); vorlab := r.(vorlab); macrolabp := v; defs := r.(defs); DefArrayList := r.(DefArrayList) |}).
Definition set_defs (v : gmap Z (list CDefineTableEntry)) : St → St := on_tab (fun r =>
  {| symbols := r.(symbols); sizeofStack := r.(sizeofStack); labels := r.(labels); nextPassLabels := r.(nextPassLabels); ModuleName := r.(ModuleName); vorlab := r.(vorlab); macrolabp := r.(macrolabp); defs := v; DefArrayList := r.(DefArrayList) |}).
Definition set_DefArrayList (v : list (list ascii)) : St → St := on_tab (fun r =>
  {| symbols := r.(symbols); sizeofStack := r.(sizeofStack); labels := r.(labels); nextPassLabels := r.(nextPassLabels); ModuleName := r.(ModuleName); vorlab := r.(vorlab); macrolabp := r.(macrolabp); defs := r.(defs); DefArrayList := v |}).
Definition set_CurAddress (v : Z) : St → St := on_org (fun r =>
  {| CurAddress := v; PseudoORG := r.(PseudoORG); adrdisp := r.(adrdisp); dispPageNum := r.(dispPageNum); notWarnedCurAdr := r.(notWarnedCurAdr); notWarnedDisp := r.(notWarnedDisp) |}).
Definition set_PseudoORG (v : Z) : St → St := on_org (fun r =>
  {| CurAddress := r.(CurAddress); PseudoORG := v; adrdisp := r.(adrdisp); dispPageNum := r.(dispPageNum); notWarnedCurAdr := r.(notWarnedCurAdr); notWarnedDisp := r.(notWarnedDisp) |}).
Definition set_adrdisp (v : Z) : St → St := on_org (fun r =>
  {| CurAddress := r.(CurAddress); PseudoORG := r.(PseudoORG); adrdisp := v; dispPageNum := r.(dispPageNum); notWarnedCurAdr := r.(notWarnedCurAdr); notWarnedDisp := r.(notWarnedDisp) |}).
Definition set_dispPageNum (v : Z) : St → St := on_org (fun r =>
  {| CurAddress := r.(CurAddress); PseudoORG := r.(PseudoORG); adrdisp := r.(adrdisp); dispPageNum := v; notWarnedCurAdr := r.(notWarnedCurAdr); notWarnedDisp := r.(notWarnedDisp) |}).
Definition set_notWarnedCurAdr (v : bool) : St → St := on_org (fun r =>
  {| CurAddress := r.(CurAddress); PseudoORG := r.(PseudoORG); adrdisp := r.(adrdisp); dispPageNum := r.(dispPageNum); notWarnedCurAdr := v; notWarnedDisp := r.(notWarnedDisp) |}).
Definition set_notWarnedDisp (v : bool) : St → St := on_org (fun r =>
  {| CurAddress := r.(CurAddress); PseudoORG := r.(PseudoORG); adrdisp := r.(adrdisp); dispPageNum := r.(dispPageNum); notWarnedCurAdr := r.(notWarnedCurAdr); notWarnedDisp := v |}).
Definition set_Devices (v : list CDevice) : St → St := on_dev (fun r =>
  {| Devices := v; Device := r.(Device); Page := r.(Page); MemoryPointer := r.(MemoryPointer); DefDevices := r.(DefDevices) |}).
Definition set_Device (v : option nat) : St → St := on_dev (fun r =>
  {| Devices := r.(Devices); Device := v; Page := r.(Page); MemoryPointer := r.(MemoryPointer); DefDevices := r.(DefDevices) |}).
Definition set_Page (v : CDevicePage) : St → St := on_dev (fun r =>
  {| Devices := r.(Devices); Device := r.(Device); Page := v; MemoryPointer := r.(MemoryPointer); DefDevices := r.(DefDevices) |}).
Definition set_MemoryPointer (v : option Z) : St → St := on_dev (fun r =>
  {| Devices := r.(Devices); Device := r.(Device); Page := r.(Page); MemoryPointer := v; DefDevices := r.(DefDevices) |}).
Definition set_DefDevices (v : list CDeviceDef) : St → St := on_dev (fun r =>
  {| Devices := r.(Devices); Device := r.(Device); Page := r.(Page); MemoryPointer := r.(MemoryPointer); DefDevices := v |}).
Definition set_WriteBuffer (v : list Z) : St → St := on_out (fun r =>
  {| WriteBuffer := v; destlen := r.(destlen); FP_Output := r.(FP_Output); FP_RAW := r.(FP_RAW); FP_tapout := r.(FP_tapout); tap_file := r.(tap_file); tape_seek := r.(tape_seek); tape_length := r.(tape_length); tape_parity := r.(tape_parity); out_size := r.(out_size); outFile := r.(outFile); out_tail := r.(out_tail); out_gap := r.(out_gap); DestinationFName := r.(DestinationFName); NoDestinationFile := r.(NoDestinationFile); RAWFName := r.(RAWFName); tapName := r.(tapName); hexName := r.(hexName); ExportFName := r.(ExportFName); FP_HEX := r.(FP_HEX); hexFile := r.(hexFile); hexBytes := r.(hexBytes); hexAddress := r.(hexAddress); ListEmittedBytes := r.(ListEmittedBytes); someByteEmitted := r.(someByteEmitted); sldActive := r.(sldActive); sldTrace := r.(sldTrace); PageDiffersWarningShown := r.(PageDiffersWarningShown) |}).
Definition set_destlen (v : Z) : St → St := on_out (fun r =>
  {| WriteBuffer := r.(WriteBuffer); destlen := v; FP_Output := r.(FP_Output); FP_RAW := r.(FP_RAW); FP_tapout := r.(FP_tapout); tap_file := r.(tap_file); tape_seek := r.(tape_seek); tape_length := r.(tape_length); tape_parity := r.(tape_parity); out_size := r.(out_size); outFile := r.(outFile); out_tail := r.(out_tail); out_gap := r.(out_gap); DestinationFName := r.(DestinationFName); NoDestinationFile := r.(NoDestinationFile); RAWFName := r.(RAWFName); tapName := r.(tapName); hexName := r.(hexName); ExportFName := r.(ExportFName); FP_HEX := r.(FP_HEX); hexFile := r.(hexFile); hexBytes := r.(hexBytes); hexAddress := r.(hexAddress); ListEmittedBytes := r.(ListEmittedBytes); someByteEmitted := r.(someByteEmitted); sldActive := r.(sldActive); sldTrace := r.(sldTrace); PageDiffersWarningShown := r.(PageDiffersWarningShown) |}).
Definition set_FP_Output (v : option (list Z)) : St → St := on_out (fun r =>
  {| WriteBuffer := r.(WriteBuffer); destlen := r.(destlen); FP_Output := v; FP_RAW := r.(FP_RAW); FP_tapout := r.(FP_tapout); tap_file := r.(tap_file); tape_seek := r.(tape_seek); tape_length := r.(tape_length); tape_parity := r.(tape_parity); out_size := r.(out_size); outFile := r.(outFile); out_tail := r.(out_tail); out_gap := r.(out_gap); DestinationFName := r.(DestinationFName); NoDestinationFile := r.(NoDestinationFile); RAWFName := r.(RAWFName); tapName := r.(tapName); hexName := r.(hexName); ExportFName := r.(ExportFName); FP_HEX := r.(FP_HEX); hexFile := r.(hexFile); hexBytes := r.(hexBytes); hexAddress := r.(hexAddress); ListEmittedBytes := r.(ListEmittedBytes); someByteEmitted := r.(someByteEmitted); sldActive := r.(sldActive); sldTrace := r.(sldTrace); PageDiffersWarningShown := r.(PageDiffersWarningShown) |}).
Definition set_FP_RAW (v : option (list Z)) : St → St := on_out (fun r =>
  {| WriteBuffer := r.(WriteBuffer); destlen := r.(destlen); FP_Output := r.(FP_Output); FP_RAW := v; FP_tapout := r.(FP_tapout); tap_file := r.(tap_file); tape_seek := r.(tape_seek); tape_length := r.(tape_length); tape_parity := r.(tape_parity); out_size := r.(out_size); outFile := r.(outFile); out_tail := r.(out_tail); out_gap := r.(out_gap); DestinationFName := r.(DestinationFName); NoDestinationFile := r.(NoDestinationFile); RAWFName := r.(RAWFName); tapName := r.(tapName); hexName := r.(hexName); ExportFName := r.(ExportFName); FP_HEX := r.(FP_HEX); hexFile := r.(hexFile); hexBytes := r.(hexBytes); hexAddress := r.(hexAddress); ListEmittedBytes := r.(ListEmittedBytes); someByteEmitted := r.(someByteEmitted); sldActive := r.(sldActive); sldTrace := r.(sldTrace); PageDiffersWarningShown := r.(PageDiffersWarningShown) |}).
Definition set_FP_tapout (v : bool) : St → St := on_out (fun r =>
  {| WriteBuffer := r.(WriteBuffer); destlen := r.(destlen); FP_Output := r.(FP_Output); FP_RAW := r.(FP_RAW); FP_tapout := v; tap_file := r.(tap_file); tape_seek := r.(tape_seek); tape_length := r.(tape_length); tape_parity := r.(tape_parity); out_size := r.(out_size); outFile := r.(outFile); out_tail := r.(out_tail); out_gap := r.(out_gap); DestinationFName := r.(DestinationFName); NoDestinationFile := r.(NoDestinationFile); RAWFName := r.(RAWFName); tapName := r.(tapName); hexName := r.(hexName); ExportFName := r.(ExportFName); FP_HEX := r.(FP_HEX); hexFile := r.(hexFile); hexBytes := r.(hexBytes); hexAddress := r.(hexAddress); ListEmittedBytes := r.(ListEmittedBytes); someByteEmitted := r.(someByteEmitted); sldActive := r.(sldActive); sldTrace := r.(sldTrace); PageDiffersWarningShown := r.(PageDiffersWarningShown) |}).
Definition set_tap_file (v : list Z) : St → St := on_out (fun r =>
  {| WriteBuffer := r.(WriteBuffer); destlen := r.(destlen); FP_Output := r.(FP_Output); FP_RAW := r.(FP_RAW); FP_tapout := r.(FP_tapout); tap_file := v; tape_seek := r.(tape_seek); tape_length := r.(tape_length); tape_parity := r.(tape_parity); out_size := r.(out_size); outFile := r.(outFile); out_tail := r.(out_tail); out_gap := r.(out_gap); DestinationFName := r.(DestinationFName); NoDestinationFile := r.(NoDestinationFile); RAWFName := r.(RAWFName); tapName := r.(tapName); hexName := r.(hexName); ExportFName := r.(ExportFName); FP_HEX := r.(FP_HEX); hexFile := r.(hexFile); hexBytes := r.(hexBytes); hexAddress := r.(hexAddress); ListEmittedBytes := r.(ListEmittedBytes); someByteEmitted := r.(someByteEmitted); sldActive := r.(sldActive); sldTrace := r.(sldTrace); PageDiffersWarningShown := r.(PageDiffersWarningShown) |}).
Definition set_tape_seek (v : Z) : St → St := on_out (fun r =>
  {| WriteBuffer := r.(WriteBuffer); destlen := r.(destlen); FP_Output := r.(FP_Output); FP_RAW := r.(FP_RAW); FP_tapout := r.(FP_tapout); tap_file := r.(tap_file); tape_seek := v; tape_length := r.(tape_length); tape_parity := r.(tape_parity); out_size := r.(out_size); outFile := r.(outFile); out_tail := r.(out_tail); out_gap := r.(out_gap); DestinationFName := r.(DestinationFName); NoDestinationFile := r.(NoDestinationFile); RAWFName := r.(RAWFName); tapName := r.(tapName); hexName := r.(hexName); ExportFName := r.(ExportFName); FP_HEX := r.(FP_HEX); hexFile := r.(hexFile); hexBytes := r.(hexBytes); hexAddress := r.(hexAddress); ListEmittedBytes := r.(ListEmittedBytes); someByteEmitted := r.(someByteEmitted); sldActive := r.(sldActive); sldTrace := r.(sldTrace); PageDiffersWarningShown := r.(PageDiffersWarningShown) |}).
Definition set_tape_length (v : Z) : St → St := on_out (fun r =>
  {| WriteBuffer := r.(WriteBuffer); destlen := r.(destlen); FP_Output := r.(FP_Output); FP_RAW := r.(FP_RAW); FP_tapout := r.(FP_tapout); tap_file := r.(tap_file); tape_seek := r.(tape_seek); tape_length := v; tape_parity := r.(tape_parity); out_size := r.(out_size); outFile := r.(outFile); out_tail := r.(out_tail); out_gap := r.(out_gap); DestinationFName := r.(DestinationFName); NoDestinationFile := r.(NoDestinationFile); RAWFName := r.(RAWFName); tapName := r.(tapName); hexName := r.(hexName); ExportFName := r.(ExportFName); FP_HEX := r.(FP_HEX); hexFile := r.(hexFile); hexBytes := r.(hexBytes); hexAddress := r.(hexAddress); ListEmittedBytes := r.(ListEmittedBytes); someByteEmitted := r.(someByteEmitted); sldActive := r.(sldActive); sldTrace := r.(sldTrace); PageDiffersWarningShown := r.(PageDiffersWarningShown) |}).
Definition set_tape_parity (v : Z) : St → St := on_out (fun r =>
  {| WriteBuffer := r.(WriteBuffer); destlen := r.(destlen); FP_Output := r.(FP_Output); FP_RAW := r.(FP_RAW); FP_tapout := r.(FP_tapout); tap_file := r.(tap_file); tape_seek := r.(tape_seek); tape_length := r.(tape_length); tape_parity := v; out_size := r.(out_size); outFile := r.(outFile); out_tail := r.(out_tail); out_gap := r.(out_gap); DestinationFName := r.(DestinationFName); NoDestinationFile := r.(NoDestinationFile); RAWFName := r.(RAWFName); tapName := r.(tapName); hexName := r.(hexName); ExportFName := r.(ExportFName); FP_HEX := r.(FP_HEX); hexFile := r.(hexFile); hexBytes := r.(hexBytes); hexAddress := r.(hexAddress); ListEmittedBytes := r.(ListEmittedBytes); someByteEmitted := r.(someByteEmitted); sldActive := r.(sldActive); sldTrace := r.(sldTrace); PageDiffersWarningShown := r.(PageDiffersWarningShown) |}).
Definition set_out_size (v : Z) : St → St := on_out (fun r =>
  {| WriteBuffer := r.(WriteBuffer); destlen := r.(destlen); FP_Output := r.(FP_Output); FP_RAW := r.(FP_RAW); FP_tapout := r.(FP_tapout); tap_file := r.(tap_file); tape_seek := r.(tape_seek); tape_length := r.(tape_length); tape_parity := r.(tape_parity); out_size := v; outFile := r.(outFile); out_tail := r.(out_tail); out_gap := r.(out_gap); DestinationFName := r.(DestinationFName); NoDestinationFile := r.(NoDestinationFile); RAWFName := r.(RAWFName); tapName := r.(tapName); hexName := r.(hexName); ExportFName := r.(ExportFName); FP_HEX := r.(FP_HEX); hexFile := r.(hexFile); hexBytes := r.(hexBytes); hexAddress := r.(hexAddress); ListEmittedBytes := r.(ListEmittedBytes); someByteEmitted := r.(someByteEmitted); sldActive := r.(sldActive); sldTrace := r.(sldTrace); PageDiffersWarningShown := r.(PageDiffersWarningShown) |}).
Definition set_outFile (v : list Z) : St → St := on_out (fun r =>
  {| WriteBuffer := r.(WriteBuffer); destlen := r.(destlen); FP_Output := r.(FP_Output); FP_RAW := r.(FP_RAW); FP_tapout := r.(FP_tapout); tap_file := r.(tap_file); tape_seek := r.(tape_seek); tape_length := r.(tape_length); tape_parity := r.(tape_parity); out_size := r.(out_size); outFile := v; out_tail := r.(out_tail); out_gap := r.(out_gap); DestinationFName := r.(DestinationFName); NoDestinationFile := r.(NoDestinationFile); RAWFName := r.(RAWFName); tapName := r.(tapName); hexName := r.(hexName); ExportFName := r.(ExportFName); FP_HEX := r.(FP_HEX); hexFile := r.(hexFile); hexBytes := r.(hexBytes); hexAddress := r.(hexAddress); ListEmittedBytes := r.(ListEmittedBytes); someByteEmitted := r.(someByteEmitted); sldActive := r.(sldActive); sldTrace := r.(sldTrace); PageDiffersWarningShown := r.(PageDiffersWarningShown) |}).
Definition set_out_tail (v : list Z) : St → St := on_out (fun r =>
  {| WriteBuffer := r.(WriteBuffer); destlen := r.(destlen); FP_Output := r.(FP_Output); FP_RAW := r.(FP_RAW); FP_tapout := r.(FP_tapout); tap_file := r.(tap_file); tape_seek := r.(tape_seek); tape_length := r.(tape_length); tape_parity := r.(tape_parity); out_size := r.(out_size); outFile := r.(outFile); out_tail := v; out_gap := r.(out_gap); DestinationFName := r.(DestinationFName); NoDestinationFile := r.(NoDestinationFile); RAWFName := r.(RAWFName); tapName := r.(tapName); hexName := r.(hexName); ExportFName := r.(ExportFName); FP_HEX := r.(FP_HEX); hexFile := r.(hexFile); hexBytes := r.(hexBytes); hexAddress := r.(hexAddress); ListEmittedBytes := r.(ListEmittedBytes); someByteEmitted := r.(someByteEmitted); sldActive := r.(sldActive); sldTrace := r.(sldTrace); PageDiffersWarningShown := r.(PageDiffersWarningShown) |}).
Definition set_out_gap (v : Z) : St → St := on_out (fun r =>
  {| WriteBuffer := r.(WriteBuffer); destlen := r.(destlen); FP_Output := r.(FP_Output); FP_RAW := r.(FP_RAW); FP_tapout := r.(FP_tapout); tap_file := r.(tap_file); tape_seek := r.(tape_seek); tape_length := r.(tape_length); tape_parity := r.(tape_parity); out_size := r.(out_size); outFile := r.(outFile); out_tail := r.(out_tail); out_gap := v; DestinationFName := r.(DestinationFName); NoDestinationFile := r.(NoDestinationFile); RAWFName := r.(RAWFName); tapName := r.(tapName); hexName := r.(hexName); ExportFName := r.(ExportFName); FP_HEX := r.(FP_HEX); hexFile := r.(hexFile); hexBytes := r.(hexBytes); hexAddress := r.(hexAddress); ListEmittedBytes := r.(ListEmittedBytes); someByteEmitted := r.(someByteEmitted); sldActive := r.(sldActive); sldTrace := r.(sldTrace); PageDiffersWarningShown := r.(PageDiffersWarningShown) |}).
Definition set_DestinationFName (v : list ascii) : St → St := on_out (fun r =>
  {| WriteBuffer := r.(WriteBuffer); destlen := r.(destlen); FP_Output := r.(FP_Output); FP_RAW := r.(FP_RAW); FP_tapout := r.(FP_tapout); tap_file := r.(tap_file); tape_seek := r.(tape_seek); tape_length := r.(tape_length); tape_parity := r.(tape_parity); out_size := r.(out_size); outFile := r.(outFile); out_tail := r.(out_tail); out_gap := r.(out_gap); DestinationFName := v; NoDestinationFile := r.(NoDestinationFile); RAWFName := r.(RAWFName); tapName := r.(tapName); hexName := r.(hexName); ExportFName := r.(ExportFName); FP_HEX := r.(FP_HEX); hexFile := r.(hexFile); hexBytes := r.(hexBytes); hexAddress := r.(hexAddress); ListEmittedBytes := r.(ListEmittedBytes); someByteEmitted := r.(someByteEmitted); sldActive := r.(sldActive); sldTrace := r.(sldTrace); PageDiffersWarningShown := r.(PageDiffersWarningShown) |}).
Definition set_NoDestinationFile (v : bool) : St → St := on_out (fun r =>
  {| WriteBuffer := r.(WriteBuffer); destlen := r.(destlen); FP_Output := r.(FP_Output); FP_RAW := r.(FP_RAW); FP_tapout := r.(FP_tapout); tap_file := r.(tap_file); tape_seek := r.(tape_seek); tape_length := r.(tape_length); tape_parity := r.(tape_parity); out_size := r.(out_size); outFile := r.(outFile); out_tail := r.(out_tail); out_gap := r.(out_gap); DestinationFName := r.(DestinationFName); NoDestinationFile := v; RAWFName := r.(RAWFName); tapName := r.(tapName); hexName := r.(hexName); ExportFName := r.(ExportFName); FP_HEX := r.(FP_HEX); hexFile := r.(hexFile); hexBytes := r.(hexBytes); hexAddress := r.(hexAddress); ListEmittedBytes := r.(ListEmittedBytes); someByteEmitted := r.(someByteEmitted); sldActive := r.(sldActive); sldTrace := r.(sldTrace); PageDiffersWarningShown := r.(PageDiffersWarningShown) |}).
Definition set_RAWFName (v : list ascii) : St → St := on_out (fun r =>
  {| WriteBuffer := r.(WriteBuffer); destlen := r.(destlen); FP_Output := r.(FP_Output); FP_RAW := r.(FP_RAW); FP_tapout := r.(FP_tapout); tap_file := r.(tap_file); tape_seek := r.(tape_seek); tape_length := r.(tape_length); tape_parity := r.(tape_parity); out_size := r.(out_size); outFile := r.(outFile); out_tail := r.(out_tail); out_gap := r.(out_gap); DestinationFName := r.(DestinationFName); NoDestinationFile := r.(NoDestinationFile); RAWFName := v; tapName := r.(tapName); hexName := r.(hexName); ExportFName := r.(ExportFName); FP_HEX := r.(FP_HEX); hexFile := r.(hexFile); hexBytes := r.(hexBytes); hexAddress := r.(hexAddress); ListEmittedBytes := r.(ListEmittedBytes); someByteEmitted := r.(someByteEmitted); sldActive := r.(sldActive); sldTrace := r.(sldTrace); PageDiffersWarningShown := r.(PageDiffersWarningShown) |}).
Definition set_tapName (v : list ascii) : St → St := on_out (fun r =>
  {| WriteBuffer := r.(WriteBuffer); destlen := r.(destlen); FP_Output := r.(FP_Output); FP_RAW := r.(FP_RAW); FP_tapout := r.(FP_tapout); tap_file := r.(tap_file); tape_seek := r.(tape_seek); tape_length := r.(tape_length); tape_parity := r.(tape_parity); out_size := r.(out_size); outFile := r.(outFile); out_tail := r.(out_tail); out_gap := r.(out_gap); DestinationFName := r.(DestinationFName); NoDestinationFile := r.(NoDestinationFile); RAWFName := r.(RAWFName); tapName := v; hexName := r.(hexName); ExportFName := r.(ExportFName); FP_HEX := r.(FP_HEX); hexFile := r.(hexFile); hexBytes := r.(hexBytes); hexAddress := r.(hexAddress); ListEmittedBytes := r.(ListEmittedBytes); someByteEmitted := r.(someByteEmitted); sldActive := r.(sldActive); sldTrace := r.(sldTrace); PageDiffersWarningShown := r.(PageDiffersWarningShown) |}).
Definition set_hexName (v : list ascii) : St → St := on_out (fun r =>
  {| WriteBuffer := r.(WriteBuffer); destlen := r.(destlen); FP_Output := r.(FP_Output); FP_RAW := r.(FP_RAW); FP_tapout := r.(FP_tapout); tap_file := r.(tap_file); tape_seek := r.(tape_seek); tape_length := r.(tape_length); tape_parity := r.(tape_parity); out_size := r.(out_size); outFile := r.(outFile); out_tail := r.(out_tail); out_gap := r.(out_gap); DestinationFName := r.(DestinationFName); NoDestinationFile := r.(NoDestinationFile); RAWFName := r.(RAWFName); tapName := r.(tapName); hexName := v; ExportFName := r.(ExportFName); FP_HEX := r.(FP_HEX); hexFile := r.(hexFile); hexBytes := r.(hexBytes); hexAddress := r.(hexAddress); ListEmittedBytes := r.(ListEmittedBytes); someByteEmitted := r.(someByteEmitted); sldActive := r.(sldActive); sldTrace := r.(sldTrace); PageDiffersWarningShown := r.(PageDiffersWarningShown) |}).
Definition set_ExportFName (v : list ascii) : St → St := on_out (fun r =>
  {| WriteBuffer := r.(WriteBuffer); destlen := r.(destlen); FP_Output := r.(FP_Output); FP_RAW := r.(FP_RAW); FP_tapout := r.(FP_tapout); tap_file := r.(tap_file); tape_seek := r.(tape_seek); tape_length := r.(tape_length); tape_parity := r.(tape_parity); out_size := r.(out_size); outFile := r.(outFile); out_tail := r.(out_tail); out_gap := r.(out_gap); DestinationFName := r.(DestinationFName); NoDestinationFile := r.(NoDestinationFile); RAWFName := r.(RAWFName); tapName := r.(tapName); hexName := r.(hexName); ExportFName := v; FP_HEX := r.(FP_HEX); hexFile := r.(hexFile); hexBytes := r.(hexBytes); hexAddress := r.(hexAddress); ListEmittedBytes := r.(ListEmittedBytes); someByteEmitted := r.(someByteEmitted); sldActive := r.(sldActive); sldTrace := r.(sldTrace); PageDiffersWarningShown := r.(PageDiffersWarningShown) |}).
Definition set_FP_HEX (v : option (list (list ascii))) : St → St := on_out (fun r =>
  {| WriteBuffer := r.(WriteBuffer); destlen := r.(destlen); FP_Output := r.(FP_Output); FP_RAW := r.(FP_RAW); FP_tapout := r.(FP_tapout); tap_file := r.(tap_file); tape_seek := r.(tape_seek); tape_length := r.(tape_length); tape_parity := r.(tape_parity); out_size := r.(out_size); outFile := r.(outFile); out_tail := r.(out_tail); out_gap := r.(out_gap); DestinationFName := r.(DestinationFName); NoDestinationFile := r.(NoDestinationFile); RAWFName := r.(RAWFName); tapName := r.(tapName); hexName := r.(hexName); ExportFName := r.(ExportFName); FP_HEX := v; hexFile := r.(hexFile); hexBytes := r.(hexBytes); hexAddress := r.(hexAddress); ListEmittedBytes := r.(ListEmittedBytes); someByteEmitted := r.(someByteEmitted); sldActive := r.(sldActive); sldTrace := r.(sldTrace); PageDiffersWarningShown := r.(PageDiffersWarningShown) |}).
Definition set_hexFile (v : list (list ascii)) : St → St := on_out (fun r =>
  {| WriteBuffer := r.(WriteBuffer); destlen := r.(destlen); FP_Output := r.(FP_Output); FP_RAW := r.(FP_RAW); FP_tapout := r.(FP_tapout); tap_file := r.(tap_file); tape_seek := r.(tape_seek); tape_length := r.(tape_length); tape_parity := r.(tape_parity); out_size := r.(out_size); outFile := r.(outFile); out_tail := r.(out_tail); out_gap := r.(out_gap); DestinationFName := r.(DestinationFName); NoDestinationFile := r.(NoDestinationFile); RAWFName := r.(RAWFName); tapName := r.(tapName); hexName := r.(hexName); ExportFName := r.(ExportFName); FP_HEX := r.(FP_HEX); hexFile := v; hexBytes := r.(hexBytes); hexAddress := r.(hexAddress); ListEmittedBytes := r.(ListEmittedBytes); someByteEmitted := r.(someByteEmitted); sldActive := r.(sldActive); sldTrace := r.(sldTrace); PageDiffersWarningShown := r.(PageDiffersWarningShown) |}).
Definition set_hexBytes (v : list Z) : St → St := on_out (fun r =>
  {| WriteBuffer := r.(WriteBuffer); destlen := r.(destlen); FP_Output := r.(FP_Output); FP_RAW := r.(FP_RAW); FP_tapout := r.(FP_tapout); tap_file := r.(tap_file); tape_seek := r.(tape_seek); tape_length := r.(tape_length); tape_parity := r.(tape_parity); out_size := r.(out_size); outFile := r.(outFile); out_tail := r.(out_tail); out_gap := r.(out_gap); DestinationFName := r.(DestinationFName); NoDestinationFile := r.(NoDestinationFile); RAWFName := r.(RAWFName); tapName := r.(tapName); hexName := r.(hexName); ExportFName := r.(ExportFName); FP_HEX := r.(FP_HEX); hexFile := r.(hexFile); hexBytes := v; hexAddress := r.(hexAddress); ListEmittedBytes := r.(ListEmittedBytes); someByteEmitted := r.(someByteEmitted); sldActive := r.(sldActive); sldTrace := r.(sldTrace); PageDiffersWarningShown := r.(PageDiffersWarningShown) |}).
Definition set_hexAddress (v : Z) : St → St := on_out (fun r =>
  {| WriteBuffer := r.(WriteBuffer); destlen := r.(destlen); FP_Output := r.(FP_Output); FP_RAW := r.(FP_RAW); FP_tapout := r.(FP_tapout); tap_file := r.(tap_file); tape_seek := r.(tape_seek); tape_length := r.(tape_length); tape_parity := r.(tape_parity); out_size := r.(out_size); outFile := r.(outFile); out_tail := r.(out_tail); out_gap := r.(out_gap); DestinationFName := r.(DestinationFName); NoDestinationFile := r.(NoDestinationFile); RAWFName := r.(RAWFName); tapName := r.(tapName); hexName := r.(hexName); ExportFName := r.(ExportFName); FP_HEX := r.(FP_HEX); hexFile := r.(hexFile); hexBytes := r.(hexBytes); hexAddress := v; ListEmittedBytes := r.(ListEmittedBytes); someByteEmitted := r.(someByteEmitted); sldActive := r.(sldActive); sldTrace := r.(sldTrace); PageDiffersWarningShown := r.(PageDiffersWarningShown) |}).
Definition set_ListEmittedBytes (v : list Z) : St → St := on_out (fun r =>
  {| WriteBuffer := r.(WriteBuffer); destlen := r.(destlen); FP_Output := r.(FP_Output); FP_RAW := r.(FP_RAW); FP_tapout := r.(FP_tapout); tap_file := r.(tap_file); tape_seek := r.(tape_seek); tape_length := r.(tape_length); tape_parity := r.(tape_parity); out_size := r.(out_size); outFile := r.(outFile); out_tail := r.(out_tail); out_gap := r.(out_gap); DestinationFName := r.(DestinationFName); NoDestinationFile := r.(NoDestinationFile); RAWFName := r.(RAWFName); tapName := r.(tapName); hexName := r.(hexName); ExportFName := r.(ExportFName); FP_HEX := r.(FP_HEX); hexFile := r.(hexFile); hexBytes := r.(hexBytes); hexAddress := r.(hexAddress); ListEmittedBytes := v; someByteEmitted := r.(someByteEmitted); sldActive := r.(sldActive); sldTrace := r.(sldTrace); PageDiffersWarningShown := r.(PageDiffersWarningShown) |}).
Definition set_someByteEmitted (v : bool) : St → St := on_out (fun r =>
  {| WriteBuffer := r.(WriteBuffer); destlen := r.(destlen); FP_Output := r.(FP_Output); FP_RAW := r.(FP_RAW); FP_tapout := r.(FP_tapout); tap_file := r.(tap_file); tape_seek := r.(tape_seek); tape_length := r.(tape_length); tape_parity := r.(tape_parity); out_size := r.(out_size); outFile := r.(outFile); out_tail := r.(out_tail); out_gap := r.(out_gap); DestinationFName := r.(DestinationFName); NoDestinationFile := r.(NoDestinationFile); RAWFName := r.(RAWFName); tapName := r.(tapName); hexName := r.(hexName); ExportFName := r.(ExportFName); FP_HEX := r.(FP_HEX); hexFile := r.(hexFile); hexBytes := r.(hexBytes); hexAddress := r.(hexAddress); ListEmittedBytes := r.(ListEmittedBytes); someByteEmitted := v; sldActive := r.(sldActive); sldTrace := r.(sldTrace); PageDiffersWarningShown := r.(PageDiffersWarningShown) |}).
Definition set_sldActive (v : bool) : St → St := on_out (fun r =>
  {| WriteBuffer := r.(WriteBuffer); destlen := r.(destlen); FP_Output := r.(FP_Output); FP_RAW := r.(FP_RAW); FP_tapout := r.(FP_tapout); tap_file := r.(tap_file); tape_seek := r.(tape_seek); tape_length := r.(tape_length); tape_parity := r.(tape_parity); out_size := r.(out_size); outFile := r.(outFile); out_tail := r.(out_tail); out_gap := r.(out_gap); DestinationFName := r.(DestinationFName); NoDestinationFile := r.(NoDestinationFile); RAWFName := r.(RAWFName); tapName := r.(tapName); hexName := r.(hexName); ExportFName := r.(ExportFName); FP_HEX := r.(FP_HEX); hexFile := r.(hexFile); hexBytes := r.(hexBytes); hexAddress := r.(hexAddress); ListEmittedBytes := r.(ListEmittedBytes); someByteEmitted := r.(someByteEmitted); sldActive := v; sldTrace := r.(sldTrace); PageDiffersWarningShown := r.(PageDiffersWarningShown) |}).
Definition set_sldTrace (v : list (list ascii)) : St → St := on_out (fun r =>
  {| WriteBuffer := r.(WriteBuffer); destlen := r.(destlen); FP_Output := r.(FP_Output); FP_RAW := r.(FP_RAW); FP_tapout := r.(FP_tapout); tap_file := r.(tap_file); tape_seek := r.(tape_seek); tape_length := r.(tape_length); tape_parity := r.(tape_parity); out_size := r.(out_size); outFile := r.(outFile); out_tail := r.(out_tail); out_gap := r.(out_gap); DestinationFName := r.(DestinationFName); NoDestinationFile := r.(NoDestinationFile); RAWFName := r.(RAWFName); tapName := r.(tapName); hexName := r.(hexName); ExportFName := r.(ExportFName); FP_HEX := r.(FP_HEX); hexFile := r.(hexFile); hexBytes := r.(hexBytes); hexAddress := r.(hexAddress); ListEmittedBytes := r.(ListEmittedBytes); someByteEmitted := r.(someByteEmitted); sldActive := r.(sldActive); sldTrace := v; PageDiffersWarningShown := r.(PageDiffersWarningShown) |}).
Definition set_PageDiffersWarningShown (v : bool) : St → St := on_out (fun r =>
  {| WriteBuffer := r.(WriteBuffer); destlen := r.(destlen); FP_Output := r.(FP_Output); FP_RAW := r.(FP_RAW); FP_tapout := r.(FP_tapout); tap_file := r.(tap_file); tape_seek := r.(tape_seek); tape_length := r.(tape_length); tape_parity := r.(tape_parity); out_size := r.(out_size); outFile := r.(outFile); out_tail := r.(out_tail); out_gap := r.(out_gap); DestinationFName := r.(DestinationFName); NoDestinationFile := r.(NoDestinationFile); RAWFName := r.(RAWFName); tapName := r.(tapName); hexName := r.(hexName); ExportFName := r.(ExportFName); FP_HEX := r.(FP_HEX); hexFile := r.(hexFile); hexBytes := r.(hexBytes); hexAddress := r.(hexAddress); ListEmittedBytes := r.(ListEmittedBytes); someByteEmitted := r.(someByteEmitted); sldActive := r.(sldActive); sldTrace := r.(sldTrace); PageDiffersWarningShown := v |}).
Definition set_IsRunning (v : bool) : St → St := on_lin (fun r =>
  {| IsRunning := v; FP_Input := r.(FP_Input); rlpbuf := r.(rlpbuf); colonSubline := r.(colonSubline); blockComment := r.(blockComment); comlin := r.(comlin); lijst := r.(lijst); lijstp := r.(lijstp); listmacro := r.(listmacro); donotlist := r.(donotlist); macronummer := r.(macronummer); macs := r.(macs); mac_used := r.(mac_used); mdefs := r.(mdefs); mdef_used := r.(mdef_used); strs := r.(strs); PreviousIsLabel := r.(PreviousIsLabel); LastParsedLabel := r.(LastParsedLabel); LastParsedLabelLine := r.(LastParsedLabelLine); RepeatStack := r.(RepeatStack); StartAddress := r.(StartAddress); maxlin := r.(maxlin); ConvertEncoding := r.(ConvertEncoding); fileNameFull := r.(fileNameFull); sldSwapSrcPos := r.(sldSwapSrcPos); deviceDirectivesCount := r.(deviceDirectivesCount); globalDeviceSourcePos := r.(globalDeviceSourcePos); sldCommentKeywords := r.(sldCommentKeywords); FP_ExportFile := r.(FP_ExportFile); exports := r.(exports); syxStack := r.(syxStack); saved_files := r.(saved_files); archivedInputFiles := r.(archivedInputFiles); ListAddress := r.(ListAddress); lastListedLine := r.(lastListedLine); reglenwidth := r.(reglenwidth); listing := r.(listing); nex := r.(nex) |}).
Definition set_FP_Input (v : list ascii) : St → St := on_lin (fun r =>
  {| IsRunning := r.(IsRunning); FP_Input := v; rlpbuf := r.(rlpbuf); colonSubline := r.(colonSubline); blockComment := r.(blockComment); comlin := r.(comlin); lijst := r.(lijst); lijstp := r.(lijstp); listmacro := r.(listmacro); donotlist := r.(donotlist); macronummer := r.(macronummer); macs := r.(macs); mac_used := r.(mac_used); mdefs := r.(mdefs); mdef_used := r.(mdef_used); strs := r.(strs); PreviousIsLabel := r.(PreviousIsLabel); LastParsedLabel := r.(LastParsedLabel); LastParsedLabelLine := r.(LastParsedLabelLine); RepeatStack := r.(RepeatStack); StartAddress := r.(StartAddress); maxlin := r.(maxlin); ConvertEncoding := r.(ConvertEncoding); fileNameFull := r.(fileNameFull); sldSwapSrcPos := r.(sldSwapSrcPos); deviceDirectivesCount := r.(deviceDirectivesCount); globalDeviceSourcePos := r.(globalDeviceSourcePos); sldCommentKeywords := r.(sldCommentKeywords); FP_ExportFile := r.(FP_ExportFile); exports := r.(exports); syxStack := r.(syxStack); saved_files := r.(saved_files); archivedInputFiles := r.(archivedInputFiles); ListAddress := r.(ListAddress); lastListedLine := r.(lastListedLine); reglenwidth := r.(reglenwidth); listing := r.(listing); nex := r.(nex) |}).
Definition set_rlpbuf (v : list ascii) : St → St := on_lin (fun r =>
  {| IsRunning := r.(IsRunning); FP_Input := r.(FP_Input); rlpbuf := v; colonSubline := r.(colonSubline); blockComment := r.(blockComment); comlin := r.(comlin); lijst := r.(lijst); lijstp := r.(lijstp); listmacro := r.(listmacro); donotlist := r.(donotlist); macronummer := r.(macronummer); macs := r.(macs); mac_used := r.(mac_used); mdefs := r.(mdefs); mdef_used := r.(mdef_used); strs := r.(strs); PreviousIsLabel := r.(PreviousIsLabel); LastParsedLabel := r.(LastParsedLabel); LastParsedLabelLine := r.(LastParsedLabelLine); RepeatStack := r.(RepeatStack); StartAddress := r.(StartAddress); maxlin := r.(maxlin); ConvertEncoding := r.(ConvertEncoding); fileNameFull := r.(fileNameFull); sldSwapSrcPos := r.(sldSwapSrcPos); deviceDirectivesCount := r.(deviceDirectivesCount); globalDeviceSourcePos := r.(globalDeviceSourcePos); sldCommentKeywords := r.(sldCommentKeywords); FP_ExportFile := r.(FP_ExportFile); exports := r.(exports); syxStack := r.(syxStack); saved_files := r.(saved_files); archivedInputFiles := r.(archivedInputFiles); ListAddress := r.(ListAddress); lastListedLine := r.(lastListedLine); reglenwidth := r.(reglenwidth); listing := r.(listing); nex := r.(nex) |}).
Definition set_colonSubline (v : bool) : St → St := on_lin (fun r =>
  {| IsRunning := r.(IsRunning); FP_Input := r.(FP_Input); rlpbuf := r.(rlpbuf); colonSubline := v; blockComment := r.(blockComment); comlin := r.(comlin); lijst := r.(lijst); lijstp := r.(lijstp); listmacro := r.(listmacro); donotlist := r.(donotlist); macronummer := r.(macronummer); macs := r.(macs); mac_used := r.(mac_used); mdefs := r.(mdefs); mdef_used := r.(mdef_used); strs := r.(strs); PreviousIsLabel := r.(PreviousIsLabel); LastParsedLabel := r.(LastParsedLabel); LastParsedLabelLine := r.(LastParsedLabelLine); RepeatStack := r.(RepeatStack); StartAddress := r.(StartAddress); maxlin := r.(maxlin); ConvertEncoding := r.(ConvertEncoding); fileNameFull := r.(fileNameFull); sldSwapSrcPos := r.(sldSwapSrcPos); deviceDirectivesCount := r.(deviceDirectivesCount); globalDeviceSourcePos := r.(globalDeviceSourcePos); sldCommentKeywords := r.(sldCommentKeywords); FP_ExportFile := r.(FP_ExportFile); exports := r.(exports); syxStack := r.(syxStack); saved_files := r.(saved_files); archivedInputFiles := r.(archivedInputFiles); ListAddress := r.(ListAddress); lastListedLine := r.(lastListedLine); reglenwidth := r.(reglenwidth); listing := r.(listing); nex := r.(nex) |}).
Definition set_blockComment (v : Z) : St → St := on_lin (fun r =>
  {| IsRunning := r.(IsRunning); FP_Input := r.(FP_Input); rlpbuf := r.(rlpbuf); colonSubline := r.(colonSubline); blockComment := v; comlin := r.(comlin); lijst := r.(lijst); lijstp := r.(lijstp); listmacro := r.(listmacro); donotlist := r.(donotlist); macronummer := r.(macronummer); macs := r.(macs); mac_used := r.(mac_used); mdefs := r.(mdefs); mdef_used := r.(mdef_used); strs := r.(strs); PreviousIsLabel := r.(PreviousIsLabel); LastParsedLabel := r.(LastParsedLabel); LastParsedLabelLine := r.(LastParsedLabelLine); RepeatStack := r.(RepeatStack); StartAddress := r.(StartAddress); maxlin := r.(maxlin); ConvertEncoding := r.(ConvertEncoding); fileNameFull := r.(fileNameFull); sldSwapSrcPos := r.(sldSwapSrcPos); deviceDirectivesCount := r.(deviceDirectivesCount); globalDeviceSourcePos := r.(globalDeviceSourcePos); sldCommentKeywords := r.(sldCommentKeywords); FP_ExportFile := r.(FP_ExportFile); exports := r.(exports); syxStack := r.(syxStack); saved_files := r.(saved_files); archivedInputFiles := r.(archivedInputFiles); ListAddress := r.(ListAddress); lastListedLine := r.(lastListedLine); reglenwidth := r.(reglenwidth); listing := r.(listing); nex := r.(nex) |}).
Definition set_comlin (v : Z) : St → St := on_lin (fun r =>
  {| IsRunning := r.(IsRunning); FP_Input := r.(FP_Input); rlpbuf := r.(rlpbuf); colonSubline := r.(colonSubline); blockComment := r.(blockComment); comlin := v; lijst := r.(lijst); lijstp := r.(lijstp); listmacro := r.(listmacro); donotlist := r.(donotlist); macronummer := r.(macronummer); macs := r.(macs); mac_used := r.(mac_used); mdefs := r.(mdefs); mdef_used := r.(mdef_used); strs := r.(strs); PreviousIsLabel := r.(PreviousIsLabel); LastParsedLabel := r.(LastParsedLabel); LastParsedLabelLine := r.(LastParsedLabelLine); RepeatStack := r.(RepeatStack); StartAddress := r.(StartAddress); maxlin := r.(maxlin); ConvertEncoding := r.(ConvertEncoding); fileNameFull := r.(fileNameFull); sldSwapSrcPos := r.(sldSwapSrcPos); deviceDirectivesCount := r.(deviceDirectivesCount); globalDeviceSourcePos := r.(globalDeviceSourcePos); sldCommentKeywords := r.(sldCommentKeywords); FP_ExportFile := r.(FP_ExportFile); exports := r.(exports); syxStack := r.(syxStack); saved_files := r.(saved_files); archivedInputFiles := r.(archivedInputFiles); ListAddress := r.(ListAddress); lastListedLine := r.(lastListedLine); reglenwidth := r.(reglenwidth); listing := r.(listing); nex := r.(nex) |}).
Definition set_lijst (v : Z) : St → St := on_lin (fun r =>
  {| IsRunning := r.(IsRunning); FP_Input := r.(FP_Input); rlpbuf := r.(rlpbuf); colonSubline := r.(colonSubline); blockComment := r.(blockComment); comlin := r.(comlin); lijst := v; lijstp := r.(lijstp); listmacro := r.(listmacro); donotlist := r.(donotlist); macronummer := r.(macronummer); macs := r.(macs); mac_used := r.(mac_used); mdefs := r.(mdefs); mdef_used := r.(mdef_used); strs := r.(strs); PreviousIsLabel := r.(PreviousIsLabel); LastParsedLabel := r.(LastParsedLabel); LastParsedLabelLine := r.(LastParsedLabelLine); RepeatStack := r.(RepeatStack); StartAddress := r.(StartAddress); maxlin := r.(maxlin); ConvertEncoding := r.(ConvertEncoding); fileNameFull := r.(fileNameFull); sldSwapSrcPos := r.(sldSwapSrcPos); deviceDirectivesCount := r.(deviceDirectivesCount); globalDeviceSourcePos := r.(globalDeviceSourcePos); sldCommentKeywords := r.(sldCommentKeywords); FP_ExportFile := r.(FP_ExportFile); exports := r.(exports); syxStack := r.(syxStack); saved_files := r.(saved_files); archivedInputFiles := r.(archivedInputFiles); ListAddress := r.(ListAddress); lastListedLine := r.(lastListedLine); reglenwidth := r.(reglenwidth); listing := r.(listing); nex := r.(nex) |}).
Definition set_lijstp (v : list strline) : St → St := on_lin (fun r =>
  {| IsRunning := r.(IsRunning); FP_Input := r.(FP_Input); rlpbuf := r.(rlpbuf); colonSubline := r.(colonSubline); blockComment := r.(blockComment); comlin := r.(comlin); lijst := r.(lijst); lijstp := v; listmacro := r.(listmacro); donotlist := r.(donotlist); macronummer := r.(macronummer); macs := r.(macs); mac_used := r.(mac_used); mdefs := r.(mdefs); mdef_used := r.(mdef_used); strs := r.(strs); PreviousIsLabel := r.(PreviousIsLabel); LastParsedLabel := r.(LastParsedLabel); LastParsedLabelLine := r.(LastParsedLabelLine); RepeatStack := r.(RepeatStack); StartAddress := r.(StartAddress); maxlin := r.(maxlin); ConvertEncoding := r.(ConvertEncoding); fileNameFull := r.(fileNameFull); sldSwapSrcPos := r.(sldSwapSrcPos); deviceDirectivesCount := r.(deviceDirectivesCount); globalDeviceSourcePos := r.(globalDeviceSourcePos); sldCommentKeywords := r.(sldCommentKeywords); FP_ExportFile := r.(FP_ExportFile); exports := r.(exports); syxStack := r.(syxStack); saved_files := r.(saved_files); archivedInputFiles := r.(archivedInputFiles); ListAddress := r.(ListAddress); lastListedLine := r.(lastListedLine); reglenwidth := r.(reglenwidth); listing := r.(listing); nex := r.(nex) |}).
Definition set_listmacro (v : Z) : St → St := on_lin (fun r =>
  {| IsRunning := r.(IsRunning); FP_Input := r.(FP_Input); rlpbuf := r.(rlpbuf); colonSubline := r.(colonSubline); blockComment := r.(blockComment); comlin := r.(comlin); lijst := r.(lijst); lijstp := r.(lijstp); listmacro := v; donotlist := r.(donotlist); macronummer := r.(macronummer); macs := r.(macs); mac_used := r.(mac_used); mdefs := r.(mdefs); mdef_used := r.(mdef_used); strs := r.(strs); PreviousIsLabel := r.(PreviousIsLabel); LastParsedLabel := r.(LastParsedLabel); LastParsedLabelLine := r.(LastParsedLabelLine); RepeatStack := r.(RepeatStack); StartAddress := r.(StartAddress); maxlin := r.(maxlin); ConvertEncoding := r.(ConvertEncoding); fileNameFull := r.(fileNameFull); sldSwapSrcPos := r.(sldSwapSrcPos); deviceDirectivesCount := r.(deviceDirectivesCount); globalDeviceSourcePos := r.(globalDeviceSourcePos); sldCommentKeywords := r.(sldCommentKeywords); FP_ExportFile := r.(FP_ExportFile); exports := r.(exports); syxStack := r.(syxStack); saved_files := r.(saved_files); archivedInputFiles := r.(archivedInputFiles); ListAddress := r.(ListAddress); lastListedLine := r.(lastListedLine); reglenwidth := r.(reglenwidth); listing := r.(listing); nex := r.(nex) |}).
Definition set_donotlist (v : bool) : St → St := on_lin (fun r =>
  {| IsRunning := r.(IsRunning); FP_Input := r.(FP_Input); rlpbuf := r.(rlpbuf); colonSubline := r.(colonSubline); blockComment := r.(blockComment); comlin := r.(comlin); lijst := r.(lijst); lijstp := r.(lijstp); listmacro := r.(listmacro); donotlist := v; macronummer := r.(macronummer); macs := r.(macs); mac_used := r.(mac_used); mdefs := r.(mdefs); mdef_used := r.(mdef_used); strs := r.(strs); PreviousIsLabel := r.(PreviousIsLabel); LastParsedLabel := r.(LastParsedLabel); LastParsedLabelLine := r.(LastParsedLabelLine); RepeatStack := r.(RepeatStack); StartAddress := r.(StartAddress); maxlin := r.(maxlin); ConvertEncoding := r.(ConvertEncoding); fileNameFull := r.(fileNameFull); sldSwapSrcPos := r.(sldSwapSrcPos); deviceDirectivesCount := r.(deviceDirectivesCount); globalDeviceSourcePos := r.(globalDeviceSourcePos); sldCommentKeywords := r.(sldCommentKeywords); FP_ExportFile := r.(FP_ExportFile); exports := r.(exports); syxStack := r.(syxStack); saved_files := r.(saved_files); archivedInputFiles := r.(archivedInputFiles); ListAddress := r.(ListAddress); lastListedLine := r.(lastListedLine); reglenwidth := r.(reglenwidth); listing := r.(listing); nex := r.(nex) |}).
Definition set_macronummer (v : Z) : St → St := on_lin (fun r =>
  {| IsRunning := r.(IsRunning); FP_Input := r.(FP_Input); rlpbuf := r.(rlpbuf); colonSubline := r.(colonSubline); blockComment := r.(blockComment); comlin := r.(comlin); lijst := r.(lijst); lijstp := r.(lijstp); listmacro := r.(listmacro); donotlist := r.(donotlist); macronummer := v; macs := r.(macs); mac_used := r.(mac_used); mdefs := r.(mdefs); mdef_used := r.(mdef_used); strs := r.(strs); PreviousIsLabel := r.(PreviousIsLabel); LastParsedLabel := r.(LastParsedLabel); LastParsedLabelLine := r.(LastParsedLabelLine); RepeatStack := r.(RepeatStack); StartAddress := r.(StartAddress); maxlin := r.(maxlin); ConvertEncoding := r.(ConvertEncoding); fileNameFull := r.(fileNameFull); sldSwapSrcPos := r.(sldSwapSrcPos); deviceDirectivesCount := r.(deviceDirectivesCount); globalDeviceSourcePos := r.(globalDeviceSourcePos); sldCommentKeywords := r.(sldCommentKeywords); FP_ExportFile := r.(FP_ExportFile); exports := r.(exports); syxStack := r.(syxStack); saved_files := r.(saved_files); archivedInputFiles := r.(archivedInputFiles); ListAddress := r.(ListAddress); lastListedLine := r.(lastListedLine); reglenwidth := r.(reglenwidth); listing := r.(listing); nex := r.(nex) |}).
Definition set_macs (v : gmap string CMacroTableEntry) : St → St := on_lin (fun r =>
  {| IsRunning := r.(IsRunning); FP_Input := r.(FP_Input); rlpbuf := r.(rlpbuf); colonSubline := r.(colonSubline); blockComment := r.(blockComment); comlin := r.(comlin); lijst := r.(lijst); lijstp := r.(lijstp); listmacro := r.(listmacro); donotlist := r.(donotlist); macronummer := r.(macronummer); macs := v; mac_used := r.(mac_used); mdefs := r.(mdefs); mdef_used := r.(mdef_used); strs := r.(strs); PreviousIsLabel := r.(PreviousIsLabel); LastParsedLabel := r.(LastParsedLabel); LastParsedLabelLine := r.(LastParsedLabelLine); RepeatStack := r.(RepeatStack); StartAddress := r.(StartAddress); maxlin := r.(maxlin); ConvertEncoding := r.(ConvertEncoding); fileNameFull := r.(fileNameFull); sldSwapSrcPos := r.(sldSwapSrcPos); deviceDirectivesCount := r.(deviceDirectivesCount); globalDeviceSourcePos := r.(globalDeviceSourcePos); sldCommentKeywords := r.(sldCommentKeywords); FP_ExportFile := r.(FP_ExportFile); exports := r.(exports); syxStack := r.(syxStack); saved_files := r.(saved_files); archivedInputFiles := r.(archivedInputFiles); ListAddress := r.(ListAddress); lastListedLine := r.(lastListedLine); reglenwidth := r.(reglenwidth); listing := r.(listing); nex := r.(nex) |}).
Definition set_mac_used (v : list Z) : St → St := on_lin (fun r =>
  {| IsRunning := r.(IsRunning); FP_Input := r.(FP_Input); rlpbuf := r.(rlpbuf); colonSubline := r.(colonSubline); blockComment := r.(blockComment); comlin := r.(comlin); lijst := r.(lijst); lijstp := r.(lijstp); listmacro := r.(listmacro); donotlist := r.(donotlist); macronummer := r.(macronummer); macs := r.(macs); mac_used := v; mdefs := r.(mdefs); mdef_used := r.(mdef_used); strs := r.(strs); PreviousIsLabel := r.(PreviousIsLabel); LastParsedLabel := r.(LastParsedLabel); LastParsedLabelLine := r.(LastParsedLabelLine); RepeatStack := r.(RepeatStack); StartAddress := r.(StartAddress); maxlin := r.(maxlin); ConvertEncoding := r.(ConvertEncoding); fileNameFull := r.(fileNameFull); sldSwapSrcPos := r.(sldSwapSrcPos); deviceDirectivesCount := r.(deviceDirectivesCount); globalDeviceSourcePos := r.(globalDeviceSourcePos); sldCommentKeywords := r.(sldCommentKeywords); FP_ExportFile := r.(FP_ExportFile); exports := r.(exports); syxStack := r.(syxStack); saved_files := r.(saved_files); archivedInputFiles := r.(archivedInputFiles); ListAddress := r.(ListAddress); lastListedLine := r.(lastListedLine); reglenwidth := r.(reglenwidth); listing := r.(listing); nex := r.(nex) |}).
Definition set_mdefs (v : list CDefineTableEntry) : St → St := on_lin (fun r =>
  {| IsRunning := r.(IsRunning); FP_Input := r.(FP_Input); rlpbuf := r.(rlpbuf); colonSubline := r.(colonSubline); blockComment := r.(blockComment); comlin := r.(comlin); lijst := r.(lijst); lijstp := r.(lijstp); listmacro := r.(listmacro); donotlist := r.(donotlist); macronummer := r.(macronummer); macs := r.(macs); mac_used := r.(mac_used); mdefs := v; mdef_used := r.(mdef_used); strs := r.(strs); PreviousIsLabel := r.(PreviousIsLabel); LastParsedLabel := r.(LastParsedLabel); LastParsedLabelLine := r.(LastParsedLabelLine); RepeatStack := r.(RepeatStack); StartAddress := r.(StartAddress); maxlin := r.(maxlin); ConvertEncoding := r.(ConvertEncoding); fileNameFull := r.(fileNameFull); sldSwapSrcPos := r.(sldSwapSrcPos); deviceDirectivesCount := r.(deviceDirectivesCount); globalDeviceSourcePos := r.(globalDeviceSourcePos); sldCommentKeywords := r.(sldCommentKeywords); FP_ExportFile := r.(FP_ExportFile); exports := r.(exports); syxStack := r.(syxStack); saved_files := r.(saved_files); archivedInputFiles := r.(archivedInputFiles); ListAddress := r.(ListAddress); lastListedLine := r.(lastListedLine); reglenwidth := r.(reglenwidth); listing := r.(listing); nex := r.(nex) |}).
Definition set_mdef_used (v : list Z) : St → St := on_lin (fun r =>
  {| IsRunning := r.(IsRunning); FP_Input := r.(FP_Input); rlpbuf := r.(rlpbuf); colonSubline := r.(colonSubline); blockComment := r.(blockComment); comlin := r.(comlin); lijst := r.(lijst); lijstp := r.(lijstp); listmacro := r.(listmacro); donotlist := r.(donotlist); macronummer := r.(macronummer); macs := r.(macs); mac_used := r.(mac_used); mdefs := r.(mdefs); mdef_used := v; strs := r.(strs); PreviousIsLabel := r.(PreviousIsLabel); LastParsedLabel := r.(LastParsedLabel); LastParsedLabelLine := r.(LastParsedLabelLine); RepeatStack := r.(RepeatStack); StartAddress := r.(StartAddress); maxlin := r.(maxlin); ConvertEncoding := r.(ConvertEncoding); fileNameFull := r.(fileNameFull); sldSwapSrcPos := r.(sldSwapSrcPos); deviceDirectivesCount := r.(deviceDirectivesCount); globalDeviceSourcePos := r.(globalDeviceSourcePos); sldCommentKeywords := r.(sldCommentKeywords); FP_ExportFile := r.(FP_ExportFile); exports := r.(exports); syxStack := r.(syxStack); saved_files := r.(saved_files); archivedInputFiles := r.(archivedInputFiles); ListAddress := r.(ListAddress); lastListedLine := r.(lastListedLine); reglenwidth := r.(reglenwidth); listing := r.(listing); nex := r.(nex) |}).
Definition set_strs (v : gmap Z (list CStructure)) : St → St := on_lin (fun r =>
  {| IsRunning := r.(IsRunning); FP_Input := r.(FP_Input); rlpbuf := r.(rlpbuf); colonSubline := r.(colonSubline); blockComment := r.(blockComment); comlin := r.(comlin); lijst := r.(lijst); lijstp := r.(lijstp); listmacro := r.(listmacro); donotlist := r.(donotlist); macronummer := r.(macronummer); macs := r.(macs); mac_used := r.(mac_used); mdefs := r.(mdefs); mdef_used := r.(mdef_used); strs := v; PreviousIsLabel := r.(PreviousIsLabel); LastParsedLabel := r.(LastParsedLabel); LastParsedLabelLine := r.(LastParsedLabelLine); RepeatStack := r.(RepeatStack); StartAddress := r.(StartAddress); maxlin := r.(maxlin); ConvertEncoding := r.(ConvertEncoding); fileNameFull := r.(fileNameFull); sldSwapSrcPos := r.(sldSwapSrcPos); deviceDirectivesCount := r.(deviceDirectivesCount); globalDeviceSourcePos := r.(globalDeviceSourcePos); sldCommentKeywords := r.(sldCommentKeywords); FP_ExportFile := r.(FP_ExportFile); exports := r.(exports); syxStack := r.(syxStack); saved_files := r.(saved_files); archivedInputFiles := r.(archivedInputFiles); ListAddress := r.(ListAddress); lastListedLine := r.(lastListedLine); reglenwidth := r.(reglenwidth); listing := r.(listing); nex := r.(nex) |}).
Definition set_PreviousIsLabel (v : option (list ascii)) : St → St := on_lin (fun r =>
  {| IsRunning := r.(IsRunning); FP_Input := r.(FP_Input); rlpbuf := r.(rlpbuf); colonSubline := r.(colonSubline); blockComment := r.(blockComment); comlin := r.(comlin); lijst := r.(lijst); lijstp := r.(lijstp); listmacro := r.(listmacro); donotlist := r.(donotlist); macronummer := r.(macronummer); macs := r.(macs); mac_used := r.(mac_used); mdefs := r.(mdefs); mdef_used := r.(mdef_used); strs := r.(strs); PreviousIsLabel := v; LastParsedLabel := r.(LastParsedLabel); LastParsedLabelLine := r.(LastParsedLabelLine); RepeatStack := r.(RepeatStack); StartAddress := r.(StartAddress); maxlin := r.(maxlin); ConvertEncoding := r.(ConvertEncoding); fileNameFull := r.(fileNameFull); sldSwapSrcPos := r.(sldSwapSrcPos); deviceDirectivesCount := r.(deviceDirectivesCount); globalDeviceSourcePos := r.(globalDeviceSourcePos); sldCommentKeywords := r.(sldCommentKeywords); FP_ExportFile := r.(FP_ExportFile); exports := r.(exports); syxStack := r.(syxStack); saved_files := r.(saved_files); archivedInputFiles := r.(archivedInputFiles); ListAddress := r.(ListAddress); lastListedLine := r.(lastListedLine); reglenwidth := r.(reglenwidth); listing := r.(listing); nex := r.(nex) |}).
Definition set_LastParsedLabel (v : option (list ascii)) : St → St := on_lin (fun r =>
  {| IsRunning := r.(IsRunning); FP_Input := r.(FP_Input); rlpbuf := r.(rlpbuf); colonSubline := r.(colonSubline); blockComment := r.(blockComment); comlin := r.(comlin); lijst := r.(lijst); lijstp := r.(lijstp); listmacro := r.(listmacro); donotlist := r.(donotlist); macronummer := r.(macronummer); macs := r.(macs); mac_used := r.(mac_used); mdefs := r.(mdefs); mdef_used := r.(mdef_used); strs := r.(strs); PreviousIsLabel := r.(PreviousIsLabel); LastParsedLabel := v; LastParsedLabelLine := r.(LastParsedLabelLine); RepeatStack := r.(RepeatStack); StartAddress := r.(StartAddress); maxlin := r.(maxlin); ConvertEncoding := r.(ConvertEncoding); fileNameFull := r.(fileNameFull); sldSwapSrcPos := r.(sldSwapSrcPos); deviceDirectivesCount := r.(deviceDirectivesCount); globalDeviceSourcePos := r.(globalDeviceSourcePos); sldCommentKeywords := r.(sldCommentKeywords); FP_ExportFile := r.(FP_ExportFile); exports := r.(exports); syxStack := r.(syxStack); saved_files := r.(saved_files); archivedInputFiles := r.(archivedInputFiles); ListAddress := r.(ListAddress); lastListedLine := r.(lastListedLine); reglenwidth := r.(reglenwidth); listing := r.(listing); nex := r.(nex) |}).
Definition set_LastParsedLabelLine (v : Z) : St → St := on_lin (fun r =>
  {| IsRunning := r.(IsRunning); FP_Input := r.(FP_Input); rlpbuf := r.(rlpbuf); colonSubline := r.(colonSubline); blockComment := r.(blockComment); comlin := r.(comlin); lijst := r.(lijst); lijstp := r.(lijstp); listmacro := r.(listmacro); donotlist := r.(donotlist); macronummer := r.(macronummer); macs := r.(macs); mac_used := r.(mac_used); mdefs := r.(mdefs); mdef_used := r.(mdef_used); strs := r.(strs); PreviousIsLabel := r.(PreviousIsLabel); LastParsedLabel := r.(LastParsedLabel); LastParsedLabelLine := v; RepeatStack := r.(RepeatStack); StartAddress := r.(StartAddress); maxlin := r.(maxlin); ConvertEncoding := r.(ConvertEncoding); fileNameFull := r.(fileNameFull); sldSwapSrcPos := r.(sldSwapSrcPos); deviceDirectivesCount := r.(deviceDirectivesCount); globalDeviceSourcePos := r.(globalDeviceSourcePos); sldCommentKeywords := r.(sldCommentKeywords); FP_ExportFile := r.(FP_ExportFile); exports := r.(exports); syxStack := r.(syxStack); saved_files := r.(saved_files); archivedInputFiles := r.(archivedInputFiles); ListAddress := r.(ListAddress); lastListedLine := r.(lastListedLine); reglenwidth := r.(reglenwidth); listing := r.(listing); nex := r.(nex) |}).
Definition set_RepeatStack (v : list SRepeatStack) : St → St := on_lin (fun r =>
  {| IsRunning := r.(IsRunning); FP_Input := r.(FP_Input); rlpbuf := r.(rlpbuf); colonSubline := r.(colonSubline); blockComment := r.(blockComment); comlin := r.(comlin); lijst := r.(lijst); lijstp := r.(lijstp); listmacro := r.(listmacro); donotlist := r.(donotlist); macronummer := r.(macronummer); macs := r.(macs); mac_used := r.(mac_used); mdefs := r.(mdefs); mdef_used := r.(mdef_used); strs := r.(strs); PreviousIsLabel := r.(PreviousIsLabel); LastParsedLabel := r.(LastParsedLabel); LastParsedLabelLine := r.(LastParsedLabelLine); RepeatStack := v; StartAddress := r.(StartAddress); maxlin := r.(maxlin); ConvertEncoding := r.(ConvertEncoding); fileNameFull := r.(fileNameFull); sldSwapSrcPos := r.(sldSwapSrcPos); deviceDirectivesCount := r.(deviceDirectivesCount); globalDeviceSourcePos := r.(globalDeviceSourcePos); sldCommentKeywords := r.(sldCommentKeywords); FP_ExportFile := r.(FP_ExportFile); exports := r.(exports); syxStack := r.(syxStack); saved_files := r.(saved_files); archivedInputFiles := r.(archivedInputFiles); ListAddress := r.(ListAddress); lastListedLine := r.(lastListedLine); reglenwidth := r.(reglenwidth); listing := r.(listing); nex := r.(nex) |}).
Definition set_StartAddress (v : Z) : St → St := on_lin (fun r =>
  {| IsRunning := r.(IsRunning); FP_Input := r.(FP_Input); rlpbuf := r.(rlpbuf); colonSubline := r.(colonSubline); blockComment := r.(blockComment); comlin := r.(comlin); lijst := r.(lijst); lijstp := r.(lijstp); listmacro := r.(listmacro); donotlist := r.(donotlist); macronummer := r.(macronummer); macs := r.(macs); mac_used := r.(mac_used); mdefs := r.(mdefs); mdef_used := r.(mdef_used); strs := r.(strs); PreviousIsLabel := r.(PreviousIsLabel); LastParsedLabel := r.(LastParsedLabel); LastParsedLabelLine := r.(LastParsedLabelLine); RepeatStack := r.(RepeatStack); StartAddress := v; maxlin := r.(maxlin); ConvertEncoding := r.(ConvertEncoding); fileNameFull := r.(fileNameFull); sldSwapSrcPos := r.(sldSwapSrcPos); deviceDirectivesCount := r.(deviceDirectivesCount); globalDeviceSourcePos := r.(globalDeviceSourcePos); sldCommentKeywords := r.(sldCommentKeywords); FP_ExportFile := r.(FP_ExportFile); exports := r.(exports); syxStack := r.(syxStack); saved_files := r.(saved_files); archivedInputFiles := r.(archivedInputFiles); ListAddress := r.(ListAddress); lastListedLine := r.(lastListedLine); reglenwidth := r.(reglenwidth); listing := r.(listing); nex := r.(nex) |}).
Definition set_maxlin (v : Z) : St → St := on_lin (fun r =>
  {| IsRunning := r.(IsRunning); FP_Input := r.(FP_Input); rlpbuf := r.(rlpbuf); colonSubline := r.(colonSubline); blockComment := r.(blockComment); comlin := r.(comlin); lijst := r.(lijst); lijstp := r.(lijstp); listmacro := r.(listmacro); donotlist := r.(donotlist); macronummer := r.(macronummer); macs := r.(macs); mac_used := r.(mac_used); mdefs := r.(mdefs); mdef_used := r.(mdef_used); strs := r.(strs); PreviousIsLabel := r.(PreviousIsLabel); LastParsedLabel := r.(LastParsedLabel); LastParsedLabelLine := r.(LastParsedLabelLine); RepeatStack := r.(RepeatStack); StartAddress := r.(StartAddress); maxlin := v; ConvertEncoding := r.(ConvertEncoding); fileNameFull := r.(fileNameFull); sldSwapSrcPos := r.(sldSwapSrcPos); deviceDirectivesCount := r.(deviceDirectivesCount); globalDeviceSourcePos := r.(globalDeviceSourcePos); sldCommentKeywords := r.(sldCommentKeywords); FP_ExportFile := r.(FP_ExportFile); exports := r.(exports); syxStack := r.(syxStack); saved_files := r.(saved_files); archivedInputFiles := r.(archivedInputFiles); ListAddress := r.(ListAddress); lastListedLine := r.(lastListedLine); reglenwidth := r.(reglenwidth); listing := r.(listing); nex := r.(nex) |}).
Definition set_ConvertEncoding (v : EEncoding) : St → St := on_lin (fun r =>
  {| IsRunning := r.(IsRunning); FP_Input := r.(FP_Input); rlpbuf := r.(rlpbuf); colonSubline := r.(colonSubline); blockComment := r.(blockComment); comlin := r.(comlin); lijst := r.(lijst); lijstp := r.(lijstp); listmacro := r.(listmacro); donotlist := r.(donotlist); macronummer := r.(macronummer); macs := r.(macs); mac_used := r.(mac_used); mdefs := r.(mdefs); mdef_used := r.(mdef_used); strs := r.(strs); PreviousIsLabel := r.(PreviousIsLabel); LastParsedLabel := r.(LastParsedLabel); LastParsedLabelLine := r.(LastParsedLabelLine); RepeatStack := r.(RepeatStack); StartAddress := r.(StartAddress); maxlin := r.(maxlin); ConvertEncoding := v; fileNameFull := r.(fileNameFull); sldSwapSrcPos := r.(sldSwapSrcPos); deviceDirectivesCount := r.(deviceDirectivesCount); globalDeviceSourcePos := r.(globalDeviceSourcePos); sldCommentKeywords := r.(sldCommentKeywords); FP_ExportFile := r.(FP_ExportFile); exports := r.(exports); syxStack := r.(syxStack); saved_files := r.(saved_files); archivedInputFiles := r.(archivedInputFiles); ListAddress := r.(ListAddress); lastListedLine := r.(lastListedLine); reglenwidth := r.(reglenwidth); listing := r.(listing); nex := r.(nex) |}).
Definition set_fileNameFull (v : option SInputFile) : St → St := on_lin (fun r =>
  {| IsRunning := r.(IsRunning); FP_Input := r.(FP_Input); rlpbuf := r.(rlpbuf); colonSubline := r.(colonSubline); blockComment := r.(blockComment); comlin := r.(comlin); lijst := r.(lijst); lijstp := r.(lijstp); listmacro := r.(listmacro); donotlist := r.(donotlist); macronummer := r.(macronummer); macs := r.(macs); mac_used := r.(mac_used); mdefs := r.(mdefs); mdef_used := r.(mdef_used); strs := r.(strs); PreviousIsLabel := r.(PreviousIsLabel); LastParsedLabel := r.(LastParsedLabel); LastParsedLabelLine := r.(LastParsedLabelLine); RepeatStack := r.(RepeatStack); StartAddress := r.(StartAddress); maxlin := r.(maxlin); ConvertEncoding := r.(ConvertEncoding); fileNameFull := v; sldSwapSrcPos := r.(sldSwapSrcPos); deviceDirectivesCount := r.(deviceDirectivesCount); globalDeviceSourcePos := r.(globalDeviceSourcePos); sldCommentKeywords := r.(sldCommentKeywords); FP_ExportFile := r.(FP_ExportFile); exports := r.(exports); syxStack := r.(syxStack); saved_files := r.(saved_files); archivedInputFiles := r.(archivedInputFiles); ListAddress := r.(ListAddress); lastListedLine := r.(lastListedLine); reglenwidth := r.(reglenwidth); listing := r.(listing); nex := r.(nex) |}).
Definition set_sldSwapSrcPos (v : Z) : St → St := on_lin (fun r =>
  {| IsRunning := r.(IsRunning); FP_Input := r.(FP_Input); rlpbuf := r.(rlpbuf); colonSubline := r.(colonSubline); blockComment := r.(blockComment); comlin := r.(comlin); lijst := r.(lijst); lijstp := r.(lijstp); listmacro := r.(listmacro); donotlist := r.(donotlist); macronummer := r.(macronummer); macs := r.(macs); mac_used := r.(mac_used); mdefs := r.(mdefs); mdef_used := r.(mdef_used); strs := r.(strs); PreviousIsLabel := r.(PreviousIsLabel); LastParsedLabel := r.(LastParsedLabel); LastParsedLabelLine := r.(LastParsedLabelLine); RepeatStack := r.(RepeatStack); StartAddress := r.(StartAddress); maxlin := r.(maxlin); ConvertEncoding := r.(ConvertEncoding); fileNameFull := r.(fileNameFull); sldSwapSrcPos := v; deviceDirectivesCount := r.(deviceDirectivesCount); globalDeviceSourcePos := r.(globalDeviceSourcePos); sldCommentKeywords := r.(sldCommentKeywords); FP_ExportFile := r.(FP_ExportFile); exports := r.(exports); syxStack := r.(syxStack); saved_files := r.(saved_files); archivedInputFiles := r.(archivedInputFiles); ListAddress := r.(ListAddress); lastListedLine := r.(lastListedLine); reglenwidth := r.(reglenwidth); listing := r.(listing); nex := r.(nex) |}).
Definition set_deviceDirectivesCount (v : Z) : St → St := on_lin (fun r =>
  {| IsRunning := r.(IsRunning); FP_Input := r.(FP_Input); rlpbuf := r.(rlpbuf); colonSubline := r.(colonSubline); blockComment := r.(blockComment); comlin := r.(comlin); lijst := r.(lijst); lijstp := r.(lijstp); listmacro := r.(listmacro); donotlist := r.(donotlist); macronummer := r.(macronummer); macs := r.(macs); mac_used := r.(mac_used); mdefs := r.(mdefs); mdef_used := r.(mdef_used); strs := r.(strs); PreviousIsLabel := r.(PreviousIsLabel); LastParsedLabel := r.(LastParsedLabel); LastParsedLabelLine := r.(LastParsedLabelLine); RepeatStack := r.(RepeatStack); StartAddress := r.(StartAddress); maxlin := r.(maxlin); ConvertEncoding := r.(ConvertEncoding); fileNameFull := r.(fileNameFull); sldSwapSrcPos := r.(sldSwapSrcPos); deviceDirectivesCount := v; globalDeviceSourcePos := r.(globalDeviceSourcePos); sldCommentKeywords := r.(sldCommentKeywords); FP_ExportFile := r.(FP_ExportFile); exports := r.(exports); syxStack := r.(syxStack); saved_files := r.(saved_files); archivedInputFiles := r.(archivedInputFiles); ListAddress := r.(ListAddress); lastListedLine := r.(lastListedLine); reglenwidth := r.(reglenwidth); listing := r.(listing); nex := r.(nex) |}).
Definition set_globalDeviceSourcePos (v : TextFilePos) : St → St := on_lin (fun r =>
  {| IsRunning := r.(IsRunning); FP_Input := r.(FP_Input); rlpbuf := r.(rlpbuf); colonSubline := r.(colonSubline); blockComment := r.(blockComment); comlin := r.(comlin); lijst := r.(lijst); lijstp := r.(lijstp); listmacro := r.(listmacro); donotlist := r.(donotlist); macronummer := r.(macronummer); macs := r.(macs); mac_used := r.(mac_used); mdefs := r.(mdefs); mdef_used := r.(mdef_used); strs := r.(strs); PreviousIsLabel := r.(PreviousIsLabel); LastParsedLabel := r.(LastParsedLabel); LastParsedLabelLine := r.(LastParsedLabelLine); RepeatStack := r.(RepeatStack); StartAddress := r.(StartAddress); maxlin := r.(maxlin); ConvertEncoding := r.(ConvertEncoding); fileNameFull := r.(fileNameFull); sldSwapSrcPos := r.(sldSwapSrcPos); deviceDirectivesCount := r.(deviceDirectivesCount); globalDeviceSourcePos := v; sldCommentKeywords := r.(sldCommentKeywords); FP_ExportFile := r.(FP_ExportFile); exports := r.(exports); syxStack := r.(syxStack); saved_files := r.(saved_files); archivedInputFiles := r.(archivedInputFiles); ListAddress := r.(ListAddress); lastListedLine := r.(lastListedLine); reglenwidth := r.(reglenwidth); listing := r.(listing); nex := r.(nex) |}).
Definition set_sldCommentKeywords (v : list (list ascii)) : St → St := on_lin (fun r =>
  {| IsRunning := r.(IsRunning); FP_Input := r.(FP_Input); rlpbuf := r.(rlpbuf); colonSubline := r.(colonSubline); blockComment := r.(blockComment); comlin := r.(comlin); lijst := r.(lijst); lijstp := r.(lijstp); listmacro := r.(listmacro); donotlist := r.(donotlist); macronummer := r.(macronummer); macs := r.(macs); mac_used := r.(mac_used); mdefs := r.(mdefs); mdef_used := r.(mdef_used); strs := r.(strs); PreviousIsLabel := r.(PreviousIsLabel); LastParsedLabel := r.(LastParsedLabel); LastParsedLabelLine := r.(LastParsedLabelLine); RepeatStack := r.(RepeatStack); StartAddress := r.(StartAddress); maxlin := r.(maxlin); ConvertEncoding := r.(ConvertEncoding); fileNameFull := r.(fileNameFull); sldSwapSrcPos := r.(sldSwapSrcPos); deviceDirectivesCount := r.(deviceDirectivesCount); globalDeviceSourcePos := r.(globalDeviceSourcePos); sldCommentKeywords := v; FP_ExportFile := r.(FP_ExportFile); exports := r.(exports); syxStack := r.(syxStack); saved_files := r.(saved_files); archivedInputFiles := r.(archivedInputFiles); ListAddress := r.(ListAddress); lastListedLine := r.(lastListedLine); reglenwidth := r.(reglenwidth); listing := r.(listing); nex := r.(nex) |}).
Definition set_FP_ExportFile (v : bool) : St → St := on_lin (fun r =>
  {| IsRunning := r.(IsRunning); FP_Input := r.(FP_Input); rlpbuf := r.(rlpbuf); colonSubline := r.(colonSubline); blockComment := r.(blockComment); comlin := r.(comlin); lijst := r.(lijst); lijstp := r.(lijstp); listmacro := r.(listmacro); donotlist := r.(donotlist); macronummer := r.(macronummer); macs := r.(macs); mac_used := r.(mac_used); mdefs := r.(mdefs); mdef_used := r.(mdef_used); strs := r.(strs); PreviousIsLabel := r.(PreviousIsLabel); LastParsedLabel := r.(LastParsedLabel); LastParsedLabelLine := r.(LastParsedLabelLine); RepeatStack := r.(RepeatStack); StartAddress := r.(StartAddress); maxlin := r.(maxlin); ConvertEncoding := r.(ConvertEncoding); fileNameFull := r.(fileNameFull); sldSwapSrcPos := r.(sldSwapSrcPos); deviceDirectivesCount := r.(deviceDirectivesCount); globalDeviceSourcePos := r.(globalDeviceSourcePos); sldCommentKeywords := r.(sldCommentKeywords); FP_ExportFile := v; exports := r.(exports); syxStack := r.(syxStack); saved_files := r.(saved_files); archivedInputFiles := r.(archivedInputFiles); ListAddress := r.(ListAddress); lastListedLine := r.(lastListedLine); reglenwidth := r.(reglenwidth); listing := r.(listing); nex := r.(nex) |}).
Definition set_exports (v : list (list ascii * Z)) : St → St := on_lin (fun r =>
  {| IsRunning := r.(IsRunning); FP_Input := r.(FP_Input); rlpbuf := r.(rlpbuf); colonSubline := r.(colonSubline); blockComment := r.(blockComment); comlin := r.(comlin); lijst := r.(lijst); lijstp := r.(lijstp); listmacro := r.(listmacro); donotlist := r.(donotlist); macronummer := r.(macronummer); macs := r.(macs); mac_used := r.(mac_used); mdefs := r.(mdefs); mdef_used := r.(mdef_used); strs := r.(strs); PreviousIsLabel := r.(PreviousIsLabel); LastParsedLabel := r.(LastParsedLabel); LastParsedLabelLine := r.(LastParsedLabelLine); RepeatStack := r.(RepeatStack); StartAddress := r.(StartAddress); maxlin := r.(maxlin); ConvertEncoding := r.(ConvertEncoding); fileNameFull := r.(fileNameFull); sldSwapSrcPos := r.(sldSwapSrcPos); deviceDirectivesCount := r.(deviceDirectivesCount); globalDeviceSourcePos := r.(globalDeviceSourcePos); sldCommentKeywords := r.(sldCommentKeywords); FP_ExportFile := r.(FP_ExportFile); exports := v; syxStack := r.(syxStack); saved_files := r.(saved_files); archivedInputFiles := r.(archivedInputFiles); ListAddress := r.(ListAddress); lastListedLine := r.(lastListedLine); reglenwidth := r.(reglenwidth); listing := r.(listing); nex := r.(nex) |}).
Definition set_syxStack (v : list SSyntax) : St → St := on_lin (fun r =>
  {| IsRunning := r.(IsRunning); FP_Input := r.(FP_Input); rlpbuf := r.(rlpbuf); colonSubline := r.(colonSubline); blockComment := r.(blockComment); comlin := r.(comlin); lijst := r.(lijst); lijstp := r.(lijstp); listmacro := r.(listmacro); donotlist := r.(donotlist); macronummer := r.(macronummer); macs := r.(macs); mac_used := r.(mac_used); mdefs := r.(mdefs); mdef_used := r.(mdef_used); strs := r.(strs); PreviousIsLabel := r.(PreviousIsLabel); LastParsedLabel := r.(LastParsedLabel); LastParsedLabelLine := r.(LastParsedLabelLine); RepeatStack := r.(RepeatStack); StartAddress := r.(StartAddress); maxlin := r.(maxlin); ConvertEncoding := r.(ConvertEncoding); fileNameFull := r.(fileNameFull); sldSwapSrcPos := r.(sldSwapSrcPos); deviceDirectivesCount := r.(deviceDirectivesCount); globalDeviceSourcePos := r.(globalDeviceSourcePos); sldCommentKeywords := r.(sldCommentKeywords); FP_ExportFile := r.(FP_ExportFile); exports := r.(exports); syxStack := v; saved_files := r.(saved_files); archivedInputFiles := r.(archivedInputFiles); ListAddress := r.(ListAddress); lastListedLine := r.(lastListedLine); reglenwidth := r.(reglenwidth); listing := r.(listing); nex := r.(nex) |}).
Definition set_saved_files (v : list (list ascii * list Z)) : St → St := on_lin (fun r =>
  {| IsRunning := r.(IsRunning); FP_Input := r.(FP_Input); rlpbuf := r.(rlpbuf); colonSubline := r.(colonSubline); blockComment := r.(blockComment); comlin := r.(comlin); lijst := r.(lijst); lijstp := r.(lijstp); listmacro := r.(listmacro); donotlist := r.(donotlist); macronummer := r.(macronummer); macs := r.(macs); mac_used := r.(mac_used); mdefs := r.(mdefs); mdef_used := r.(mdef_used); strs := r.(strs); PreviousIsLabel := r.(PreviousIsLabel); LastParsedLabel := r.(LastParsedLabel); LastParsedLabelLine := r.(LastParsedLabelLine); RepeatStack := r.(RepeatStack); StartAddress := r.(StartAddress); maxlin := r.(maxlin); ConvertEncoding := r.(ConvertEncoding); fileNameFull := r.(fileNameFull); sldSwapSrcPos := r.(sldSwapSrcPos); deviceDirectivesCount := r.(deviceDirectivesCount); globalDeviceSourcePos := r.(globalDeviceSourcePos); sldCommentKeywords := r.(sldCommentKeywords); FP_ExportFile := r.(FP_ExportFile); exports := r.(exports); syxStack := r.(syxStack); saved_files := v; archivedInputFiles := r.(archivedInputFiles); ListAddress := r.(ListAddress); lastListedLine := r.(lastListedLine); reglenwidth := r.(reglenwidth); listing := r.(listing); nex := r.(nex) |}).
Definition set_archivedInputFiles (v : list (list ascii * (list ascii * EDelimiterType) * SInputFile)) : St → St := on_lin (fun r =>
  {| IsRunning := r.(IsRunning); FP_Input := r.(FP_Input); rlpbuf := r.(rlpbuf); colonSubline := r.(colonSubline); blockComment := r.(blockComment); comlin := r.(comlin); lijst := r.(lijst); lijstp := r.(lijstp); listmacro := r.(listmacro); donotlist := r.(donotlist); macronummer := r.(macronummer); macs := r.(macs); mac_used := r.(mac_used); mdefs := r.(mdefs); mdef_used := r.(mdef_used); strs := r.(strs); PreviousIsLabel := r.(PreviousIsLabel); LastParsedLabel := r.(LastParsedLabel); LastParsedLabelLine := r.(LastParsedLabelLine); RepeatStack := r.(RepeatStack); StartAddress := r.(StartAddress); maxlin := r.(maxlin); ConvertEncoding := r.(ConvertEncoding); fileNameFull := r.(fileNameFull); sldSwapSrcPos := r.(sldSwapSrcPos); deviceDirectivesCount := r.(deviceDirectivesCount); globalDeviceSourcePos := r.(globalDeviceSourcePos); sldCommentKeywords := r.(sldCommentKeywords); FP_ExportFile := r.(FP_ExportFile); exports := r.(exports); syxStack := r.(syxStack); saved_files := r.(saved_files); archivedInputFiles := v; ListAddress := r.(ListAddress); lastListedLine := r.(lastListedLine); reglenwidth := r.(reglenwidth); listing := r.(listing); nex := r.(nex) |}).
Definition set_ListAddress (v : Z) : St → St := on_lin (fun r =>
  {| IsRunning := r.(IsRunning); FP_Input := r.(FP_Input); rlpbuf := r.(rlpbuf); colonSubline := r.(colonSubline); blockComment := r.(blockComment); comlin := r.(comlin); lijst := r.(lijst); lijstp := r.(lijstp); listmacro := r.(listmacro); donotlist := r.(donotlist); macronummer := r.(macronummer); macs := r.(macs); mac_used := r.(mac_used); mdefs := r.(mdefs); mdef_used := r.(mdef_used); strs := r.(strs); PreviousIsLabel := r.(PreviousIsLabel); LastParsedLabel := r.(LastParsedLabel); LastParsedLabelLine := r.(LastParsedLabelLine); RepeatStack := r.(RepeatStack); StartAddress := r.(StartAddress); maxlin := r.(maxlin); ConvertEncoding := r.(ConvertEncoding); fileNameFull := r.(fileNameFull); sldSwapSrcPos := r.(sldSwapSrcPos); deviceDirectivesCount := r.(deviceDirectivesCount); globalDeviceSourcePos := r.(globalDeviceSourcePos); sldCommentKeywords := r.(sldCommentKeywords); FP_ExportFile := r.(FP_ExportFile); exports := r.(exports); syxStack := r.(syxStack); saved_files := r.(saved_files); archivedInputFiles := r.(archivedInputFiles); ListAddress := v; lastListedLine := r.(lastListedLine); reglenwidth := r.(reglenwidth); listing := r.(listing); nex := r.(nex) |}).
Definition set_lastListedLine (v : Z) : St → St := on_lin (fun r =>
  {| IsRunning := r.(IsRunning); FP_Input := r.(FP_Input); rlpbuf := r.(rlpbuf); colonSubline := r.(colonSubline); blockComment := r.(blockComment); comlin := r.(comlin); lijst := r.(lijst); lijstp := r.(lijstp); listmacro := r.(listmacro); donotlist := r.(donotlist); macronummer := r.(macronummer); macs := r.(macs); mac_used := r.(mac_used); mdefs := r.(mdefs); mdef_used := r.(mdef_used); strs := r.(strs); PreviousIsLabel := r.(PreviousIsLabel); LastParsedLabel := r.(LastParsedLabel); LastParsedLabelLine := r.(LastParsedLabelLine); RepeatStack := r.(RepeatStack); StartAddress := r.(StartAddress); maxlin := r.(maxlin); ConvertEncoding := r.(ConvertEncoding); fileNameFull := r.(fileNameFull); sldSwapSrcPos := r.(sldSwapSrcPos); deviceDirectivesCount := r.(deviceDirectivesCount); globalDeviceSourcePos := r.(globalDeviceSourcePos); sldCommentKeywords := r.(sldCommentKeywords); FP_ExportFile := r.(FP_ExportFile); exports := r.(exports); syxStack := r.(syxStack); saved_files := r.(saved_files); archivedInputFiles := r.(archivedInputFiles); ListAddress := r.(ListAddress); lastListedLine := v; reglenwidth := r.(reglenwidth); listing := r.(listing); nex := r.(nex) |}).
Definition set_reglenwidth (v : Z) : St → St := on_lin (fun r =>
  {| IsRunning := r.(IsRunning); FP_Input := r.(FP_Input); rlpbuf := r.(rlpbuf); colonSubline := r.(colonSubline); blockComment := r.(blockComment); comlin := r.(comlin); lijst := r.(lijst); lijstp := r.(lijstp); listmacro := r.(listmacro); donotlist := r.(donotlist); macronummer := r.(macronummer); macs := r.(macs); mac_used := r.(mac_used); mdefs := r.(mdefs); mdef_used := r.(mdef_used); strs := r.(strs); PreviousIsLabel := r.(PreviousIsLabel); LastParsedLabel := r.(LastParsedLabel); LastParsedLabelLine := r.(LastParsedLabelLine); RepeatStack := r.(RepeatStack); StartAddress := r.(StartAddress); maxlin := r.(maxlin); ConvertEncoding := r.(ConvertEncoding); fileNameFull := r.(fileNameFull); sldSwapSrcPos := r.(sldSwapSrcPos); deviceDirectivesCount := r.(deviceDirectivesCount); globalDeviceSourcePos := r.(globalDeviceSourcePos); sldCommentKeywords := r.(sldCommentKeywords); FP_ExportFile := r.(FP_ExportFile); exports := r.(exports); syxStack := r.(syxStack); saved_files := r.(saved_files); archivedInputFiles := r.(archivedInputFiles); ListAddress := r.(ListAddress); lastListedLine := r.(lastListedLine); reglenwidth := v; listing := r.(listing); nex := r.(nex) |}).
Definition set_listing (v : option (list (list ascii))) : St → St := on_lin (fun r =>
  {| IsRunning := r.(IsRunning); FP_Input := r.(FP_Input); rlpbuf := r.(rlpbuf); colonSubline := r.(colonSubline); blockComment := r.(blockComment); comlin := r.(comlin); lijst := r.(lijst); lijstp := r.(lijstp); listmacro := r.(listmacro); donotlist := r.(donotlist); macronummer := r.(macronummer); macs := r.(macs); mac_used := r.(mac_used); mdefs := r.(mdefs); mdef_used := r.(mdef_used); strs := r.(strs); PreviousIsLabel := r.(PreviousIsLabel); LastParsedLabel := r.(LastParsedLabel); LastParsedLabelLine := r.(LastParsedLabelLine); RepeatStack := r.(RepeatStack); StartAddress := r.(StartAddress); maxlin := r.(maxlin); ConvertEncoding := r.(ConvertEncoding); fileNameFull := r.(fileNameFull); sldSwapSrcPos := r.(sldSwapSrcPos); deviceDirectivesCount := r.(deviceDirectivesCount); globalDeviceSourcePos := r.(globalDeviceSourcePos); sldCommentKeywords := r.(sldCommentKeywords); FP_ExportFile := r.(FP_ExportFile); exports := r.(exports); syxStack := r.(syxStack); saved_files := r.(saved_files); archivedInputFiles := r.(archivedInputFiles); ListAddress := r.(ListAddress); lastListedLine := r.(lastListedLine); reglenwidth := r.(reglenwidth); listing := v; nex := r.(nex) |}).
Definition set_nex (v : SNexFile) : St → St := on_lin (fun r =>
  {| IsRunning := r.(IsRunning); FP_Input := r.(FP_Input); rlpbuf := r.(rlpbuf); colonSubline := r.(colonSubline); blockComment := r.(blockComment); comlin := r.(comlin); lijst := r.(lijst); lijstp := r.(lijstp); listmacro := r.(listmacro); donotlist := r.(donotlist); macronummer := r.(macronummer); macs := r.(macs); mac_used := r.(mac_used); mdefs := r.(mdefs); mdef_used := r.(mdef_used); strs := r.(strs); PreviousIsLabel := r.(PreviousIsLabel); LastParsedLabel := r.(LastParsedLabel); LastParsedLabelLine := r.(LastParsedLabelLine); RepeatStack := r.(RepeatStack); StartAddress := r.(StartAddress); maxlin := r.(maxlin); ConvertEncoding := r.(ConvertEncoding); fileNameFull := r.(fileNameFull); sldSwapSrcPos := r.(sldSwapSrcPos); deviceDirectivesCount := r.(deviceDirectivesCount); globalDeviceSourcePos := r.(globalDeviceSourcePos); sldCommentKeywords := r.(sldCommentKeywords); FP_ExportFile := r.(FP_ExportFile); exports := r.(exports); syxStack := r.(syxStack); saved_files := r.(saved_files); archivedInputFiles := r.(archivedInputFiles); ListAddress := r.(ListAddress); lastListedLine := r.(lastListedLine); reglenwidth := r.(reglenwidth); listing := r.(listing); nex := v |}).
Definition set_IsDefaultListingName (v : bool) : St → St := on_tex (fun r =>
  {| IsDefaultListingName := v; ListingFName := r.(ListingFName); OutputVerbosity := r.(OutputVerbosity); cerr := r.(cerr); listingFile := r.(listingFile); AddLabelListing := r.(AddLabelListing); SortSymbols := r.(SortSymbols); SymbolListFName := r.(SymbolListFName); IsDefaultSldName := r.(IsDefaultSldName); SourceLevelDebugFName := r.(SourceLevelDebugFName); UnrealLabelListFName := r.(UnrealLabelListFName); EmitVirtualLabels := r.(EmitVirtualLabels); CSpectMapFName := r.(CSpectMapFName); CSpectMapPageSize := r.(CSpectMapPageSize); breakpoints := r.(breakpoints) |}).
Definition set_ListingFName (v : list ascii) : St → St := on_tex (fun r =>
  {| IsDefaultListingName := r.(IsDefaultListingName); ListingFName := v; OutputVerbosity := r.(OutputVerbosity); cerr := r.(cerr); listingFile := r.(listingFile); AddLabelListing := r.(AddLabelListing); SortSymbols := r.(SortSymbols); SymbolListFName := r.(SymbolListFName); IsDefaultSldName := r.(IsDefaultSldName); SourceLevelDebugFName := r.(SourceLevelDebugFName); UnrealLabelListFName := r.(UnrealLabelListFName); EmitVirtualLabels := r.(EmitVirtualLabels); CSpectMapFName := r.(CSpectMapFName); CSpectMapPageSize := r.(CSpectMapPageSize); breakpoints := r.(breakpoints) |}).
Definition set_OutputVerbosity (v : EOutputVerbosity) : St → St := on_tex (fun r =>
  {| IsDefaultListingName := r.(IsDefaultListingName); ListingFName := r.(ListingFName); OutputVerbosity := v; cerr := r.(cerr); listingFile := r.(listingFile); AddLabelListing := r.(AddLabelListing); SortSymbols := r.(SortSymbols); SymbolListFName := r.(SymbolListFName); IsDefaultSldName := r.(IsDefaultSldName); SourceLevelDebugFName := r.(SourceLevelDebugFName); UnrealLabelListFName := r.(UnrealLabelListFName); EmitVirtualLabels := r.(EmitVirtualLabels); CSpectMapFName := r.(CSpectMapFName); CSpectMapPageSize := r.(CSpectMapPageSize); breakpoints := r.(breakpoints) |}).
Definition set_cerr (v : list (list ascii)) : St → St := on_tex (fun r =>
  {| IsDefaultListingName := r.(IsDefaultListingName); ListingFName := r.(ListingFName); OutputVerbosity := r.(OutputVerbosity); cerr := v; listingFile := r.(listingFile); AddLabelListing := r.(AddLabelListing); SortSymbols := r.(SortSymbols); SymbolListFName := r.(SymbolListFName); IsDefaultSldName := r.(IsDefaultSldName); SourceLevelDebugFName := r.(SourceLevelDebugFName); UnrealLabelListFName := r.(UnrealLabelListFName); EmitVirtualLabels := r.(EmitVirtualLabels); CSpectMapFName := r.(CSpectMapFName); CSpectMapPageSize := r.(CSpectMapPageSize); breakpoints := r.(breakpoints) |}).
Definition set_listingFile (v : list ascii) : St → St := on_tex (fun r =>
  {| IsDefaultListingName := r.(IsDefaultListingName); ListingFName := r.(ListingFName); OutputVerbosity := r.(OutputVerbosity); cerr := r.(cerr); listingFile := v; AddLabelListing := r.(AddLabelListing); SortSymbols := r.(SortSymbols); SymbolListFName := r.(SymbolListFName); IsDefaultSldName := r.(IsDefaultSldName); SourceLevelDebugFName := r.(SourceLevelDebugFName); UnrealLabelListFName := r.(UnrealLabelListFName); EmitVirtualLabels := r.(EmitVirtualLabels); CSpectMapFName := r.(CSpectMapFName); CSpectMapPageSize := r.(CSpectMapPageSize); breakpoints := r.(breakpoints) |}).
Definition set_AddLabelListing (v : bool) : St → St := on_tex (fun r =>
  {| IsDefaultListingName := r.(IsDefaultListingName); ListingFName := r.(ListingFName); OutputVerbosity := r.(OutputVerbosity); cerr := r.(cerr); listingFile := r.(listingFile); AddLabelListing := v; SortSymbols := r.(SortSymbols); SymbolListFName := r.(SymbolListFName); IsDefaultSldName := r.(IsDefaultSldName); SourceLevelDebugFName := r.(SourceLevelDebugFName); UnrealLabelListFName := r.(UnrealLabelListFName); EmitVirtualLabels := r.(EmitVirtualLabels); CSpectMapFName := r.(CSpectMapFName); CSpectMapPageSize := r.(CSpectMapPageSize); breakpoints := r.(breakpoints) |}).
Definition set_SortSymbols (v : bool) : St → St := on_tex (fun r =>
  {| IsDefaultListingName := r.(IsDefaultListingName); ListingFName := r.(ListingFName); OutputVerbosity := r.(OutputVerbosity); cerr := r.(cerr); listingFile := r.(listingFile); AddLabelListing := r.(AddLabelListing); SortSymbols := v; SymbolListFName := r.(SymbolListFName); IsDefaultSldName := r.(IsDefaultSldName); SourceLevelDebugFName := r.(SourceLevelDebugFName); UnrealLabelListFName := r.(UnrealLabelListFName); EmitVirtualLabels := r.(EmitVirtualLabels); CSpectMapFName := r.(CSpectMapFName); CSpectMapPageSize := r.(CSpectMapPageSize); breakpoints := r.(breakpoints) |}).
Definition set_SymbolListFName (v : list ascii) : St → St := on_tex (fun r =>
  {| IsDefaultListingName := r.(IsDefaultListingName); ListingFName := r.(ListingFName); OutputVerbosity := r.(OutputVerbosity); cerr := r.(cerr); listingFile := r.(listingFile); AddLabelListing := r.(AddLabelListing); SortSymbols := r.(SortSymbols); SymbolListFName := v; IsDefaultSldName := r.(IsDefaultSldName); SourceLevelDebugFName := r.(SourceLevelDebugFName); UnrealLabelListFName := r.(UnrealLabelListFName); EmitVirtualLabels := r.(EmitVirtualLabels); CSpectMapFName := r.(CSpectMapFName); CSpectMapPageSize := r.(CSpectMapPageSize); breakpoints := r.(breakpoints) |}).
Definition set_IsDefaultSldName (v : bool) : St → St := on_tex (fun r =>
  {| IsDefaultListingName := r.(IsDefaultListingName); ListingFName := r.(ListingFName); OutputVerbosity := r.(OutputVerbosity); cerr := r.(cerr); listingFile := r.(listingFile); AddLabelListing := r.(AddLabelListing); SortSymbols := r.(SortSymbols); SymbolListFName := r.(SymbolListFName); IsDefaultSldName := v; SourceLevelDebugFName := r.(SourceLevelDebugFName); UnrealLabelListFName := r.(UnrealLabelListFName); EmitVirtualLabels := r.(EmitVirtualLabels); CSpectMapFName := r.(CSpectMapFName); CSpectMapPageSize := r.(CSpectMapPageSize); breakpoints := r.(breakpoints) |}).
Definition set_SourceLevelDebugFName (v : list ascii) : St → St := on_tex (fun r =>
  {| IsDefaultListingName := r.(IsDefaultListingName); ListingFName := r.(ListingFName); OutputVerbosity := r.(OutputVerbosity); cerr := r.(cerr); listingFile := r.(listingFile); AddLabelListing := r.(AddLabelListing); SortSymbols := r.(SortSymbols); SymbolListFName := r.(SymbolListFName); IsDefaultSldName := r.(IsDefaultSldName); SourceLevelDebugFName := v; UnrealLabelListFName := r.(UnrealLabelListFName); EmitVirtualLabels := r.(EmitVirtualLabels); CSpectMapFName := r.(CSpectMapFName); CSpectMapPageSize := r.(CSpectMapPageSize); breakpoints := r.(breakpoints) |}).
Definition set_UnrealLabelListFName (v : list ascii) : St → St := on_tex (fun r =>
  {| IsDefaultListingName := r.(IsDefaultListingName); ListingFName := r.(ListingFName); OutputVerbosity := r.(OutputVerbosity); cerr := r.(cerr); listingFile := r.(listingFile); AddLabelListing := r.(AddLabelListing); SortSymbols := r.(SortSymbols); SymbolListFName := r.(SymbolListFName); IsDefaultSldName := r.(IsDefaultSldName); SourceLevelDebugFName := r.(SourceLevelDebugFName); UnrealLabelListFName := v; EmitVirtualLabels := r.(EmitVirtualLabels); CSpectMapFName := r.(CSpectMapFName); CSpectMapPageSize := r.(CSpectMapPageSize); breakpoints := r.(breakpoints) |}).
Definition set_EmitVirtualLabels (v : bool) : St → St := on_tex (fun r =>
  {| IsDefaultListingName := r.(IsDefaultListingName); ListingFName := r.(ListingFName); OutputVerbosity := r.(OutputVerbosity); cerr := r.(cerr); listingFile := r.(listingFile); AddLabelListing := r.(AddLabelListing); SortSymbols := r.(SortSymbols); SymbolListFName := r.(SymbolListFName); IsDefaultSldName := r.(IsDefaultSldName); SourceLevelDebugFName := r.(SourceLevelDebugFName); UnrealLabelListFName := r.(UnrealLabelListFName); EmitVirtualLabels := v; CSpectMapFName := r.(CSpectMapFName); CSpectMapPageSize := r.(CSpectMapPageSize); breakpoints := r.(breakpoints) |}).
Definition set_CSpectMapFName (v : list ascii) : St → St := on_tex (fun r =>
  {| IsDefaultListingName := r.(IsDefaultListingName); ListingFName := r.(ListingFName); OutputVerbosity := r.(OutputVerbosity); cerr := r.(cerr); listingFile := r.(listingFile); AddLabelListing := r.(AddLabelListing); SortSymbols := r.(SortSymbols); SymbolListFName := r.(SymbolListFName); IsDefaultSldName := r.(IsDefaultSldName); SourceLevelDebugFName := r.(SourceLevelDebugFName); UnrealLabelListFName := r.(UnrealLabelListFName); EmitVirtualLabels := r.(EmitVirtualLabels); CSpectMapFName := v; CSpectMapPageSize := r.(CSpectMapPageSize); breakpoints := r.(breakpoints) |}).
Definition set_CSpectMapPageSize (v : Z) : St → St := on_tex (fun r =>
  {| IsDefaultListingName := r.(IsDefaultListingName); ListingFName := r.(ListingFName); OutputVerbosity := r.(OutputVerbosity); cerr := r.(cerr); listingFile := r.(listingFile); AddLabelListing := r.(AddLabelListing); SortSymbols := r.(SortSymbols); SymbolListFName := r.(SymbolListFName); IsDefaultSldName := r.(IsDefaultSldName); SourceLevelDebugFName := r.(SourceLevelDebugFName); UnrealLabelListFName := r.(UnrealLabelListFName); EmitVirtualLabels := r.(EmitVirtualLabels); CSpectMapFName := r.(CSpectMapFName); CSpectMapPageSize := v; breakpoints := r.(breakpoints) |}).
Definition set_breakpoints (v : option BreakpointsFile) : St → St := on_tex (fun r =>
  {| IsDefaultListingName := r.(IsDefaultListingName); ListingFName := r.(ListingFName); OutputVerbosity := r.(OutputVerbosity); cerr := r.(cerr); listingFile := r.(listingFile); AddLabelListing := r.(AddLabelListing); SortSymbols := r.(SortSymbols); SymbolListFName := r.(SymbolListFName); IsDefaultSldName := r.(IsDefaultSldName); SourceLevelDebugFName := r.(SourceLevelDebugFName); UnrealLabelListFName := r.(UnrealLabelListFName); EmitVirtualLabels := r.(EmitVirtualLabels); CSpectMapFName := r.(CSpectMapFName); CSpectMapPageSize := r.(CSpectMapPageSize); breakpoints := v |}).

(** [substitutedLine] points to [line] when it is [None]. *)
Definition substituted (s : St) : list ascii :=
  default (aft (line (par s))) (substitutedLine (par s)).

(** --msg=lst: the listing goes to the error output. *)
Definition IsListingStderr (t : TxtState) : bool := bool_decide (OutputVerbosity t = OV_LST).
