(* ===== verification/Start.v ===== *)
(** * The state a run starts from (sjasm.cpp)

    The initial values of the globals, before [InitPass] and before any option,
    and the states the witnesses of the development evaluate on. *)

From S2P Require Export State.

(** [SSyntax()], Z80, no option given; the warnings as enabled at start. *)
Definition default_options (warnings : string → bool) : Options := {|
  syx := SSyntax_default; IsI8080 := false; IsLR35902 := false; IsLongPtr := false;
  warn_enabled := warnings |}.

Definition no_text : text := txt EmptyString.
Definition no_page : CDevicePage := {| pg_Size := 0; pg_Number := 0; RAM := 0 |}.

(** [TextFilePos()] *)
Definition no_position : TextFilePos :=
  {| filename := EmptyString; pos_line := 0; colBegin := 0; colEnd := 0 |}.

(** No NEX file was opened yet. *)
Definition no_nex : SNexFile :=
  {| nx_h := {| nh_version := 0; nh_ramReq := 0; nh_numBanks := 0; nh_screen := 0; nh_border := 0; nh_sp := 0; nh_pc := 0; nh_banks := []; nh_loadbar := 0; nh_loadbarColour := 0; nh_loadDelay := 0; nh_startDelay := 0; nh_preserveNextRegs := 0; nh_coreVersion := []; nh_hiResColour := 0; nh_entryBank := 0; nh_fileHandleCfg := 0; nh_expBusDisable := 0; nh_hasChecksum := false; nh_banksOffset := 0; nh_cliBuffer := 0; nh_cliBufferSize := 0; nh_screen2 := 0; nh_hasCopperCode := 0; nh_tilesScrConfig := []; nh_bigL2barPosY := 0; nh_crc32c := 0 |};
     reqFileVersion := 0; minFileVersion := 0; nx_f := None; lastBankIndex := 0; nx_copper := None;
     nx_palette := None; palDefined := false; canAppend := false |}.

(** The globals before the first pass. *)
Definition start_state (o : Options) : St := {|
  opt := o;
  err := {| ErrorCount := 0; WarningCount := 0; IsSkipErrors := false;
            PreviousErrorLine := -1; messages := [] |};
  src := {| pass := 0; CompiledCurrentLine := 0; IncludeLevel := -1; sourceBlockLevel := -2;
            sourcePosStack := []; smartSmcLines := []; smartSmcIndex := 0;
            eolComment := None; PredefinedCounter := 0 |};
  par := {| lp := no_text; bp := no_text; line := no_text; synerr := true;
            expectedAddressClosingBracket := -1; substitutedLine := None; dg_one := 0;
            zeroInDgWarning := false; getNumericValueLastErr := None;
            lastDisplacementParsedP := None; GetRegister_lastIxyD := 0;
            IsLabelNotFound := false; IsSubstituting := false; getLabel_invalidName := false;
            nextWasInitialized := false |};
  rel := {| rel_type := OFF; alternative_offset := 0; areLabelsOffset := false;
            isResultAffected := false; deltaType := OFF; offsets := []; offsetsPrevious := [];
            maxTableCount := 0; warnAboutContentChange := false; startPos := None |};
  tab := {| symbols := ∅; sizeofStack := []; labels := []; nextPassLabels := [];
            ModuleName := []; vorlab := str "_"; macrolabp := None; defs := ∅;
            DefArrayList := [] |};
  org := {| CurAddress := 0; PseudoORG := DISP_NONE; adrdisp := 0;
            dispPageNum := LABEL_PAGE_UNDEFINED; notWarnedCurAdr := true;
            notWarnedDisp := true |};
  dev := {| Devices := []; Device := None; Page := no_page; MemoryPointer := None;
            DefDevices := [] |};
  out := {| WriteBuffer := []; destlen := 0; FP_Output := None; FP_RAW := None;
            FP_tapout := false; tap_file := []; tape_seek := 0; tape_length := 0;
            tape_parity := 85; out_size := -1; outFile := []; out_tail := []; out_gap := 0;
            DestinationFName := []; NoDestinationFile := true; RAWFName := []; tapName := [];
            hexName := []; ExportFName := []; FP_HEX := None; hexFile := [];
            hexBytes := []; hexAddress := 0; ListEmittedBytes := []; someByteEmitted := false;
            sldActive := false; sldTrace := []; PageDiffersWarningShown := false |};
  lin := {| IsRunning := false; FP_Input := []; rlpbuf := []; colonSubline := false;
            blockComment := 0; comlin := 0; lijst := 0; lijstp := []; listmacro := 0;
            donotlist := false; macronummer := 0; macs := ∅; mac_used := []; mdefs := [];
            mdef_used := []; strs := ∅; PreviousIsLabel := None; LastParsedLabel := None;
            LastParsedLabelLine := 0; RepeatStack := []; StartAddress := -1; maxlin := 0;
            ConvertEncoding := ENCWIN; fileNameFull := None; sldSwapSrcPos := 0;
            deviceDirectivesCount := 0; globalDeviceSourcePos := no_position;
            sldCommentKeywords := []; FP_ExportFile := false; exports := []; syxStack := [];
            saved_files := []; archivedInputFiles := []; ListAddress := 0; lastListedLine := -1; reglenwidth := 0; listing := None;
            nex := no_nex |};
  tex := {| IsDefaultListingName := false; ListingFName := []; OutputVerbosity := OV_ALL; cerr := []; listingFile := [];
            AddLabelListing := false; SortSymbols := false; SymbolListFName := []; IsDefaultSldName := false; SourceLevelDebugFName := [];
            UnrealLabelListFName := []; EmitVirtualLabels := false; CSpectMapFName := []; CSpectMapPageSize := 0x4000;
            breakpoints := None |} |}.

(** The last pass at the first line of a source, with every warning enabled. *)
Definition last_pass : St :=
  set_pass LASTPASS (set_CompiledCurrentLine 1 (start_state (default_options (fun _ => true)))).

(** A line about to be parsed. *)
Definition at_line (l : string) (s : St) : St :=
  set_lp (txt l) (set_bp (txt l) (set_line (txt l) s)).
Arguments at_line l%_string s.
