(* ===== verification/Defines.v ===== *)
(** * The define table (tables.cpp, [CDefineTable])

    128 buckets selected by the low seven bits of the first character, each a
    singly linked list with the newest definition first. *)

From S2P Require Export Start.

(** [name[0] & 127] *)
Definition bucket (name : list ascii) : Z :=
  Z.land (code (match name with [] => NUL | c :: _ => c end)) 127.

Definition chain (t : gmap Z (list CDefineTableEntry)) (name : list ascii) : list CDefineTableEntry :=
  default [] (t !! bucket name).

(** The constructor copies the value up to the first end of line. *)
Fixpoint until_eol (v : list ascii) : list ascii :=
  match v with
  | [] => []
  | c :: v => if (Ascii.eqb c "010" || Ascii.eqb c "013")%char then [] else c :: until_eol v
  end.
Definition new_CDefineTableEntry (name val : list ascii) (nss : list (list ascii)) : CDefineTableEntry :=
  {| def_name := name; def_value := until_eol val; def_nss := nss |}.

Definition is_named (name : list ascii) (e : CDefineTableEntry) : bool :=
  bool_decide (name = def_name e).

Definition CDefineTable_FindDuplicate (t : gmap Z (list CDefineTableEntry)) (name : list ascii) : bool :=
  existsb (is_named name) (chain t name).

(** The first entry of the chain with that name. *)
Definition CDefineTable_find (t : gmap Z (list CDefineTableEntry)) (name : list ascii) : option CDefineTableEntry :=
  List.find (is_named name) (chain t name).

(** [Replace] overwrites the value of the first entry with that name, and puts
    a new entry in front of the chain when there is none. *)
Fixpoint replace_first (name val : list ascii) (l : list CDefineTableEntry) : list CDefineTableEntry :=
  match l with
  | [] => []
  | e :: l =>
      if is_named name e
      then {| def_name := def_name e; def_value := val; def_nss := def_nss e |} :: l
      else e :: replace_first name val l
  end.

Definition CDefineTable_Replace (name val : list ascii)
    (t : gmap Z (list CDefineTableEntry)) : gmap Z (list CDefineTableEntry) :=
  if CDefineTable_FindDuplicate t name
  then <[bucket name := replace_first name val (chain t name)]> t
  else <[bucket name := new_CDefineTableEntry name val [] :: chain t name]> t.

(** [Remove] unchains the first entry with that name. *)
Fixpoint remove_first (name : list ascii) (l : list CDefineTableEntry) : list CDefineTableEntry :=
  match l with
  | [] => []
  | e :: l => if is_named name e then l else e :: remove_first name l
  end.
Definition CDefineTable_Remove (name : list ascii)
    (t : gmap Z (list CDefineTableEntry)) : gmap Z (list CDefineTableEntry) :=
  <[bucket name := remove_first name (chain t name)]> t.
