(* ===== verification/Errors.v ===== *)
(** * Errors and warnings (io_err.cpp)

    [Error], [ErrorInt], [Warning] and [WarningById] with the filters by pass,
    by line and by option that decide whether a message is produced, the
    counters and the [__ERRORS__]/[__WARNINGS__] defines.  A message that passes
    the filters is appended to [messages], and its text, with file and line, is
    printed into the listing and to the error output. *)

From S2P Require Export Defines.

Open Scope string_scope.
Open Scope list_scope.
Open Scope Z_scope.

(** [initErrorLine]: where the line comes from, and for a line of a macro where that
    is used.  [skipEmitMessagePos] is set by Lua scripts only. *)
Definition skipEmitMessagePos : TextFilePos := no_position.
(** [TextFilePos::operator==] *)
Definition same_position (a b : TextFilePos) : bool :=
  bool_decide (filename a = filename b) && (pos_line a =? pos_line b).
Definition position_text (p : TextFilePos) : list ascii :=
  str (filename p) ++ str "(" ++ fmt_d (pos_line p) ++ str "): ".
Definition emitted_from (s : St) (back : TextFilePos) : list ascii :=
  let stack := sourcePosStack (src s) in
  let n := length stack in
  if Z.max 1 (wrap32 (IncludeLevel (src s) + 1)) <? Z.of_nat n then
    let previous := default no_position (stack !! (n - 2)%nat) in
    let previous := if same_position previous skipEmitMessagePos && negb (Nat.eqb n 2)
                    then default no_position (stack !! (n - 3)%nat) else previous in
    if negb (same_position previous skipEmitMessagePos) && negb (same_position previous back)
    then position_text previous ++ str "^ emitted from here" ++ [LF] else []
  else [].
Definition initErrorLine (s : St) : list ascii * list ascii :=
  match last (sourcePosStack (src s)) with
  | Some back =>
      if (pass (src s) <? 1) || (LASTPASS <? pass (src s)) then ([], [])
      else (position_text back, emitted_from s back)
  | None => ([], [])
  end.

(** [trimAndAddEol]: blanks at the end are cut off, but for the first character. *)
Definition is_space_or_tab (c : ascii) : bool := Ascii.eqb c " " || Ascii.eqb c "009".
Definition trimAndAddEol (l : list ascii) : list ascii :=
  match l with
  | [] => []
  | c :: l =>
      let kept := c :: rev (drop_while is_space_or_tab (rev l)) in
      if bool_decide (last kept = Some LF) then kept else kept ++ [LF]
  end.

(** [outputErrorLine]: into the listing whenever there is one, and to the error output
    when its verbosity allows (the colours are left out). *)
Definition outputErrorLine (level : EOutputVerbosity) (l1 l2 : list ascii) (s : St) : St :=
  let text := trimAndAddEol l1 :: (if bool_decide (l2 = []) then [] else [trimAndAddEol l2]) in
  let printed := if verbosity (OutputVerbosity (tex s)) <=? verbosity level then text else [] in
  set_cerr (cerr (tex s) ++ printed) (set_listing ((fun l => l ++ text) <$> listing (lin s)) s).

Definition message_text (d : diag) : list ascii :=
  (if d_error d then str "error: "
   else match d_id d with None => str "warning: " | Some id => str "warning[" ++ str id ++ str "]: " end)
  ++ str (d_msg d) ++ match d_bad d with Some b => str ": " ++ b | None => [] end.

Definition add_message (d : diag) (s : St) : St :=
  let l := initErrorLine s in
  outputErrorLine (if d_error d then OV_ERROR else OV_WARNING) (fst l ++ message_text d) (snd l)
    (set_messages (messages (err s) ++ [d]) s).

(** [DefineTable.Replace(name, number)] *)
Definition DefineTable_Replace_int (name : string) (n : Z) (s : St) : St :=
  set_defs (CDefineTable_Replace (str name) (fmt_d n) (defs (tab s))) s.

Definition is_type (a b : EStatus) : bool := bool_decide (a = b).

(** The early returns of [Error]: by pass, then by line. *)
Definition Error_wrong_pass (type : EStatus) (p : Z) : bool :=
  (is_type type EARLY && (LASTPASS <=? p))
  || ((is_type type SUPPRESS || is_type type IF_FIRST || is_type type PASS3) && (p <? LASTPASS))
  || (is_type type PASS03 && (0 <? p) && (p <? LASTPASS)).

Definition Error_skipped (type : EStatus) (s : St) : bool :=
  negb (is_type type FATAL)
  && (PreviousErrorLine (err s) =? CompiledCurrentLine (src s))
  && (IsSkipErrors (err s) || is_type type IF_FIRST).

Definition Error (message : string) (badValueMessage : option (list ascii)) (type : EStatus) : M St unit :=
  fun s =>
  if Error_wrong_pass type (pass (src s)) then Ret tt s
  else if Error_skipped type s then Ret tt s
  else
    let same := PreviousErrorLine (err s) =? CompiledCurrentLine (src s) in
    let s := set_IsSkipErrors ((IsSkipErrors (err s) && same) || is_type type SUPPRESS) s in
    let s := set_PreviousErrorLine (CompiledCurrentLine (src s)) s in
    let s := set_ErrorCount (ErrorCount (err s) + 1) s in
    let s := DefineTable_Replace_int "__ERRORS__" (ErrorCount (err s)) s in
    let s := add_message (mk_diag true None message badValueMessage) s in
    if is_type type FATAL then Exit s else Ret tt s.

Definition ErrorInt (message : string) (badValue : Z) (type : EStatus) : M St unit :=
  Error message (Some (fmt_d badValue)) type.

(** [Error(message)] with the default arguments. *)
Definition Error1 (message : string) : M St unit := Error message None PASS3.

Definition EWStatus_status (type : EWStatus) : EStatus :=
  match type with W_EARLY => EARLY | W_PASS3 => PASS3 | W_PASS03 => PASS03 | W_ALL => ALL end.

Definition WarningImpl (id : option string) (message : string)
    (badValueMessage : option (list ascii)) (type : EWStatus) : M St unit :=
  s ← gets st;
  if WarningsAsErrors (syx (opt s)) then Error message badValueMessage (EWStatus_status type)
  else
    modify (fun s =>
      let s := set_WarningCount (WarningCount (err s) + 1) s in
      let s := DefineTable_Replace_int "__WARNINGS__" (WarningCount (err s)) s in
      add_message (mk_diag false id message badValueMessage) s).

Definition isInactiveTypeInCurrentPass (type : EWStatus) (p : Z) : bool :=
  match type with
  | W_EARLY => LASTPASS <=? p
  | W_PASS3 => p <? LASTPASS
  | W_PASS03 => (0 <? p) && (p <? LASTPASS)
  | W_ALL => false
  end.

Definition Warning (message : string) (badValueMessage : option (list ascii)) (type : EWStatus) : M St unit :=
  s ← gets st;
  if isInactiveTypeInCurrentPass type (pass (src s)) then mret tt
  else WarningImpl None message badValueMessage type.

(** [Warning(message)] with the default arguments. *)
Definition Warning1 (message : string) : M St unit := Warning message None W_PASS3.

(** [suppressedById]: the text ["<id>-ok"] (for [fake] the id alone) occurs in
    the comment.  [skip] characters are passed over first: after an occurrence
    of [id] without [-ok] the search goes on behind that occurrence. *)
Fixpoint is_prefix (id s : list ascii) : bool :=
  match id, s with
  | [], _ => true
  | c :: id, d :: s => Ascii.eqb c d && is_prefix id s
  | _ :: _, [] => false
  end.

Fixpoint suppressed_in (id s : list ascii) (skip : nat) : bool :=
  match skip with
  | S k => match s with [] => false | _ :: s => suppressed_in id s k end
  | O =>
      if is_prefix id s then
        if bool_decide (id = str "fake") || is_prefix (str "-ok") (drop (length id) s) then true
        else match s with [] => false | _ :: s => suppressed_in id s (pred (length id)) end
      else match s with [] => false | _ :: s => suppressed_in id s O end
  end.

Definition suppressedById (id : string) (s : St) : bool :=
  match eolComment (src s) with
  | None => false
  | Some c => suppressed_in (str id) c 0
  end.

Definition dq : string := String "034"%char EmptyString.

(** [w_texts]: for each id-warning whether it is enabled initially (which
    [warn_enabled] holds afterwards) and its message. *)
Definition w_texts : list (string * (bool * string)) := [
  ("noramtop", (true, "current device doesn't init memory in any way (RAMTOP is ignored)"));
  ("devramtop", (true, "[DEVICE] this device was already opened with different RAMTOP value"));
  ("fileorg", (true, "ORG does not pad output file to reach target address, bytes skipped"));
  ("displacedorg", (true, "ORG-address set inside displaced block, the physical address is not modified, only displacement address"));
  ("orgpage", (true, "[ORG] page argument affects current slot while address is outside"));
  ("fwdref", (true, "forward reference of symbol"));
  ("luamc", (true, ("When lua script emits machine code bytes, use " ++ dq ++ "ALLPASS" ++ dq ++ " modifier")%string));
  ("nexstack", (true, "[SAVENEX] non-zero data are in stackAddress area, may get overwritten by NEXLOAD"));
  ("sna48", (true, "[SAVESNA] RAM <0x4000-0x4001> will be overwritten due to 48k snapshot imperfect format."));
  ("sna128", (true, "only 128kb will be written to snapshot"));
  ("trdext", (true, "invalid file extension, TRDOS official extensions are B, C, D and #."));
  ("trdext3", (true, "3-letter extension of TRDOS file (unofficial extension)"));
  ("trdextb", (true, ("the " ++ dq ++ "B" ++ dq ++ " extension is always single letter")%string));
  ("trddup", (true, "TRD file already exists, creating one more!"));
  ("relalign", (true, "[ALIGN] inside relocation block: may become misaligned when relocated"));
  ("rdlow", (false, "Reading memory at low address"));
  ("reldiverts", (true, ("Expression can't be relocated by simple " ++ dq ++ "+offset" ++ dq ++ " mechanics, value diverts differently.")%string));
  ("relunstable", (true, "Relocation makes one of the expressions unstable, resulting machine code is not relocatable"));
  ("dispmempage", (true, "DISP memory page differs from current mapping"));
  ("bpfile", (true, "breakpoints file was not specified"));
  ("sldswap", (true, "SLDOPT swapon/swapoff unevenly paired within macro/include"));
  ("out0", (true, "'out (c),0' is unstable, on CMOS based chips it does `out (c),255`"));
  ("backslash", (true, "File name contains \, use / instead (\ fails on most of the supported platforms)"));
  ("opkeyword", (true, "Label collides with one of the operator keywords, try capitalizing it or other name"));
  ("behost", (true, "Big-endian host detected: support is experimental, please report any issues"));
  ("fake", (true, "Fake instruction"));
  ("decimalz", (false, "decimal part is ignored"));
  ("decimaln", (true, "decimal part is ignored"));
  ("shortblock", (true, "init data for block truncated to length"));
  ("emptystr", (true, "empty string"));
  ("all", (false, EmptyString))
].

Definition assoc {A} (id : string) (l : list (string * A)) : option A :=
  snd <$> List.find (fun e => bool_decide (fst e = id)) l.

Definition WarningById (id : string) (badValueMessage : option (list ascii)) (type : EWStatus) : M St unit :=
  s ← gets st;
  if isInactiveTypeInCurrentPass type (pass (src s)) then mret tt
  else if suppressedById id s then mret tt
  else match assoc id w_texts with
  | None => undef
  | Some (_, txt) =>
      if negb (warn_enabled (opt s) id) then mret tt
      else WarningImpl (Some id) txt badValueMessage type
  end.

Definition WarningById1 (id : string) : M St unit := WarningById id None W_PASS3.
