(* ===== verification/Reader.v ===== *)
(** * Lexical layer (reader.cpp)

    Character classes, keyword and operator recognition, brackets, number,
    character and string literals.  Routines that only look at the text and move
    the pointer are plain functions from [text]; those that report or touch a
    global are programs over the state. *)

From S2P Require Export Errors.

(** ** Blanks and keywords *)

Definition White (c : ascii) : bool :=
  negb (Ascii.eqb c NUL) && (Z.land (code c) 255 <=? 32).

Fixpoint skip_white (b r : list ascii) : text :=
  match r with
  | c :: r' => if White c then skip_white (c :: b) r' else mk_text b r
  | [] => mk_text b []
  end.

(** Answers whether the end of the text was reached. *)
Definition SkipBlanks (p : text) : bool * text :=
  let p := skip_white (bef p) (aft p) in (isc p NUL, p).

(** [SkipBlanks(p)] for its effect only. *)
Definition blanks (p : text) : text := snd (SkipBlanks p).

Fixpoint skip_until (f : ascii → bool) (b r : list ascii) : text :=
  match r with
  | c :: r' => if Ascii.eqb c NUL || f c then mk_text b r else skip_until f (c :: b) r'
  | [] => mk_text b []
  end.
Definition SkipParam (p : text) : text := skip_until (Ascii.eqb ",") (bef p) (aft p).
Definition SkipToEol (p : text) : text := skip_until (fun _ => false) (bef p) (aft p).

Definition islabchar (c : ascii) : bool :=
  isalnum c || Ascii.eqb c "_" || Ascii.eqb c "." || Ascii.eqb c "?"
  || Ascii.eqb c "!" || Ascii.eqb c "#" || Ascii.eqb c "@".

(** [isLabelStart(p, false)] and [isLabelStart(p)]. *)
Definition isLabelStart_false (p : text) : bool :=
  negb (isc p NUL) && (isalpha (cur p) || isc p "_").
Definition isLabelStart (p : text) : bool :=
  if isc p "." || isc p "@" then isLabelStart_false (adv p) else isLabelStart_false p.

(** The two comparison loops of [cmphstr]: up to the first letter of the
    keyword, and from there with the keyword in the case selected by [conv]. *)
Fixpoint cmp_head (p2 p1 : list ascii) : option (list ascii * list ascii) :=
  match p2 with
  | [] => Some ([], p1)
  | c :: p2' =>
      if isalpha c then Some (p2, p1)
      else match p1 with
           | d :: p1' => if Ascii.eqb d c then cmp_head p2' p1' else None
           | [] => None
           end
  end.
Fixpoint cmp_tail (conv : ascii → ascii) (p2 p1 : list ascii) : option (list ascii) :=
  match p2 with
  | [] => Some p1
  | c :: p2 =>
      match p1 with
      | d :: p1 => if Ascii.eqb d (conv c) then cmp_tail conv p2 p1 else None
      | [] => None
      end
  end.

(** What may follow a keyword: the end, white space, a comment, and when
    allowed an opening parenthesis. *)
Definition word_end (p : text) (allowParenthesisEnd : bool) : bool :=
  isc p NUL || White (cur p) || isc p ";"
  || (isc p "/" && isn p 1 "/") || (isc p "/" && isn p 1 "*")
  || (allowParenthesisEnd && isc p "(").

Definition cmphstr (p1 : text) (p2 : string) (allowParenthesisEnd : bool) : bool * text :=
  match cmp_head (str p2) (aft p1) with
  | None => (false, p1)
  | Some (l2, l1) =>
      let up := isupper (match l1 with [] => NUL | c :: _ => c end) in
      match cmp_tail (if up then toupper else id) l2 l1 with
      | None => (false, p1)
      | Some _ =>
          let p := advn (String.length p2) p1 in
          if word_end p allowParenthesisEnd then (true, p) else (false, p1)
      end
  end.
Arguments cmphstr p1 p2%_string allowParenthesisEnd.

Definition NeedEQU (lp : text) : bool * text :=
  let p := blanks lp in
  let p := if isc p "." then adv p else p in
  let '(r, p) := cmphstr p "equ" false in
  if r then (true, p) else (false, lp).

Definition NeedDEFL (lp : text) : bool * text :=
  let p := blanks lp in
  if isc p "=" then (true, adv p)
  else
    let p := if isc p "." then adv p else p in
    let '(r, p) := cmphstr p "defl" false in
    if r then (true, p) else (false, lp).

(** [isMacroNext] skips the blanks of [lp] but does not consume the directive. *)
Definition isMacroNext (lp : text) : bool * text :=
  let '(eol, lp) := SkipBlanks lp in
  if eol then (false, lp)
  else
    let p := if isc lp "." then adv lp else lp in
    (fst (cmphstr p "macro" false), lp).

(** ** Separators and operators *)

Definition anyComma (p : text) : bool * text :=
  let p := blanks p in
  if isc p "," then (true, adv p) else (false, p).

Definition comma (p : text) : bool * text :=
  let p := blanks p in
  if negb (isc p ",") || isn p 1 "," then (false, p) else (true, adv p).

Definition doubleComma (p : text) : bool * text :=
  let p := blanks p in
  if negb (isc p ",") || negb (isn p 1 ",") then (false, p) else (true, advn 2 p).

Definition isMultiArgPlainComma (o : SSyntax) : bool :=
  match MultiArg o with MA_comma => true | MA_doubleComma => false end.

Definition call_MultiArg (o : SSyntax) : text → bool * text :=
  match MultiArg o with MA_comma => comma | MA_doubleComma => doubleComma end.

Definition nonMaComma (o : SSyntax) (p : text) : bool * text :=
  if isMultiArgPlainComma o then (false, p) else comma p.

Definition relaxedMaComma (o : SSyntax) (p : text) : bool * text :=
  let p := blanks p in
  if negb (isc p ",") then (false, p)
  else if isn p 1 "," then
    if isMultiArgPlainComma o then (false, p) else (true, advn 2 p)
  else (true, adv p).

(** [need(p, c)] *)
Definition need_c (p : text) (c : ascii) : bool * text :=
  let p := blanks p in
  if isc p c then (true, adv p) else (false, p).
Arguments need_c p c%_char.

(** [need(p, table)]: the table holds pairs of characters; a pair [c' '] is the
    operator [c], [c_] the operator [c] not followed by itself, and [cd] the two
    characters.  The result is the sum of the character codes, 0 for none. *)
Fixpoint need_table (p : text) (c : list ascii) : Z * text :=
  match c with
  | a :: b :: c =>
      if negb (isc p a) then need_table p c
      else if Ascii.eqb b " " then (code a, adv p)
      else if Ascii.eqb b "_" && negb (isn p 1 a) then (code a, adv p)
      else if isn p 1 b then (code a + code b, advn 2 p)
      else need_table p c
  | _ => (0, p)
  end.
Definition need (p : text) (c : string) : Z * text := need_table (blanks p) (str c).
Arguments need p c%_string.

(** [needa]: up to three keywords, each with the code to answer. *)
Fixpoint needa_list (p : text) (ks : list (string * Z)) (allow : bool) : Z * text :=
  match ks with
  | [] => (0, p)
  | (c, r) :: ks =>
      let '(ok, p') := cmphstr p c allow in
      if ok then (r, p') else needa_list p ks allow
  end.
Definition needa (p : text) (ks : list (string * Z)) (allowParenthesisEnd : bool) : Z * text :=
  if isalpha (cur p) then needa_list p ks allowParenthesisEnd else (0, p).

(** ** Brackets *)

Inductive EBracketType := BT_NONE | BT_ROUND | BT_CURLY | BT_SQUARE.
#[export] Instance EBracketType_eq_dec : EqDecision EBracketType.
Proof. solve_decision. Defined.

Definition OpenBracket (p : text) : M St (EBracketType * text) :=
  o ← gets (fun s => syx (opt s));
  let p := blanks p in
  if (MemoryBrackets o =? 2) && isc p "(" then mret (BT_NONE, p)
  else if isc p "(" then
    modify (set_expectedAddressClosingBracket (code ")")) ;; mret (BT_ROUND, adv p)
  else if isc p "[" then
    modify (set_expectedAddressClosingBracket (code "]")) ;; mret (BT_SQUARE, adv p)
  else
    modify (set_expectedAddressClosingBracket (-1)) ;; mret (BT_NONE, p).

Definition CloseBracket (p : text) : M St (bool * text) :=
  e ← gets (fun s => expectedAddressClosingBracket (par s));
  let p := blanks p in
  if negb (schar (cur p) =? e) then mret (false, p)
  else modify (set_expectedAddressClosingBracket (-1)) ;; mret (true, adv p).

(** [ParenthesesEnd]: the pointer behind the parenthesis closing the one at
    [p] (and behind the blanks there), [None] for [nullptr]. *)
Fixpoint paren_end (depth : Z) (b r : list ascii) : option text :=
  match r with
  | [] => None
  | c :: r =>
      if Ascii.eqb c NUL then None
      else if Ascii.eqb c "(" then paren_end (depth + 1) (c :: b) r
      else if Ascii.eqb c ")" then
        if depth - 1 =? 0 then Some (skip_white (c :: b) r)
        else paren_end (depth - 1) (c :: b) r
      else paren_end depth (c :: b) r
  end.
Definition ParenthesesEnd (p : text) : option text :=
  let '(eol, p) := SkipBlanks p in
  if eol || negb (isc p "(") then None else paren_end 0 (bef p) (aft p).

(** ** Identifiers and instruction names *)

(** The characters satisfying [f] from the pointer, and the text behind them. *)
Fixpoint span (f : ascii → bool) (b r : list ascii) : list ascii * text :=
  match r with
  | c :: r' =>
      if f c then let '(l, p) := span f (c :: b) r' in (c :: l, p) else ([], mk_text b r)
  | [] => ([], mk_text b [])
  end.
Definition take_while (f : ascii → bool) (p : text) : list ascii * text :=
  span f (bef p) (aft p).

Definition GetID (p : text) : option (list ascii) * text :=
  let '(eol, p) := SkipBlanks p in
  if eol || (negb (isLabelStart_false p) && negb (isc p ".")) then (None, p)
  else let '(l, p) := take_while islabchar p in (Some l, p).

Definition getinstr (o : SSyntax) (p : text) : option (list ascii) * text :=
  let p := blanks p in
  if negb (isalpha (cur p)) && negb (isc p ".") then (None, p)
  else
    let c := cur p in
    let '(l, p) := take_while (fun c => negb (Ascii.eqb c NUL) && (isalnum c || Ascii.eqb c "_")) (adv p) in
    if isc p ":" then (None, p)
    else
      let name := c :: l in
      (Some (if CaseInsensitiveInstructions o then map tolower name else name), p).

(** ** Range checks *)

Definition check8 (val : Z) : M St Z :=
  if (val <? -256) || (255 <? val) then
    Warning (of_chars (str "value 0x" ++ fmt_X val ++ str " is truncated to 8bit value: 0x"
                       ++ fmt_0X 2 (Z.land val 255))) None W_PASS3 ;;
    mret 0
  else mret 1.

Definition check8o (val : Z) : M St Z :=
  if (val <? -128) || (127 <? val) then
    Error (of_chars (str "Offset out of range (" ++ fmt_plus val ++ str ")")) None IF_FIRST ;;
    mret 0
  else mret 1.

Definition warn16 (val : Z) : M St unit :=
  Warning (of_chars (str "value 0x" ++ fmt_X val ++ str " is truncated to 16bit value: 0x"
                     ++ fmt_0X 4 (Z.land val 65535))) None W_PASS3.

Definition check16 (val : Z) : M St Z :=
  if (val <? -65536) || (65535 <? val) then warn16 val ;; mret 0 else mret 1.

Definition check16u (val : Z) : M St Z :=
  if (val <? 0) || (65535 <? val) then warn16 val ;; mret 0 else mret 1.

Definition check24 (val : Z) : M St Z :=
  if (val <? -16777216) || (16777215 <? val) then
    Warning (of_chars (str "value 0x" ++ fmt_X val ++ str " is truncated to 24bit value: 0x"
                       ++ fmt_0X 6 (Z.land val 16777215))) None W_PASS3 ;;
    mret 0
  else mret 1.

Definition checkLowMemory (hiByte lowByte : Z) : M St unit :=
  t ← gets (fun s => rel_type (rel s));
  if negb (u8 hiByte =? 0) || negb (t =? 0) then mret tt
  else WarningById "rdlow" (Some (fmt_d (u8 lowByte))) W_PASS3.

(** ** Numeric literals *)

Definition getval (p : ascii) : Z :=
  if code p <=? code "9" then code p - code "0" else Z.lor (code p) 32 - code "a" + 10.

(** The literal between [p] and [pend], [n] characters: the value, the error
    recorded and the text behind what was read.  Ticks and underscores ahead of
    an alphanumeric character are separators; the step folds one digit in. *)
Section digits_loop.
Context (base : Z) (fold : Z → Z → Z * bool).

Fixpoint digits_loop (n : nat) (p : text) (val : Z) (e : option numerr) : Z * option numerr * text :=
  match n with
  | O => (val, e, p)
  | S n =>
      let charDigit := cur p in
      let p := adv p in
      if (Ascii.eqb charDigit "'" || Ascii.eqb charDigit "_") && isalnum (cur p)
      then digits_loop n p val e
      else if Ascii.eqb charDigit NUL || negb (isalnum charDigit)
      then (val, Some getNumericValueErr_no_digit, p)
      else
        let digit := getval charDigit in
        if base <=? digit then (val, Some getNumericValueErr_digit, p)
        else
          let '(val', over) := fold val digit in
          digits_loop n p val' (if over then Some getNumericValueErr_overflow else e)
  end.
End digits_loop.

(** [val & overflowMask] before the shift, for [shiftBase] bits per digit. *)
Definition fold_TwoBased (shiftBase val digit : Z) : Z * bool :=
  let overflowMask := wrap32 (Z.shiftl (-1) (32 - shiftBase)) in
  (wrap32 (wrap32 (Z.shiftl val shiftBase) + digit),
   negb (Z.land val overflowMask =? 0)).

(** [static_cast<uint32_t>(val) < oval] after the multiplication. *)
Definition fold_IntBased (base val digit : Z) : Z * bool :=
  let val' := wrap32 (val * base + digit) in
  (val', u32 val' <? u32 val).

Definition numeric_value (n : nat) (p : text) (base : Z) (fold : Z → Z → Z * bool) :
    Z * option numerr * text :=
  match n with
  | O => (0, Some getNumericValueErr_syntax, p)
  | _ => digits_loop base fold n p 0 None
  end.

(** Both record [getNumericValueLastErr] and answer whether it is [NULL]. *)
Definition GetNumericValue_TwoBased (p : text) (n : nat) (shiftBase : Z) : M St (bool * Z * text) :=
  if (shiftBase <? 1) || (5 <? shiftBase)
  then Error "Internal error, wrong base" None FATAL ;; undef
  else
    let '(val, e, p) := numeric_value n p (Z.shiftl 1 shiftBase) (fold_TwoBased shiftBase) in
    modify (set_getNumericValueLastErr e) ;;
    mret (bool_decide (e = None), val, p).

Definition GetNumericValue_IntBased (p : text) (n : nat) (base : Z) : M St (bool * Z * text) :=
  if (base <? 2) || (36 <? base)
  then Error "Internal error, wrong base" None FATAL ;; undef
  else
    let '(val, e, p) := numeric_value n p base (fold_IntBased base) in
    modify (set_getNumericValueLastErr e) ;;
    mret (bool_decide (e = None), val, p).

Definition numerr_text (e : numerr) : string :=
  match e with
  | getNumericValueErr_syntax => "Syntax error"
  | getNumericValueErr_digit => "Digit not in base"
  | getNumericValueErr_no_digit => "Missing next digit"
  | getNumericValueErr_overflow => "Overflow"
  end.

Definition GetNumericValue_ProcessLastError (srcLine : text) : M St bool :=
  e ← gets (fun s => getNumericValueLastErr (par s));
  match e with
  | None => mret false
  | Some e =>
      Error (numerr_text e) (Some (aft srcLine)) SUPPRESS ;;
      mret (negb (bool_decide (e = getNumericValueErr_overflow)))
  end.

(** The end of the literal: behind the last alphanumeric character, with ticks
    and underscores between two of them. *)
Fixpoint literal_end (b r : list ascii) : text :=
  match r with
  | c :: r' =>
      if isalnum c
         || ((Ascii.eqb c "'" || Ascii.eqb c "_")
             && isalnum (match r' with [] => NUL | d :: _ => d end))
      then literal_end (c :: b) r'
      else mk_text b r
  | [] => mk_text b []
  end.

Definition GetConstant_end (op : text) : text :=
  let pend := if isc op "#" || isc op "$" || isc op "%" then adv op else op in
  literal_end (bef pend) (aft pend).

(** The prefix of the literal: bits per digit (0 when there is none) and the
    text behind the prefix. *)
Definition GetConstant_prefix (op pend : text) : Z * text :=
  if isc op "#" || isc op "$" then (4, adv op)
  else if isc op "0" && Ascii.eqb (or20 (pk op 1)) "x" then (4, advn 2 op)
  else if isc op "0" && Ascii.eqb (or20 (pk op 1)) "b" && negb (Ascii.eqb (or20 (prev pend)) "h")
  then (1, advn 2 op)
  else if isc op "0" && Ascii.eqb (or20 (pk op 1)) "q" then (3, advn 2 op)
  else if isc op "%" then (1, adv op)
  else (0, op).

(** The suffix, when there was no prefix: bits per digit or a base, the end of
    the digits and whether a suffix was there. *)
Definition GetConstant_suffix (pend : text) : Z * Z * text * bool :=
  let c := or20 (prev pend) in
  if Ascii.eqb c "h" then (4, 0, back pend, true)
  else if Ascii.eqb c "q" then (3, 0, back pend, true)
  else if Ascii.eqb c "o" then (3, 0, back pend, true)
  else if Ascii.eqb c "b" then (1, 0, back pend, true)
  else if Ascii.eqb c "d" then (0, 10, back pend, true)
  else (0, 10, pend, false).

(** [GetNumericValue_TwoBased] or [_IntBased] by the base found. *)
Definition GetNumericValue (p : text) (n : nat) (shiftBase base : Z) : M St (bool * Z * text) :=
  if 0 <? shiftBase then GetNumericValue_TwoBased p n shiftBase
  else GetNumericValue_IntBased p n base.

(** The decimal part behind the literal is parsed, warned about and dropped. *)
Definition GetConstant_decimal (op hardEnd : text) (val shiftBase base : Z) : M St (Z * Z * text) :=
  let p := adv hardEnd in
  massert (isalnum (cur p)) ;;
  let pend := advn 2 hardEnd in
  let pend := literal_end (bef pend) (aft pend) in
  '(_, fractionVal, _) ← GetNumericValue p (room p - room pend)%nat shiftBase base;
  e ← gets (fun s => getNumericValueLastErr (par s));
  match e with
  | Some getNumericValueErr_overflow =>
      modify (set_getNumericValueLastErr None) ;;
      WarningById "decimaln" (Some (aft op)) W_PASS3 ;;
      mret (1, val, pend)
  | Some _ =>
      GetNumericValue_ProcessLastError hardEnd ;;
      mret (0, val, op)
  | None =>
      WarningById (if fractionVal =? 0 then "decimalz" else "decimaln") (Some (aft op)) W_PASS3 ;;
      mret (1, val, pend)
  end.

Definition GetConstant (op : text) : M St (Z * Z * text) :=
  massert (isdigit (cur op) || isc op "#" || isc op "$" || isc op "%") ;;
  let hardEnd := GetConstant_end op in
  let has_decimal_part := isc hardEnd "." && isalnum (pk hardEnd 1) in
  let '(shiftBase, p) := GetConstant_prefix op hardEnd in
  let '(shiftBase, base, pend, suffixed) :=
    if shiftBase =? 0 then GetConstant_suffix hardEnd else (shiftBase, 0, hardEnd, false) in
  let has_decimal_part := has_decimal_part && negb suffixed in
  if isc p "'" || Ascii.eqb (prev pend) "'" || isc p "_" || Ascii.eqb (prev pend) "_" then
    Error (numerr_text getNumericValueErr_no_digit) (Some (aft op)) SUPPRESS ;;
    mret (0, 0, op)
  else
    '(ok, val, _) ← GetNumericValue p (room p - room pend)%nat shiftBase base;
    failed ← (if (ok : bool) then mret false else GetNumericValue_ProcessLastError op);
    if (failed : bool) then mret (0, val, op)
    else if negb has_decimal_part then mret (1, val, hardEnd)
    else GetConstant_decimal op hardEnd val shiftBase base.

(** ** Character and string literals *)

(** The characters that may follow a backslash and their value. *)
Definition escape (c : ascii) : option Z :=
  if Ascii.eqb c "\" || Ascii.eqb c "'" || Ascii.eqb c "034" || Ascii.eqb c "?" then Some (schar c)
  else if Ascii.eqb c "0" then Some 0
  else if Ascii.eqb c "n" || Ascii.eqb c "N" then Some 10
  else if Ascii.eqb c "t" || Ascii.eqb c "T" then Some 9
  else if Ascii.eqb c "v" || Ascii.eqb c "V" then Some 11
  else if Ascii.eqb c "b" || Ascii.eqb c "B" then Some 8
  else if Ascii.eqb c "r" || Ascii.eqb c "R" then Some 13
  else if Ascii.eqb c "f" || Ascii.eqb c "F" then Some 12
  else if Ascii.eqb c "a" || Ascii.eqb c "A" then Some 7
  else if Ascii.eqb c "e" || Ascii.eqb c "E" then Some 27
  else if Ascii.eqb c "d" || Ascii.eqb c "D" then Some 127
  else None.

(** [None]: closing quote or end of text. *)
Definition GetCharConstInDoubleQuotes (op : text) : M St (option Z * text) :=
  if isc op "034" || isc op NUL then mret (None, op)
  else if negb (isc op "\") then mret (Some (schar (cur op)), adv op)
  else
    match escape (pk op 1) with
    | Some val => mret (Some val, advn 2 op)
    | None =>
        Warning "Unknown escape" (Some (aft op)) W_PASS3 ;;
        mret (Some (schar "\"), adv op)
    end.

Definition GetCharConstInApostrophes (op : text) : M St (option Z * text) :=
  if isc op "'" && isn op 1 "'" then mret (Some (schar "'"), advn 2 op)
  else if isc op "'" || isc op NUL then mret (None, op)
  else mret (Some (schar (cur op)), adv op).

(** The inner loop of [GetCharConstAsString]: the characters of one literal,
    at most [room] of them; each consumes text, which bounds the fuel. *)
Fixpoint string_chars (fuel : nat) (quotes : bool) (p : text) (e : list Z) (max_ei add : Z) :
    M St (list Z * text) :=
  match fuel with
  | O => nofuel
  | S fuel =>
      if Z.of_nat (length e) <? max_ei then
        '(r, p) ← (if quotes then GetCharConstInDoubleQuotes p else GetCharConstInApostrophes p);
        match (r : option Z) with
        | None => mret (e, p)
        | Some val => string_chars fuel quotes p (e ++ [Z.land (val + add) 255]) max_ei add
        end
      else mret (e, p)
  end.

(** [e[ei - 1] |= bits] *)
Definition patch_last (e : list Z) (bits : Z) : list Z :=
  match reverse e with
  | [] => []
  | x :: r => reverse (Z.lor x bits :: r)
  end.

(** Literals joined by [..]; [e] is the part of the buffer filled so far.
    Result -2: buffer full, -1: syntax error, 0: no literal, 1 or 2: the last
    one was in apostrophes or in quotes. *)
Fixpoint string_parts (fuel : nat) (p : text) (e : list Z) (max_ei add : Z) : M St (Z * list Z * text) :=
  match fuel with
  | O => nofuel
  | S fuel =>
      let eiStart := length e in
      let elementP := p in
      let quotes := isc p "034" in
      let p := adv p in
      '(e, p) ← string_chars (S (room p)) quotes p e max_ei add;
      if negb (Ascii.eqb (cur p) (if quotes then "034"%char else "'"%char)) then
        if negb (isc p NUL) then mret (-2, e, p)
        else Error "Syntax error" (Some (aft elementP)) SUPPRESS ;; mret (-1, e, p)
      else
        let p := adv p in
        let finish (e : list Z) (p : text) : M St (Z * list Z * text) :=
          mwhen (Nat.eqb eiStart (length e)) (WarningById "emptystr" (Some (aft elementP)) W_PASS3) ;;
          let '(op, p) := need p ".." in
          if negb (op =? code "." + code ".") then mret (if quotes then 2 else 1, e, p)
          else
            let '(eol, p) := SkipBlanks p in
            if eol || (negb (isc p "034") && negb (isc p "'")) then
              Error "[..] String literal expected" (Some (aft p)) SUPPRESS ;; mret (-1, e, p)
            else string_parts fuel p e max_ei add in
        if isc p "Z" then
          if max_ei <=? Z.of_nat (length e) then mret (-2, e, p)
          else finish (e ++ [0]) (adv p)
        else if isc p "C" then
          if Nat.eqb eiStart (length e) then
            Error "C suffix can't patch empty string" (Some (aft elementP)) SUPPRESS ;;
            mret (-1, e, adv p)
          else finish (patch_last e 128) (adv p)
        else finish e p
  end.

Definition GetCharConstAsString (p : text) (e : list Z) (max_ei add : Z) : M St (Z * list Z * text) :=
  if negb (isc p "034") && negb (isc p "'") then mret (0, e, p)
  else string_parts (S (room p)) p e max_ei add.

(** The value of a literal used as a number: its bytes, the first the most
    significant, in 32 bits. *)
Definition bytes_value (l : list Z) : Z :=
  fold_left (fun val b => wrap32 (wrap32 (Z.shiftl val 8) + Z.land b 255)) l 0.

(** The result, the value and the pointer.  The source also cuts the line at [p]
    while the warning is printed. *)
Definition GetCharConst (p : text) : M St (Z * Z * text) :=
  let op := p in
  '(strRes, buffer, p) ← GetCharConstAsString p [] 128 0;
  if strRes =? 0 then mret (0, 0, p)
  else if strRes <? 0 then mret (0, 0, p)
  else
    let val := bytes_value buffer in
    match length buffer with
    | O => Warning "Empty string literal converted to value 0!" (Some (aft op)) W_PASS3
    | _ =>
        mwhen (4 <? Z.of_nat (length buffer))
          (Warning (of_chars (str "String literal truncated to 0x" ++ fmt_X val))
             (Some (take (room op - room p) (aft op))) W_PASS3)
    end ;;
    mret (1, val, p).

(** ** Delimiters *)

Definition delimiters_b (d : EDelimiterType) : ascii :=
  match d with
  | DT_NONE => " " | DT_QUOTES => "034" | DT_APOSTROPHE => "'" | DT_ANGLE => "<" | DT_COUNT => NUL
  end.
Definition delimiters_e (d : EDelimiterType) : ascii :=
  match d with
  | DT_NONE => " " | DT_QUOTES => "034" | DT_APOSTROPHE => "'" | DT_ANGLE => ">" | DT_COUNT => NUL
  end.
Definition delimiters_all : list EDelimiterType := [DT_QUOTES; DT_APOSTROPHE; DT_ANGLE].
Definition delimiters_noAngle : list EDelimiterType := [DT_QUOTES; DT_APOSTROPHE; DT_COUNT].

Fixpoint find_delimiter (c : ascii) (ds : list EDelimiterType) : EDelimiterType :=
  match ds with
  | [] => DT_NONE
  | d :: ds => if Ascii.eqb (delimiters_b d) c then d else find_delimiter c ds
  end.

Definition DelimiterBegins (src : text) (delimiters : list EDelimiterType) (advanceSrc : bool) :
    EDelimiterType * text :=
  if isc src NUL then (DT_NONE, src)
  else
    let '(eol, src) := if advanceSrc then SkipBlanks src else (false, src) in
    if eol then (DT_NONE, src)
    else
      let dt := find_delimiter (cur src) delimiters in
      (dt, if advanceSrc && negb (bool_decide (dt = DT_NONE)) then adv src else src).

Definition DelimiterAnyBegins (src : text) (advanceSrc : bool) : EDelimiterType * text :=
  DelimiterBegins src delimiters_all advanceSrc.

(** A delimited string, with further ones joined by [..]: the characters, the
    last delimiter and the text behind. *)
Fixpoint GetDelimitedStringEx_loop (fuel : nat) (p : text) (acc : list ascii) :
    M St (list ascii * EDelimiterType * text) :=
  match fuel with
  | O => nofuel
  | S fuel =>
      let '(dt, p) := DelimiterAnyBegins p true in
      let deliE := delimiters_e dt in
      let stop c := if bool_decide (dt = DT_NONE) then White c else Ascii.eqb deliE c in
      let '(l, p) := take_while (fun c => negb (Ascii.eqb c NUL) && negb (stop c)) p in
      let acc := acc ++ l in
      let again (p : text) : M St (list ascii * EDelimiterType * text) :=
        let '(op, p) := need p ".." in
        if op =? code "." + code "." then GetDelimitedStringEx_loop fuel p acc
        else mret (acc, dt, p) in
      if bool_decide (dt = DT_NONE) then again p
      else if isc p deliE then again (adv p)
      else Error "No closing delimiter" (Some [deliE]) SUPPRESS ;; mret ([], dt, p)
  end.
Definition GetDelimitedStringEx (p : text) : M St (list ascii * EDelimiterType * text) :=
  GetDelimitedStringEx_loop (S (room p)) p [].

Definition GetDelimitedString (p : text) : M St (list ascii * text) :=
  '(l, _, p) ← GetDelimitedStringEx p; mret (l, p).

(** ** DG, DH and macro arguments *)

(** Collects one byte of [DG]: eight characters, blanks skipped; [-], [.] and
    [_] are zeros.  The character used for ones is remembered in [dg_one] and a
    change is warned about once. *)
Definition dg_bit (pch : ascii) : M St unit :=
  s ← gets st;
  if negb (LASTPASS =? pass (src s)) then mret tt
  else
    let one := dg_one (par s) in
    (if (0 <? one) && negb (one =? code pch) then
       Warning1 "[DG] multiple characters used for 'ones'" ;; modify (set_dg_one (-1))
     else mwhen (one =? 0) (modify (set_dg_one (code pch)))) ;;
    z ← gets (fun s => zeroInDgWarning (par s));
    mwhen (Ascii.eqb "0" pch && negb z)
      (modify (set_zeroInDgWarning true) ;;
       Warning1 "[DG] character '0' in DG works as value 1").

Fixpoint dg_byte (fuel : nat) (p : text) (value : Z) : M St (Z * text) :=
  match fuel with
  | O => nofuel
  | S fuel =>
      if (value <? 256) && negb (isc p NUL) then
        let pch := cur p in
        let p := adv p in
        if White pch then dg_byte fuel p value
        else
          let value := Z.shiftl value 1 in
          if Ascii.eqb "-" pch || Ascii.eqb "." pch || Ascii.eqb "_" pch
          then dg_byte fuel p value
          else dg_bit pch ;; dg_byte fuel p (Z.lor value 1)
      else mret (value, p)
  end.

Definition before_closing (dt : EDelimiterType) (p : text) : bool :=
  negb (isc p NUL)
  && (bool_decide (dt = DT_NONE) || negb (Ascii.eqb (delimiters_e dt) (cur p))).

Fixpoint dg_bytes (fuel : nat) (dt : EDelimiterType) (p : text) (e : list Z) : M St (list Z * text) :=
  match fuel with
  | O => nofuel
  | S fuel =>
      if before_closing dt p then
        if 128 <=? Z.of_nat (length e) then
          Error "Over 128 bytes defined in DG. Bits over" (Some (aft p)) SUPPRESS ;; mret (e, p)
        else
          '(value, p) ← dg_byte (S (room p)) p 1;
          sub ← gets substituted;
          e ← (if value <? 256
               then Error "[DG] byte needs eight characters" (Some sub) SUPPRESS ;; mret e
               else mret (e ++ [Z.land value 255]));
          dg_bytes fuel dt (blanks p) e
      else mret (e, p)
  end.

Definition GetBits (p : text) : M St (list Z * text) :=
  let '(dt, p) := DelimiterBegins p delimiters_noAngle true in
  '(e, p) ← dg_bytes (S (room p)) dt p [];
  one ← gets (fun s => dg_one (par s));
  mwhen (0 <? one) (modify (set_dg_one 0)) ;;
  if bool_decide (dt = DT_NONE) then mret (e, p)
  else if negb (Ascii.eqb (delimiters_e dt) (cur p))
  then Error "No closing delimiter" None SUPPRESS ;; mret (e, p)
  else mret (e, adv p).

(** The pairs of digits of one argument of [DH]; [None] on a wrong digit. *)
Fixpoint dh_pairs (fuel : nat) (dt : EDelimiterType) (p : text) (e : list Z) : M St (option (list Z) * text) :=
  match fuel with
  | O => nofuel
  | S fuel =>
      if before_closing dt p then
        let op := p in
        '(ok, val, p) ← GetNumericValue_TwoBased p 2 4;
        failed ← (if (ok : bool) then mret false else GetNumericValue_ProcessLastError op);
        if (failed : bool) then mret (None, p)
        else if 128 <=? Z.of_nat (length e) then
          Error "Over 128 bytes defined in DH/DEFH/HEX. Values over" (Some (aft op)) SUPPRESS ;;
          mret (Some e, p)
        else
          let e := e ++ [Z.land val 255] in
          let p := blanks p in
          if bool_decide (dt = DT_NONE) && isc p "," then mret (Some e, p)
          else dh_pairs fuel dt p e
      else mret (Some e, p)
  end.

Fixpoint dh_args (fuel : nat) (op_full p : text) (e : list Z) : M St (list Z * text) :=
  match fuel with
  | O => nofuel
  | S fuel =>
      let '(dt, p) := DelimiterBegins p delimiters_noAngle true in
      mwhen (isc p NUL) (Error1 "no arguments") ;;
      '(r, p) ← dh_pairs (S (room p)) dt p e;
      match (r : option (list Z)) with
      | None => mret ([], p)
      | Some e =>
          p ← (if negb (bool_decide (dt = DT_NONE)) then
                 if Ascii.eqb (delimiters_e dt) (cur p) then mret (blanks (adv p))
                 else Error "No closing delimiter" (Some (aft op_full)) SUPPRESS ;; mret p
               else mret p);
          let '(more, p) := comma p in
          if more then dh_args fuel op_full p e else mret (e, p)
      end
  end.
Definition GetBytesHexaText (p : text) : M St (list Z * text) :=
  dh_args (S (room p)) p p [].

(** The inside of a delimited part of a macro argument, up to the closing
    delimiter; escapes are kept, except in angle brackets where [!!] and [!>]
    become the second character. *)
Fixpoint macro_delimited (fuel : nat) (delI : EDelimiterType) (src : text) (dst : list ascii) :
    M St (text * list ascii) :=
  match fuel with
  | O => nofuel
  | S fuel =>
      if isc src NUL then mret (src, dst)
      else
        let both := dst ++ [cur src; pk src 1] in
        let plain : M St (text * list ascii) :=
          if Ascii.eqb (delimiters_e delI) (cur src) then mret (src, dst)
          else macro_delimited fuel delI (adv src) (dst ++ [cur src]) in
        match delI with
        | DT_ANGLE =>
            if isc src "!" && (isn src 1 "!" || isn src 1 ">")
            then macro_delimited fuel delI (advn 2 src) (dst ++ [pk src 1]) else plain
        | DT_QUOTES =>
            if isc src "\" && negb (isn src 1 NUL)
            then macro_delimited fuel delI (advn 2 src) both else plain
        | DT_APOSTROPHE =>
            if isc src "'" && isn src 1 "'"
            then macro_delimited fuel delI (advn 2 src) both else plain
        | _ => Error "Internal error. GetMacroArgumentValue()" None FATAL ;; undef
        end
  end.

Definition hex_like (c : ascii) : bool :=
  let c := or20 c in in_range "0" c "9" || in_range "a" c "f".

(** [stop] is the part of [dst] that is not trimmed, as a length. *)
Fixpoint macro_arg (fuel : nat) (srcOrig src : text) (dst : list ascii) (stop : nat) :
    M St (bool * text * list ascii * nat) :=
  match fuel with
  | O => nofuel
  | S fuel =>
      if isc src NUL || isc src "," then mret (true, src, dst, stop)
      else
        let '(delI, _) := DelimiterBegins src
          (if bool_decide (srcOrig = src) then delimiters_all else delimiters_noAngle) false in
        let delI :=
          if bool_decide (delI = DT_APOSTROPHE) && negb (bool_decide (srcOrig = src))
             && hex_like (prev src) && hex_like (pk src 1)
          then DT_NONE else delI in
        if bool_decide (delI = DT_NONE) then macro_arg fuel srcOrig (adv src) (dst ++ [cur src]) stop
        else
          let dst := if bool_decide (delI = DT_ANGLE) then dst else dst ++ [cur src] in
          '(src, dst) ← macro_delimited (S (room src)) delI (adv src) dst;
          if negb (Ascii.eqb (delimiters_e delI) (cur src)) then mret (false, src, dst, stop)
          else
            let dst := if bool_decide (delI = DT_QUOTES) || bool_decide (delI = DT_APOSTROPHE)
                       then dst ++ [delimiters_e delI] else dst in
            macro_arg fuel srcOrig (adv src) dst (length dst)
  end.

(** [while (dstStopTrim < dst && White(dst[-1])) --dst;] *)
Fixpoint drop_white (r : list ascii) (n : nat) : list ascii :=
  match n, r with
  | S n, c :: r' => if White c then drop_white r' n else r
  | _, _ => r
  end.
Definition rtrim_from (stop : nat) (dst : list ascii) : list ascii :=
  reverse (drop_white (reverse dst) (length dst - stop)).

Definition GetMacroArgumentValue (src : text) : M St (bool * list ascii * text) :=
  let src := blanks src in
  let srcOrig := src in
  '(ok, src, dst, stop) ← macro_arg (S (room src)) srcOrig src [] 0;
  if negb ok then mret (false, dst, src)
  else
    let dst := rtrim_from stop dst in
    mwhen (bool_decide (dst = []))
      (Warning "[Macro argument parser] empty value" (Some (aft srcOrig)) W_PASS3) ;;
    mret (true, dst, src).

(** ** Structure members *)

(** The cases of the switch on [p[0] * 2 + p[1]]: the two characters and the
    keywords tried in order. *)
Definition struct_members : list (ascii * ascii * list (string * EStructureMembers)) := [
  ("b"%char, "y"%char, [("byte"%string, SMEMBBYTE)]);
  ("w"%char, "o"%char, [("word"%string, SMEMBWORD)]);
  ("b"%char, "l"%char, [("block"%string, SMEMBBLOCK)]);
  ("d"%char, "b"%char, [("db"%string, SMEMBBYTE)]);
  ("d"%char, "w"%char, [("dw"%string, SMEMBWORD); ("dword"%string, SMEMBDWORD)]);
  ("d"%char, "s"%char, [("ds"%string, SMEMBBLOCK)]);
  ("d"%char, "d"%char, [("dd"%string, SMEMBDWORD)]);
  ("a"%char, "l"%char, [("align"%string, SMEMBALIGN)]);
  ("d"%char, "e"%char, [("defs"%string, SMEMBBLOCK); ("defb"%string, SMEMBBYTE); ("defw"%string, SMEMBWORD); ("defd"%string, SMEMBDWORD)]);
  ("d"%char, "2"%char, [("d24"%string, SMEMBD24)]);
  ("t"%char, "e"%char, [("text"%string, SMEMBTEXT)])
].

Definition pair_hash (a b : ascii) : Z := schar a * 2 + schar b.

Fixpoint try_members (p : text) (ks : list (string * EStructureMembers)) : EStructureMembers * text :=
  match ks with
  | [] => (SMEMBUNKNOWN, p)
  | (k, m) :: ks =>
      let '(ok, p') := cmphstr p k false in
      if ok then (m, p') else try_members p ks
  end.

Fixpoint find_members (p : text) (h : Z)
    (t : list (ascii * ascii * list (string * EStructureMembers))) : EStructureMembers * text :=
  match t with
  | [] => (SMEMBUNKNOWN, p)
  | (a, b, ks) :: t =>
      if (h =? pair_hash a b) || (h =? pair_hash (toupper a) (toupper b))
      then try_members p ks else find_members p h t
  end.

Definition GetStructMemberId (p : text) : EStructureMembers * text :=
  if isc p "#" then
    let p := adv p in
    if isc p "#" then (SMEMBALIGN, adv p) else (SMEMBBLOCK, p)
  else find_members p (pair_hash (cur p) (pk p 1)) struct_members.
