(* ===== verification/Devices.v ===== *)
(** * Virtual devices (devices.cpp)

    The memory of a device is cut into pages; its slots map pages into the 64 KiB
    address space of the CPU.  This file has the construction of the devices,
    their look-ups and [SetDevice]; the check made at each emitted byte is in
    [Paging]. *)

From S2P Require Export Reader.

(** ** Which device *)

Definition name_is (name : list ascii) (s : string) : bool := bool_decide (name = str s).
Arguments name_is name s%_string.

Definition IsZXSpectrumDevice (name : list ascii) : bool :=
  existsb (name_is name)
    ["ZXSPECTRUM48"; "ZXSPECTRUM128"; "ZXSPECTRUM256"; "ZXSPECTRUM512";
     "ZXSPECTRUM1024"; "ZXSPECTRUM2048"; "ZXSPECTRUM4096"; "ZXSPECTRUM8192"]%string.
Definition IsAmstradCPCDevice (name : list ascii) : bool :=
  existsb (name_is name) ["AMSTRADCPC464"; "AMSTRADCPC6128"]%string.
Definition IsAmstradPLUSDevice (name : list ascii) : bool :=
  name_is name "AMSTRADCPCPLUS".

(** ** Slots and pages *)

Definition MAX_SLOT_N : Z := 256.
Definition MAX_PAGE_N : Z := 4096.

Definition SlotsCount (d : CDevice) : Z := Z.of_nat (length (Slots d)).
Definition PagesCount (d : CDevice) : Z := Z.of_nat (length (Pages d)).

Definition slot_at (d : CDevice) (i : Z) : option CDeviceSlot :=
  if i <? 0 then None else Slots d !! Z.to_nat i.
Definition page_at (d : CDevice) (i : Z) : option CDevicePage :=
  if i <? 0 then None else Pages d !! Z.to_nat i.

(** The byte of the memory at an offset; fresh memory is zero. *)
Definition mem_byte (d : CDevice) (ofs : Z) : Z := default 0 (Memory d !! ofs).

Definition set_Slots (v : list CDeviceSlot) (d : CDevice) : CDevice :=
  {| dev_ID := dev_ID d; Slots := v; Pages := Pages d; Memory := Memory d;
     ZxRamTop := ZxRamTop d; CurrentSlot := CurrentSlot d;
     previousSlotI := previousSlotI d; previousSlotOpt := previousSlotOpt d;
     limitExceeded := limitExceeded d |}.
Definition set_Pages (v : list CDevicePage) (d : CDevice) : CDevice :=
  {| dev_ID := dev_ID d; Slots := Slots d; Pages := v; Memory := Memory d;
     ZxRamTop := ZxRamTop d; CurrentSlot := CurrentSlot d;
     previousSlotI := previousSlotI d; previousSlotOpt := previousSlotOpt d;
     limitExceeded := limitExceeded d |}.
Definition set_Memory (v : gmap Z Z) (d : CDevice) : CDevice :=
  {| dev_ID := dev_ID d; Slots := Slots d; Pages := Pages d; Memory := v;
     ZxRamTop := ZxRamTop d; CurrentSlot := CurrentSlot d;
     previousSlotI := previousSlotI d; previousSlotOpt := previousSlotOpt d;
     limitExceeded := limitExceeded d |}.
Definition set_ZxRamTop (v : Z) (d : CDevice) : CDevice :=
  {| dev_ID := dev_ID d; Slots := Slots d; Pages := Pages d; Memory := Memory d;
     ZxRamTop := v; CurrentSlot := CurrentSlot d;
     previousSlotI := previousSlotI d; previousSlotOpt := previousSlotOpt d;
     limitExceeded := limitExceeded d |}.
Definition set_CurrentSlot (v : Z) (d : CDevice) : CDevice :=
  {| dev_ID := dev_ID d; Slots := Slots d; Pages := Pages d; Memory := Memory d;
     ZxRamTop := ZxRamTop d; CurrentSlot := v;
     previousSlotI := previousSlotI d; previousSlotOpt := previousSlotOpt d;
     limitExceeded := limitExceeded d |}.
(** The three variables of the [CheckPage] logic. *)
Definition set_check (i : Z) (o : ESlotOptions) (l : bool) (d : CDevice) : CDevice :=
  {| dev_ID := dev_ID d; Slots := Slots d; Pages := Pages d; Memory := Memory d;
     ZxRamTop := ZxRamTop d; CurrentSlot := CurrentSlot d;
     previousSlotI := i; previousSlotOpt := o; limitExceeded := l |}.

Definition set_sl_Page (v : option Z) (sl : CDeviceSlot) : CDeviceSlot :=
  {| sl_Address := sl_Address sl; sl_Size := sl_Size sl; sl_Page := v;
     InitialPage := InitialPage sl; sl_Option := sl_Option sl |}.
Definition set_sl_Option (v : ESlotOptions) (sl : CDeviceSlot) : CDeviceSlot :=
  {| sl_Address := sl_Address sl; sl_Size := sl_Size sl; sl_Page := sl_Page sl;
     InitialPage := InitialPage sl; sl_Option := v |}.
Definition upd_slot (i : Z) (f : CDeviceSlot → CDeviceSlot) (d : CDevice) : CDevice :=
  set_Slots (alter f (Z.to_nat i) (Slots d)) d.

(** [CDevice(name, parent)] and [CDeviceSlot(adr, size)] *)
Definition new_CDevice (name : list ascii) : CDevice :=
  {| dev_ID := name; Slots := []; Pages := []; Memory := ∅; ZxRamTop := 0;
     CurrentSlot := 0; previousSlotI := 0; previousSlotOpt := O_NONE; limitExceeded := false |}.
Definition new_CDeviceSlot (adr size : Z) : CDeviceSlot :=
  {| sl_Address := adr; sl_Size := size; sl_Page := None; InitialPage := -1; sl_Option := O_NONE |}.

Definition AddSlot (d : CDevice) (adr size : Z) : M St CDevice :=
  if MAX_SLOT_N =? SlotsCount d
  then ErrorInt "Can't add more slots, already at max" MAX_SLOT_N FATAL ;; undef
  else mret (set_Slots (Slots d ++ [new_CDeviceSlot adr size]) d).

Definition AddPage (d : CDevice) (memory size : Z) : M St CDevice :=
  if MAX_PAGE_N =? PagesCount d
  then ErrorInt "Can't add more pages, already at max" MAX_PAGE_N FATAL ;; undef
  else mret (set_Pages (Pages d ++
         [{| pg_Size := size; pg_Number := PagesCount d; RAM := memory |}]) d).

(** The arrays of slots and pages have a fixed length; unused entries are null
    and an index outside is undefined. *)
Definition GetSlot (d : CDevice) (num : Z) : M St CDeviceSlot :=
  if (num <? 0) || (MAX_SLOT_N <=? num) then undef
  else match slot_at d num with
  | Some sl => mret sl
  | None =>
      lp ← gets (fun s => lp (par s));
      Error "Wrong slot number" (Some (aft lp)) PASS3 ;;
      match slot_at d 0 with Some sl => mret sl | None => undef end
  end.

Definition GetPage (d : CDevice) (num : Z) : M St CDevicePage :=
  if (num <? 0) || (MAX_PAGE_N <=? num) then undef
  else match page_at d num with
  | Some pg => mret pg
  | None =>
      lp ← gets (fun s => lp (par s));
      Error "Wrong page number" (Some (aft lp)) PASS3 ;;
      match page_at d 0 with Some pg => mret pg | None => undef end
  end.

(** [for (int i = SlotsCount; i--; )]: the slots from the last to the first. *)
Fixpoint slot_of_address (slots : list CDeviceSlot) (i : nat) (address : Z) : Z :=
  match i with
  | O => -1
  | S i =>
      match slots !! i with
      | None => -1
      | Some sl =>
          if address <? sl_Address sl then slot_of_address slots i address
          else if sl_Address sl + sl_Size sl <=? address then -1
          else Z.of_nat i
      end
  end.
Definition GetSlotOfA16 (d : CDevice) (address : Z) : Z :=
  slot_of_address (Slots d) (length (Slots d)) address.

Definition GetPageOfA16 (d : CDevice) (address : Z) : Z :=
  let slotNum := GetSlotOfA16 d address in
  match slot_at d slotNum with
  | None => LABEL_PAGE_OUT_OF_BOUNDS
  | Some sl => match sl_Page sl with None => LABEL_PAGE_OUT_OF_BOUNDS | Some n => n end
  end.

Definition SetSlot (d : CDevice) (slotNumber : Z) : bool * CDevice :=
  if (slotNumber <? 0) || (SlotsCount d <=? slotNumber) then (false, d)
  else (true, set_CurrentSlot slotNumber d).

Definition GetCurrentSlot (d : CDevice) : M St CDeviceSlot := GetSlot d (CurrentSlot d).

Definition GetMemoryOffset (d : CDevice) (page offset : Z) : Z :=
  match Pages d with
  | [] => 0
  | pg :: _ => offset + page * pg_Size pg
  end.

(** [page->RAM[z80adr & (page->Size-1)] = value] in the page mapped at the
    address; an address with no page is ignored. *)
Definition Poke (d : CDevice) (z80adr value : Z) : M St CDevice :=
  let adrPage := GetPageOfA16 d z80adr in
  if adrPage =? LABEL_PAGE_OUT_OF_BOUNDS then mret d
  else
    pg ← GetPage d adrPage;
    mret (set_Memory (<[RAM pg + Z.land z80adr (pg_Size pg - 1) := value]> (Memory d)) d).

Definition SlotNumberFromPreciseAddress (d : CDevice) (address : Z) : M St Z :=
  if address <? SlotsCount d then mret address
  else
    let slotNum := GetSlotOfA16 d address in
    if slotNum =? -1 then mret address
    else
      sl ← GetSlot d slotNum;
      mret (if negb (address =? sl_Address sl) then address else slotNum).

(** ** Building a device *)

Fixpoint fold_M {A B} (f : B → A → M St B) (l : list A) (b : B) : M St B :=
  match l with
  | [] => mret b
  | x :: l => b ← f b x; fold_M f l b
  end.

Definition upto (n : Z) : list Z := Z.of_nat <$> seq 0 (Z.to_nat n).

(** The loops step through the slots' addresses, the pages' offsets and the
    initial pages. *)
Definition initRegularSlotDevice (d : CDevice) (slotSize slotCount pageCount : Z)
    (initialPages : list Z) : M St CDevice :=
  d ← fold_M (fun d i => AddSlot d (i * slotSize) slotSize) (upto slotCount) d;
  d ← fold_M (fun d i => AddPage d (i * slotSize) slotSize) (upto pageCount) d;
  d ← fold_M (fun d i =>
        match initialPages !! Z.to_nat i with
        | None => undef
        | Some n =>
            pg ← GetPage d n;
            mret (upd_slot i (fun sl =>
              {| sl_Address := sl_Address sl; sl_Size := sl_Size sl;
                 sl_Page := Some (pg_Number pg); InitialPage := pg_Number pg;
                 sl_Option := sl_Option sl |}) d)
        end) (upto (SlotsCount d)) d;
  mret (snd (SetSlot d (SlotsCount d - 1))).

Definition ZX_RAMTOP_DEFAULT : Z := 23899.
Definition ZX_SYSVARS_ADR : Z := 23552.
Definition ZX_UDG_ADR : Z := 65368.

Definition ZX_SYSVARS_DATA : list Z := [
  255; 0; 0; 0; 255; 0; 0; 0; 0; 20; 1; 0; 0; 0; 0; 0;
  1; 0; 6; 0; 11; 0; 1; 0; 1; 0; 6; 0; 16; 0; 0; 0;
  0; 0; 0; 0; 0; 0; 0; 0; 0; 0; 0; 0; 0; 0; 0; 0;
  0; 0; 0; 0; 0; 0; 0; 60; 64; 0; 255; 204; 1; 84; 255; 0;
  0; 0; 0; 0; 0; 0; 0; 0; 56; 0; 0; 203; 92; 0; 0; 182;
  92; 182; 92; 203; 92; 0; 0; 202; 92; 204; 92; 204; 92; 204; 92; 0;
  0; 206; 92; 206; 92; 206; 92; 0; 146; 92; 16; 2; 0; 0; 0; 0;
  0; 0; 0; 0; 0; 0; 0; 0; 0; 0; 0; 88; 255; 0; 0; 33;
  91; 0; 33; 23; 0; 64; 224; 80; 33; 24; 33; 23; 1; 56; 0; 56;
  0; 0; 0; 0; 0; 0; 0; 0; 0; 0; 0; 0; 0; 0; 0; 0;
  0; 0; 0; 0; 0; 0; 0; 0; 0; 0; 0; 0; 0; 0; 0; 0;
  0; 0; 87; 255; 255; 255; 244; 9; 168; 16; 75; 244; 9; 196; 21; 83;
  129; 15; 196; 21; 82; 244; 9; 196; 21; 80; 128; 128; 13; 128; 0; 0;
  0; 0; 0; 0; 0; 0; 0; 0; 0; 0; 0; 0; 0; 0; 0; 0;
  0; 0; 0; 0; 0; 0; 0; 0; 0; 0; 0; 0; 0; 0; 0; 0;
  0; 0; 0; 0; 0; 0; 0; 0; 0; 0; 0; 0; 0; 0; 0; 0
].
Definition ZX_STACK_DATA : list Z := [
  3; 19; 0; 62
].
Definition ZX_UDG_DATA : list Z := [
  0; 60; 66; 66; 126; 66; 66; 0; 0; 124; 66; 124; 66; 66; 124; 0;
  0; 60; 66; 64; 64; 66; 60; 0; 0; 120; 68; 66; 66; 68; 120; 0;
  0; 126; 64; 124; 64; 64; 126; 0; 0; 126; 64; 124; 64; 64; 64; 0;
  0; 60; 66; 64; 78; 66; 60; 0; 0; 66; 66; 126; 66; 66; 66; 0;
  0; 62; 8; 8; 8; 8; 62; 0; 0; 2; 2; 2; 66; 66; 60; 0;
  0; 68; 72; 112; 72; 68; 66; 0; 0; 64; 64; 64; 64; 64; 126; 0;
  0; 66; 102; 90; 66; 66; 66; 0; 0; 66; 98; 82; 74; 70; 66; 0;
  0; 60; 66; 66; 66; 66; 60; 0; 0; 124; 66; 66; 124; 64; 64; 0;
  0; 60; 66; 66; 82; 74; 60; 0; 0; 124; 66; 66; 124; 68; 66; 0;
  0; 60; 64; 60; 2; 66; 60; 0; 0; 254; 16; 16; 16; 16; 16; 0;
  0; 66; 66; 66; 66; 66; 60; 0
].

(** [for (byte value : data) device->Poke(adr++, value)] *)
Fixpoint poke_all (d : CDevice) (adr : Z) (data : list Z) : M St CDevice :=
  match data with
  | [] => mret d
  | v :: data => d ← Poke d adr v; poke_all d (adr + 1) data
  end.

Definition initZxLikeDevice (d : CDevice) (slotSize pageCount : Z) (initialPages : list Z)
    (ramtop : Z) : M St CDevice :=
  d ← initRegularSlotDevice d slotSize (Z.quot 65536 slotSize) pageCount initialPages;
  let top := if (ramtop =? -1) || ((23808 <=? ramtop) && (ramtop <=? 65535))
             then ramtop else ZX_RAMTOP_DEFAULT in
  let d := set_ZxRamTop top d in
  if ramtop =? -1 then mret d
  else
    d ← poke_all d 22528 (repeat 56 768);
    d ← poke_all d ZX_UDG_ADR ZX_UDG_DATA;
    d ← poke_all d ZX_SYSVARS_ADR ZX_SYSVARS_DATA;
    d ← Poke d (ZX_SYSVARS_ADR + 178) (Z.land top 255);
    d ← Poke d (ZX_SYSVARS_ADR + 179) (Z.land (Z.shiftr top 8) 255);
    let adr := top + 1 - Z.of_nat (length ZX_STACK_DATA) in
    d ← Poke d (ZX_SYSVARS_ADR + 61) (Z.land adr 255);
    d ← Poke d (ZX_SYSVARS_ADR + 62) (Z.land (Z.shiftr adr 8) 255);
    poke_all d adr ZX_STACK_DATA.

(** *** The predefined devices *)

Definition initialPagesZx128 : list Z := [7; 5; 2; 0].

Definition warn_ramtop (ramtop : Z) : M St unit :=
  mwhen (negb (ramtop =? 0)) (WarningById1 "noramtop").

Definition DeviceZXSpectrum48 (ramtop : Z) : M St CDevice :=
  initZxLikeDevice (new_CDevice (str "ZXSPECTRUM48")) 16384 4 [0; 1; 2; 3] ramtop.
Definition DeviceZXSpectrum128 (ramtop : Z) : M St CDevice :=
  initZxLikeDevice (new_CDevice (str "ZXSPECTRUM128")) 16384 8 initialPagesZx128 ramtop.
Definition DeviceZXSpectrum256 (ramtop : Z) : M St CDevice :=
  initZxLikeDevice (new_CDevice (str "ZXSPECTRUM256")) 16384 16 initialPagesZx128 ramtop.
Definition DeviceZXSpectrum512 (ramtop : Z) : M St CDevice :=
  initZxLikeDevice (new_CDevice (str "ZXSPECTRUM512")) 16384 32 initialPagesZx128 ramtop.
Definition DeviceZXSpectrum1024 (ramtop : Z) : M St CDevice :=
  initZxLikeDevice (new_CDevice (str "ZXSPECTRUM1024")) 16384 64 initialPagesZx128 ramtop.
Definition DeviceZXSpectrum2048 (ramtop : Z) : M St CDevice :=
  initZxLikeDevice (new_CDevice (str "ZXSPECTRUM2048")) 16384 128 initialPagesZx128 ramtop.
Definition DeviceZXSpectrum4096 (ramtop : Z) : M St CDevice :=
  initZxLikeDevice (new_CDevice (str "ZXSPECTRUM4096")) 16384 256 initialPagesZx128 ramtop.
Definition DeviceZXSpectrum8192 (ramtop : Z) : M St CDevice :=
  initZxLikeDevice (new_CDevice (str "ZXSPECTRUM8192")) 16384 512 initialPagesZx128 ramtop.

(** [Options::syx.IsNextEnabled = n] *)
Definition set_IsNextEnabled (n : Z) (o : Options) : Options :=
  let x := syx o in
  {| syx := {| IsPseudoOpBOF := IsPseudoOpBOF x; IsReversePOP := IsReversePOP x;
               FakeEnabled := FakeEnabled x; FakeWarning := FakeWarning x;
               IsListingSuspended := IsListingSuspended x; ListingType := ListingType x;
               CaseInsensitiveInstructions := CaseInsensitiveInstructions x;
               WarningsAsErrors := WarningsAsErrors x; Is_M_Memory := Is_M_Memory x;
               IsSubwordSubstitution := IsSubwordSubstitution x;
               MemoryBrackets := MemoryBrackets x; IsNextEnabled := n; MultiArg := MultiArg x |};
     IsI8080 := IsI8080 o; IsLR35902 := IsLR35902 o; IsLongPtr := IsLongPtr o;
     warn_enabled := warn_enabled o |}.

(** [Z80::InitNextExtensions]: the Z80N instructions enter the table once. *)
Definition InitNextExtensions : M St unit :=
  s ← gets st;
  if (IsNextEnabled (syx (opt s)) =? 0) || nextWasInitialized (par s) then mret tt
  else modify (set_nextWasInitialized true).

Definition DeviceZxSpectrumNext (ramtop : Z) : M St CDevice :=
  warn_ramtop ramtop ;;
  s ← gets st;
  mwhen (IsI8080 (opt s))
    (Error "Can't use ZXN device while in i8080 assembling mode" (Some (aft (line (par s)))) FATAL) ;;
  mwhen (IsLR35902 (opt s))
    (Error "Can't use ZXN device while in Sharp LR35902 assembling mode" (Some (aft (line (par s)))) FATAL) ;;
  d ← initRegularSlotDevice (new_CDevice (str "ZXSPECTRUMNEXT")) 8192 8 224
        [14; 15; 10; 11; 4; 5; 0; 1];
  mwhen (IsNextEnabled (syx (opt s)) =? 0)
    (modify (on_opt (set_IsNextEnabled 1)) ;; InitNextExtensions) ;;
  mret d.

Definition DeviceElement (ramtop : Z) : M St CDevice :=
  warn_ramtop ramtop ;;
  initRegularSlotDevice (new_CDevice (str "ELEMENT")) 8192 8 2560 [0; 1; 2; 3; 4; 5; 6; 7].
Definition DeviceNoSlot64k (ramtop : Z) : M St CDevice :=
  warn_ramtop ramtop ;;
  initRegularSlotDevice (new_CDevice (str "NOSLOT64K")) 65536 1 32 [0].
Definition DeviceAmstradCPC464 (ramtop : Z) : M St CDevice :=
  warn_ramtop ramtop ;;
  initRegularSlotDevice (new_CDevice (str "AMSTRADCPC464")) 16384 4 4 [0; 1; 2; 3].
Definition DeviceAmstradCPC6128 (ramtop : Z) : M St CDevice :=
  warn_ramtop ramtop ;;
  initRegularSlotDevice (new_CDevice (str "AMSTRADCPC6128")) 16384 4 8 [0; 1; 2; 3].
Definition DeviceAmstradCPCPLUS (ramtop : Z) : M St CDevice :=
  warn_ramtop ramtop ;;
  initRegularSlotDevice (new_CDevice (str "AMSTRADCPCPLUS")) 16384 4 32 [0; 1; 2; 3].

(** [CDeviceDef(name, slot_size, page_count)] *)
Definition new_CDeviceDef (name : list ascii) (slot_size page_count : Z) (pages : list Z) : CDeviceDef :=
  {| dd_ID := name; dd_SlotSize := slot_size;
     dd_SlotsCount := Z.quot (65536 + slot_size - 1) slot_size;
     dd_PagesCount := page_count; dd_initialPages := pages |}.

(** [strcasecmp(a, b) == 0] *)
Definition same_ignoring_case (a b : list ascii) : bool :=
  bool_decide (map tolower a = map tolower b).

Definition SetUserDefinedDevice (id : list ascii) (ramtop : Z) : M St (option CDevice) :=
  s ← gets st;
  match List.find (fun def => same_ignoring_case id (dd_ID def)) (DefDevices (dev s)) with
  | None => mret None
  | Some def =>
      warn_ramtop ramtop ;;
      d ← initRegularSlotDevice (new_CDevice (dd_ID def)) (dd_SlotSize def) (dd_SlotsCount def)
            (dd_PagesCount def) (dd_initialPages def);
      mret (Some d)
  end.

(** The names [SetDevice] knows, in the order it tries them. *)
Definition predefined_devices : list (string * (Z → M St CDevice)) := [
  ("zxspectrum48", DeviceZXSpectrum48); ("zxspectrum128", DeviceZXSpectrum128);
  ("zxspectrum256", DeviceZXSpectrum256); ("zxspectrum512", DeviceZXSpectrum512);
  ("zxspectrum1024", DeviceZXSpectrum1024); ("zxspectrum2048", DeviceZXSpectrum2048);
  ("zxspectrum4096", DeviceZXSpectrum4096); ("zxspectrum8192", DeviceZXSpectrum8192);
  ("zxspectrumnext", DeviceZxSpectrumNext); ("element", DeviceElement);
  ("noslot64k", DeviceNoSlot64k); ("amstradcpc464", DeviceAmstradCPC464);
  ("amstradcpc6128", DeviceAmstradCPC6128); ("amstradcpcplus", DeviceAmstradCPCPLUS)
]%string.

Definition create_device (id : list ascii) (ramtop : Z) : M St (option CDevice) :=
  match List.find (fun e => fst (cmphstr (mk_text [] id) (fst e) false)) predefined_devices with
  | Some (_, mk) => d ← mk ramtop; mret (Some d)
  | None => SetUserDefinedDevice id ramtop
  end.
