(* ===== verification/Relocation.v ===== *)
(** * Relocation (relocate.cpp)

    Every expression is evaluated twice inside a relocation block; this file has
    what happens with the difference: the table of offsets to patch, the warnings
    about values no relocator can fix, and the block directives. *)

From S2P Require Export Devices.

Definition ALTERNATIVE_OFFSET_WORD : Z := 626.
Definition ALTERNATIVE_OFFSET_HIGH : Z := 768.

(** [offsets] holds 16-bit words. *)
Definition addOffsetToRelocate (offset : Z) : M St unit :=
  s ← gets st;
  let r := rel s in
  mwhen (warnAboutContentChange r)
    (mwhen (match offsetsPrevious r !! length (offsets r) with
            | None => true
            | Some o => negb (o =? offset)
            end)
       (Warning "Relocation table seems internally inconsistent"
          (Some (str "table content differs in last pass")) W_PASS3 ;;
        modify (set_warnAboutContentChange false))) ;;
  modify (fun s => set_offsets (offsets (rel s) ++ [u16 offset]) s).

Definition resolveRelocationAffected (opcodeRelOffset minType : Z) : M St unit :=
  s ← gets st;
  let r := rel s in
  if rel_type r <? minType then mret tt
  else if negb (isResultAffected r) then mret tt
  else
    modify (set_isResultAffected false) ;;
    if minType <=? deltaType r then
      if opcodeRelOffset =? INT_MAX then mret tt
      else
        let address := if DISP_INSIDE_RELOCATE =? PseudoORG (org s)
                       then adrdisp (org s) else CurAddress (org s) in
        addOffsetToRelocate (wrap32 (address + opcodeRelOffset + rel_type r - deltaType r))
    else WarningById1 (if negb (deltaType r =? 0) then "relunstable" else "reldiverts").

Definition checkAndWarn (doError : bool) : M St bool :=
  s ← gets st;
  if negb (isResultAffected (rel s)) then mret false
  else
    modify (set_isResultAffected false) ;;
    (if doError
     then Error1 "Relocation makes one of the expressions unstable, use non-relocatable values only"
     else WarningById1 "relunstable") ;;
    mret true.

(** [resolveRelocationAndSmartSmc] (sjio.cpp): besides, the first immediate of
    the line of a pending self-modifying-code label gives its offset. *)
Definition resolveRelocationAndSmartSmc (immediateOffset minType : Z) : M St unit :=
  resolveRelocationAffected immediateOffset minType ;;
  s ← gets st;
  let x := src s in
  match last (sourcePosStack x) with
  | None => mret tt
  | Some back =>
      if (INT_MAX =? immediateOffset) || (smartSmcIndex x =? 0) then mret tt
      else
        let i := Z.to_nat (smartSmcIndex x - 1) in
        match smartSmcLines x !! i with
        | None => mret tt
        | Some smartSmc =>
            if negb (colBegin smartSmc =? 2 ^ 32 - 1)
               || negb (bool_decide (filename smartSmc = filename back))
               || negb (pos_line smartSmc =? pos_line back) then mret tt
            else if 1 <? colBegin back then mret tt
            else modify (fun s => set_smartSmcLines
                   (<[i := {| filename := filename smartSmc; pos_line := pos_line smartSmc;
                              colBegin := u32 immediateOffset; colEnd := colEnd smartSmc |}]>
                      (smartSmcLines (src s))) s)
        end
  end.
