(* ===== verification/Tables.v ===== *)
(** * Symbols (tables.cpp)

    Label names and their scopes, the symbol table with its page bookkeeping and
    SIZEOF tracking, and the temporary labels. *)

From S2P Require Export Relocation.

(** ** The interface of the symbol store

    [std::map<std::string, SLabelTableEntry>]: what [CLabelTable] relies on. *)
Class SymbolStore (T V : Type) := {
  sym_find : string → T → option V;
  sym_put : string → V → T → T;
  sym_erase : string → T → T
}.
Class SymbolStoreLaws (T V : Type) `{SymbolStore T V} := {
  find_put_eq : ∀ k (v : V) (t : T), sym_find k (sym_put k v t) = Some v;
  find_put_ne : ∀ k k' (v : V) (t : T), k ≠ k' → sym_find k' (sym_put k v t) = sym_find k' t;
  find_erase_eq : ∀ k (t : T), sym_find k (sym_erase k t) = None;
  find_erase_ne : ∀ k k' (t : T), k ≠ k' → sym_find k' (sym_erase k t) = sym_find k' t
}.

#[export] Instance gmap_store V : SymbolStore (gmap string V) V := {
  sym_find := fun k t => t !! k;
  sym_put := fun k v t => <[k := v]> t;
  sym_erase := fun k t => delete k t
}.
#[export] Instance gmap_store_laws V : SymbolStoreLaws (gmap string V) V.
Proof.
  split; simpl; intros.
  - apply lookup_insert_eq.
  - by apply lookup_insert_ne.
  - apply lookup_delete_eq.
  - by apply lookup_delete_ne.
Qed.

(** [symbols.find(name)] and [symbols[name] = entry] on the state. *)
Definition symbol (name : string) (s : St) : option SLabelTableEntry :=
  sym_find name (symbols (tab s)).
Definition put_symbol (name : string) (e : SLabelTableEntry) (s : St) : St :=
  set_symbols (sym_put name e (symbols (tab s))) s.

(** [traits & bits] as a condition. *)
Definition has (traits bits : Z) : bool := negb (Z.land traits bits =? 0).

(** ** Label names *)

(** [ValidateLabel]: the fully qualified name ([None]: no label there) and
    whether it is a local one. *)
Definition ValidateLabel (naam : text) (setNameSpace ignoreCharAfter : bool) :
    M St (bool * option (list ascii)) :=
  if isc naam NUL || White (cur naam)
  then Error1 "Invalid (blank) labelname" ;; mret (false, None)
  else
    let bang := isc naam "!" in
    let setNameSpace := setNameSpace && negb bang in
    let naam := if bang then adv naam else naam in
    s ← gets st;
    let inside := bool_decide (is_Some (macrolabp (tab s))) in
    let escMacro := setNameSpace && inside && isc naam "@" && isn naam 1 "." in
    let naam := if escMacro then adv naam else naam in
    let global := isc naam "@" in
    let local := isc naam "." in
    let body := if global || local then adv naam else naam in
    if negb (isLabelStart naam) then
      Error "Invalid character at start of labelname" (Some (aft body)) SUPPRESS ;;
      mret (local, None)
    else
      let inMacro := negb escMacro && local && inside in
      let inModule := negb inMacro && negb global && negb local
                      && negb (bool_decide (ModuleName (tab s) = [])) in
      let '(name, np) := take_while islabchar body in
      if isc np "[" then mret (local, None)
      else if negb (isc np NUL) && negb ignoreCharAfter then
        Error "Invalid character after labelname" (Some (aft body)) SUPPRESS ;;
        mret (local, None)
      else
        mwhen (Z.of_nat LABMAX <? Z.of_nat (length name))
          (Error "Label too long" (Some (aft body)) IF_FIRST) ;;
        let prefix :=
          (if inModule then ModuleName (tab s) ++ ["."%char] else [])
          ++ (if inMacro then default [] (macrolabp (tab s)) ++ [">"%char]
              else if local then vorlab (tab s) ++ ["."%char] else []) in
        let label := prefix ++ take LABMAX name in
        mwhen (setNameSpace && negb local) (modify (set_vorlab label)) ;;
        mret (local, Some label).

(** ** Pages of addresses *)

Definition cur_device (s : St) : option CDevice :=
  match Device (dev s) with None => None | Some i => Devices (dev s) !! i end.

Definition getAddressPageNumber (address : Z) (forceRecalculateByAddress : bool) : M St Z :=
  s ← gets st;
  match cur_device s with
  | None => mret LABEL_PAGE_ROM
  | Some d =>
      slot ← GetCurrentSlot d;
      let disp := negb (PseudoORG (org s) =? DISP_NONE) in
      if negb forceRecalculateByAddress && negb disp
         && (sl_Address slot <=? address) && (address <? sl_Address slot + sl_Size slot)
      then mret (pg_Number (Page (dev s)))
      else if disp && negb (dispPageNum (org s) =? LABEL_PAGE_UNDEFINED)
      then mret (dispPageNum (org s))
      else
        let page := GetPageOfA16 d address in
        mret (if page =? LABEL_PAGE_UNDEFINED then LABEL_PAGE_OUT_OF_BOUNDS else page)
  end.

(** [updatePhAddressPageNumber]: [ph_page] from [page] and [ph_value]. *)
Definition ph_page_of (s : St) (page ph_value : Z) : Z :=
  if page =? LABEL_PAGE_UNDEFINED then LABEL_PAGE_OUT_OF_BOUNDS
  else match cur_device s with
       | Some d => GetPageOfA16 d ph_value
       | None => LABEL_PAGE_ROM
       end.

(** The physical address at which a label is being defined. *)
Definition physical_address (s : St) : Z :=
  if negb (PseudoORG (org s) =? DISP_NONE) then adrdisp (org s) else CurAddress (org s).

(** ** The symbol table *)

Definition Insert_deltaType (traits : Z) (s : St) : Z :=
  if has traits LABEL_HAS_RELOC_TRAIT then (if has traits LABEL_IS_RELOC then REGULAR else OFF)
  else if has traits (Z.lor LABEL_IS_DEFL LABEL_IS_EQU) then deltaType (rel s)
  else if negb (rel_type (rel s) =? 0) && negb (PseudoORG (org s) =? DISP_INSIDE_RELOCATE)
  then REGULAR else OFF.

(** The page given by EQU is cut to a [page_t]. *)
Definition CLabelTable_Insert (nname : string) (nvalue traits' equPageNum : Z) : M St bool :=
  s ← gets st;
  let equPageNum := wrap16 equPageNum in
  let IsUndefined := has traits' LABEL_IS_UNDEFINED in
  let delta := Insert_deltaType traits' s in
  let ph := physical_address s in
  let explicit_page := has traits' LABEL_IS_EQU && negb (equPageNum =? LABEL_PAGE_UNDEFINED) in
  let valued := has traits' (Z.lor LABEL_IS_DEFL LABEL_IS_EQU) in
  match symbol nname s with
  | Some label =>
      mwhen (has (traits label) LABEL_IS_KEYWORD)
        (WarningById "opkeyword" (Some (str nname)) W_EARLY) ;;
      if has (traits label) LABEL_IS_DEFL || (page label =? LABEL_PAGE_UNDEFINED)
         || (updatePass label <? pass (src s))
      then
        pg ← (if explicit_page then mret equPageNum else getAddressPageNumber nvalue valued);
        modify (put_symbol nname
          {| value := nvalue; ph_value := ph; size := size label; page := pg;
             ph_page := ph_page_of s pg ph;
             traits := Z.lor (Z.land (traits label) LABEL_HAS_SIZE) traits';
             updatePass := pass (src s); used := used label; isRelocatable := delta |}) ;;
        mret true
      else mret false
  | None =>
      pg ← (if explicit_page then mret equPageNum
            else if IsUndefined then mret LABEL_PAGE_UNDEFINED
            else getAddressPageNumber nvalue valued);
      modify (put_symbol nname
        {| value := nvalue; ph_value := ph; size := 0; page := pg;
           ph_page := ph_page_of s pg ph; traits := traits';
           updatePass := pass (src s); used := IsUndefined;
           isRelocatable := if IsUndefined then OFF else delta |}) ;;
      mret true
  end.

Definition CLabelTable_Update (name : string) (nvalue : Z) : M St bool :=
  s ← gets st;
  match symbol name s with
  | None => mret false
  | Some label =>
      let ph := physical_address s in
      let fixed := has (traits label)
                     (Z.lor LABEL_IS_EQU (Z.lor LABEL_IS_DEFL LABEL_IS_STRUCT_D)) in
      pg ← (if negb fixed && negb (page label =? LABEL_PAGE_UNDEFINED)
            then getAddressPageNumber nvalue false else mret (page label));
      modify (put_symbol name
        {| value := nvalue; ph_value := ph; size := size label; page := pg;
           ph_page := if fixed then ph_page label else ph_page_of s pg ph;
           traits := traits label; updatePass := updatePass label; used := used label;
           isRelocatable := isRelocatable label |}) ;;
      mret true
  end.

Definition CLabelTable_Find (name : string) (onlyDefined : bool) (s : St) : option SLabelTableEntry :=
  match symbol name s with
  | None => None
  | Some e => if onlyDefined && (page e =? LABEL_PAGE_UNDEFINED) then None else Some e
  end.

Definition CLabelTable_IsUsed (name : string) (s : St) : bool :=
  match symbol name s with None => false | Some e => used e end.

Definition CLabelTable_Remove (name : string) : M St bool :=
  s ← gets st;
  modify (set_symbols (sym_erase name (symbols (tab s)))) ;;
  mret (bool_decide (is_Some (symbol name s))).

Definition CLabelTable_RemoveAll : M St unit := modify (set_symbols ∅).

(** ** Looking a label up in an expression *)

(** [while ('>' != *findName && '.' != *findName) ++findName]: the separator
    found and the name behind it. *)
Fixpoint outer_macro (l : list ascii) : option (ascii * list ascii) :=
  match l with
  | [] => None
  | c :: l => if Ascii.eqb c ">" || Ascii.eqb c "." then Some (c, l) else outer_macro l
  end.

Definition set_label_used (e : SLabelTableEntry) : SLabelTableEntry :=
  {| value := value e; ph_value := ph_value e; size := size e; page := page e;
     ph_page := ph_page e; traits := traits e; updatePass := updatePass e; used := true;
     isRelocatable := isRelocatable e |}.
Definition set_label_traits (t : Z) (e : SLabelTableEntry) : SLabelTableEntry :=
  {| value := value e; ph_value := ph_value e; size := size e; page := page e;
     ph_page := ph_page e; traits := t; updatePass := updatePass e; used := used e;
     isRelocatable := isRelocatable e |}.

Definition module_length (s : St) : nat := length (ModuleName (tab s)).

(** The search loop: the name of the entry found and the contents of [temp].
    [undefinedLabelEntry] is the fall-back result, [atFull] tells
    [fullName.get() == findName].  [strncat] copies at most [LABMAX - 1]
    characters of [vorlab] and of the name into [temp]. *)
Fixpoint SearchLabel_loop (fuel : nat) (setUsed global local inMacro atFull : bool)
    (findName temp : list ascii) (undefinedLabelEntry : option string) :
    M St (option string * list ascii) :=
  match fuel with
  | O => nofuel
  | S fuel =>
      s ← gets st;
      let key := of_chars findName in
      let found := symbol key s in
      mwhen (bool_decide (is_Some found) && setUsed && (pass (src s) <? LASTPASS))
        (match found with
         | Some e => modify (put_symbol key (set_label_used e))
         | None => mret tt
         end) ;;
      let defined := match found with
                     | Some e => negb (page e =? LABEL_PAGE_UNDEFINED)
                     | None => false
                     end in
      if defined then mret (Some key, temp)
      else
        let undefinedLabelEntry := match found with Some _ => Some key | None => undefinedLabelEntry end in
        if inMacro then
          match outer_macro findName with
          | None => undef
          | Some (c, findName) =>
              if Ascii.eqb c ">" then
                let temp := temp ++ take (LABMAX - 1) (vorlab (tab s)) ++ ["."%char]
                                 ++ take (LABMAX - 1) findName in
                SearchLabel_loop fuel setUsed global local false false temp temp undefinedLabelEntry
              else
                SearchLabel_loop fuel setUsed global local true false findName temp undefinedLabelEntry
          end
        else if negb global && negb local && atFull && negb (Nat.eqb (module_length s) 0) then
          SearchLabel_loop fuel setUsed global local false false
            (drop (module_length s + 1) findName) temp undefinedLabelEntry
        else mret (undefinedLabelEntry, temp)
  end.

(** The entry, the qualified name, [temp] and the pointer behind the label; the
    name is [None] when [getLabel_invalidName]. *)
Definition SearchLabel (p : text) (setUsed : bool) :
    M St (option string * option (list ascii) * list ascii * text) :=
  modify (set_getLabel_invalidName true) ;;
  '(_, fullName) ← ValidateLabel p false true;
  match (fullName : option (list ascii)) with
  | None => mret (None, None, [], p)
  | Some fullName =>
      modify (set_getLabel_invalidName false) ;;
      let global := isc p "@" in
      let local := isc p "." in
      let '(_, p) := take_while islabchar p in
      s ← gets st;
      let inMacro := local && bool_decide (is_Some (macrolabp (tab s))) in
      '(entry, temp) ← SearchLabel_loop (length fullName + 3) setUsed global local inMacro true
                          fullName [] None;
      mret (entry, Some fullName, temp, p)
  end.

(** The entry as the table has it now. *)
Definition GetLabel (p : text) (setExtraTraits : Z) : M St (option SLabelTableEntry * text) :=
  '(entry, fullName, temp, p) ← SearchLabel p true;
  match (fullName : option (list ascii)) with
  | None => mret (None, p)
  | Some fullName =>
      match (entry : option string) with
      | Some key =>
          modify (fun s => match symbol key s with
                           | Some e => put_symbol key (set_label_traits (Z.lor (traits e) setExtraTraits) e) s
                           | None => s
                           end)
      | None => mret tt
      end ;;
      s ← gets st;
      let label := match entry with Some key => symbol key s | None => None end in
      let missing := match label with None => true | Some e => page e =? LABEL_PAGE_UNDEFINED end in
      if missing then
        modify (set_IsLabelNotFound true) ;;
        if IsSubstituting (par s) then mret (None, p)
        else
          let findName := if bool_decide (temp = []) then fullName else temp in
          mwhen (bool_decide (entry = None))
            (_ ← CLabelTable_Insert (of_chars findName) 0 (Z.lor LABEL_IS_UNDEFINED setExtraTraits)
                   LABEL_PAGE_UNDEFINED; mret tt) ;;
          Error "Label not found" (Some findName) IF_FIRST ;;
          mret (None, p)
      else mret (label, p)
  end.

(** Each answers whether the name was valid, the value and the pointer. *)
Definition LabelExist (p : text) : M St (bool * Z * text) :=
  '(entry, _, _, p) ← SearchLabel p false;
  s ← gets st;
  let e := match (entry : option string) with Some key => symbol key s | None => None end in
  let val := match e with Some e => if page e =? LABEL_PAGE_UNDEFINED then 0 else -1 | None => 0 end in
  mret (negb (getLabel_invalidName (par s)), val, p).

Definition label_getter (field : St → option SLabelTableEntry → Z) (setExtraTraits : Z) (p : text) :
    M St (bool * Z * text) :=
  '(e, p) ← GetLabel p setExtraTraits;
  s ← gets st;
  mret (negb (getLabel_invalidName (par s)), field s e, p).

Definition GetLabelPage : text → M St (bool * Z * text) :=
  label_getter (fun _ e => match e with Some e => page e | None => LABEL_PAGE_UNDEFINED end) 0.

Definition GetLabelValue : text → M St (bool * Z * text) :=
  label_getter (fun s e =>
    match e with
    | None => 0
    | Some e =>
        if areLabelsOffset (rel s) then
          if isRelocatable e =? REGULAR then wrap32 (value e + alternative_offset (rel s))
          else if isRelocatable e =? HIGH
          then wrap32 (value e + Z.shiftr (alternative_offset (rel s)) 8)
          else value e
        else value e
    end) 0.

Definition GetLabelPhPage : text → M St (bool * Z * text) :=
  label_getter (fun _ e => match e with Some e => ph_page e | None => LABEL_PAGE_UNDEFINED end) 0.

Definition GetLabelPhValue : text → M St (bool * Z * text) :=
  label_getter (fun _ e => match e with Some e => ph_value e | None => 0 end) 0.

Definition GetLabelSize : text → M St (bool * Z * text) :=
  label_getter (fun _ e => match e with Some e => size e | None => 0 end) LABEL_HAS_SIZE.

(** ** Temporary labels *)

(** [labels] are those of the previous pass, [nextPassLabels] those met so far
    in this one. *)
Definition new_TemporaryLabel (number address : Z) (s : St) : TemporaryLabel :=
  {| nummer := number; tl_value := address; tl_isRelocatable := negb (rel_type (rel s) =? 0) |}.

Definition CTemporaryLabelTable_InitPass : M St unit :=
  modify (fun s => set_nextPassLabels [] (set_labels (nextPassLabels (tab s)) s)).

Definition InsertRefresh (labelNumber : Z) : M St bool :=
  s ← gets st;
  let refresh := length (nextPassLabels (tab s)) in
  modify (set_nextPassLabels
    (nextPassLabels (tab s) ++ [new_TemporaryLabel labelNumber (CurAddress (org s)) s])) ;;
  match labels (tab s) !! refresh with
  | None => mret false
  | Some to_r =>
      if negb (nummer to_r =? labelNumber) then mret false
      else
        mwhen (negb (tl_value to_r =? CurAddress (org s)))
          (Warning1 "Temporary label has different address") ;;
        mret true
  end.

Definition has_number (n : Z) (l : TemporaryLabel) : bool := nummer l =? n.

Definition seekForward (labelNumber : Z) (s : St) : option TemporaryLabel :=
  List.find (has_number labelNumber) (drop (length (nextPassLabels (tab s))) (labels (tab s))).

Definition seekBack (labelNumber : Z) (s : St) : option TemporaryLabel :=
  List.find (has_number labelNumber) (reverse (nextPassLabels (tab s))).

(** Result, value and pointer.  When the number does not fit the pointer is left
    behind its digits although the result is 0. *)
Definition GetTemporaryLabelValue (op : text) (requireUnderscore : bool) : M St (Z * Z * text) :=
  let '(eol, p) := SkipBlanks op in
  if eol || negb (isdigit (cur p)) then mret (0, 0, op)
  else
    let numberB := p in
    let '(_, p) := take_while isdigit p in
    let hasUnderscore := isc p "_" in
    if requireUnderscore && negb hasUnderscore then mret (0, 0, op)
    else
      let type := or20 (if hasUnderscore then pk p 1 else pk p 0) in
      let following := if hasUnderscore then pk p 2 else pk p 1 in
      if negb (Ascii.eqb type "b") && negb (Ascii.eqb type "f") then mret (0, 0, op)
      else if islabchar following then mret (0, 0, op)
      else
        '(ok, val, op) ← GetNumericValue_IntBased numberB (room numberB - room p)%nat 10;
        if negb ok then mret (0, val, op)
        else
          let op := if isc op "_" then adv op else op in
          let op := adv op in
          s ← gets st;
          match (if Ascii.eqb type "b" then seekBack val s else seekForward val s) with
          | Some label =>
              let r := tl_isRelocatable label in
              if requireUnderscore then
                mret (1, if r && areLabelsOffset (rel s)
                         then wrap32 (tl_value label + alternative_offset (rel s))
                         else tl_value label, op)
              else
                modify (set_isResultAffected r) ;;
                modify (set_deltaType (if r then REGULAR else OFF)) ;;
                mret (1, tl_value label, op)
          | None =>
              mwhen (LASTPASS =? pass (src s))
                (Error "Temporary label not found" (Some (aft numberB)) SUPPRESS) ;;
              mret (1, 0, op)
          end.

(** ** SIZEOF tracking *)

Definition set_label_size (n : Z) (e : SLabelTableEntry) : SLabelTableEntry :=
  {| value := value e; ph_value := ph_value e; size := n; page := page e;
     ph_page := ph_page e; traits := traits e; updatePass := updatePass e; used := used e;
     isRelocatable := isRelocatable e |}.

Definition TrackForSize (key : string) : M St unit :=
  s ← gets st;
  match symbol key s with
  | None => undef
  | Some label =>
      if has (Z.lor LABEL_IS_EQU (Z.lor LABEL_IS_DEFL LABEL_IS_SMC)) (traits label) then
        Warning1 "SIZEOF(...) this type of label is invalid, size is zero"
      else
        let myLevel := sourceBlockLevel (src s) + (if has LABEL_IS_LOCAL (traits label) then 1 else 0) in
        modify (set_sizeofStack ((key, myLevel) :: sizeofStack (tab s)))
  end.

Inductive BoundaryLevel := BOUNDARY_FLOW | BOUNDARY_ALL | BOUNDARY_MAIN | BOUNDARY_LOCAL.
#[export] Instance BoundaryLevel_eq_dec : EqDecision BoundaryLevel.
Proof. solve_decision. Defined.

(** The label on top of the stack gets its size and is popped. *)
Definition close_top (s : St) : St :=
  match sizeofStack (tab s) with
  | [] => s
  | (key, _) :: rest =>
      let s := match symbol key s with
               | Some e => put_symbol key
                   (set_label_size (wrap32 (physical_address s - ph_value e)) e) s
               | None => s
               end in
      set_sizeofStack rest s
  end.

(** Pops while the top satisfies [f]. *)
Fixpoint close_while (n : nat) (f : Z → bool) (s : St) : St :=
  match n, sizeofStack (tab s) with
  | S n, (_, lvl) :: _ => if f lvl then close_while n f (close_top s) else s
  | _, _ => s
  end.

Definition stack_depth (s : St) : nat := length (sizeofStack (tab s)).

Definition SizeBoundary (boundaryLevel : BoundaryLevel) : M St unit :=
  s ← gets st;
  if bool_decide (sizeofStack (tab s) = []) then mret tt
  else
    let at_level l := bool_decide (boundaryLevel = l) in
    mwhen (at_level BOUNDARY_FLOW)
      (Warning1 "SIZEOF-tracking does not work across wrap-around. Stopping count here.") ;;
    let myLevel := sourceBlockLevel (src s) + (if at_level BOUNDARY_LOCAL then 1 else 0) in
    modify (fun s => close_while (stack_depth s) (fun lvl => myLevel <=? lvl) s) ;;
    s ← gets st;
    if bool_decide (sizeofStack (tab s) = []) then mret tt
    else if negb (at_level BOUNDARY_FLOW) && negb (at_level BOUNDARY_ALL) then mret tt
    else
      mwhen (at_level BOUNDARY_ALL)
        (Warning1 "There are labels in parent scope being SIZEOF-tracked at this point. Stopping their count here.") ;;
      modify (fun s => close_while (stack_depth s) (fun _ => true) s).

(** ** The instruction table ([CFunctionTable])

    Each name is entered twice, as written and in upper case; the first entry of
    a name stays. *)
Section function_table.
Context {F : Type}.

Definition emplace (name : list ascii) (f : F) (t : list (list ascii * F)) : bool * list (list ascii * F) :=
  if existsb (fun e => bool_decide (fst e = name)) t then (false, t) else (true, t ++ [(name, f)]).

Definition CFunctionTable_Insert (name : list ascii) (f : F) (t : list (list ascii * F)) :
    bool * list (list ascii * F) :=
  let '(ok, t) := emplace name f t in
  if negb ok then (false, t) else emplace (map toupper name) f t.

Definition CFunctionTable_insertd (name : list ascii) (f : F) (t : list (list ascii * F)) :
    bool * list (list ascii * F) :=
  let '(ok, t) := CFunctionTable_Insert (drop 1 name) f t in
  if negb ok then (false, t) else CFunctionTable_Insert name f t.

Definition CFunctionTable_zoek (name : list ascii) (t : list (list ascii * F)) : option F :=
  snd <$> List.find (fun e => bool_decide (fst e = name)) t.
End function_table.

(** Every function of a table satisfies what those entered satisfy. *)
Section function_table_forall.
Context {F : Type} (P : F → Prop).

Lemma emplace_Forall name f (t : list (list ascii * F)) :
  P f → Forall (P ∘ snd) t → Forall (P ∘ snd) (snd (emplace name f t)).
Proof.
  intros Hf Ht. unfold emplace. destruct (existsb _ t); [done|].
  apply Forall_app. auto.
Qed.

Lemma CFunctionTable_Insert_Forall name f (t : list (list ascii * F)) :
  P f → Forall (P ∘ snd) t → Forall (P ∘ snd) (snd (CFunctionTable_Insert name f t)).
Proof.
  intros Hf Ht. unfold CFunctionTable_Insert.
  pose proof (emplace_Forall name f t Hf Ht) as H1.
  destruct (emplace name f t) as [[] t1]; simpl in *; [|done].
  by apply emplace_Forall.
Qed.

Lemma CFunctionTable_zoek_Forall name f (t : list (list ascii * F)) :
  Forall (P ∘ snd) t → CFunctionTable_zoek name t = Some f → P f.
Proof.
  unfold CFunctionTable_zoek. intros Ht Hz.
  destruct (List.find _ t) as [[k g]|] eqn:Hf; simplify_eq/=.
  apply find_some in Hf as [Hin _]. rewrite Forall_forall in Ht.
  apply (Ht (k, f)). by apply list_elem_of_In.
Qed.
End function_table_forall.
