(* ===== verification/SymbolSpec.v ===== *)
(** * Symbols and temporary labels: the theorems

    What a definition of a label changes in the symbol table, when it is refused,
    and that temporary labels mean what the text of the source says. *)

From S2P Require Export Tables.

(** ** Definitions of labels *)

Definition same_symbols (s s' : St) : Prop := symbols (tab s') = symbols (tab s) ∧ src s' = src s.

#[export] Instance same_symbols_preorder : PreOrder same_symbols.
Proof. split; [by split|]. intros ??? [] []. split; congruence. Qed.

Lemma same_symbols_Error m b t : keeps same_symbols (Error m b t).
Proof.
  intros s. unfold Error. destruct (Error_wrong_pass _ _); [reflexivity|].
  destruct (Error_skipped _ _); [reflexivity|]. cbv zeta. by destruct (is_type t FATAL).
Qed.
Lemma same_symbols_WarningImpl i m b t : keeps same_symbols (WarningImpl i m b t).
Proof.
  apply keeps_read. intros s. destruct (WarningsAsErrors _); [apply same_symbols_Error|by run].
Qed.
Lemma same_symbols_WarningById i b t : keeps same_symbols (WarningById i b t).
Proof. unfold WarningById. keep. apply same_symbols_WarningImpl. Qed.
#[export] Hint Resolve same_symbols_Error same_symbols_WarningById : keeps.

Lemma same_symbols_getAddressPageNumber a f : keeps same_symbols (getAddressPageNumber a f).
Proof. unfold getAddressPageNumber, GetCurrentSlot, GetSlot. keep. Qed.
#[export] Hint Resolve same_symbols_getAddressPageNumber : keeps.

(** A name with a value of this pass: not a [DEFL] one, not a mere mention. *)
Definition defined_this_pass (name : string) (s : St) : Prop :=
  ∃ e, symbol name s = Some e ∧ has (traits e) LABEL_IS_DEFL = false
    ∧ page e ≠ LABEL_PAGE_UNDEFINED ∧ pass (src s) ≤ updatePass e.

Lemma symbol_put k k' e s :
  symbol k' (put_symbol k e s) = if decide (k = k') then Some e else symbol k' s.
Proof.
  unfold symbol, put_symbol. change (symbols (tab (set_symbols ?x s))) with x.
  destruct (decide (k = k')) as [->|]; [apply find_put_eq|by apply find_put_ne].
Qed.

(** What [m] puts for the name, when it ends. *)
Definition puts (name : string) (P : SLabelTableEntry → Prop) (m : M St bool) (s : St) : Prop :=
  ∀ b s', m s = Ret b s' →
    b = true ∧ (∃ e, symbol name s' = Some e ∧ P e)
    ∧ ∀ k, k ≠ name → symbol k s' = symbol k s.

Lemma puts_entry {A} name P (m : M St A) (f : A → SLabelTableEntry) s :
  keeps same_symbols m → (∀ a, P (f a)) →
  puts name P (a ← m; modify (put_symbol name (f a)) ;; mret true) s.
Proof.
  intros Hm HP b s'. unfold mbind, M_bind. specialize (Hm s).
  destruct (m s) as [a s1|s1| |]; try done. run. intros [= <- <-]. split; [done|]. split.
  - exists (f a). split; [|done]. by rewrite symbol_put, decide_True.
  - intros k Hk. rewrite symbol_put, decide_False by congruence.
    unfold symbol. by destruct Hm as [-> _].
Qed.

Lemma puts_after {A} name P (m : M St A) (f : A → M St bool) s :
  keeps same_symbols m → (∀ a s1, same_symbols s s1 → puts name P (f a) s1) → puts name P (a ← m; f a) s.
Proof.
  intros Hm Hf b s'. unfold mbind, M_bind. specialize (Hm s).
  destruct (m s) as [a s1|s1| |]; try done. intros E.
  destruct (Hf a s1 Hm b s' E) as (H1 & H2 & H3). split_and!; [done..|].
  intros k Hk. rewrite H3 by done. unfold symbol. by destruct Hm as [-> _].
Qed.

Definition as_given (v : Z) (s : St) (e : SLabelTableEntry) : Prop :=
  value e = v ∧ ph_value e = physical_address s ∧ updatePass e = pass (src s).

Lemma redefinable_spec name s e :
  symbol name s = Some e →
  has (traits e) LABEL_IS_DEFL || (page e =? LABEL_PAGE_UNDEFINED) || (updatePass e <? pass (src s)) = true
  ↔ ¬ defined_this_pass name s.
Proof.
  intros E. rewrite !orb_true_iff, Z.eqb_eq, Z.ltb_lt. split.
  - intros H (e' & E' & H1 & H2 & H3). rewrite E in E'. injection E' as <-.
    destruct H as [[H|H]|H]; [congruence|done|lia].
  - intros H. destruct (has (traits e) LABEL_IS_DEFL) eqn:Hd; [by left; left|].
    destruct (decide (page e = LABEL_PAGE_UNDEFINED)); [by left; right|].
    right. destruct (Z.lt_ge_cases (updatePass e) (pass (src s))); [done|]. destruct H. by exists e.
Qed.

(** C13: the definition of a label is refused exactly when the name already has a
    value of this pass that is not a [DEFL] one, and then no symbol changes; an
    accepted one gives the name the value, the physical address and the pass, and
    changes no other name. *)
Theorem CLabelTable_Insert_spec : ∀ name v t pg s b s',
  CLabelTable_Insert name v t pg s = Ret b s' →
  (b = false ↔ defined_this_pass name s)
  ∧ (b = false → symbols (tab s') = symbols (tab s))
  ∧ (b = true → ∃ e, symbol name s' = Some e ∧ as_given v s e)
  ∧ ∀ k, k ≠ name → symbol k s' = symbol k s.
Proof.
  intros name v t pg s b s' E.
  assert (Hput : ¬ defined_this_pass name s → puts name (as_given v s) (CLabelTable_Insert name v t pg) s
                 → (b = false ↔ defined_this_pass name s)
                   ∧ (b = false → symbols (tab s') = symbols (tab s))
                   ∧ (b = true → ∃ e, symbol name s' = Some e ∧ as_given v s e)
                   ∧ ∀ k, k ≠ name → symbol k s' = symbol k s).
  { intros Hn H. destruct (H b s' E) as (-> & He & Hk). split_and!; [|done|done|done]. by split. }
  destruct (symbol name s) as [label|] eqn:Hs.
  - destruct (has (traits label) LABEL_IS_DEFL || (page label =? LABEL_PAGE_UNDEFINED)
              || (updatePass label <? pass (src s))) eqn:Hc.
    + apply Hput; [by apply (redefinable_spec _ _ _ Hs)|]. intros b' s1. unfold CLabelTable_Insert.
      unfold mbind at 1, M_bind, gets, st. rewrite Hs, Hc. revert b' s1.
      apply puts_after; [keep|]. intros _ s1 _.
      apply (puts_entry name (as_given v s) _ (fun p => mk_label v _ _ p _ _ _ _ _)); [keep|done].
    + assert (Hd : defined_this_pass name s).
      { destruct (decide (has (traits label) LABEL_IS_DEFL = true)) as [Hd|Hd].
        - by rewrite Hd in Hc.
        - exists label. apply not_true_is_false in Hd. rewrite Hd in Hc. apply orb_false_iff in Hc as [Hp Hu].
          apply Z.eqb_neq in Hp. apply Z.ltb_ge in Hu. done. }
      revert E. unfold CLabelTable_Insert. unfold mbind at 1, M_bind, gets, st. rewrite Hs, Hc.
      set (m := mwhen _ _). assert (Hm : keeps same_symbols m) by (subst m; keep).
      unfold mbind, M_bind. specialize (Hm s). destruct (m s) as [a s1|s1| |]; try done.
      intros [= <- <-]. destruct Hm as [Hsym _]. split_and!; [by split|done|done|].
      intros k _. unfold symbol. by rewrite Hsym.
  - assert (Hn : ¬ defined_this_pass name s) by (intros (e & He & _); congruence).
    apply Hput; [done|]. intros b' s1. unfold CLabelTable_Insert.
    unfold mbind at 1, M_bind, gets, st. rewrite Hs. revert b' s1.
    apply (puts_entry name (as_given v s) _ (fun p => mk_label v _ _ p _ _ _ _ _)); [keep|done].
Qed.

Lemma CLabelTable_Insert_spec_witness :
  match CLabelTable_Insert "start" 5 0 LABEL_PAGE_UNDEFINED last_pass with
  | Ret b s =>
      b = true
      ∧ match CLabelTable_Insert "start" 6 0 LABEL_PAGE_UNDEFINED s with
        | Ret b' s' => b' = false
        | _ => False
        end
  | _ => False
  end.
Proof.
  pose proof (CLabelTable_Insert_spec "start" 5 0 LABEL_PAGE_UNDEFINED last_pass) as H.
  destruct (CLabelTable_Insert "start" 5 0 LABEL_PAGE_UNDEFINED last_pass) as [b s| | |] eqn:E;
    try (vm_compute in E; discriminate).
  destruct (H b s eq_refl) as (Hb & _).
  split; [destruct b; [done|]; by destruct (proj1 Hb eq_refl) as (e & He & _)|].
  vm_compute in E. injection E as <- <-. reflexivity.
Defined.

(** ** Temporary labels *)

(** A pass meets the temporary labels of the source in order: number and address. *)
Definition meet (l : Z * Z) : M St unit :=
  modify (set_CurAddress (snd l)) ;; _ ← InsertRefresh (fst l); mret tt.
Definition entry (r : bool) (l : Z * Z) : TemporaryLabel :=
  {| nummer := fst l; tl_value := snd l; tl_isRelocatable := r |}.

(** The nearest one ahead and the nearest one behind. *)
Definition next_one (n : Z) (l : list (Z * Z)) : option (Z * Z) := List.find (fun x => fst x =? n) l.
Definition last_one (n : Z) (l : list (Z * Z)) : option (Z * Z) := next_one n (reverse l).

Lemma find_entries r n l : List.find (has_number n) (entry r <$> l) = entry r <$> next_one n l.
Proof.
  unfold next_one. induction l as [|x l IH]; [done|]. cbn [fmap list_fmap List.find].
  unfold has_number at 1; cbn [nummer entry]. by destruct (fst x =? n).
Qed.

(** One label of the replayed pass: it is the one the previous pass met there. *)
Lemma meet_replayed src l x rest s :
  labels (tab s) = entry (negb (rel_type (rel s) =? 0)) <$> src ++ x :: rest →
  src = l → nextPassLabels (tab s) = entry (negb (rel_type (rel s) =? 0)) <$> l →
  ∃ s', meet x s = Ret tt s' ∧ err s' = err s ∧ rel s' = rel s
    ∧ labels (tab s') = labels (tab s)
    ∧ nextPassLabels (tab s') = entry (negb (rel_type (rel s) =? 0)) <$> l ++ [x].
Proof.
  intros Hl -> Hn. unfold meet, InsertRefresh. run. unfold st.
  set (s1 := set_CurAddress (snd x) s).
  assert (E : labels (tab s1) !! length (nextPassLabels (tab s1)) = Some (entry (negb (rel_type (rel s) =? 0)) x)).
  { change (tab s1) with (tab s). rewrite Hl, Hn, length_fmap, fmap_app.
    rewrite lookup_app_r by (rewrite length_fmap; lia). by rewrite length_fmap, Nat.sub_diag. }
  rewrite E. cbn [nummer tl_value entry]. change (CurAddress (org s1)) with (snd x).
  rewrite !Z.eqb_refl. cbn [negb]. eexists. split; [reflexivity|]. split_and!; try done.
  change (nextPassLabels (tab s1) ++ [entry (negb (rel_type (rel s) =? 0)) x]
          = entry (negb (rel_type (rel s) =? 0)) <$> l ++ [x]).
  change (tab s1) with (tab s). by rewrite Hn, fmap_app.
Qed.

Lemma meet_all l0 l rest s :
  labels (tab s) = entry (negb (rel_type (rel s) =? 0)) <$> l0 ++ l ++ rest →
  nextPassLabels (tab s) = entry (negb (rel_type (rel s) =? 0)) <$> l0 →
  ∃ s', for_each l meet s = Ret tt s' ∧ err s' = err s ∧ rel s' = rel s
    ∧ labels (tab s') = labels (tab s)
    ∧ nextPassLabels (tab s') = entry (negb (rel_type (rel s) =? 0)) <$> l0 ++ l.
Proof.
  revert l0 s. induction l as [|x l IH]; intros l0 s Hl Hn.
  { exists s. rewrite app_nil_r. done. }
  destruct (meet_replayed l0 l0 x (l ++ rest) s Hl eq_refl Hn) as (s1 & E1 & He1 & Hr1 & Hl1 & Hn1).
  destruct (IH (l0 ++ [x]) s1) as (s2 & E2 & He2 & Hr2 & Hl2 & Hn2).
  - by rewrite Hl1, Hr1, Hl, <- app_assoc.
  - by rewrite Hn1, Hr1.
  - exists s2. cbn [for_each]. unfold mbind, M_bind. rewrite E1. rewrite Hr1, <- app_assoc in Hn2.
    split_and!; [exact E2|congruence|congruence|congruence|exact Hn2].
Qed.

(** C16: a pass that meets the temporary labels the previous one met, at the same
    addresses, is silent, and at each point of the source [nF] means the next
    label [n] of the source and [nB] the last one before. *)
Theorem temporary_labels : ∀ before after s,
  labels (tab s) = entry (negb (rel_type (rel s) =? 0)) <$> before ++ after →
  nextPassLabels (tab s) = [] →
  ∃ s', for_each before meet s = Ret tt s' ∧ err s' = err s
    ∧ ∀ n, let r := negb (rel_type (rel s) =? 0) in
        seekForward n s' = entry r <$> next_one n after
        ∧ seekBack n s' = entry r <$> last_one n before.
Proof.
  intros before after s Hl Hn.
  destruct (meet_all [] before after s) as (s' & E & He & _ & Hl' & Hn'); [done|done|].
  exists s'. split_and!; [done..|]. intros n r. cbn [app] in Hn'. unfold seekForward, seekBack.
  rewrite Hl', Hn', Hl, length_fmap, <- fmap_drop, drop_app_length, <- fmap_reverse.
  split; apply find_entries.
Qed.

Definition met : list (Z * Z) := [(1, 10); (2, 20); (1, 30); (1, 40)].

Lemma temporary_labels_witness :
  ∃ s', for_each (take 2 met) meet (set_labels (entry false <$> met) last_pass) = Ret tt s'
    ∧ tl_value <$> seekForward 1 s' = Some 30 ∧ tl_value <$> seekBack 1 s' = Some 10.
Proof.
  destruct (temporary_labels (take 2 met) (drop 2 met) (set_labels (entry false <$> met) last_pass))
    as (s' & E & _ & H); [reflexivity|reflexivity|].
  exists s'. split; [done|]. by destruct (H 1) as [-> ->].
Defined.
