(* ===== verification/Paging.v ===== *)
(** * The page check of an emitted byte (devices.cpp, [CDevice::CheckPage])

    Run for each byte emitted into a device and at every change of address: it
    sets [MemoryPointer], reports writes outside of the slot according to the
    slot's option, and for a wrap-around slot maps the next page in. *)

From S2P Require Export Tables.

Inductive ECheckPageLevel := CHECK_RESET | CHECK_NO_EMIT | CHECK_EMIT.
#[export] Instance ECheckPageLevel_eq_dec : EqDecision ECheckPageLevel.
Proof. solve_decision. Defined.

(** Assigns to the members of the current device. *)
Definition upd_device (f : CDevice → CDevice) (s : St) : St :=
  match Device (dev s) with
  | None => s
  | Some i => set_Devices (alter f i (Devices (dev s))) s
  end.

Definition in_slot (sl : CDeviceSlot) (a : Z) : bool :=
  (sl_Address sl <=? a) && (a <? sl_Address sl + sl_Size sl).

(** The page a slot has mapped; a slot without one is never reached. *)
Definition slot_page (d : CDevice) (sl : CDeviceSlot) : option CDevicePage :=
  match sl_Page sl with None => None | Some n => page_at d n end.

(** The last slot starting at or below the masked address. *)
Fixpoint last_slot_from (slots : list CDeviceSlot) (i : nat) (a : Z) : option (Z * CDeviceSlot) :=
  match i with
  | O => None
  | S i =>
      match slots !! i with
      | None => None
      | Some sl => if a <? sl_Address sl then last_slot_from slots i a else Some (Z.of_nat i, sl)
      end
  end.

Definition is_level (a b : ECheckPageLevel) : bool := bool_decide (a = b).

(** A message of the [O_ERROR]/[O_WARNING]/[O_NONE] options, once per slot. *)
Definition limit_message (level : ECheckPageLevel) (d : CDevice) (enabled : bool) (m : M St unit) : M St bool :=
  s ← gets st;
  if (LASTPASS =? pass (src s)) && is_level level CHECK_EMIT && negb (limitExceeded d) && enabled
  then m ;; modify (upd_device (fun d => set_check (previousSlotI d) (previousSlotOpt d) true d)) ;; mret true
  else mret false.

(** "refresh check slot settings" at the end of the crossing. *)
Definition refresh_check (level : ECheckPageLevel) (i : Z) (o : ESlotOptions) : M St unit :=
  mwhen (is_level level CHECK_EMIT)
    (modify (upd_device (fun d =>
       set_check i o (limitExceeded d && (previousSlotI d =? i)) d))).

(** The wrap-around option: the next page goes into the overflowing slot and the
    address moves back to its start. *)
Definition cross_next (level : ECheckPageLevel) (d : CDevice) (i : Z) (sl : CDeviceSlot) (longAddr : Z) :
    M St unit :=
  SizeBoundary BOUNDARY_FLOW ;;
  match slot_at d (previousSlotI d) with
  | None => undef
  | Some prevS =>
      match sl_Page prevS with
      | None => undef
      | Some n =>
          let nextPageN := n + 1 in
          if PagesCount d <=? nextPageN then
            ErrorInt "No more memory pages to map next one into slot" (previousSlotI d) SUPPRESS ;;
            let newOpt := if i =? previousSlotI d then O_NONE else sl_Option sl in
            modify (upd_device (fun d =>
              set_check i newOpt false (upd_slot (previousSlotI d) (set_sl_Option O_NONE) d))) ;;
            refresh_check level i newOpt
          else if negb (longAddr =? sl_Address prevS + sl_Size prevS) then
            ErrorInt "Write beyond memory slot in wrap-around slot caught too late by"
              (longAddr - sl_Address prevS - sl_Size prevS) FATAL ;;
            refresh_check level i (sl_Option sl)
          else
            match page_at d nextPageN with
            | None => undef
            | Some pg =>
                modify (upd_device (upd_slot (previousSlotI d) (set_sl_Page (Some nextPageN)))) ;;
                modify (set_Page pg) ;;
                modify (fun s =>
                  if negb (PseudoORG (org s) =? DISP_NONE)
                  then set_adrdisp (adrdisp (org s) - sl_Size prevS) s
                  else set_CurAddress (CurAddress (org s) - sl_Size prevS) s) ;;
                modify (set_MemoryPointer (Some (RAM pg)))
            end
      end
  end.

(** Crossing into slot [i]: what the option of the old slot asks for. *)
Definition cross_slot (level : ECheckPageLevel) (d : CDevice) (i : Z) (sl : CDeviceSlot) (longAddr : Z) :
    M St unit :=
  match previousSlotOpt d with
  | O_ERROR =>
      _ ← limit_message level d true (ErrorInt "Write outside of memory slot" longAddr SUPPRESS);
      refresh_check level i (sl_Option sl)
  | O_WARNING =>
      _ ← limit_message level d true (Warning1 "Write outside of memory slot");
      refresh_check level i (sl_Option sl)
  | O_NEXT => cross_next level d i sl longAddr
  | O_NONE =>
      mp ← gets (fun s => MemoryPointer (dev s));
      hit ← limit_message level d (bool_decide (mp = None))
              (ErrorInt "Write outside of device memory at" longAddr SUPPRESS);
      mwhen hit (modify (upd_device (fun d => set_check i (previousSlotOpt d) (limitExceeded d) d))) ;;
      refresh_check level i (sl_Option sl)
  end.

(** The check of the address [longAddr]. *)
Definition check_address (level : ECheckPageLevel) (longAddr : Z) : M St unit :=
  s ← gets st;
  match cur_device s with
  | None => undef
  | Some d =>
      match slot_at d (previousSlotI d) with
      | None => undef
      | Some prevS =>
          if negb (is_level level CHECK_RESET) && in_slot prevS longAddr then
            match slot_page d prevS with
            | None => undef
            | Some pg => modify (set_MemoryPointer (Some (RAM pg + (longAddr - sl_Address prevS))))
            end
          else
            match last_slot_from (Slots d) (length (Slots d)) (Z.land longAddr 65535) with
            | None => Error "CheckPage(..): please, contact the author of this program." None FATAL
            | Some (i, sl) =>
                match slot_page d sl with
                | None => undef
                | Some pg =>
                    modify (set_Page pg) ;;
                    modify (set_MemoryPointer
                      (if in_slot sl longAddr then Some (RAM pg + (longAddr - sl_Address sl)) else None)) ;;
                    if is_level level CHECK_RESET then
                      modify (upd_device (set_check i (sl_Option sl) false))
                    else if (i =? previousSlotI d) && in_slot sl longAddr then mret tt
                    else cross_slot level d i sl longAddr
                end
            end
      end
  end.

(** The address first stays below 64 KiB inside DISP. *)
Definition CheckPage (level : ECheckPageLevel) : M St unit :=
  s ← gets st;
  let disp := negb (PseudoORG (org s) =? DISP_NONE) in
  mwhen (disp && negb (is_level level CHECK_NO_EMIT) && (65536 <=? CurAddress (org s)))
    (mwhen (LASTPASS =? pass (src s))
       (Warning1 (of_chars (str "RAM limit exceeded 0x" ++ fmt_X (CurAddress (org s)) ++ str " by DISP"))) ;;
     SizeBoundary BOUNDARY_FLOW ;;
     modify (fun s => set_CurAddress (Z.land (CurAddress (org s)) 65535) s)) ;;
  s ← gets st;
  check_address level (if disp then adrdisp (org s) else CurAddress (org s)).

(** ** Opening a device ([SetDevice]) *)

(** [WriteToSldFile_TextFilePos]: the line, with the columns that are set. *)
Definition sld_position (pos : TextFilePos) : list ascii :=
  fmt_d (pos_line pos)
  ++ (if colBegin pos =? 0 then [] else str ":" ++ fmt_d (colBegin pos)
        ++ (if colEnd pos =? 0 then [] else str ":" ++ fmt_d (colEnd pos))).

(** The line of the source that is assembled, and the one where its text was defined
    (in a macro); SLDOPT SWAPON exchanges them.  Before the source starts there is
    only the position on top of the stack. *)
Definition sld_positions (s : St) : option (TextFilePos * TextFilePos) :=
  match last (sourcePosStack (src s)) with
  | None => None
  | Some top =>
      let n := Z.of_nat (length (sourcePosStack (src s))) in
      let outside_source := n <=? size_t (IncludeLevel (src s)) in
      let has_def_pos := negb outside_source && (size_t (IncludeLevel (src s) + 1) <? n) in
      let base := if outside_source then top
                  else default top (sourcePosStack (src s) !! Z.to_nat (IncludeLevel (src s))) in
      Some (if sldSwapSrcPos (lin s) <=? 0
            then (base, if has_def_pos then top else no_position)
            else (top, if has_def_pos then base else no_position))
  end.

(** The definition file is left out when it is the source file. *)
Definition sld_line (pageNum value : Z) (type : ascii) (symbol : list ascii) (curPos defPos : TextFilePos) : list ascii :=
  let macroFN := if bool_decide (filename defPos = filename curPos) then [] else str (filename defPos) in
  str (filename curPos) ++ str "|" ++ sld_position curPos ++ str "|" ++ macroFN ++ str "|" ++ sld_position defPos
  ++ str "|" ++ fmt_d pageNum ++ str "|" ++ fmt_d value ++ str "|" ++ [type] ++ str "|" ++ symbol ++ [LF].

Definition WriteToSldFile (pageNum value : Z) (type : ascii) (symbol : list ascii) : M St unit :=
  s ← gets st;
  mwhen (sldActive (out s))
    (match sld_positions s with
     | None => undef
     | Some (curPos, defPos) =>
         modify (set_sldTrace (sldTrace (out s) ++ [sld_line pageNum value type symbol curPos defPos]))
     end).

Definition IsSldExportActive (s : St) : bool :=
  sldActive (out s) && bool_decide (is_Some (Device (dev s))).

Definition sld_device_data (d : CDevice) : M St (list ascii) :=
  sl ← GetCurrentSlot d;
  mret (str "pages.size:" ++ fmt_d (sl_Size sl) ++ str ",pages.count:" ++ fmt_d (PagesCount d)
        ++ str ",slots.count:" ++ fmt_d (SlotsCount d)
        ++ concat (imap (fun i sl =>
             (if Nat.eqb i 0 then str ",slots.adr:" else str ",") ++ fmt_d (sl_Address sl)) (Slots d))).

(** Index of the first opened device with that name. *)
Fixpoint find_device (id : list ascii) (ds : list CDevice) (i : nat) : option nat :=
  match ds with
  | [] => None
  | d :: ds => if bool_decide (dev_ID d = id) then Some i else find_device id ds (S i)
  end.

Definition open_device (id : list ascii) (ramtop : Z) : M St bool :=
  modify (set_Device None) ;;
  s ← gets st;
  found ← match find_device id (Devices (dev s)) 0 with
          | Some i => mret (Some i)
          | None =>
              d ← create_device id ramtop;
              match (d : option CDevice) with
              | None => mret None
              | Some d =>
                  s ← gets st;
                  modify (set_Devices (Devices (dev s) ++ [d])) ;;
                  mret (Some (length (Devices (dev s))))
              end
          end;
  match (found : option nat) with
  | None => mret false
  | Some i => modify (set_Device (Some i)) ;; CheckPage CHECK_RESET ;; mret true
  end.

Definition SetDevice (id : list ascii) (ramtop : Z) : M St bool :=
  if fst (cmphstr (mk_text [] id) "none" false)
  then modify (set_Device None) ;; mret true
  else
    s ← gets st;
    let same := match cur_device s with Some d => bool_decide (dev_ID d = id) | None => false end in
    ok ← (if same then mret true else open_device id ramtop);
    if negb (ok : bool) then mret false
    else
      s ← gets st;
      match cur_device s with
      | None => undef
      | Some d =>
          mwhen (negb (ramtop =? 0) && negb (ZxRamTop d =? 0) && negb (ramtop =? ZxRamTop d))
            (WarningById1 "devramtop") ;;
          mwhen (IsSldExportActive s)
            (data ← sld_device_data d; WriteToSldFile (-1) (-1) "Z" data) ;;
          mret true
      end.
