(* ===== verification/Emit.v ===== *)
(** * Emitting machine code (sjio.cpp)

    A byte goes to the write buffer (flushed into the output, raw and tape files
    when full), to the Intel HEX writer, to the memory of the device and to the
    listing, and the current address advances.  A file opened for writing is the
    list of what was written to it; writes do not fail.  Closing the main output
    or the HEX file leaves its contents in [outFile] and [hexFile]. *)

From S2P Require Export Paging.

Definition DESTBUFLEN : Z := 8192.
Definition LIST_EMIT_BYTES_BUFFER_SIZE : Z := 65536.
Definition BYTES_END_MARKER : Z := -1.
Definition INSTRUCTION_START_MARKER : Z := -2.
Definition HEX_RECORD_MAX : Z := 16.

(** ** Address space limit without a device *)

Definition CheckRamLimitExceeded : M St unit :=
  s ← gets st;
  if IsLongPtr (opt s) then mret tt
  else
    let disp := negb (PseudoORG (org s) =? DISP_NONE) in
    let last := LASTPASS =? pass (src s) in
    (if 65536 <=? CurAddress (org s) then
       mwhen (last && notWarnedCurAdr (org s))
         (Warning1 (of_chars (str "RAM limit exceeded 0x" ++ fmt_X (CurAddress (org s)) ++ str " by "
                              ++ (if disp then str "DISP" else str "ORG"))) ;;
          modify (set_notWarnedCurAdr false)) ;;
       mwhen disp (modify (fun s => set_CurAddress (Z.land (CurAddress (org s)) 65535) s))
     else modify (set_notWarnedCurAdr true)) ;;
    (if disp && (65536 <=? adrdisp (org s)) then
       mwhen (last && notWarnedDisp (org s))
         (Warning1 (of_chars (str "RAM limit exceeded 0x" ++ fmt_X (adrdisp (org s)) ++ str " by ORG")) ;;
          modify (set_notWarnedDisp false))
     else modify (set_notWarnedDisp true)).

(** ** Output files *)

Definition WBLength (s : St) : Z := Z.of_nat (length (WriteBuffer (out s))).

(** [fwrite] at the end of an open stream.  The main output file may be written
    from its middle: [FP_Output] is what stands before the position, [out_tail]
    what stands behind it, and [out_gap] counts the zeros at the end of
    [FP_Output] a seek behind the end of the file stands for, which are in the
    file once more is written. *)
Definition append_to (f : option (list Z)) (l : list Z) : option (list Z) :=
  match f with None => None | Some c => Some (c ++ l) end.

Definition xor_all (l : list Z) (parity : Z) : Z := fold_left Z.lxor l parity.

Definition step_over (n : nat) (s : St) : St :=
  set_out_gap 0 (set_out_tail (drop n (out_tail (out s))) s).
Definition output_content (s : St) : list Z :=
  let c := default [] (FP_Output (out s)) in
  take (length c - Z.to_nat (out_gap (out s))) c ++ out_tail (out s).

(** The content left in a closed file, under its name. *)
Definition put_file (name : list ascii) (content : list Z) (s : St) : St :=
  set_saved_files ((name, content) :: saved_files (lin s)) s.

(** [fseek(tape_seek)] and two bytes written over the file. *)
Definition overwrite (pos : nat) (l f : list Z) : list Z :=
  take pos f ++ l ++ drop (pos + length l) f.

(** The end of [CloseTapFile], behind its [WriteDest]. *)
Definition close_tap (s : St) : St :=
  if FP_tapout (out s) then
    let f := tap_file (out s) ++ [Z.land (tape_parity (out s)) 255] in
    let l := tape_length (out s) in
    let f := overwrite (Z.to_nat (tape_seek (out s)))
               [Z.land l 255; Z.land (Z.shiftr l 8) 255] f in
    put_file (tapName (out s)) f
      (set_destlen 0 (set_FP_tapout false (set_tap_file f s)))
  else s.

(** The part of the buffer that fits the block of at most 65535 bytes. *)
Definition WriteTape (buf : list Z) : M St unit :=
  s ← gets st;
  let n := Z.of_nat (length buf) in
  if FP_tapout (out s) then
    let len := tape_length (out s) in
    let write_length := if 65535 <? len + n then 65535 - len else n in
    let part := take (Z.to_nat write_length) buf in
    modify (set_tap_file (tap_file (out s) ++ part)) ;;
    modify (set_tape_parity (xor_all part (tape_parity (out s)))) ;;
    modify (set_tape_length (len + write_length)) ;;
    mwhen (write_length <? n)
      (modify (set_WriteBuffer []) ;; modify close_tap ;;
       Error1 "Tape block exceeds maximal size")
  else mret tt.

Definition WriteDest : M St unit :=
  s ← gets st;
  let buf := WriteBuffer (out s) in
  if WBLength s =? 0 then mret tt
  else
    modify (set_destlen (wrap32 (destlen (out s) + WBLength s))) ;;
    modify (set_FP_Output (append_to (FP_Output (out s)) buf)) ;;
    modify (step_over (length buf)) ;;
    modify (set_FP_RAW (append_to (FP_RAW (out s)) buf)) ;;
    WriteTape buf ;;
    modify (set_WriteBuffer []).

Definition CloseTapFile : M St unit := WriteDest ;; modify close_tap.

(** [OpenTapFile] on a file with content [f]: two bytes for the length, to be
    filled in by [CloseTapFile], and the flag byte. *)
Definition OpenTapFile (f : list Z) (flagbyte : Z) : M St unit :=
  CloseTapFile ;;
  modify (set_FP_tapout true) ;;
  modify (set_tape_seek (Z.of_nat (length f))) ;;
  modify (set_tape_parity flagbyte) ;;
  modify (set_tape_length 2) ;;
  modify (set_tap_file (f ++ [0; 0; u8 flagbyte])) ;;
  modify (set_destlen 0).

(** [CloseDest]: flush, then pad to the requested size ([-1]: none). *)
Definition pad_zeros (n : Z) : list Z := repeat 0 (Z.to_nat n).

Definition CloseDest : M St unit :=
  WriteDest ;;
  s ← gets st;
  if bool_decide (FP_Output (out s) = None) then mret tt
  else
    let size := out_size (out s) in
    mwhen (negb (size =? -1))
      (mwhen (size <? destlen (out s))
         (ErrorInt "File exceeds 'size' by" (destlen (out s) - size) PASS3) ;;
       s ← gets st;
       do_while (S (Z.to_nat (size - destlen (out s))))
         (s ← gets st;
          let d := destlen (out s) in
          if d <? size then
            modify (set_WriteBuffer (pad_zeros (Z.min DESTBUFLEN (size - d)))) ;;
            WriteDest ;; mret true
          else mret false) ;;
       modify (set_out_size (-1))) ;;
    modify (fun s => put_file (DestinationFName (out s)) (output_content s) s) ;;
    modify (fun s => set_FP_Output None (set_outFile (output_content s) s)) ;;
    modify (set_destlen 0).

(** ** Hexadecimal output *)

(** [PrintHex] *)
Definition PrintHex (value nibbles : Z) : M St (list ascii) :=
  if (nibbles <? 1) || (8 <? nibbles) then exitasm
  else
    let mask := if 8 <=? nibbles then -1 else Z.shiftl 1 (nibbles * 4) - 1 in
    mret (fmt_0X (Z.to_nat nibbles) (Z.land value mask)).
Definition PrintHex32 (value : Z) : M St (list ascii) := PrintHex value 8.
Definition PrintHexAlt (value : Z) : list ascii := fmt_0X 4 value.

(** ** Intel HEX *)

Fixpoint hex_data (data : list Z) (crc : Z) : M St (list ascii * Z) :=
  match data with
  | [] => mret ([], crc)
  | v :: data =>
      h ← PrintHex v 2;
      '(l, crc) ← hex_data data (u8 (crc - v));
      mret (h ++ l, crc)
  end.

(** One record appended to the HEX file; [address] and [length] are the unsigned
    words of the call. *)
Definition WriteHexRecord (block_type address : Z) (data : list Z) : M St unit :=
  massert ((block_type =? 0) || (block_type =? 1) || (block_type =? 3)) ;;
  let len := Z.of_nat (length data) in
  massert (len <=? HEX_RECORD_MAX) ;;
  h1 ← PrintHex len 2;
  h2 ← PrintHex address 4;
  h3 ← PrintHex block_type 2;
  let crc := u8 (- len - Z.land (Z.shiftr address 8) 255 - Z.land address 255 - block_type) in
  '(h4, crc) ← hex_data data crc;
  h5 ← PrintHex crc 2;
  s ← gets st;
  match FP_HEX (out s) with
  | None => undef
  | Some f => modify (set_FP_HEX (Some (f ++ [":"%char :: h1 ++ h2 ++ h3 ++ h4 ++ h5 ++ ["010"%char]])))
  end.

Definition hexCnt (s : St) : Z := Z.of_nat (length (hexBytes (out s))).

Definition FlushHexBuffer : M St unit :=
  s ← gets st;
  massert (bool_decide (is_Some (FP_HEX (out s))) && (hexCnt s <=? HEX_RECORD_MAX)) ;;
  if hexCnt s =? 0 then mret tt
  else
    WriteHexRecord 0 (u16 (hexAddress (out s))) (hexBytes (out s)) ;;
    modify (set_hexBytes []).

Definition EmitToHex (mc : Z) : M St unit :=
  s ← gets st;
  massert (hexCnt s <? HEX_RECORD_MAX) ;;
  mwhen (negb (hexAddress (out s) + hexCnt s =? CurAddress (org s))) FlushHexBuffer ;;
  s ← gets st;
  mwhen (hexCnt s =? 0) (modify (set_hexAddress (CurAddress (org s)))) ;;
  modify (fun s => set_hexBytes (hexBytes (out s) ++ [mc]) s) ;;
  s ← gets st;
  mwhen (hexCnt s =? HEX_RECORD_MAX) FlushHexBuffer.

Definition CloseHex (start : Z) : M St bool :=
  s ← gets st;
  if bool_decide (FP_HEX (out s) = None) then mret false
  else
    FlushHexBuffer ;;
    mwhen (0 <=? start)
      (WriteHexRecord 3 0 [u8 (Z.shiftr start 24); u8 (Z.shiftr start 16);
                           u8 (Z.shiftr start 8); u8 start]) ;;
    WriteHexRecord 1 0 [] ;;
    modify (fun s => set_FP_HEX None (set_hexFile (default [] (FP_HEX (out s))) s)) ;;
    modify (fun s => put_file (hexName (out s)) (code <$> concat (hexFile (out s))) s) ;;
    mret true.

(** ** Bytes *)

Definition DidEmitByte : M St bool :=
  didEmit ← gets (fun s => someByteEmitted (out s));
  modify (set_someByteEmitted false) ;;
  mret didEmit.

Definition DidWriteOutputByte (s : St) : bool :=
  let expectedDestLen := wrap32 (WBLength s + destlen (out s)) in
  (bool_decide (is_Some (FP_Output (out s))) || bool_decide (is_Some (FP_RAW (out s)))
   || FP_tapout (out s)) && negb (expectedDestLen =? 0).

(** [*MemoryPointer = byte; ++MemoryPointer] *)
Definition write_memory (ofs byte : Z) (s : St) : St :=
  upd_device (fun d => set_Memory (<[ofs := byte]> (Memory d)) d) s.

(** Into the write buffer, and the HEX file. *)
Definition push_byte (byte : Z) : M St unit :=
  s ← gets st;
  let last := LASTPASS =? pass (src s) in
  mwhen last
    (modify (set_WriteBuffer (WriteBuffer (out s) ++ [u8 byte])) ;;
     s ← gets st;
     mwhen (DESTBUFLEN =? WBLength s) WriteDest ;;
     mwhen (bool_decide (is_Some (FP_HEX (out s)))) (EmitToHex (u8 byte))).

(** Into the memory of the device. *)
Definition place_byte (byte : Z) (preserve : bool) : M St unit :=
  s ← gets st;
  let last := LASTPASS =? pass (src s) in
  if bool_decide (is_Some (Device (dev s))) then
    CheckPage CHECK_EMIT ;;
    s ← gets st;
    match MemoryPointer (dev s) with
    | None => mret tt
    | Some ofs =>
        mwhen (last && negb preserve) (modify (write_memory ofs (u8 byte))) ;;
        modify (set_MemoryPointer (Some (ofs + 1)))
    end
  else CheckRamLimitExceeded.

(** [++CurAddress; if (DISP_NONE != PseudoORG) ++adrdisp;] *)
Definition step_address : M St unit :=
  modify (fun s => set_CurAddress (wrap32 (CurAddress (org s) + 1)) s) ;;
  modify (fun s => if negb (PseudoORG (org s) =? DISP_NONE)
                   then set_adrdisp (wrap32 (adrdisp (org s) + 1)) s else s).

Definition EmitByteNoListing (byte : Z) (preserveDeviceMemory : bool) : M St unit :=
  modify (set_someByteEmitted true) ;;
  push_byte byte ;;
  place_byte byte preserveDeviceMemory ;;
  step_address.

(** The page an instruction is traced to. *)
Definition sld_instruction : M St unit :=
  s ← gets st;
  match cur_device s with
  | None => undef
  | Some d =>
      let cur := CurAddress (org s) in
      if PseudoORG (org s) =? DISP_NONE
      then WriteToSldFile (pg_Number (Page (dev s))) cur "T" []
      else
        let mappingPageNum := GetPageOfA16 d cur in
        if LABEL_PAGE_UNDEFINED =? dispPageNum (org s) then WriteToSldFile mappingPageNum cur "T" []
        else
          let pageNum := dispPageNum (org s) in
          mwhen (negb (pageNum =? mappingPageNum) && negb (PageDiffersWarningShown (out s)))
            (WarningById1 "dispmempage" ;; modify (set_PageDiffersWarningShown true)) ;;
          WriteToSldFile pageNum cur "T" []
  end.

(** One more entry of [ListEmittedBytes]; the last place of the buffer gets the
    marker for "...". *)
Definition list_emitted (byte : Z) (s : St) : St :=
  let nListBytes := Z.of_nat (length (ListEmittedBytes (out s))) in
  if nListBytes <? LIST_EMIT_BYTES_BUFFER_SIZE - 1
  then set_ListEmittedBytes (ListEmittedBytes (out s) ++ [byte]) s
  else if nListBytes <? LIST_EMIT_BYTES_BUFFER_SIZE
  then set_ListEmittedBytes (ListEmittedBytes (out s) ++ [-2]) s
  else s.

Definition EmitByte (byte : Z) (isInstructionStart : bool) : M St unit :=
  s ← gets st;
  mwhen (isInstructionStart && IsSldExportActive s) sld_instruction ;;
  let byte := Z.land byte 255 in
  modify (list_emitted byte) ;;
  EmitByteNoListing byte false.

Definition EmitWord (word : Z) (isInstructionStart : bool) : M St unit :=
  EmitByte (Z.land word 255) isInstructionStart ;;
  EmitByte (Z.land (Z.shiftr word 8) 255) false.

(** Reading behind the array is undefined. *)
Fixpoint emit_loop (bytes : list Z) (isInstructionStart : bool) : M St unit :=
  match bytes with
  | [] => undef
  | b :: bytes =>
      if BYTES_END_MARKER =? b then mret tt
      else
        EmitByte b isInstructionStart ;;
        match bytes with
        | [] => undef
        | m :: bytes' =>
            if INSTRUCTION_START_MARKER =? m then emit_loop bytes' true
            else emit_loop bytes false
        end
  end.

Definition EmitBytes (bytes : list Z) (isInstructionStart : bool) : M St unit :=
  s ← gets st;
  mwhen (bool_decide (head bytes = Some BYTES_END_MARKER))
    (Error "Illegal instruction" (Some (aft (line (par s)))) IF_FIRST ;;
     modify (fun s => set_lp (SkipToEol (lp (par s))) s)) ;;
  emit_loop bytes isInstructionStart.

Fixpoint EmitWords (words : list Z) (isInstructionStart : bool) : M St unit :=
  match words with
  | [] => undef
  | w :: words =>
      if BYTES_END_MARKER =? w then mret tt
      else EmitWord w isInstructionStart ;; EmitWords words false
  end.

(** [EmitBlock]: [len] times the byte; a length below one only moves the address.
    [emitMax] entries of the listing are left, the last one is "..." when more
    bytes follow. *)
Fixpoint emit_block (n : nat) (byte : Z) (preserve : bool) (emitMax : Z) : M St unit :=
  match n with
  | O => mret tt
  | S n =>
      s ← gets st;
      let dVal := match MemoryPointer (dev s), cur_device s with
                  | Some ofs, Some d => if preserve then mem_byte d ofs else byte
                  | _, _ => byte
                  end in
      EmitByteNoListing byte preserve ;;
      if (LASTPASS =? pass (src s)) && negb (emitMax =? 0) then
        let emitMax := emitMax - 1 in
        let entry := if (emitMax =? 0) && negb (Nat.eqb n 0) then -2 else Z.land dVal 255 in
        modify (fun s => set_ListEmittedBytes (ListEmittedBytes (out s) ++ [entry]) s) ;;
        emit_block n byte preserve emitMax
      else emit_block n byte preserve emitMax
  end.

Definition EmitBlock (byte len : Z) (preserveDeviceMemory : bool) (emitMaxToListing : Z) : M St unit :=
  if len <=? 0 then
    modify (fun s => set_CurAddress (wrap32 (CurAddress (org s) + len)) s) ;;
    modify (fun s => if negb (PseudoORG (org s) =? DISP_NONE)
                     then set_adrdisp (wrap32 (adrdisp (org s) + len)) s else s) ;;
    s ← gets st;
    if bool_decide (is_Some (Device (dev s))) then CheckPage CHECK_NO_EMIT else CheckRamLimitExceeded
  else
    s ← gets st;
    let n := Z.of_nat (length (ListEmittedBytes (out s))) in
    let emitMax := if LIST_EMIT_BYTES_BUFFER_SIZE <=? n + emitMaxToListing
                   then LIST_EMIT_BYTES_BUFFER_SIZE - n else emitMaxToListing in
    emit_block (Z.to_nat len) byte preserveDeviceMemory emitMax.

(** ** Reading and saving the memory of the device *)

(** The loop over the slots from the first one. *)
Fixpoint mem_slot (slots : list CDeviceSlot) (address : Z) : option CDeviceSlot :=
  match slots with
  | [] => None
  | sl :: slots =>
      if (u32 (sl_Address sl) <=? address) && (address <? u32 (sl_Address sl) + u32 (sl_Size sl))
      then Some sl else mem_slot slots address
  end.

(** [address] is [unsigned int]. *)
Definition MemGetByte (address : Z) : M St Z :=
  s ← gets st;
  match cur_device s with
  | None => mret 0
  | Some d =>
      if negb (pass (src s) =? LASTPASS) then mret 0
      else match mem_slot (Slots d) (u32 address) with
           | Some sl =>
               match slot_page d sl with
               | None => undef
               | Some pg => mret (mem_byte d (RAM pg + (u32 address - sl_Address sl)))
               end
           | None => ErrorInt "MemGetByte: Error reading address" (wrap32 address) PASS3 ;; mret 0
           end
  end.

Definition MemGetWord (address : Z) : M St Z :=
  lo ← MemGetByte address;
  hi ← MemGetByte (address + 1);
  mret (lo + Z.shiftl hi 8).

(** [n] bytes of the memory from an offset. *)
Definition mem_bytes (d : CDevice) (ofs n : Z) : list Z :=
  (fun i => mem_byte d (ofs + i)) <$> upto n.

(** The loop of [SaveRAM] over the slots: what is written and the result. *)
Fixpoint save_slots (d : CDevice) (slots : list CDeviceSlot) (start length : Z) (acc : list Z) :
    option (Z * list Z) :=
  match slots with
  | [] => Some (0, acc)
  | sl :: slots =>
      if in_slot sl start then
        let rest := sl_Size sl - (start - sl_Address sl) in
        let save := if length <? rest then length else rest in
        match slot_page d sl with
        | None => None
        | Some pg =>
            let acc := acc ++ mem_bytes d (RAM pg + (start - sl_Address sl)) save in
            if length - save <=? 0 then Some (1, acc)
            else save_slots d slots (start + save) (length - save) acc
        end
      else save_slots d slots start length acc
  end.

Definition SaveRAM (d : option CDevice) (start length : Z) : option (Z * list Z) :=
  match d with
  | None => Some (0, [])
  | Some d =>
      if (start <? -65536) || (65535 <? start) then Some (0, [])
      else
        let start := if start <? 0 then start + 65536 else start in
        let length := if length <=? 0 then length + (65536 - start) else length in
        if length <=? 0 then Some (0, [])
        else
          let length := if 65536 <? start + length then 65536 - start else length in
          save_slots d (Slots d) start length []
  end.
