(* ===== verification/DeviceSpec.v ===== *)
(** * Devices and their memory: the theorems

    The devices with slots of one size map every address of the 64 KiB space, and a
    byte emitted at an address is what the memory of the device reads there. *)

From S2P Require Export Emit.

(** ** Devices with slots of one size *)

(** The slot [i] of a device of slots of [size] bytes, with its initial page. *)
Definition regular_slot (size : Z) (pages : list Z) (i : nat) : CDeviceSlot :=
  let n := default 0 (pages !! i) in
  {| sl_Address := Z.of_nat i * size; sl_Size := size; sl_Page := Some n;
     InitialPage := n; sl_Option := O_NONE |}.
Definition regular_page (size : Z) (i : nat) : CDevicePage :=
  {| pg_Size := size; pg_Number := Z.of_nat i; RAM := Z.of_nat i * size |}.

Lemma fold_M_app {A B} (f : B → A → M St B) l l' b s :
  fold_M f (l ++ l') b s = (b ← fold_M f l b; fold_M f l' b) s.
Proof.
  revert b s. induction l as [|x l IH]; intros b s; cbn [app fold_M]; [done|].
  unfold mbind, M_bind in *. destruct (f b x s); try done.
Qed.

(** A loop over [0..n-1] that only computes. *)
Lemma fold_M_upto {B} (f : B → Z → M St B) (g : nat → B) n s :
  (∀ i, (i < n)%nat → f (g i) (Z.of_nat i) s = Ret (g (S i)) s) →
  fold_M f (upto (Z.of_nat n)) (g 0%nat) s = Ret (g n) s.
Proof.
  unfold upto. rewrite Nat2Z.id. induction n as [|n IH]; intros H; [done|].
  rewrite seq_S, fmap_app, fold_M_app. unfold mbind, M_bind. rewrite IH by (intros; apply H; lia).
  cbn [fmap list_fmap fold_M]. unfold mbind, M_bind. by rewrite H by lia.
Qed.

Lemma AddSlot_ok d adr size s :
  (length (Slots d) < 256)%nat →
  AddSlot d adr size s = Ret (set_Slots (Slots d ++ [new_CDeviceSlot adr size]) d) s.
Proof.
  intros H. unfold AddSlot, SlotsCount, MAX_SLOT_N. rewrite (proj2 (Z.eqb_neq _ _)) by lia. done.
Qed.
Lemma AddPage_ok d mem size s :
  (length (Pages d) < 4096)%nat →
  AddPage d mem size s
  = Ret (set_Pages (Pages d ++ [{| pg_Size := size; pg_Number := Z.of_nat (length (Pages d)); RAM := mem |}]) d) s.
Proof.
  intros H. unfold AddPage, PagesCount, MAX_PAGE_N. rewrite (proj2 (Z.eqb_neq _ _)) by lia. done.
Qed.

Lemma GetPage_ok d n pg s : page_at d n = Some pg → n < 4096 → GetPage d n s = Ret pg s.
Proof.
  unfold GetPage, page_at, MAX_PAGE_N. intros H Hn. destruct (Z.ltb_spec n 0) as [|H0]; [done|].
  rewrite (proj2 (Z.leb_gt _ _)) by lia. cbn [orb]. unfold page_at.
  rewrite (proj2 (Z.ltb_ge _ _)) by lia. by rewrite H.
Qed.

Lemma seq_snoc_map {A} (f : nat → A) n : f <$> seq 0 (S n) = (f <$> seq 0 n) ++ [f n].
Proof. by rewrite seq_S, fmap_app. Qed.

Section regular.
Context (size : Z) (slots pages : nat) (initial : list Z).
Context (Hslots : (slots ≤ 256)%nat) (Hpages : (pages ≤ 4096)%nat).
Context (Hlen : length initial = slots) (Hin : Forall (fun n => 0 ≤ n < Z.of_nat pages) initial).

(** The slots once the first [k] have their page. *)
Definition slot_until (k i : nat) : CDeviceSlot :=
  if decide (i < k)%nat then regular_slot size initial i else new_CDeviceSlot (Z.of_nat i * size) size.

Definition built (k : nat) (d : CDevice) : CDevice :=
  set_Pages (regular_page size <$> seq 0 pages) (set_Slots (slot_until k <$> seq 0 slots) d).

Lemma built_page k d n : 0 ≤ n < Z.of_nat pages → page_at (built k d) n = Some (regular_page size (Z.to_nat n)).
Proof.
  intros H. unfold page_at, built; cbn [Pages set_Pages]. rewrite (proj2 (Z.ltb_ge _ _)) by lia.
  rewrite list_lookup_fmap, lookup_seq_lt by lia. done.
Qed.

Lemma slot_until_step k :
  (k < slots)%nat → alter (fun sl =>
     {| sl_Address := sl_Address sl; sl_Size := sl_Size sl; sl_Page := Some (default 0 (initial !! k));
        InitialPage := default 0 (initial !! k); sl_Option := sl_Option sl |}) k (slot_until k <$> seq 0 slots)
  = slot_until (S k) <$> seq 0 slots.
Proof.
  intros Hk. apply list_eq. intros i. destruct (decide (i = k)) as [->|Hi].
  - rewrite list_lookup_alter_eq, !list_lookup_fmap, lookup_seq_lt by lia. cbn [fmap option_fmap option_map].
    unfold slot_until. rewrite decide_False, decide_True by lia. done.
  - rewrite list_lookup_alter_ne, !list_lookup_fmap by done.
    destruct (seq 0 slots !! i) as [j|] eqn:E; [|done]. apply lookup_seq in E as [-> _].
    cbn. f_equal. unfold slot_until. do 2 case_decide; (done || lia).
Qed.

(** What the constructors of the devices build, without a word. *)
Lemma initRegularSlotDevice_builds name s :
  (0 < slots)%nat →
  initRegularSlotDevice (new_CDevice name) size (Z.of_nat slots) (Z.of_nat pages) initial s
  = Ret (set_CurrentSlot (Z.of_nat slots - 1) (built slots (new_CDevice name))) s.
Proof.
  intros Hpos. unfold initRegularSlotDevice.
  set (n := new_CDevice name).
  pose (g1 i := set_Slots ((fun j => new_CDeviceSlot (Z.of_nat j * size) size) <$> seq 0 i) n).
  pose (g2 i := set_Pages (regular_page size <$> seq 0 i) (g1 slots)).
  unfold mbind at 1, M_bind.
  rewrite (fold_M_upto _ g1 slots s).
  2: { intros i Hi. unfold g1. rewrite AddSlot_ok; cbn [Slots set_Slots]; rewrite ?length_fmap, ?length_seq; [|lia].
       by rewrite seq_snoc_map. }
  unfold mbind at 1, M_bind. change (g1 slots) with (g2 0%nat).
  rewrite (fold_M_upto _ g2 pages s).
  2: { intros i Hi. unfold g2. rewrite AddPage_ok; cbn [Pages set_Pages]; rewrite ?length_fmap, ?length_seq; [|lia].
       by rewrite seq_snoc_map. }
  assert (E0 : g2 pages = built 0 n).
  { assert (Hs : slot_until 0 <$> seq 0 slots
                   = (fun j => new_CDeviceSlot (Z.of_nat j * size) size) <$> seq 0 slots).
    { apply list_fmap_ext. intros i j _. unfold slot_until. rewrite decide_False; [done|lia]. }
    unfold g2, g1, built. by rewrite Hs. }
  rewrite E0. unfold mbind at 1, M_bind.
  assert (Hc : SlotsCount (built 0 n) = Z.of_nat slots).
  { unfold SlotsCount, built; cbn. by rewrite length_fmap, length_seq. }
  rewrite Hc. rewrite (fold_M_upto _ (fun k => built k n) slots s).
  - unfold SlotsCount, built; cbn [Slots set_Slots set_Pages]. rewrite length_fmap, length_seq.
    unfold mret, M_ret, SetSlot, SlotsCount; cbn [Slots set_Slots set_Pages]. rewrite length_fmap, length_seq.
    rewrite (proj2 (Z.ltb_ge _ _)), (proj2 (Z.leb_gt _ _)) by lia. done.
  - intros i Hi. rewrite Nat2Z.id.
    assert (Hx : ∃ x, initial !! i = Some x) by (apply lookup_lt_is_Some_2; lia).
    destruct Hx as [x Hx]. rewrite Hx.
    assert (Hr : 0 ≤ x < Z.of_nat pages) by (eapply Forall_lookup_1 in Hin; [|exact Hx]; done).
    unfold mbind, M_bind. rewrite (GetPage_ok _ _ (regular_page size (Z.to_nat x))); [|by apply built_page|lia].
    unfold mret, M_ret. f_equal. unfold upd_slot, built. rewrite Nat2Z.id. cbn [Slots set_Slots set_Pages].
    rewrite <- (slot_until_step i) by done. rewrite Hx. cbn [default regular_page pg_Number].
    rewrite Z2Nat.id by lia. reflexivity.
Qed.
End regular.

(** ** Devices whose slots tile the address space *)

Record tiled (size : Z) (d : CDevice) : Prop := {
  tiled_size : 0 < size ≤ 65536;
  tiled_full : 65536 ≤ size * SlotsCount d;
  tiled_slot : ∀ i sl, Slots d !! i = Some sl →
    sl_Address sl = Z.of_nat i * size ∧ sl_Size sl = size ∧ is_Some (slot_page d sl);
  tiled_page : ∀ i pg, Pages d !! i = Some pg → pg = regular_page size i
}.

Section tiled.
Context (size : Z) (d : CDevice) (T : tiled size d).

(** The slot of an address, by division. *)
Lemma tiled_lookup a :
  0 ≤ a < 65536 → ∃ sl, Slots d !! Z.to_nat (a / size) = Some sl ∧ in_slot sl a = true.
Proof.
  intros Ha. destruct T as [Hs Hf Hslot _].
  pose proof (Z.div_mod a size ltac:(lia)) as Hd. pose proof (Z.mod_pos_bound a size ltac:(lia)) as Hm.
  assert (Hq : 0 ≤ a / size < SlotsCount d).
  { split; [apply Z.div_pos; lia|]. apply Z.div_lt_upper_bound; lia. }
  unfold SlotsCount in Hq.
  destruct (lookup_lt_is_Some_2 (Slots d) (Z.to_nat (a / size))) as [sl Hsl]; [lia|].
  exists sl. split; [done|]. destruct (Hslot _ _ Hsl) as (HA & HS & _).
  unfold in_slot. rewrite HA, HS, Z2Nat.id by lia.
  apply andb_true_iff. split; [apply Z.leb_le|apply Z.ltb_lt]; nia.
Qed.

Lemma in_slot_index a i sl :
  0 ≤ a → Slots d !! i = Some sl → in_slot sl a = true → i = Z.to_nat (a / size).
Proof.
  intros Ha Hsl Hin. destruct T as [Hs _ Hslot _]. destruct (Hslot _ _ Hsl) as (HA & HS & _).
  unfold in_slot in Hin. rewrite HA, HS, andb_true_iff, Z.leb_le, Z.ltb_lt in Hin.
  rewrite <- (Nat2Z.id i). f_equal. apply (Zdiv_unique a size (Z.of_nat i) (a - Z.of_nat i * size)); lia.
Qed.

Lemma tiled_below a i j sl :
  0 ≤ a → Slots d !! j = Some sl → i = Z.to_nat (a / size) →
  (a <? sl_Address sl) = (i <? j)%nat.
Proof.
  intros Ha Hsl ->. destruct T as [Hs _ Hslot _]. destruct (Hslot _ _ Hsl) as (HA & _). rewrite HA.
  pose proof (Z.div_mod a size ltac:(lia)) as Hd. pose proof (Z.mod_pos_bound a size ltac:(lia)) as Hm.
  assert (0 ≤ a / size) by (apply Z.div_pos; lia).
  apply eq_bool_prop_intro. rewrite !Is_true_true, Z.ltb_lt, Nat.ltb_lt. split; intros H0; nia.
Qed.

(** The slots from the last down to that of the address. *)
Lemma slot_of_address_tiled a n :
  0 ≤ a < 65536 → (Z.to_nat (a / size) < n ≤ length (Slots d))%nat →
  slot_of_address (Slots d) n a = a / size.
Proof.
  intros Ha. destruct (tiled_lookup a Ha) as (sl & Hsl & Hin).
  assert (0 ≤ a / size) by (apply Z.div_pos; destruct T; lia).
  induction n as [|n IH]; intros Hn; [lia|]. cbn [slot_of_address].
  destruct (lookup_lt_is_Some_2 (Slots d) n) as [sn Hs]; [lia|]. rewrite Hs.
  rewrite (tiled_below a _ n sn ltac:(lia) Hs eq_refl).
  destruct (Nat.ltb_spec (Z.to_nat (a / size)) n); [apply IH; lia|].
  assert (n = Z.to_nat (a / size)) as -> by lia. rewrite Hsl in Hs. injection Hs as <-.
  unfold in_slot in Hin. apply andb_true_iff in Hin as [_ Hin]. apply Z.ltb_lt in Hin.
  rewrite (proj2 (Z.leb_gt _ _)) by lia. lia.
Qed.

Lemma last_slot_tiled a n sl :
  0 ≤ a < 65536 → Slots d !! Z.to_nat (a / size) = Some sl →
  (Z.to_nat (a / size) < n ≤ length (Slots d))%nat →
  last_slot_from (Slots d) n a = Some (a / size, sl).
Proof.
  intros Ha Hsl. assert (0 ≤ a / size) by (apply Z.div_pos; destruct T; lia).
  induction n as [|n IH]; intros Hn; [lia|]. cbn [last_slot_from].
  destruct (lookup_lt_is_Some_2 (Slots d) n) as [sn Hs]; [lia|]. rewrite Hs.
  rewrite (tiled_below a _ n sn ltac:(lia) Hs eq_refl).
  destruct (Nat.ltb_spec (Z.to_nat (a / size)) n); [apply IH; lia|].
  assert (n = Z.to_nat (a / size)) as -> by lia. rewrite Hsl in Hs. injection Hs as <-.
  by rewrite Z2Nat.id by lia.
Qed.

Lemma mem_slot_found (l : list CDeviceSlot) a i sl :
  l !! i = Some sl →
  (∀ j sj, l !! j = Some sj → (j <= i)%nat →
     (u32 (sl_Address sj) <=? a) && (a <? u32 (sl_Address sj) + u32 (sl_Size sj)) = (j =? i)%nat) →
  mem_slot l a = Some sl.
Proof.
  revert i. induction l as [|x l IH]; intros i Hi H; [done|]. cbn [mem_slot].
  rewrite (H 0%nat x eq_refl) by lia. destruct i as [|i]; cbn [Nat.eqb].
  - by injection Hi as ->.
  - apply (IH i Hi). intros j sj Hj Hji. apply (H (S j) sj Hj). lia.
Qed.

Lemma mem_slot_tiled a sl :
  0 ≤ a < 65536 → Slots d !! Z.to_nat (a / size) = Some sl → mem_slot (Slots d) a = Some sl.
Proof.
  intros Ha Hsl. eapply mem_slot_found; [exact Hsl|]. intros j sj Hj Hji.
  destruct T as [Hs _ Hslot _]. destruct (Hslot _ _ Hj) as (HA & HS & _). rewrite HA, HS.
  pose proof (Z.div_mod a size ltac:(lia)) as Hd. pose proof (Z.mod_pos_bound a size ltac:(lia)) as Hm.
  assert (0 ≤ a / size) by (apply Z.div_pos; lia).
  assert (Hj' : Z.of_nat j ≤ a / size) by lia.
  unfold u32. rewrite !Z.mod_small by nia.
  apply eq_bool_prop_intro.
  rewrite !Is_true_true, andb_true_iff, Z.leb_le, Z.ltb_lt, Nat.eqb_eq. split; intros H0; nia.
Qed.

Lemma tiled_length a : 0 ≤ a < 65536 → (Z.to_nat (a / size) < length (Slots d))%nat.
Proof. intros Ha. destruct (tiled_lookup a Ha) as (sl & Hsl & _). by eapply lookup_lt_Some. Qed.
End tiled.

Lemma initRegularSlotDevice_tiled size slots pages initial name :
  0 < size ≤ 65536 → 65536 ≤ size * Z.of_nat slots →
  length initial = slots → Forall (fun n => 0 ≤ n < Z.of_nat pages) initial →
  tiled size (set_CurrentSlot (Z.of_nat slots - 1) (built size slots pages initial slots (new_CDevice name))).
Proof.
  intros Hs Hf Hl Hin. constructor; [done| | |].
  - unfold SlotsCount, built; cbn. by rewrite length_fmap, length_seq.
  - intros i sl. unfold built at 1; cbn [Slots set_CurrentSlot set_Pages set_Slots].
    rewrite list_lookup_fmap. intros (j & Hj & ->)%fmap_Some. apply lookup_seq in Hj as [-> Hi].
    rewrite Nat.add_0_l. unfold slot_until. rewrite decide_True by lia. split_and!; [done..|].
    destruct (lookup_lt_is_Some_2 initial i) as [x Hx]; [lia|].
    unfold slot_page, regular_slot; cbn [sl_Page]. rewrite Hx. cbn [default].
    eapply Forall_lookup_1 in Hin; [|exact Hx]. cbv beta in Hin. unfold page_at, built; cbn [Pages set_CurrentSlot set_Pages]. unfold id.
    rewrite (proj2 (Z.ltb_ge _ _)), list_lookup_fmap, lookup_seq_lt by lia. by eexists.
  - intros i pg. unfold built; cbn [Pages set_CurrentSlot set_Pages]. rewrite list_lookup_fmap.
    intros (j & Hj & ->)%fmap_Some. by apply lookup_seq in Hj as [-> _].
Qed.

(** C15: a device of [slots] slots of [size] bytes that cover the address space is
    built without a word, and maps each of the 65536 addresses to the slot its
    number gives and to the page the device starts with there. *)
Theorem initRegularSlotDevice_maps : ∀ size slots pages initial name s,
  0 < size ≤ 65536 → (slots ≤ 256)%nat → 65536 ≤ size * Z.of_nat slots → (pages ≤ 4096)%nat →
  length initial = slots → Forall (fun n => 0 ≤ n < Z.of_nat pages) initial →
  ∃ d, initRegularSlotDevice (new_CDevice name) size (Z.of_nat slots) (Z.of_nat pages) initial s = Ret d s
    ∧ ∀ a, 0 ≤ a < 65536 →
        GetSlotOfA16 d a = a / size
        ∧ Some (GetPageOfA16 d a) = initial !! Z.to_nat (a / size).
Proof.
  intros size slots pages initial name s Hs Hsl Hf Hp Hl Hin.
  set (d := set_CurrentSlot (Z.of_nat slots - 1) (built size slots pages initial slots (new_CDevice name))).
  assert (T : tiled size d) by by apply initRegularSlotDevice_tiled.
  exists d. split; [apply initRegularSlotDevice_builds; (done || lia)|].
  intros a Ha. assert (HS : GetSlotOfA16 d a = a / size).
  { unfold GetSlotOfA16. pose proof (tiled_length size d T a Ha).
    apply (slot_of_address_tiled size d T); [done|lia]. }
  split; [done|]. unfold GetPageOfA16. rewrite HS.
  destruct (tiled_lookup size d T a Ha) as (sl & Hsl' & _). unfold slot_at.
  assert (Hq : 0 ≤ a / size) by (apply Z.div_pos; lia).
  rewrite (proj2 (Z.ltb_ge _ _)), Hsl' by lia.
  unfold d, built in Hsl'; cbn [Slots set_CurrentSlot set_Pages set_Slots] in Hsl'.
  rewrite list_lookup_fmap in Hsl'. apply fmap_Some in Hsl' as (j & Hj & ->).
  apply lookup_seq in Hj as [-> Hi]. unfold slot_until. rewrite decide_True by lia.
  cbn [regular_slot sl_Page]. destruct (lookup_lt_is_Some_2 initial (Z.to_nat (a / size))) as [x Hx]; [lia|].
  by rewrite Nat.add_0_l, Hx.
Qed.

Lemma initRegularSlotDevice_maps_witness :
  ∃ d, initRegularSlotDevice (new_CDevice (str "ZXSPECTRUM128")) 16384 4 8 initialPagesZx128 last_pass
       = Ret d last_pass
    ∧ GetPageOfA16 d 16384 = 5 ∧ GetPageOfA16 d 49152 = 0.
Proof.
  destruct (initRegularSlotDevice_maps 16384 4 8 initialPagesZx128 (str "ZXSPECTRUM128") last_pass)
    as (d & E & H); [lia|lia|lia|lia|reflexivity|by repeat constructor|].
  exists d. split; [exact E|].
  split; [destruct (H 16384) as [_ H1]; [lia|]|destruct (H 49152) as [_ H1]; [lia|]];
    injection H1 as ->; reflexivity.
Defined.

(** ** Emitting into the memory of the device *)

(** What the memory map of the current device is made of. *)
Definition map_of (s : St) : option (list CDeviceSlot * list CDevicePage * gmap Z Z) :=
  (fun d => (Slots d, Pages d, Memory d)) <$> cur_device s.

Definition same_map (s s' : St) : Prop :=
  org s' = org s ∧ src s' = src s ∧ MemoryPointer (dev s') = MemoryPointer (dev s)
  ∧ Device (dev s') = Device (dev s) ∧ map_of s' = map_of s.

#[export] Instance same_map_preorder : PreOrder same_map.
Proof.
  split; [by split|]. intros ??? (?&?&?&?&?) (?&?&?&?&?). unfold same_map. split_and!; congruence.
Qed.

(** Stronger: the devices are not touched at all. *)
Definition dev_kept (s s' : St) : Prop := dev s' = dev s ∧ org s' = org s ∧ src s' = src s.

#[export] Instance dev_kept_preorder : PreOrder dev_kept.
Proof. split; [by split|]. intros ??? (?&?&?) (?&?&?). split_and!; congruence. Qed.

Lemma dev_kept_same_map s s' : dev_kept s s' → same_map s s'.
Proof. intros (H1 & H2 & H3). unfold same_map, map_of, cur_device. by rewrite H1, H2, H3. Qed.

Lemma dev_kept_Error m b t : keeps dev_kept (Error m b t).
Proof.
  intros s. unfold Error. destruct (Error_wrong_pass _ _); [reflexivity|].
  destruct (Error_skipped _ _); [reflexivity|]. cbv zeta. by destruct (is_type t FATAL).
Qed.
Lemma dev_kept_WarningImpl i m b t : keeps dev_kept (WarningImpl i m b t).
Proof. apply keeps_read. intros s. destruct (WarningsAsErrors _); [apply dev_kept_Error|by run]. Qed.
Lemma dev_kept_Warning1 m : keeps dev_kept (Warning1 m).
Proof. unfold Warning1, Warning. keep. apply dev_kept_WarningImpl. Qed.
Lemma dev_kept_Error1 m : keeps dev_kept (Error1 m).
Proof. apply dev_kept_Error. Qed.

Lemma same_map_Warning1 m : keeps same_map (Warning1 m).
Proof. eapply keeps_weaken; [apply dev_kept_same_map|apply dev_kept_Warning1]. Qed.
Lemma same_map_ErrorInt m b t : keeps same_map (ErrorInt m b t).
Proof. eapply keeps_weaken; [apply dev_kept_same_map|apply dev_kept_Error]. Qed.
#[export] Hint Resolve same_map_Warning1 same_map_ErrorInt dev_kept_Error1 : keeps.

Lemma cur_device_upd f s : cur_device (upd_device f s) = f <$> cur_device s.
Proof.
  unfold cur_device, upd_device. destruct (Device (dev s)) as [i|] eqn:E; [|by rewrite E].
  change (Device (dev (set_Devices ?x s))) with (Device (dev s)). rewrite E.
  apply list_lookup_alter_eq.
Qed.

Lemma same_map_check f :
  (∀ d, Slots (f d) = Slots d ∧ Pages (f d) = Pages d ∧ Memory (f d) = Memory d) →
  keeps same_map (modify (upd_device f)).
Proof.
  intros Hf s. run. unfold same_map, map_of. rewrite cur_device_upd.
  assert (Hd : dev (upd_device f s) = dev s ∨ ∃ x, upd_device f s = set_Devices x s).
  { unfold upd_device. destruct (Device (dev s)); [right; by eexists|by left]. }
  split_and!.
  - destruct Hd as [_|[x ->]]; [|done]. unfold upd_device. by destruct (Device (dev s)).
  - unfold upd_device. by destruct (Device (dev s)).
  - unfold upd_device. by destruct (Device (dev s)).
  - unfold upd_device. by destruct (Device (dev s)) eqn:E.
  - destruct (cur_device s) as [d|]; [|done]. cbn. by destruct (Hf d) as (-> & -> & ->).
Qed.

(** Only the wrap-around option of a slot remaps pages. *)
Lemma same_map_cross_slot level d i sl a :
  previousSlotOpt d ≠ O_NEXT → keeps same_map (cross_slot level d i sl a).
Proof.
  intros Hn. unfold cross_slot, limit_message, refresh_check.
  destruct (previousSlotOpt d); try done; keep; by apply same_map_check.
Qed.

(** What precedes the memory: the buffer, the files and the HEX records. *)
Lemma dev_kept_modify f :
  (∀ s, org (f s) = org s ∧ src (f s) = src s ∧ dev (f s) = dev s) → keeps dev_kept (modify f).
Proof. intros Hf s. run. destruct (Hf s) as (H1 & H2 & H3). by split_and!. Qed.
Ltac dev_kept :=
  intros; repeat first [keep_leaf | keep_step | solve [apply dev_kept_modify; intros; by repeat case_match]].

Lemma dev_kept_close_tap : keeps dev_kept (modify close_tap).
Proof. apply dev_kept_modify. intros s. unfold close_tap. by case_match. Qed.
#[export] Hint Resolve dev_kept_close_tap : keeps.
Lemma dev_kept_WriteDest : keeps dev_kept WriteDest.
Proof. unfold WriteDest, WriteTape. dev_kept. Qed.
Lemma dev_kept_hex_data l c : keeps dev_kept (hex_data l c).
Proof. revert c. induction l as [|v l IH]; intros c; cbn [hex_data]; [keep|]. unfold PrintHex. dev_kept. Qed.
#[export] Hint Resolve dev_kept_WriteDest dev_kept_hex_data : keeps.
Lemma dev_kept_EmitToHex mc : keeps dev_kept (EmitToHex mc).
Proof. unfold EmitToHex, FlushHexBuffer, WriteHexRecord, PrintHex. dev_kept. Qed.
#[export] Hint Resolve dev_kept_EmitToHex : keeps.
Lemma dev_kept_push_byte b : keeps dev_kept (push_byte b).
Proof. unfold push_byte. dev_kept. Qed.

(** The place in the memory of a device where an address is mapped. *)
Definition offset_of (d : CDevice) (a : Z) : option Z :=
  sl ← mem_slot (Slots d) a;
  pg ← slot_page d sl;
  Some (RAM pg + (a - sl_Address sl)).

Lemma MemGetByte_at a o l p m s :
  map_of s = Some (l, p, m) → pass (src s) = LASTPASS → 0 ≤ a < 65536 →
  (∀ d, Slots d = l → Pages d = p → offset_of d a = Some o) →
  MemGetByte a s = Ret (default 0 (m !! o)) s.
Proof.
  unfold map_of. intros (d & Hd & Hm)%fmap_Some Hp Ha Ho. injection Hm as -> -> ->.
  specialize (Ho d eq_refl eq_refl). unfold offset_of in Ho.
  apply bind_Some in Ho as (sl & Hsl & Ho). apply bind_Some in Ho as (pg & Hpg & [= <-]).
  unfold MemGetByte. run. unfold st. rewrite Hd, Hp. cbn [negb Z.eqb].
  change (negb (LASTPASS =? LASTPASS)) with false. cbv iota.
  assert (Hu : u32 a = a) by (unfold u32; rewrite Z.mod_small; lia).
  by rewrite Hu, Hsl, Hpg.
Qed.

Lemma slot_page_pages d d' sl : Pages d' = Pages d → slot_page d' sl = slot_page d sl.
Proof. intros H. unfold slot_page, page_at. by rewrite H. Qed.
Lemma offset_of_map d d' a : Slots d' = Slots d → Pages d' = Pages d → offset_of d' a = offset_of d a.
Proof.
  intros HS HP. unfold offset_of. rewrite HS. destruct (mem_slot (Slots d) a) as [sl|]; [|done].
  cbn. by rewrite (slot_page_pages d d').
Qed.

Lemma tiled_offset size d a :
  tiled size d → 0 ≤ a < 65536 →
  ∃ sl pg, Slots d !! Z.to_nat (a / size) = Some sl ∧ in_slot sl a = true
    ∧ slot_page d sl = Some pg ∧ offset_of d a = Some (RAM pg + (a - sl_Address sl)).
Proof.
  intros T Ha. destruct (tiled_lookup size d T a Ha) as (sl & Hsl & Hin).
  destruct (tiled_slot _ _ T _ _ Hsl) as (_ & _ & pg & Hpg).
  exists sl, pg. split_and!; [done..|]. unfold offset_of.
  rewrite (mem_slot_tiled size d T a sl Ha Hsl). cbn. by rewrite Hpg.
Qed.

Lemma slot_at_lookup d i sl : slot_at d i = Some sl → Slots d !! Z.to_nat i = Some sl ∧ 0 ≤ i.
Proof. unfold slot_at. destruct (Z.ltb_spec i 0); [done|]. by split. Qed.

(** The byte about to be emitted may be: its slot is the one of the byte before, or
    leaving that one does not remap pages. *)
Definition no_wrap (d : CDevice) (a : Z) : Prop :=
  ∃ prevS, slot_at d (previousSlotI d) = Some prevS
    ∧ (in_slot prevS a = true ∨ previousSlotOpt d ≠ O_NEXT).

Lemma CheckPage_points size d s s' :
  cur_device s = Some d → tiled size d → PseudoORG (org s) = DISP_NONE →
  0 ≤ CurAddress (org s) < 65536 → no_wrap d (CurAddress (org s)) →
  CheckPage CHECK_EMIT s = Ret tt s' →
  same_map (set_MemoryPointer (offset_of d (CurAddress (org s))) s) s'.
Proof.
  intros Hd T Hdisp Ha (prevS & Hprev & Hopt). set (a := CurAddress (org s)) in *.
  destruct (tiled_offset size d a T Ha) as (sl & pg & Hsl & Hin & Hpg & Hoff). rewrite Hoff.
  assert (E0 : CheckPage CHECK_EMIT s = check_address CHECK_EMIT a s).
  { unfold CheckPage. run. unfold st. by rewrite Hdisp. }
  rewrite E0. unfold check_address. unfold mbind at 1, M_bind, gets, st. rewrite Hd, Hprev.
  change (negb (is_level CHECK_EMIT CHECK_RESET)) with true. cbn [andb].
  apply slot_at_lookup in Hprev as [Hp Hpos].
  destruct (in_slot prevS a) eqn:Hip.
  - pose proof (in_slot_index size d T a _ _ ltac:(lia) Hp Hip) as Hidx. rewrite Hidx, Hsl in Hp.
    injection Hp as <-. rewrite Hpg. run. intros [= <-]. reflexivity.
  - assert (Hland : Z.land a 65535 = a) by (rewrite land65535_mod, Z.mod_small; lia).
    pose proof (tiled_length size d T a Ha).
    rewrite Hland, (last_slot_tiled size d T a _ sl Ha Hsl), Hpg by lia. rewrite Hin.
    unfold mbind, M_bind, modify. change (is_level CHECK_EMIT CHECK_RESET) with false. cbv iota.
    destruct Hopt as [?|Hopt]; [done|].
    set (s2 := set_MemoryPointer _ (set_Page pg s)).
    set (m := if _ && _ then mret tt else _).
    assert (Hm : keeps same_map m) by (subst m; case_match; [keep|by apply same_map_cross_slot]).
    intros E. specialize (Hm s2). rewrite E in Hm. etransitivity; [|exact Hm]. by subst s2.
Qed.

Lemma map_of_write o b l p m s :
  map_of s = Some (l, p, m) → map_of (write_memory o b s) = Some (l, p, <[o := b]> m).
Proof.
  unfold map_of, write_memory. rewrite cur_device_upd. intros (d & -> & [= -> -> ->])%fmap_Some. done.
Qed.

Lemma step_address_plain s :
  PseudoORG (org s) = DISP_NONE →
  step_address s = Ret tt (set_CurAddress (wrap32 (CurAddress (org s) + 1)) s).
Proof.
  intros H. unfold step_address. run.
  change (PseudoORG (org (set_CurAddress ?x s))) with (PseudoORG (org s)). by rewrite H.
Qed.

Lemma EmitByteNoListing_memory size d s s' byte :
  cur_device s = Some d → tiled size d → pass (src s) = LASTPASS → PseudoORG (org s) = DISP_NONE →
  0 ≤ CurAddress (org s) < 65536 → no_wrap d (CurAddress (org s)) →
  EmitByteNoListing byte false s = Ret tt s' →
  ∃ o, offset_of d (CurAddress (org s)) = Some o
    ∧ map_of s' = Some (Slots d, Pages d, <[o := u8 byte]> (Memory d))
    ∧ src s' = src s ∧ CurAddress (org s') = CurAddress (org s) + 1.
Proof.
  intros Hd T Hp Hdisp Ha Hw. set (a := CurAddress (org s)) in *.
  destruct (tiled_offset size d a T Ha) as (sl & pg & _ & _ & _ & Hoff).
  set (o := RAM pg + (a - sl_Address sl)) in *.
  unfold EmitByteNoListing. unfold mbind at 1, M_bind, modify at 1. unfold mbind at 1, M_bind.
  pose proof (dev_kept_push_byte byte (set_someByteEmitted true s)) as H1.
  destruct (push_byte byte _) as [[] s1|s1| |]; try done. destruct H1 as (Hdev1 & Ho1 & Hs1).
  change (dev (set_someByteEmitted true s)) with (dev s) in Hdev1.
  change (org (set_someByteEmitted true s)) with (org s) in Ho1.
  change (src (set_someByteEmitted true s)) with (src s) in Hs1.
  assert (Hd1 : cur_device s1 = Some d) by (unfold cur_device in *; by rewrite Hdev1).
  assert (Hi : is_Some (Device (dev s1))) by (unfold cur_device in Hd1; by destruct (Device (dev s1))).
  unfold place_byte. unfold mbind at 1 2, M_bind, gets, st at 1.
  rewrite (bool_decide_eq_true_2 _ Hi). unfold mbind at 1, M_bind.
  pose proof (CheckPage_points size d s1) as H2.
  destruct (CheckPage CHECK_EMIT s1) as [[] s2|s2| |]; try done.
  specialize (H2 s2 Hd1 T). rewrite Ho1 in H2. specialize (H2 Hdisp Ha Hw eq_refl). fold a in H2.
  destruct H2 as (Ho2 & Hs2 & Hmp & _ & Hmap). rewrite Hoff in *.
  change (MemoryPointer (dev (set_MemoryPointer ?x s1))) with x in Hmp.
  change (map_of (set_MemoryPointer ?x s1)) with (map_of s1) in Hmap.
  change (org (set_MemoryPointer ?x s1)) with (org s1) in Ho2.
  change (src (set_MemoryPointer ?x s1)) with (src s1) in Hs2.
  unfold mbind at 1, M_bind, st. rewrite Hmp. unfold st. rewrite Hs1, Hp.
  change (LASTPASS =? LASTPASS) with true. cbn [andb negb mwhen].
  unfold mbind, M_bind, modify.
  assert (E : PseudoORG (org (write_memory o (u8 byte) s2)) = DISP_NONE).
  { unfold write_memory, upd_device. destruct (Device (dev s2)); cbn; congruence. }
  assert (Eo : CurAddress (org (write_memory o (u8 byte) s2)) = a).
  { unfold write_memory, upd_device. destruct (Device (dev s2)); cbn; by rewrite Ho2, Ho1. }
  assert (Es : src (write_memory o (u8 byte) s2) = src s).
  { unfold write_memory, upd_device. destruct (Device (dev s2)); cbn; congruence. }
  rewrite step_address_plain by exact E. intros [= <-].
  exists o. split; [done|]. change (CurAddress (org (set_MemoryPointer ?x ?y))) with (CurAddress (org y)).
  rewrite Eo.
  split_and!.
  - change (map_of (write_memory o (u8 byte) s2) = Some (Slots d, Pages d, <[o:=u8 byte]> (Memory d))).
    apply map_of_write. rewrite Hmap. unfold map_of. by rewrite Hd1.
  - exact Es.
  - cbn. apply wrap32_id. unfold in32, INT_MIN, INT_MAX. lia.
Qed.

(** C14: a byte emitted in the last pass outside of DISP is the byte the memory of
    the device has at that address afterwards; what is mapped elsewhere stays, and
    the address advances by one. *)
Theorem EmitByteNoListing_read_back : ∀ size d s s' byte,
  cur_device s = Some d → tiled size d → pass (src s) = LASTPASS → PseudoORG (org s) = DISP_NONE →
  0 ≤ CurAddress (org s) < 65536 → no_wrap d (CurAddress (org s)) →
  EmitByteNoListing byte false s = Ret tt s' →
  MemGetByte (CurAddress (org s)) s' = Ret (u8 byte) s'
  ∧ (∀ a, 0 ≤ a < 65536 → offset_of d a ≠ offset_of d (CurAddress (org s)) →
       ∃ v, MemGetByte a s = Ret v s ∧ MemGetByte a s' = Ret v s')
  ∧ CurAddress (org s') = CurAddress (org s) + 1.
Proof.
  intros size d s s' byte Hd T Hp Hdisp Ha Hw E.
  destruct (EmitByteNoListing_memory size d s s' byte Hd T Hp Hdisp Ha Hw E) as (o & Ho & Hmap & Hs & Hcur).
  assert (Hp' : pass (src s') = LASTPASS) by congruence.
  split_and!; [..|done].
  - rewrite (MemGetByte_at (CurAddress (org s)) o (Slots d) (Pages d) (<[o:=u8 byte]> (Memory d)) s' Hmap Hp' Ha); [by rewrite lookup_insert_eq|].
    intros d' HS HP. by rewrite (offset_of_map d d').
  - intros a Ha' Hne. destruct (tiled_offset size d a T Ha') as (sl & pg & _ & _ & _ & Hoff).
    assert (Hno : o ≠ RAM pg + (a - sl_Address sl)) by congruence.
    assert (Hm0 : map_of s = Some (Slots d, Pages d, Memory d)) by (unfold map_of; by rewrite Hd).
    eexists. split.
    + apply (MemGetByte_at a (RAM pg + (a - sl_Address sl)) (Slots d) (Pages d) (Memory d) s Hm0 Hp Ha'). intros d' HS HP. rewrite (offset_of_map d d') by done. exact Hoff.
    + rewrite (MemGetByte_at a (RAM pg + (a - sl_Address sl)) (Slots d) (Pages d) (<[o:=u8 byte]> (Memory d)) s' Hmap Hp' Ha'); [by rewrite lookup_insert_ne|].
      intros d' HS HP. rewrite (offset_of_map d d') by done. exact Hoff.
Qed.

(** A 48 KiB machine opened in the last pass, about to emit at 0x8000. *)
Definition with_zx48 : St :=
  match (_ ← SetDevice (str "ZXSPECTRUM48") (-1); mret tt) last_pass with
  | Ret _ s => set_CurAddress 32768 s
  | _ => last_pass
  end.

Lemma with_zx48_device :
  ∃ d, cur_device with_zx48 = Some d ∧ tiled 16384 d ∧ no_wrap d 32768.
Proof.
  destruct (cur_device with_zx48) as [d|] eqn:Hd; [|vm_compute in Hd; discriminate].
  exists d. split; [done|]. vm_compute in Hd. injection Hd as <-. split.
  - constructor; cbn [Slots Pages].
    + lia.
    + vm_compute. discriminate.
    + intros [|[|[|[|i]]]] sl [= <-]; (split_and!; [reflexivity|reflexivity|by eexists]).
    + intros [|[|[|[|i]]]] pg [= <-]; reflexivity.
  - eexists. split; [reflexivity|]. right. discriminate.
Qed.

Lemma EmitByteNoListing_read_back_witness :
  ∃ s', EmitByteNoListing 201 false with_zx48 = Ret tt s' ∧ MemGetByte 32768 s' = Ret 201 s'.
Proof.
  destruct with_zx48_device as (d & Hd & T & Hw).
  assert (Hr : match EmitByteNoListing 201 false with_zx48 with Ret _ _ => true | _ => false end = true)
    by by vm_compute.
  destruct (EmitByteNoListing 201 false with_zx48) as [[] s'|s'| |] eqn:E; try discriminate Hr.
  assert (Hp : pass (src with_zx48) = LASTPASS) by by vm_compute.
  assert (Hdisp : PseudoORG (org with_zx48) = DISP_NONE) by by vm_compute.
  assert (Hc : CurAddress (org with_zx48) = 32768) by by vm_compute.
  exists s'. split; [done|].
  assert (Ha : 0 ≤ CurAddress (org with_zx48) < 65536) by (rewrite Hc; lia).
  rewrite <- Hc in Hw.
  pose proof (EmitByteNoListing_read_back 16384 d with_zx48 s' 201 Hd T Hp Hdisp Ha Hw E) as H.
  rewrite Hc in H. exact (proj1 H).
Defined.
