(* ===== verification/Expr.v ===== *)
(** * Expressions (parser.cpp)

    The recursive-descent parser and evaluator of expressions: one routine per
    level of precedence, the double evaluation inside relocation blocks, and the
    entry points the rest of the assembler calls. *)

From S2P Require Export Emit.

(** Result (false: nothing parsed), value and pointer behind. *)
Abbreviation presult := (bool * Z * text)%type.
Definition fails (p : text) : M St presult := mret (false, 0, p).

(** A [bool]-like result of a callee as [presult]. *)
Definition of_int (r : Z * Z * text) : presult := let '(res, v, p) := r in (negb (res =? 0), v, p).

Definition bool_of_oper (r : Z * text) : bool * text := (negb (fst r =? 0), snd r).

(** ** Operators on values

    [-!x], [~x], [-(left < right)], ...: -1 is true. *)
Definition truth (b : bool) : Z := if b then -1 else 0.
Definition nonzero (z : Z) : bool := negb (z =? 0).

Definition unary_value (oper right : Z) : M St Z :=
  if oper =? code "!" then mret (truth (right =? 0))
  else if oper =? code "~" then mret (Z.lnot right)
  else if oper =? code "+" then mret right
  else if oper =? code "-" then mret (wrap32 (Z.lnot right + 1))
  else if oper =? code "l" then mret (Z.land right 255)
  else if oper =? code "h" then mret (Z.land (Z.shiftr right 8) 255)
  else if oper =? code "a" then mret (wrap32 (Z.abs right))
  else if oper =? code "u" then mret (Z.land right 65535)
  else Error "internal error" None FATAL ;; undef.

(** [INT_MIN / -1] traps. *)
Definition division (f : Z → Z → Z) (left right : Z) : M St Z :=
  if right =? 0 then Error1 "Division by zero" ;; mret 0
  else if (left =? INT_MIN) && (right =? -1) then undef
  else mret (f left right).

Definition mul_value (oper left right : Z) : M St Z :=
  if oper =? code "*" then mret (wrap32 (left * right))
  else if oper =? code "/" then division Z.quot left right
  else if oper =? code "%" then division Z.rem left right
  else Error "internal error" None FATAL ;; undef.

Definition add_value (oper left right : Z) : M St Z :=
  let right := if oper =? code "-" then wrap32 (- right) else right in
  mret (wrap32 (left + right)).

(** A shift by a negative count or by more than 31 is undefined. *)
Definition shift_value (oper left right : Z) : M St Z :=
  if (right <? 0) || (31 <? right) then undef
  else if oper =? code "<" + code "<" then mret (wrap32 (Z.shiftl left right))
  else if oper =? code ">" + code ">" then mret (Z.shiftr left right)
  else if oper =? code ">" + code ">" + code ">" then mret (wrap32 (Z.shiftr (u32 left) right))
  else Error "internal error" None FATAL ;; undef.

Definition minmax_value (oper left right : Z) : M St Z :=
  if oper =? code "<" + code "?" then mret (if left <? right then left else right)
  else if oper =? code ">" + code "?" then mret (if right <? left then left else right)
  else Error "internal error" None FATAL ;; undef.

Definition cmp_value (oper left right : Z) : M St Z :=
  if oper =? code "<" then mret (truth (left <? right))
  else if oper =? code ">" then mret (truth (right <? left))
  else if oper =? code "<" + code "=" then mret (truth (left <=? right))
  else if oper =? code ">" + code "=" then mret (truth (right <=? left))
  else Error "internal error" None FATAL ;; undef.

Definition equ_value (oper left right : Z) : M St Z :=
  mret (truth (if oper =? code "!" + code "=" then negb (left =? right) else left =? right)).

Definition and_value (_ left right : Z) : M St Z := mret (Z.land left right).
Definition xor_value (_ left right : Z) : M St Z := mret (Z.lxor left right).
Definition or_value (_ left right : Z) : M St Z := mret (Z.lor left right).
Definition logand_value (_ left right : Z) : M St Z := mret (truth (nonzero left && nonzero right)).
Definition logor_value (_ left right : Z) : M St Z := mret (truth (nonzero left || nonzero right)).

(** ** Operator recognition, a pair (operator or 0, pointer) per level *)

Definition or_else (r : Z * text) (f : text → Z * text) : Z * text :=
  if fst r =? 0 then f (snd r) else r.
Definition keyword (k : string) (oper : Z) (p : text) : Z * text :=
  let '(ok, p) := cmphstr p k true in (if ok then oper else 0, p).

Definition unary_oper (p : text) : Z * text :=
  or_else (or_else (need p "! ~ + - ")
    (fun p => needa p [("not", code "!"); ("low", code "l"); ("high", code "h")] true))
    (fun p => needa p [("abs", code "a"); ("u16", code "u")] true).
Definition mul_oper (p : text) : Z * text :=
  or_else (need p "* / % ") (fun p => needa p [("mod", code "%")] true).
Definition add_oper (p : text) : Z * text := need p "+ - ".
Definition shift_oper (p : text) : Z * text :=
  let '(oper, p) :=
    or_else (need p "<<>>")
      (fun p => needa p [("shl", code "<" + code "<"); ("shr", code ">" + code ">")] true) in
  if (oper =? code ">" + code ">") && isc p ">" then (oper + code ">", adv p) else (oper, p).
Definition minmax_oper (p : text) : Z * text := need p "<?>?".
Definition cmp_oper (p : text) : Z * text := need p "<=>=< > ".
Definition equ_oper (p : text) : Z * text := need p "=_==!=".
Definition and_oper (p : text) : Z * text := or_else (need p "&_") (keyword "and" 1).
Definition xor_oper (p : text) : Z * text :=
  or_else (let '(ok, p) := need_c p "^" in (if ok then 1 else 0, p)) (keyword "xor" 1).
Definition or_oper (p : text) : Z * text := or_else (need p "|_") (keyword "or" 1).
Definition logand_oper (p : text) : Z * text := need p "&&".
Definition logor_oper (p : text) : Z * text := need p "||".

(** ** Levels of precedence *)

Section level.
(** The level below, the recognizer and the operation of this one. *)
Context (sub : text → M St presult) (next : text → Z * text) (apply : Z → Z → Z → M St Z).

Fixpoint level_loop (fuel : nat) (lhs : Z) (p : text) : M St presult :=
  match fuel with
  | O => nofuel
  | S fuel =>
      let '(oper, p) := next p in
      if oper =? 0 then mret (true, lhs, p)
      else
        '(ok, rhs, p) ← sub p;
        if negb ok then fails p
        else lhs ← apply oper lhs rhs; level_loop fuel lhs p
  end.

(** Every round consumes an operator, so the length of the text bounds them. *)
Definition level (p : text) : M St presult :=
  '(ok, lhs, p) ← sub p;
  if negb ok then fails p else level_loop (S (room p)) lhs p.
End level.

(** ** Primaries and unary operators *)

Section grammar.
(** [ParseExpressionEntry], called for what is inside brackets. *)
Context (entry : text → M St presult).

(** [norel] and [{}] switch the alternative value of labels off. *)
Definition with_no_labels_offset {A} (m : M St A) : M St A :=
  oldAreLabelsOffset ← gets (fun s => areLabelsOffset (rel s));
  modify (set_areLabelsOffset false) ;;
  r ← m;
  modify (set_areLabelsOffset oldAreLabelsOffset) ;;
  mret r.

Definition prim_parentheses (p : text) : M St presult :=
  '(res, v, p) ← entry p;
  let '(ok, p) := need_c p ")" in
  if negb ok then Error1 "')' expected" ;; fails p else mret (res, v, p).

Definition prim_memory (readMemP : text) : M St presult :=
  let '(byteOnly, p) := cmphstr (adv readMemP) "b" false in
  '(ok, v, p) ← with_no_labels_offset (entry p);
  if negb ok then fails p
  else
    let '(ok, p) := need_c p "}" in
    if negb ok then Error "'}' expected" (Some (aft readMemP)) SUPPRESS ;; fails p
    else if (v <? 0) || (65534 + Z.b2z byteOnly <? v) then
      Error "Address in {..} must fetch bytes from 0x0000..0xFFFF range" (Some (aft readMemP)) PASS3 ;;
      mret (true, 0, p)
    else
      lo ← MemGetByte v;
      (if byteOnly then mret (true, lo, p)
       else hi ← MemGetByte (v + 1); mret (true, lo + Z.shiftl hi 8, p)).

(** [$], [$$], ... not followed by a label. *)
Definition prim_dollars (p : text) : M St presult :=
  s ← gets st;
  let inDisp := negb (PseudoORG (org s) =? DISP_NONE) in
  let device := bool_decide (is_Some (Device (dev s))) in
  if inDisp && isn p 1 "$" && isn p 2 "$" then
    if isn p 3 "$" then
      mret (true, if device then pg_Number (Page (dev s)) else LABEL_PAGE_UNDEFINED, advn 4 p)
    else mret (true, adrdisp (org s), advn 3 p)
  else if device && isn p 1 "$" then
    let p := advn 2 p in
    if isLabelStart p then GetLabelPage p
    else if inDisp && negb (dispPageNum (org s) =? LABEL_PAGE_UNDEFINED)
    then mret (true, dispPageNum (org s), p)
    else mret (true, pg_Number (Page (dev s)), p)
  else
    let v := CurAddress (org s) in
    let alternative := negb (rel_type (rel s) =? 0) && areLabelsOffset (rel s)
                       && negb (PseudoORG (org s) =? DISP_INSIDE_RELOCATE) in
    mret (true, if alternative then wrap32 (v + alternative_offset (rel s)) else v, adv p).

Definition dollars (n : nat) (p : text) : bool :=
  forallb (fun i => isn p i "$") (seq 0 n).

(** What is neither a bracket nor a temporary label. *)
Definition prim_value (p : text) : M St presult :=
  if isdigit (cur p) || (isc p "#" && isalnum (pk p 1)) || (isc p "$" && isalnum (pk p 1)) || isc p "%"
  then r ← GetConstant p; mret (of_int r)
  else if isLabelStart p then GetLabelValue p
  else if isc p "?" && isLabelStart (adv p) then
    Warning "?<symbol> operator is deprecated and will be removed in v2.x" (Some (aft p)) W_PASS3 ;;
    GetLabelValue (adv p)
  else if dollars 4 p && isLabelStart (advn 4 p) then GetLabelPhPage (advn 4 p)
  else if dollars 3 p && isLabelStart (advn 3 p) then GetLabelPhValue (advn 3 p)
  else if isc p "$" then prim_dollars p
  else
    '(res, v, p) ← GetCharConst p;
    if res =? 0 then
      e ← gets (fun s => synerr (par s));
      mwhen e (Error "Syntax error" (Some (aft p)) IF_FIRST) ;; fails p
    else mret (true, v, p).

Definition ParseExpPrim (p : text) : M St presult :=
  let '(eol, p) := SkipBlanks p in
  device ← gets (fun s => bool_decide (is_Some (Device (dev s))));
  if eol then fails p
  else if isc p "(" then prim_parentheses (adv p)
  else if device && isc p "{" then prim_memory p
  else if isdigit (cur p) then
    '(res, v, p) ← GetTemporaryLabelValue p true;
    if res =? 0 then prim_value p else mret (true, v, p)
  else prim_value p.

(** The keyword operators [exist] and [sizeof]: [None] when what follows is
    not a label and the keyword is to be read as one. *)
Definition unair_exist (p : text) : M St (option presult) :=
  let '(hasParentheses, p) := need_c p "(" in
  '(ok, v, p) ← (if hasParentheses || isLabelStart p then LabelExist p else fails p);
  let '(ok, p) := if ok && hasParentheses then need_c p ")" else (ok, p) in
  mret (if ok : bool then Some (true, v, p) else None).

Definition unair_sizeof (p : text) : M St (option presult) :=
  let '(hasParentheses, p) := need_c p "(" in
  '(ok, v, p) ← (if hasParentheses || isLabelStart p then GetLabelSize p else fails p);
  let '(closed, p) := if hasParentheses then need_c p ")" else (true, p) in
  mret (if ok && closed then Some (true, v, p) else None).

Definition unair_norel (p : text) : M St (option presult) :=
  '(ok, v, p) ← with_no_labels_offset (ParseExpPrim p);
  mret (if ok : bool then Some (true, v, p) else None).

Definition unair_pair (oldP p : text) : M St presult :=
  let '(ok, p) := need_c p "(" in
  if negb ok then fails oldP
  else
    '(ok, hi, p) ← entry p;
    if negb ok then fails oldP
    else
      let '(ok, p) := need_c p "," in
      if negb ok then fails oldP
      else
        '(ok, lo, p) ← entry p;
        if negb ok then fails oldP
        else
          let '(ok, p) := need_c p ")" in
          if negb ok then fails oldP
          else
            _ ← check8 hi; _ ← check8 lo;
            mret (true, Z.lor (Z.shiftl (Z.land hi 255) 8) (Z.land lo 255), p).

(** [attempt k parse]: the operand of keyword [k] when it is there and parses,
    the continuation at the keyword itself otherwise. *)
Definition attempt (k : string) (p : text) (parse : text → M St (option presult))
    (continue : M St presult) : M St presult :=
  let '(ok, q) := cmphstr p k true in
  if negb ok then continue
  else r ← parse q; match r with Some r => mret r | None => continue end.

(** Recursive on the chain of prefix operators, each of one character at least. *)
Fixpoint ParseExpUnair (fuel : nat) (p : text) : M St presult :=
  match fuel with
  | O => nofuel
  | S fuel =>
      let p := blanks p in
      attempt "norel" p unair_norel $
      attempt "exist" p unair_exist $
      attempt "sizeof" p unair_sizeof $
      let '(isPair, q) := cmphstr p "pair" true in
      if isPair then unair_pair p q
      else
        let '(oper, p) := unary_oper p in
        if oper =? 0 then ParseExpPrim p
        else
          '(ok, rhs, p) ← ParseExpUnair fuel p;
          if negb ok then fails p
          else v ← unary_value oper rhs; mret (true, v, p)
  end.

(** ** The levels, from the tightest *)

Definition ParseExpMul : text → M St presult :=
  level (fun p => ParseExpUnair (S (room p)) p) mul_oper mul_value.
Definition ParseExpAdd : text → M St presult := level ParseExpMul add_oper add_value.
Definition ParseExpShift : text → M St presult := level ParseExpAdd shift_oper shift_value.
Definition ParseExpMinMax : text → M St presult := level ParseExpShift minmax_oper minmax_value.
Definition ParseExpCmp : text → M St presult := level ParseExpMinMax cmp_oper cmp_value.
Definition ParseExpEqu : text → M St presult := level ParseExpCmp equ_oper equ_value.
Definition ParseExpBitAnd : text → M St presult := level ParseExpEqu and_oper and_value.
Definition ParseExpBitXor : text → M St presult := level ParseExpBitAnd xor_oper xor_value.
Definition ParseExpBitOr : text → M St presult := level ParseExpBitXor or_oper or_value.
Definition ParseExpLogAnd : text → M St presult := level ParseExpBitOr logand_oper logand_value.
Definition ParseExpLogOr : text → M St presult := level ParseExpLogAnd logor_oper logor_value.
End grammar.

(** A nested expression stands behind an opening bracket or a comma, so the
    length of the text bounds the nesting. *)
Fixpoint parse_entry (fuel : nat) (p : text) : M St presult :=
  match fuel with
  | O => nofuel
  | S fuel =>
      '(ok, v, p) ← ParseExpLogOr (parse_entry fuel) p;
      mret (if ok : bool then (true, v, p) else (false, 0, p))
  end.
Definition ParseExpressionEntry (p : text) : M St presult := parse_entry (S (room p)) p.

(** ** Entry points *)

(** The evaluation with labels moved by [alternative_offset]. *)
Definition ParseExpression_alternative (p : text) : M St (bool * Z) :=
  t ← gets (fun s => rel_type (rel s));
  if t =? 0 then mret (false, 0)
  else
    osynerr ← gets (fun s => synerr (par s));
    modify (set_synerr false) ;;
    modify (set_areLabelsOffset true) ;;
    '(relocationRes, relocationVal, _) ← ParseExpressionEntry p;
    modify (set_areLabelsOffset false) ;;
    modify (set_synerr osynerr) ;;
    mret (relocationRes, relocationVal).

Definition new_deltaType (r : RelState) (delta : Z) : Z :=
  if alternative_offset r =? delta then REGULAR
  else if (HIGH =? rel_type r) && (Z.shiftr (alternative_offset r) 8 =? delta) then HIGH
  else OFF.

Definition ParseExpression (p : text) : M St presult :=
  '(relocationRes, relocationVal) ← ParseExpression_alternative p;
  '(ok, nval, p) ← ParseExpressionEntry p;
  mwhen (ok && relocationRes)
    (modify (fun s => set_isResultAffected
               (isResultAffected (rel s) || negb (relocationVal =? nval)) s) ;;
     modify (fun s => set_deltaType (new_deltaType (rel s) (wrap32 (relocationVal - nval))) s)) ;;
  mret (ok, nval, p).

Definition ParseExpressionNoSyntaxError (p : text) : M St presult :=
  osynerr ← gets (fun s => synerr (par s));
  modify (set_synerr false) ;;
  r ← ParseExpression p;
  modify (set_synerr osynerr) ;;
  mret r.

Definition ParseExpressionInSubstitution (p : text) : M St presult :=
  b ← gets (fun s => IsSubstituting (par s));
  massert (negb b) ;;
  modify (set_IsSubstituting true) ;;
  r ← ParseExpressionNoSyntaxError p;
  modify (set_IsSubstituting false) ;;
  mret r.

(** 0: syntax error, 1: a value, 2: the whole expression is in brackets. *)
Definition ParseExpressionMemAccess (p : text) : M St (Z * Z * text) :=
  '(bt, p) ← OpenBracket p;
  let round := bool_decide (bt = BT_ROUND) in
  let p := if round then back p else p in
  let expectedEndBracket := if round then ParenthesesEnd p else None in
  '(ok, nval, p) ← ParseExpression p;
  if negb ok then mret (0, nval, p)
  else if bool_decide (bt = BT_NONE) then mret (1, nval, p)
  else if round then mret (if bool_decide (expectedEndBracket = Some p) then 2 else 1, nval, p)
  else
    '(closed, p) ← CloseBracket p;
    mret (if closed : bool then 2 else 0, nval, p).

(** The alignment and the fill byte, -1 each when absent; both callers pass the
    global pointer. *)
Definition ParseAlignArguments : M St (Z * Z) :=
  src0 ← gets (fun s => lp (par s));
  let src0 := blanks src0 in
  '(ok, alignment, src1) ← ParseExpression src0;
  modify (set_lp src1) ;;
  if negb ok then mret (-1, -1)
  else
    s ← gets st;
    mwhen (negb (rel_type (rel s) =? 0)) (WarningById1 "relalign") ;;
    if (alignment <? 1) || (Z.shiftl 1 15 <? alignment) || negb (Z.land alignment (alignment - 1) =? 0) then
      Error "[ALIGN] Illegal align" (Some (aft src0)) SUPPRESS ;; mret (0, -1)
    else
      let '(more, src1) := comma src1 in
      modify (set_lp src1) ;;
      if negb more then mret (alignment, -1)
      else
        '(ok, fill, src2) ← ParseExpressionEntry src1;
        modify (set_lp src2) ;;
        if negb ok then
          Error "[ALIGN] fill-byte expected after comma" (Some (aft (bp (par s)))) IF_FIRST ;;
          mret (alignment, -1)
        else if (fill <? 0) || (255 <? fill) then
          Error "[ALIGN] Illegal align fill-byte" (Some (aft src0)) SUPPRESS ;; mret (alignment, -1)
        else mret (alignment, fill).
