(* ===== verification/Bytes.v ===== *)
(** * Data bytes and relocation directives (reader.cpp, relocate.cpp)

    [GetBytes], the argument parser of DB and its kin, and the directives of the
    relocation block: both evaluate expressions. *)

From S2P Require Export Expr.

(** ** DB, DC, DZ, ABYTE, ... *)

(** The string branch of [GetBytes]: whether the literal stands as a string or
    is the start of an expression to be parsed from [oldP]. *)
Definition string_is_expression (added : nat) (p : text) : bool * text :=
  if Nat.eqb added 1 then
    let '(eol, p) := SkipBlanks p in (negb eol && negb (isc p ","), p)
  else (false, p).

(** The bytes so far and the pointer; [None] ends the loop. *)
Definition GetBytes_item (p : text) (e : list Z) (add dc : Z) : M St (bool * list Z * text) :=
  let oldP := p in
  let '(eol, p) := SkipBlanks p in
  if eol then Error "Expression expected" None SUPPRESS ;; mret (false, e, p)
  else
    '(strRes, e', p') ← GetCharConstAsString p e 128 add;
    if strRes <? 0 then mret (false, e', p')
    else
      let added := (length e' - length e)%nat in
      let '(asExpr, p') := if strRes =? 0 then (true, p') else string_is_expression added p' in
      if asExpr then
        let p := if strRes =? 0 then p' else oldP in
        '(ok, val, p) ← ParseExpressionNoSyntaxError p;
        if ok : bool then
          _ ← check8 val;
          resolveRelocationAffected (Z.of_nat (length e)) HIGH ;;
          mret (true, e ++ [Z.land (wrap32 (val + add)) 255], p)
        else Error "Syntax error" (Some (aft p)) SUPPRESS ;; mret (false, e, p)
      else
        let maxLengthNotString : nat := if strRes =? 1 then 1%nat else 0%nat in
        mret (true,
              if Nat.ltb 0 added && negb (dc =? 0) && Nat.ltb maxLengthNotString added
              then patch_last e' 128 else e', p').

Fixpoint GetBytes_loop (fuel : nat) (p : text) (e : list Z) (add dc : Z) : M St (list Z * text) :=
  match fuel with
  | O => nofuel
  | S fuel =>
      '(go, e, p) ← GetBytes_item p e add dc;
      if negb go then mret (e, p)
      else
        let '(more, p) := comma p in
        if more && (Z.of_nat (length e) <? 128) then GetBytes_loop fuel p e add dc else mret (e, p)
  end.

(** The bytes, whose number is the result of the source, without the marker -1
    that ends the array. *)
Definition GetBytes (p : text) (add dc : Z) : M St (list Z * text) :=
  modify (set_isResultAffected false) ;;
  '(e, p) ← GetBytes_loop (S (room p)) p [] add dc;
  _ ← checkAndWarn false;
  mwhen (Nat.eqb (length e) 128 && negb (isc p NUL))
    (Error "Over 128 bytes defined in single DB/DC/... Values over" (Some (aft p)) SUPPRESS) ;;
  mret (e, p).

(** ** The relocation block *)

Definition push_source (pos : option TextFilePos) (s : St) : St :=
  match pos with
  | Some q => set_sourcePosStack (sourcePosStack (src s) ++ [q]) s
  | None => s
  end.
Definition pop_source (pos : option TextFilePos) (s : St) : St :=
  match pos with
  | Some _ => set_sourcePosStack (removelast (sourcePosStack (src s))) s
  | None => s
  end.

Definition refreshMaxTableCount : M St unit :=
  modify (fun s =>
    let n := Z.of_nat (length (offsets (rel s))) in
    if maxTableCount (rel s) <? n then set_maxTableCount n s else s) ;;
  s ← gets st;
  if negb (rel_type (rel s) =? 0) || negb (maxTableCount (rel s) =? 0) then
    let n := maxTableCount (rel s) in
    modify (set_isResultAffected false) ;;
    modify (set_deltaType OFF) ;;
    _ ← CLabelTable_Insert "relocate_count" (wrap32 n) LABEL_IS_DEFL LABEL_PAGE_UNDEFINED;
    _ ← CLabelTable_Insert "relocate_size" (wrap32 (n * 2)) LABEL_IS_DEFL LABEL_PAGE_UNDEFINED;
    mret tt
  else mret tt.

Definition dirRELOCATE_START : M St unit :=
  s ← gets st;
  let '(eol, p) := SkipBlanks (lp (par s)) in
  let '(isHigh, p) := if eol then (false, p) else cmphstr p "high" false in
  modify (set_lp p) ;;
  s ← gets st;
  if negb (rel_type (rel s) =? 0) then
    modify (push_source (startPos (rel s))) ;;
    Error1 "Relocation block already started here" ;;
    modify (pop_source (startPos (rel s)))
  else
    let new_offset := if isHigh : bool then ALTERNATIVE_OFFSET_HIGH else ALTERNATIVE_OFFSET_WORD in
    let old := alternative_offset (rel s) in
    if negb (old =? 0) && negb (old =? new_offset)
    then Error1 "HIGH mode can't be mixed with regular mode"
    else
      modify (set_alternative_offset new_offset) ;;
      modify (set_rel_type (if isHigh then HIGH else REGULAR)) ;;
      massert (negb (bool_decide (sourcePosStack (src s) = []))) ;;
      modify (set_startPos (last (sourcePosStack (src s)))) ;;
      refreshMaxTableCount.

Definition dirRELOCATE_END : M St unit :=
  s ← gets st;
  if rel_type (rel s) =? 0 then Error1 "Relocation block start for this end is missing"
  else if DISP_INSIDE_RELOCATE =? PseudoORG (org s) then Error1 "End the current DISP block first"
  else modify (set_rel_type OFF) ;; refreshMaxTableCount.

(** The words of the table: those of this pass, then those of the previous one. *)
Definition table_offset (r : RelState) (i : nat) : option Z :=
  if Nat.ltb i (length (offsets r)) then offsets r !! i else offsetsPrevious r !! i.

Definition dirRELOCATE_TABLE : M St unit :=
  s ← gets st;
  let '(eol, p) := SkipBlanks (lp (par s)) in
  modify (set_lp p) ;;
  '(ok, subtract_offset, p) ← (if eol then mret (true, 0, p) else ParseExpressionNoSyntaxError p);
  modify (set_lp p) ;;
  if negb ok then
    Error "[RELOCATE_TABLE] Syntax error in <subtract_offset>" (Some (aft (bp (par s)))) SUPPRESS
  else
    refreshMaxTableCount ;;
    n ← gets (fun s => maxTableCount (rel s));
    for_each (seq 0 (Z.to_nat n)) (fun i =>
      r ← gets rel;
      match table_offset r i with
      | None => undef
      | Some offset => EmitWord (wrap32 (offset - subtract_offset)) false
      end) ;;
    modify (fun s => set_warnAboutContentChange (LASTPASS =? pass (src s)) s).

Definition Relocation_InitPass : M St unit :=
  s ← gets st;
  mwhen (negb (rel_type (rel s) =? 0))
    (modify (push_source (startPos (rel s))) ;;
     Error1 "Missing end of relocation block started here" ;;
     modify (pop_source (startPos (rel s)))) ;;
  modify (fun s =>
    let o := offsets (rel s) in
    set_rel_type OFF (set_offsets []
      (set_maxTableCount (Z.of_nat (length o)) (set_offsetsPrevious o s)))).
