(* ===== verification/Operands.v ===== *)
(** * Operands of Z80 instructions (z80.cpp)

    Registers, conditions, immediate operands, and the helpers the instruction
    handlers share: local machine-code arrays and the multi-argument loop. *)

From S2P Require Export Bytes.

(** ** Registers and conditions, by their value in the source *)

Definition Z80_B := 0.
Definition Z80_C := 1.
Definition Z80_D := 2.
Definition Z80_E := 3.
Definition Z80_H := 4.
Definition Z80_L := 5.
Definition Z80_MEM_HL := 6.
Definition Z80_A := 7.
Definition Z80_I := 8.
Definition Z80_R := 9.
Definition Z80_F := 10.
Definition Z80_BC := 0x10.
Definition Z80_DE := 0x20.
Definition Z80_HL := 0x30.
Definition Z80_SP := 0x40.
Definition Z80_AF := 0x50.
Definition LR35902_MEM_HL_I := 0x22.
Definition LR35902_MEM_HL_D := 0x32.
Definition Z80_IX := 0xdd.
Definition Z80_IY := 0xfd.
Definition Z80_MEM_IX := 0x6dd.
Definition Z80_MEM_IY := 0x6fd.
Definition Z80_IXH := 0x4dd.
Definition Z80_IXL := 0x5dd.
Definition Z80_IYH := 0x4fd.
Definition Z80_IYL := 0x5fd.
Definition Z80_UNK := -1.

Definition Z80C_NZ := 0x00.
Definition Z80C_Z := 0x08.
Definition Z80C_NC := 0x10.
Definition Z80C_C := 0x18.
Definition Z80C_PO := 0x20.
Definition Z80C_PE := 0x28.
Definition Z80C_P := 0x30.
Definition Z80C_M := 0x38.
Definition Z80C_UNK := 0x39.

(** [case a: case b: ...] *)
Definition among (reg : Z) (l : list Z) : bool := existsb (Z.eqb reg) l.

(** The registers an 8-bit opcode encodes in three bits. *)
Definition r8_plain : list Z :=
  [Z80_B; Z80_C; Z80_D; Z80_E; Z80_H; Z80_L; Z80_A].
Definition r8_or_mem : list Z := Z80_MEM_HL :: r8_plain.
Definition ixy_halves : list Z := [Z80_IXH; Z80_IXL; Z80_IYH; Z80_IYL].
Definition ixy_mem : list Z := [Z80_MEM_IX; Z80_MEM_IY].
Definition ixy : list Z := [Z80_IX; Z80_IY].
Definition r16_plain : list Z := [Z80_BC; Z80_DE; Z80_HL; Z80_SP].

(** ** The global line pointer *)

Definition lpf {A} (f : text → A * text) : M St A :=
  s ← gets st;
  let '(a, p) := f (lp (par s)) in
  modify (set_lp p) ;; mret a.
Definition lpm {A} (f : text → M St (A * text)) : M St A :=
  s ← gets st;
  '(a, p) ← f (lp (par s));
  modify (set_lp p) ;; mret a.
Definition get_lp : M St text := gets (fun s => lp (par s)).

Definition syntax : M St SSyntax := gets (fun s => syx (opt s)).

Definition comma_lp : M St bool := lpf comma.
Definition MultiArg_lp : M St bool := o ← syntax; lpf (call_MultiArg o).
Definition relaxedMaComma_lp : M St bool := o ← syntax; lpf (relaxedMaComma o).
Definition nonMaComma_lp : M St bool := o ← syntax; lpf (nonMaComma o).
Definition SkipToEol_lp : M St unit := modify (fun s => set_lp (SkipToEol (lp (par s))) s).

(** [do { body } while (sep(lp))], a [break] being the answer [false]; every
    round consumes the separator, so the length of the line bounds them. *)
Definition args_loop (sep : M St bool) (body : M St bool) : M St unit :=
  p ← get_lp;
  do_while (S (room p)) (go ← body; if go : bool then sep else mret false).
Definition each_arg (body : M St unit) : M St unit :=
  args_loop MultiArg_lp (body ;; mret true).

(** Global pointers used as the bad value of a message. *)
Definition Error_bp (message : string) (type : EStatus) : M St unit :=
  s ← gets st; Error message (Some (aft (bp (par s)))) type.
Definition Error_line (message : string) (type : EStatus) : M St unit :=
  s ← gets st; Error message (Some (aft (line (par s)))) type.

(** ** Machine code arrays

    [int e[] { -1, -1, ... }] and [e[i] = x; e[i+1] = y; ...] *)
Definition blank (n : nat) : list Z := repeat (-1) n.
Fixpoint puts (e : list Z) (i : nat) (l : list Z) : list Z :=
  match l with
  | [] => e
  | x :: l => puts (<[i := x]> e) (S i) l
  end.
Arguments blank n%_nat.
Arguments puts e i%_nat l.

(** ** Immediate operands *)

Definition operand_expected (bad : option (list ascii)) (p : text) : M St (Z * text) :=
  Error "Operand expected" bad IF_FIRST ;; mret (0, p).

Definition GetByte (signedCheck : bool) (p : text) : M St (Z * text) :=
  '(ok, val, p) ← ParseExpression p;
  if negb ok then operand_expected None p
  else
    _ ← (if signedCheck then check8o val else check8 val);
    mret (Z.land val 255, p).

Definition GetByteNoMem (signedCheck : bool) (p : text) : M St (Z * text) :=
  o ← syntax;
  if MemoryBrackets o =? 0 then GetByte signedCheck p
  else
    let oldP := p in
    '(r, val, p) ← ParseExpressionMemAccess p;
    if r =? 1 then
      _ ← (if signedCheck then check8o val else check8 val);
      mret (Z.land val 255, p)
    else if r =? 2 then
      Error "Illegal instruction (can't access memory)" (Some (aft oldP)) PASS3 ;; mret (0, p)
    else operand_expected (Some (aft oldP)) p.

Definition GetIoPort (p : text) : M St (Z * text) :=
  let oldP := p in
  '(result, val, p) ← ParseExpressionMemAccess p;
  if result =? 0 then operand_expected (Some (aft oldP)) p
  else
    o ← syntax;
    if (MemoryBrackets o =? 2) && negb (result =? 2) then
      Error "Port address must use square brackets" (Some (aft oldP)) PASS3 ;; mret (0, p)
    else _ ← check8 val; mret (Z.land val 255, p).

Definition GetWord (p : text) : M St (Z * text) :=
  '(ok, val, p) ← ParseExpression p;
  if negb ok then operand_expected None p
  else _ ← check16 val; mret (Z.land val 65535, p).

Definition GetWordNoMem (p : text) : M St (Z * text) :=
  o ← syntax;
  if MemoryBrackets o =? 0 then GetWord p
  else
    let oldP := p in
    '(r, val, p) ← ParseExpressionMemAccess p;
    if r =? 1 then _ ← check16 val; mret (Z.land val 65535, p)
    else if r =? 2 then
      Error "Illegal instruction (can't access memory)" (Some (aft oldP)) PASS3 ;; mret (0, p)
    else operand_expected (Some (aft oldP)) p.

(** The displacement of [(ix+d)]; [lastDisplacementParsedP] tells whether it is
    parsed for the first time. *)
Definition z80GetIDxoffset (p : text) : M St (Z * text) :=
  let pp := blanks p in
  s ← gets st;
  let parsingFirstTime := negb (bool_decide (lastDisplacementParsedP (par s) = Some pp)) in
  modify (set_lastDisplacementParsedP (Some pp)) ;;
  if isc pp ")" || isc pp "]" then mret (0, p)
  else
    '(ok, val, p) ← ParseExpression p;
    if negb ok then operand_expected None p
    else
      _ ← check8o val;
      (if parsingFirstTime then _ ← checkAndWarn false; mret tt
       else modify (set_isResultAffected false)) ;;
      mret (Z.land val 255, p).

(** Whether there was an address, and the address (0 when not). *)
Definition GetAddress (p : text) : M St (bool * Z * text) :=
  '(r, ad, p) ← GetTemporaryLabelValue p false;
  if negb (r =? 0) then mret (true, ad, p)
  else
    '(ok, ad, p) ← ParseExpression p;
    if ok : bool then mret (true, ad, p)
    else Error "Operand expected" None IF_FIRST ;; mret (false, 0, p).

Definition GetAddress_lp : M St (bool * Z) :=
  lpm (fun p => '(ok, ad, p) ← GetAddress p; mret ((ok, ad), p)).

(** ** Conditions *)

Definition cond1 (p0 : ascii) : option Z :=
  if Ascii.eqb p0 "z" then Some Z80C_Z else if Ascii.eqb p0 "c" then Some Z80C_C
  else if Ascii.eqb p0 "p" then Some Z80C_P else if Ascii.eqb p0 "m" then Some Z80C_M
  else if Ascii.eqb p0 "s" then Some Z80C_M else None.

Definition cond2 (p0 p1 : ascii) : option Z :=
  if Ascii.eqb p0 "n" then
    if Ascii.eqb p1 "z" then Some Z80C_NZ else if Ascii.eqb p1 "c" then Some Z80C_NC
    else if Ascii.eqb p1 "s" then Some Z80C_P else None
  else if Ascii.eqb p0 "p" then
    if Ascii.eqb p1 "o" then Some Z80C_PO else if Ascii.eqb p1 "e" then Some Z80C_PE else None
  else None.

Definition getz80cond_Z80 (p : text) : Z * text :=
  let '(eol, p) := SkipBlanks p in
  if eol then (Z80C_UNK, p)
  else
    let p0 := or20 (cur p) in
    if negb (islabchar (pk p 1)) then
      match cond1 p0 with Some cc => (cc, adv p) | None => (Z80C_UNK, p) end
    else if negb (Z.land (Z.lxor (code (cur p)) (code (pk p 1))) 0x20 =? 0) then (Z80C_UNK, p)
    else if islabchar (pk p 2) then (Z80C_UNK, p)
    else match cond2 p0 (or20 (pk p 1)) with Some cc => (cc, advn 2 p) | None => (Z80C_UNK, p) end.

Definition getz80cond (o : Options) (p : text) : Z * text :=
  if negb (IsLR35902 o) then getz80cond_Z80 p
  else
    let '(cc, p') := getz80cond_Z80 p in
    if among cc [Z80C_NZ; Z80C_Z; Z80C_NC; Z80C_C] then (cc, p') else (Z80C_UNK, p).

Definition getz80cond_lp : M St Z := o ← gets opt; lpf (getz80cond o).

(** ** Registers *)

Definition GetRegister_r16High (r16 : Z) : Z :=
  if r16 =? Z80_BC then Z80_B else if r16 =? Z80_DE then Z80_D
  else if r16 =? Z80_HL then Z80_H else if r16 =? Z80_AF then Z80_A
  else if r16 =? Z80_IX then Z80_IXH else if r16 =? Z80_IY then Z80_IYH else Z80_UNK.

Definition GetRegister_r16Low (r16 : Z) : Z :=
  if r16 =? Z80_BC then Z80_C else if r16 =? Z80_DE then Z80_E
  else if r16 =? Z80_HL then Z80_L else if r16 =? Z80_AF then Z80_F
  else if r16 =? Z80_IX then Z80_IXL else if r16 =? Z80_IY then Z80_IYL else Z80_UNK.

(** Case folding of the register letters behind the first one. *)
Definition fold_case (o : SSyntax) (c : ascii) : ascii :=
  if CaseInsensitiveInstructions o then or20 c else c.

Definition GetRegister_pair (o : SSyntax) (p : text) (expect : ascii) : bool * text :=
  if negb (Ascii.eqb (fold_case o expect) (fold_case o (cur p))) || islabchar (pk p 1)
  then (false, p) else (true, adv p).

Definition GetRegister_3letter (o : SSyntax) (p : text) (expect1 expect2 : ascii) : bool * text :=
  if islabchar (pk p 2) then (false, p)
  else if negb (Ascii.eqb (fold_case o expect1) (fold_case o (cur p)))
       || negb (Ascii.eqb (fold_case o expect2) (fold_case o (pk p 1)))
  then (false, p) else (true, advn 2 p).

(** The table [r8], with the entries the options adjust. *)
Definition r8 (o : Options) (c : ascii) : Z :=
  let nonZ80CPU := IsI8080 o || IsLR35902 o in
  if Ascii.eqb c "a" then Z80_A else if Ascii.eqb c "b" then Z80_B
  else if Ascii.eqb c "c" then Z80_C else if Ascii.eqb c "d" then Z80_D
  else if Ascii.eqb c "e" then Z80_E else if Ascii.eqb c "f" then Z80_F
  else if Ascii.eqb c "h" then Z80_H
  else if Ascii.eqb c "i" then (if nonZ80CPU then Z80_UNK else Z80_I)
  else if Ascii.eqb c "l" then Z80_L
  else if Ascii.eqb c "m" then (if Is_M_Memory (syx o) then Z80_MEM_HL else Z80_UNK)
  else if Ascii.eqb c "r" then (if nonZ80CPU then Z80_UNK else Z80_R)
  else Z80_UNK.

(** The names of two and three letters by their first one: whether the name is
    of the Z80 only, the rest of it and the register. *)
Definition reg_names (c : ascii) : list (bool * string * Z) :=
  if Ascii.eqb c "a" then [(false, "f"%string, Z80_AF)]
  else if Ascii.eqb c "b" then [(false, "c"%string, Z80_BC)]
  else if Ascii.eqb c "d" then [(false, "e"%string, Z80_DE)]
  else if Ascii.eqb c "h" then
    [(false, "l"%string, Z80_HL); (true, "x"%string, Z80_IXH); (true, "y"%string, Z80_IYH)]
  else if Ascii.eqb c "i" then
    [(true, "x"%string, Z80_IX); (true, "y"%string, Z80_IY);
     (true, "xh"%string, Z80_IXH); (true, "xl"%string, Z80_IXL);
     (true, "yh"%string, Z80_IYH); (true, "yl"%string, Z80_IYL)]
  else if Ascii.eqb c "x" then [(true, "h"%string, Z80_IXH); (true, "l"%string, Z80_IXL)]
  else if Ascii.eqb c "y" then [(true, "h"%string, Z80_IYH); (true, "l"%string, Z80_IYL)]
  else if Ascii.eqb c "l" then [(true, "x"%string, Z80_IXL); (true, "y"%string, Z80_IYL)]
  else if Ascii.eqb c "s" then [(false, "p"%string, Z80_SP)]
  else [].

(** The rest of a name at the pointer. *)
Definition match_name (o : SSyntax) (upper : bool) (p : text) (name : string) : bool * text :=
  let conv c := if upper then toupper c else c in
  match str name with
  | [a] => GetRegister_pair o p (conv a)
  | [a; b] => GetRegister_3letter o p (conv a) (conv b)
  | _ => (false, p)
  end.

(** The cases of the switch on the first letter: all lower or all upper case. *)
Fixpoint match_names (o : SSyntax) (nonZ80CPU upper : bool) (p : text) (l : list (bool * string * Z)) :
    option (Z * text) :=
  match l with
  | [] => None
  | (z80, name, reg) :: l =>
      if z80 && nonZ80CPU then None
      else
        let '(ok, p') := match_name o upper p name in
        if ok : bool then Some (reg, p') else match_names o nonZ80CPU upper p l
  end.

(** Recursive behind [high], [low] and an opening bracket. *)
Fixpoint GetRegister_fuel (fuel : nat) (pp : text) : M St (Z * text) :=
  match fuel with
  | O => nofuel
  | S fuel =>
      o ← gets opt;
      let nonZ80CPU := IsI8080 o || IsLR35902 o in
      let p := blanks pp in
      let oneLetter := or20 (cur p) in
      if in_range "a" oneLetter "r" && negb (islabchar (pk p 1)) then
        let lutResult := r8 o oneLetter in
        mret (if lutResult =? Z80_UNK then (lutResult, pp) else (lutResult, adv p))
      else
        let '(high, p) := cmphstr p "high" false in
        if high : bool then
          '(reg, p) ← GetRegister_fuel fuel p;
          mret (if reg =? Z80_UNK then (Z80_UNK, pp) else (GetRegister_r16High reg, p))
        else
          let '(low, p) := cmphstr p "low" false in
          if low : bool then
            '(reg, p) ← GetRegister_fuel fuel p;
            mret (if reg =? Z80_UNK then (Z80_UNK, pp) else (GetRegister_r16Low reg, p))
          else
            let c := cur p in
            let p := adv p in
            match match_names (syx o) nonZ80CPU (isupper c) p (reg_names (tolower c)) with
            | Some r => mret r
            | None =>
                let memClose : option ascii :=
                  if Ascii.eqb c "(" then
                    if MemoryBrackets (syx o) =? 2 then None else Some ")"%char
                  else if Ascii.eqb c "[" then Some "]"%char else None in
                match memClose with
                | None => mret (Z80_UNK, pp)
                | Some memClose => GetRegister_mem fuel pp p memClose o
                end
            end
  end
(** The rest of a register in brackets: displacement and closing bracket. *)
with GetRegister_mem (fuel : nat) (pp p : text) (memClose : ascii) (o : Options) : M St (Z * text) :=
  match fuel with
  | O => nofuel
  | S fuel =>
      '(memReg, p) ← GetRegister_fuel fuel p;
      let '(memReg, p) :=
        if IsLR35902 o && (memReg =? Z80_HL) then
          if isc p "+" then (LR35902_MEM_HL_I, adv p)
          else if isc p "-" then (LR35902_MEM_HL_D, adv p) else (memReg, p)
        else (memReg, p) in
      p ← (if among memReg ixy then
             '(d, p) ← z80GetIDxoffset p;
             modify (set_GetRegister_lastIxyD d) ;; mret p
           else mret p);
      let p := blanks p in
      if isc p memClose then
        let p := adv p in
        mret (if memReg =? Z80_HL then (Z80_MEM_HL, p)
              else if memReg =? Z80_IX then (Z80_MEM_IX, p)
              else if memReg =? Z80_IY then (Z80_MEM_IY, p)
              else if among memReg [LR35902_MEM_HL_I; LR35902_MEM_HL_D] then (memReg, p)
              else (Z80_UNK, pp))
      else mret (Z80_UNK, pp)
  end.

(** Both functions take a step on each nested bracket or operator. *)
Definition GetRegister (p : text) : M St (Z * text) := GetRegister_fuel (2 * S (room p)) p.
Definition GetRegister_lp : M St Z := lpm GetRegister.
Definition GetRegister_lastIxyD_ : M St Z := gets (fun s => GetRegister_lastIxyD (par s)).
