(* ===== verification/OpsAtoJ.v ===== *)
(** * Instruction handlers ADC to JR (z80.cpp)

    One routine per handler: it parses the operands at the line pointer, fills a
    machine-code array and emits it, once per argument group. *)

From S2P Require Export Operands.

Definition CPU_nonZ80 (o : Options) : bool := IsI8080 o || IsLR35902 o.

(** [Options::noFakes()] *)
Definition noFakes : M St bool :=
  o ← gets opt;
  if CPU_nonZ80 o || negb (FakeEnabled (syx o)) then
    Error_bp (if IsLR35902 o then "Fake instructions are not implemented in Sharp LR35902 mode"
              else if IsI8080 o then "Fake instructions are not implemented in i8080 mode"
              else "Fake instructions are not enabled") SUPPRESS ;;
    mret true
  else
    s ← gets st;
    mwhen (FakeWarning (syx o)) (WarningById "fake" (Some (aft (bp (par s)))) W_PASS3) ;;
    mret false.

(** [noFakes(false)] *)
Definition noFakes_silent (o : Options) : bool := CPU_nonZ80 o || negb (FakeEnabled (syx o)).

Definition GetByteNoMem_lp (signedCheck : bool) : M St Z := lpm (GetByteNoMem signedCheck).
Definition GetByte_lp (signedCheck : bool) : M St Z := lpm (GetByte signedCheck).
Definition GetWordNoMem_lp : M St Z := lpm GetWordNoMem.
Definition GetWord_lp : M St Z := lpm GetWord.
Definition GetIoPort_lp : M St Z := lpm GetIoPort.
Definition OpenBracket_lp : M St EBracketType := lpm OpenBracket.
Definition CloseBracket_lp : M St bool := lpm CloseBracket.

(** [BT_NONE != OpenBracket(lp) && r == GetRegister(lp) && CloseBracket(lp)] *)
Definition bracketed_lp (r : Z) : M St bool :=
  bt ← OpenBracket_lp;
  if bool_decide (bt = BT_NONE) then mret false
  else reg ← GetRegister_lp; if negb (reg =? r) then mret false else CloseBracket_lp.

Definition NeedIoC : M St bool :=
  lpf SkipBlanks ;;
  old_p ← get_lp;
  result ← bracketed_lp Z80_C;
  mwhen (negb result) (modify (set_lp old_p)) ;;
  mret result.

(** ** The eight-bit ALU instructions *)

(** The machine code of an operand register; IXY ones get their prefix, memory
    ones the displacement. *)
Definition alu_register (opcodeBase reg : Z) (e : list Z) : M St (list Z) :=
  if among reg (ixy_halves ++ ixy_mem) then
    d ← GetRegister_lastIxyD_;
    let r := Z.shiftr reg 8 in
    let e := puts e 0 [Z.land reg 0xFF] in
    let e := if r =? Z80_MEM_HL then puts e 2 [d] else e in
    mret (puts e 1 [opcodeBase + r])
  else if among reg r8_or_mem then mret (puts e 0 [opcodeBase + reg])
  else if reg =? Z80_UNK then
    b ← GetByteNoMem_lp false;
    resolveRelocationAndSmartSmc 1 HIGH ;;
    mret (puts e 0 [opcodeBase + 0x46; b])
  else mret e.

Definition CommonAluOpcode (opcodeBase : Z) (e : list Z) (hasNonRegA nonMultiArgComma : bool) :
    M St (bool * list Z) :=
  o ← gets opt;
  oldLp ← get_lp;
  reg ← GetRegister_lp;
  if among reg [Z80_BC; Z80_DE; Z80_HL; Z80_IX; Z80_IY] then
    mwhen hasNonRegA (modify (set_lp oldLp)) ;; mret (negb hasNonRegA, e)
  else if reg =? Z80_SP then
    mwhen (IsLR35902 o) (modify (set_lp oldLp)) ;; mret (negb (IsLR35902 o), e)
  else if among reg [Z80_AF; Z80_I; Z80_R; Z80_F; LR35902_MEM_HL_I; LR35902_MEM_HL_D]
  then mret (true, e)
  else
    reg ← (if reg =? Z80_A then
             c ← (if nonMultiArgComma then nonMaComma_lp else comma_lp);
             if c : bool then GetRegister_lp else mret reg
           else mret reg);
    e ← alu_register opcodeBase reg e; mret (true, e).

Definition OpCode_SimpleAlu (opcodeBase : Z) : M St unit :=
  each_arg ('(_, e) ← CommonAluOpcode opcodeBase (blank 4) false true; EmitBytes e true).

Definition OpCode_AND : M St unit := OpCode_SimpleAlu 0xa0.
Definition OpCode_CP : M St unit := OpCode_SimpleAlu 0xb8.
Definition OpCode_OR : M St unit := OpCode_SimpleAlu 0xb0.
Definition OpCode_XOR : M St unit := OpCode_SimpleAlu 0xa8.

(** The result is [Z80_A] when the operand was a valid one, else the register
    met. *)
Definition OpCode_CbFamily (baseOpcode : Z) (e : list Z) (canHaveDstRegForIxy : bool) :
    M St (Z * list Z) :=
  reg ← GetRegister_lp;
  if among reg r8_or_mem then mret (Z80_A, puts e 0 [0xcb; baseOpcode + reg])
  else if among reg ixy_mem then
    d ← GetRegister_lastIxyD_;
    let e := puts e 0 [Z.land reg 0xFF; 0xcb; d; baseOpcode + Z.shiftr reg 8] in
    c ← (if canHaveDstRegForIxy then comma_lp else mret false);
    if c : bool then
      reg ← GetRegister_lp;
      if among reg r8_plain then mret (Z80_A, puts e 3 [baseOpcode + reg])
      else Error_line "Illegal destination register" PASS3 ;; mret (Z80_A, e)
    else mret (Z80_A, e)
  else mret (reg, e).

(** [e[..] = 0xEB; ...; 0xEB]: an instruction on HL made to work on DE. *)
Definition ex_de_hl (code : list Z) : list Z :=
  [0xEB; INSTRUCTION_START_MARKER] ++ code ++ [INSTRUCTION_START_MARKER; 0xEB].
(** DE and HL exchanged. *)
Definition swap_de_hl (reg : Z) : Z :=
  if among reg [Z80_DE; Z80_HL] then Z.lxor reg 0x10 else reg.

Definition ADC_r16 (reg reg2 : Z) (e : list Z) : M St (list Z) :=
  o ← gets opt;
  if (reg =? Z80_HL) && negb (CPU_nonZ80 o) then
    mret (if among reg2 r16_plain then puts e 0 [0xed; 0x4a + reg2 - Z80_BC] else e)
  else if (reg =? Z80_DE) && among reg2 r16_plain then
    nf ← noFakes;
    mret (if nf : bool then e
          else puts e 0 (ex_de_hl [0xED; 0x4A + swap_de_hl reg2 - Z80_BC]))
  else mret e.

(** The frame ADC and ADD share: eight-bit variants, else two registers. *)
Definition alu_r16 (opcodeBase : Z) (n : nat) (nonMultiArgComma : bool) (missing_comma : string)
    (r16 : Z → Z → list Z → M St (list Z)) : M St unit :=
  args_loop MultiArg_lp
    ('(done, e) ← CommonAluOpcode opcodeBase (blank n) true nonMultiArgComma;
     if done : bool then EmitBytes e true ;; mret true
     else
       reg ← GetRegister_lp;
       if reg =? Z80_UNK then mret false
       else
         c ← comma_lp;
         if negb c then Error1 missing_comma ;; mret false
         else
           reg2 ← GetRegister_lp;
           e ← r16 reg reg2 e;
           EmitBytes e true ;; mret true).

Definition OpCode_ADC : M St unit := alu_r16 0x88 7 false "[ADC] Comma expected" ADC_r16.

Definition imm16_at (e : list Z) (ops : list Z) : M St (list Z) :=
  b ← GetWordNoMem_lp;
  resolveRelocationAndSmartSmc 2 REGULAR ;;
  mret (puts e 0 (ops ++ [Z.land b 255; Z.shiftr b 8])).

(** DE and BC as the first operand exist on the Z80N only. *)
Definition ADD_next (reg reg2 : Z) (e : list Z) : M St (list Z) :=
  o ← syntax;
  if IsNextEnabled o =? 0 then mret e
  else
    let bc := Z.b2z (reg =? Z80_BC) in
    if reg2 =? Z80_A then mret (puts e 0 [0xED; 0x32 + bc])
    else if reg2 =? Z80_UNK then imm16_at e [0xED; 0x35 + bc]
    else mret e.

Definition ADD_r16 (reg reg2 : Z) (e : list Z) : M St (list Z) :=
  o ← gets opt;
  if reg =? Z80_HL then
    if among reg2 r16_plain then mret (puts e 0 [0x09 + reg2 - Z80_BC])
    else if IsNextEnabled (syx o) =? 0 then mret e
    else if reg2 =? Z80_A then mret (puts e 0 [0xED; 0x31])
    else imm16_at e [0xED; 0x34]
  else if among reg ixy then
    mret (if among reg2 [Z80_BC; Z80_DE; Z80_SP] then puts e 0 [reg; 0x09 + reg2 - Z80_BC]
          else if among reg2 ixy && (reg =? reg2) then puts e 0 [reg; 0x29] else e)
  else if reg =? Z80_DE then
    e ← (if among reg2 r16_plain then
           nf ← noFakes;
           mret (if nf : bool then e
                 else puts e 0 (ex_de_hl [0x09 + swap_de_hl reg2 - Z80_BC]))
         else mret e);
    ADD_next reg reg2 e
  else if reg =? Z80_BC then ADD_next reg reg2 e
  else if reg =? Z80_SP then
    if negb (IsLR35902 o) || negb (reg2 =? Z80_UNK) then mret e
    else b ← GetByteNoMem_lp true; mret (puts e 0 [0xE8; b])
  else mret e.

Definition OpCode_ADD : M St unit := alu_r16 0x80 6 false "[ADD] Comma expected" ADD_r16.

(** ** Instructions without operands *)

Definition emit1 (b : Z) : M St unit := EmitByte b true.
Definition emit2 (a b : Z) : M St unit := EmitByte a true ;; EmitByte b false.

Definition OpCode_CCF := emit1 0x3f.
Definition OpCode_CPD := emit2 0xED 0xA9.
Definition OpCode_CPDR := emit2 0xED 0xB9.
Definition OpCode_CPI := emit2 0xED 0xA1.
Definition OpCode_CPIR := emit2 0xED 0xB1.
Definition OpCode_CPL := emit1 0x2f.
Definition OpCode_DAA := emit1 0x27.
Definition OpCode_DI := emit1 0xf3.
Definition OpCode_EI := emit1 0xfb.
Definition OpCode_EXA := emit1 0x08.
Definition OpCode_EXD := emit1 0xeb.
Definition OpCode_EXX := emit1 0xd9.
Definition OpCode_HALT := emit1 0x76.
Definition OpCode_IND := emit2 0xED 0xAA.
Definition OpCode_INDR := emit2 0xED 0xBA.
Definition OpCode_INI := emit2 0xED 0xA2.
Definition OpCode_INIR := emit2 0xED 0xB2.
Definition OpCode_INF := emit2 0xED 0x70.

(** ** BIT, CALL, DEC, INC *)

Definition OpCode_BIT : M St unit :=
  each_arg
    (bit ← GetByteNoMem_lp false;
     c ← comma_lp;
     e ← (if c && (bit <=? 7)
          then '(_, e) ← OpCode_CbFamily (8 * bit + 0x40) (blank 5) false; mret e
          else mret (blank 5));
     EmitBytes e true).

(** The fake instructions of the CSpect emulator. *)
Definition cspect_only (message : string) (m : M St unit) : M St unit :=
  o ← syntax;
  if IsNextEnabled o <? 2 then Error1 message else m.

Definition OpCode_Next_BREAK : M St unit :=
  cspect_only (of_chars (str "[BREAK] fake instruction ") ++ dq ++ "break" ++ dq
               ++ " must be specifically enabled by --zxnext=cspect option")%string (emit2 0xFD 0x00).
Definition OpCode_Next_EXIT : M St unit :=
  cspect_only (of_chars (str "[EXIT] fake instruction ") ++ dq ++ "exit" ++ dq
               ++ " must be specifically enabled by --zxnext=cspect option")%string (emit2 0xDD 0x00).

Definition OpCode_Z80N_BarrelShifts (mainOpcode : Z) : M St unit :=
  o ← syntax;
  if IsNextEnabled o <? 1 then Error_bp "Z80N instructions are currently disabled" SUPPRESS
  else
    reg ← GetRegister_lp;
    c ← (if reg =? Z80_DE then comma_lp else mret false);
    reg2 ← (if c : bool then GetRegister_lp else mret Z80_UNK);
    if c && (reg2 =? Z80_B) then EmitBytes (puts (blank 3) 0 [0xED; mainOpcode]) true
    else
      Error_bp ("Z80N barrel shifts exist only with " ++ dq ++ "DE,B" ++ dq ++ " arguments")%string SUPPRESS ;;
      EmitBytes (blank 3) true.

Definition OpCode_Next_BRLC := OpCode_Z80N_BarrelShifts 0x2C.
Definition OpCode_Next_BSLA := OpCode_Z80N_BarrelShifts 0x28.
Definition OpCode_Next_BSRA := OpCode_Z80N_BarrelShifts 0x29.
Definition OpCode_Next_BSRF := OpCode_Z80N_BarrelShifts 0x2B.
Definition OpCode_Next_BSRL := OpCode_Z80N_BarrelShifts 0x2A.

(** [e[1]], [e[2]]: an address, low byte first. *)
Definition put_address (e : list Z) : M St (list Z) :=
  '(_, ad) ← GetAddress_lp;
  _ ← check16 ad;
  let e := puts e 1 [Z.land ad 255; Z.land (Z.shiftr ad 8) 255] in
  resolveRelocationAndSmartSmc 1 REGULAR ;; mret e.

Definition OpCode_CALL : M St unit :=
  each_arg
    (cc ← getz80cond_lp;
     e ← (if cc =? Z80C_UNK then mret (puts (blank 4) 0 [0xcd])
          else
            c ← comma_lp;
            if c : bool then mret (puts (blank 4) 0 [0xC4 + cc])
            else Error_bp "[CALL cc] Comma expected" PASS3 ;; mret (blank 4));
     e ← put_address e;
     EmitBytes e true).

Definition OpCode_Next_CLRBRK : M St unit :=
  o ← syntax;
  if IsNextEnabled o <? 2 then
    Error1 ("[CLRBRK] fake instruction " ++ dq ++ "clrbrk" ++ dq
            ++ " must be specifically enabled by --zxnext=cspect option")%string ;;
    SkipToEol_lp
  else
    let bad := Error1 "[CLRBRK] syntax: CLRBRK <type>, <start_address>, <end_address>" in
    type ← GetByte_lp false;
    c ← comma_lp;
    if negb c then bad
    else
      startad ← GetWord_lp;
      c ← comma_lp;
      if negb c then bad
      else
        endad ← GetWord_lp;
        EmitBytes [0xED; 0x02; type; -1] true ;;
        EmitWord startad false ;;
        EmitWord endad false.

Definition OpCode_DecInc (base8bOpcode base16bOpcode : Z) (e : list Z) : M St (list Z) :=
  reg ← GetRegister_lp;
  d ← GetRegister_lastIxyD_;
  mret (if among reg (ixy_halves ++ ixy_mem) then
          let e := if among reg ixy_mem then puts e 2 [d] else e in
          puts e 0 [Z.land reg 0xFF; base8bOpcode + 8 * Z.shiftr reg 8]
        else if among reg r8_or_mem then puts e 0 [base8bOpcode + 8 * reg]
        else if among reg ixy then puts e 0 [reg; base16bOpcode + Z80_HL - Z80_BC]
        else if among reg r16_plain then puts e 0 [base16bOpcode + reg - Z80_BC]
        else e).

(** DEC, INC, POP and PUSH accept a plain comma between groups in any syntax. *)
Definition each_relaxed (body : M St unit) : M St unit :=
  args_loop relaxedMaComma_lp (body ;; mret true).

Definition OpCode_DEC : M St unit :=
  each_relaxed (e ← OpCode_DecInc 0x05 0x0B (blank 4); EmitBytes e true).
Definition OpCode_INC : M St unit :=
  each_relaxed (e ← OpCode_DecInc 0x04 0x03 (blank 4); EmitBytes e true).

(** ** Relative jumps *)

(** The displacement of a target, 0 after the error when out of range. *)
Definition jump_displacement (name : string) (jmp : Z) : M St Z :=
  if (jmp <? -128) || (127 <? jmp) then
    Error1 ("[" ++ name ++ "] Target out of range (" ++ of_chars (fmt_plus jmp) ++ ")")%string ;; mret 0
  else mret jmp.

(** No relocation for a relative jump, only the self-modifying-code marker. *)
Definition resolve_relative : M St unit :=
  resolveRelocationAffected INT_MAX OFF ;; resolveRelocationAndSmartSmc 1 REGULAR.

Definition OpCode_DJNZ : M St unit :=
  each_arg
    ('(ok, nad) ← GetAddress_lp;
     cur ← gets (fun s => CurAddress (org s));
     let nad := if ok : bool then nad else wrap32 (cur + 2) in
     jmp ← jump_displacement "DJNZ" (wrap32 (nad - cur - 2));
     resolve_relative ;;
     EmitBytes (puts (blank 3) 0 [0x10; Z.land jmp 0xFF]) true) ;;
  modify (set_isResultAffected false).

Definition OpCode_JR : M St unit :=
  args_loop MultiArg_lp
    (cc ← getz80cond_lp;
     e0 ← (if cc =? Z80C_UNK then mret (Some 0x18)
           else if cc <=? Z80C_C then
             c ← comma_lp;
             if c : bool then mret (Some (0x20 + cc))
             else Error_bp "[JR cc] Comma expected" PASS3 ;; mret (Some (-1))
           else
             Error_bp "[JR] Illegal condition" PASS3 ;; SkipToEol_lp ;; mret None);
     match (e0 : option Z) with
     | None => mret false
     | Some e0 =>
         '(ok, jrad) ← GetAddress_lp;
         cur ← gets (fun s => CurAddress (org s));
         let jrad := if ok : bool then wrap32 (jrad - (cur + 2)) else jrad in
         jrad ← jump_displacement "JR" jrad;
         resolve_relative ;;
         EmitBytes (puts (blank 4) 0 [e0; Z.land jrad 0xFF]) true ;;
         mret true
     end) ;;
  modify (set_isResultAffected false).

(** ** EX, IM, IN, JP *)

Definition EX_code (reg1 reg2 : Z) (has_comma : bool) : M St (list Z) :=
  o ← gets opt;
  let e := blank 4 in
  let comma_expected := Error1 "[EX] Comma expected" ;; mret e in
  if reg1 =? Z80_AF then
    mret (if IsI8080 o || (has_comma && negb (reg2 =? Z80_AF)) then e else puts e 0 [0x08])
  else if among reg1 [Z80_DE; Z80_HL] then
    if negb has_comma then comma_expected
    else mret (if Z.lxor (Z.lxor reg1 Z80_DE) Z80_HL =? reg2 then puts e 0 [0xeb] else e)
  else if reg1 =? Z80_SP then
    if negb has_comma then comma_expected
    else mret (if reg2 =? Z80_HL then puts e 0 [0xe3]
               else if among reg2 ixy then puts e 0 [reg2; 0xe3] else e)
  else mret e.

(** [Z80_SP] stands for [(sp)] in [reg1]. *)
Definition OpCode_EX : M St unit :=
  reg1 ← GetRegister_lp;
  reg1 ← (if reg1 =? Z80_SP then mret Z80_UNK
          else if reg1 =? Z80_UNK then
            b ← bracketed_lp Z80_SP; mret (if b : bool then Z80_SP else reg1)
          else mret reg1);
  has_comma ← comma_lp;
  '(reg1, reg2) ←
    (if has_comma : bool then
       reg2 ← GetRegister_lp;
       mwhen (reg2 =? Z80_AF)
         (modify (fun s => let p := lp (par s) in if isc p "'" then set_lp (adv p) s else s)) ;;
       b ← (if reg2 =? Z80_UNK then bracketed_lp Z80_SP else mret false);
       mret (if b : bool then (Z80_SP, reg1) else (reg1, reg2))
     else mret (reg1, Z80_UNK));
  e ← EX_code reg1 reg2 has_comma;
  EmitBytes e true.

Definition OpCode_IM : M St unit :=
  mode ← GetByteNoMem_lp false;
  EmitBytes (match [0x46; 0x56; 0x5e] !! Z.to_nat mode with
             | Some c => puts (blank 3) 0 [0xed; c]
             | None => blank 3
             end) true.

Definition IN_code (reg : Z) : M St (list Z) :=
  o ← gets opt;
  let reg := if reg =? Z80_UNK then Z80_F else reg in
  ioc ← (if IsI8080 o then mret false else NeedIoC);
  if ioc : bool then
    mret (if among reg r8_plain then puts (blank 3) 0 [0xed; 0x40 + reg * 8]
          else if reg =? Z80_F then puts (blank 3) 0 [0xed; 0x70] else blank 3)
  else
    port ← GetIoPort_lp;
    mret (puts (blank 3) 0 [if reg =? Z80_A then 0xdb else -1; port]).

Definition OpCode_IN : M St unit :=
  each_arg
    (reg ← GetRegister_lp;
     c ← (if reg =? Z80_UNK then mret true else comma_lp);
     e ← (if c : bool then IN_code reg else mret (blank 3));
     EmitBytes e true).

(** The target without a condition: the code, and whether a 16-bit operand is
    still to be parsed. *)
Definition JP_unconditional : M St (list Z * bool) :=
  o ← syntax;
  expLp ← get_lp;
  ioc ← (if IsNextEnabled o =? 0 then mret false else NeedIoC);
  if ioc : bool then mret (puts (blank 4) 0 [0xED; 0x98], false)
  else
    bt ← OpenBracket_lp;
    reg ← GetRegister_lp;
    if among reg [Z80_HL; Z80_IX; Z80_IY] then
      closed ← (if bool_decide (bt = BT_NONE) then mret true else CloseBracket_lp);
      mret (if closed : bool
            then if Z80_IX <=? reg then puts (blank 4) 0 [reg; 0xe9] else puts (blank 4) 0 [0xe9]
            else blank 4, false)
    else if among reg [Z80_MEM_HL; Z80_MEM_IX; Z80_MEM_IY; Z80_UNK] then
      if bool_decide (bt = BT_SQUARE) then mret (blank 4, true)
      else
        mwhen (bool_decide (bt = BT_ROUND)) (modify (set_lp expLp)) ;;
        mret (puts (blank 4) 0 [0xc3], true)
    else mret (blank 4, false).

Definition OpCode_JP : M St unit :=
  each_arg
    (cc ← getz80cond_lp;
     '(e, imm) ←
       (if cc =? Z80C_UNK then JP_unconditional
        else
          c ← comma_lp;
          if c : bool then mret (puts (blank 4) 0 [0xC2 + cc], true)
          else Error_bp "[JP cc] Comma expected" PASS3 ;; mret (blank 4, true));
     e ← (if imm : bool then put_address e else mret e);
     EmitBytes e true).
