(* ===== verification/OpsLd.v ===== *)
(** * LD, LDD, LDI and their kin (z80.cpp)

    The load instructions: register to register, immediate, memory, the fake
    sixteen-bit ones, and the post-decrementing and incrementing families. *)

From S2P Require Export OpsAtoJ.

(** ** LD between registers *)

(** [if (prefix) *e++ = prefix;] *)
Definition pre (prefix : Z) : list Z := if prefix =? 0 then [] else [prefix].

(** The destination: prefix, register inside the opcode, whether 8-bit. *)
Definition LD_destination (r1 : Z) : option (Z * Z * bool) :=
  if among r1 (ixy_halves ++ ixy_mem) then Some (Z.land r1 0xFF, Z.shiftr r1 8, true)
  else if among r1 ([Z80_I; Z80_R; LR35902_MEM_HL_I; LR35902_MEM_HL_D] ++ r8_or_mem)
  then Some (0, r1, true)
  else if among r1 ixy then Some (r1, Z80_HL, false)
  else if among r1 r16_plain then Some (0, r1, false)
  else None.

(** What the switch on the source register decides: done (with the code so far),
    not a simple load (to be parsed again from behind the comma), or go on with
    prefix and register. *)
Inductive ld_source := LD_done (code : list Z) | LD_again | LD_go (prefix2 r2 : Z).

Definition LD_source (o : Options) (prefix1 r1 : Z) (eightBit : bool) (r2 : Z) : ld_source :=
  let invalid := LD_done [] in
  let plain (prefix2 r2 : Z) :=
    if negb eightBit then invalid
    else if among r1 [LR35902_MEM_HL_I; LR35902_MEM_HL_D] then
      LD_done (if r2 =? Z80_A then [r1] else [])
    else LD_go prefix2 r2 in
  let memory (prefix2 r2 : Z) :=
    if (r1 =? Z80_MEM_HL) || negb (prefix1 =? 0) then invalid
    else if among r1 [Z80_BC; Z80_DE] || ((r1 =? Z80_HL) && negb (prefix2 =? 0)) then LD_again
    else plain prefix2 r2 in
  let wide (prefix2 r2 : Z) :=
    if negb eightBit then LD_go prefix2 r2
    else if r1 =? Z80_MEM_HL then LD_again else invalid in
  let sp := if IsLR35902 o && (r1 =? Z80_HL) then LD_again else invalid in
  if among r2 ixy_halves then
    if negb eightBit || (r1 =? Z80_MEM_HL) then invalid else LD_go (Z.land r2 0xFF) (Z.shiftr r2 8)
  else if among r2 [Z80_I; Z80_R] then
    if negb (r1 =? Z80_A) then invalid else LD_done [0xED; if r2 =? Z80_I then 0x57 else 0x5F]
  else if among r2 ixy_mem then memory (Z.land r2 0xFF) (Z.shiftr r2 8)
  else if r2 =? Z80_MEM_HL then memory 0 r2
  else if among r2 r8_plain then plain 0 r2
  else if among r2 ixy then wide r2 Z80_HL
  else if among r2 [Z80_BC; Z80_DE] then wide 0 r2
  else if r2 =? Z80_HL then
    if (r1 =? Z80_MEM_HL) && negb (prefix1 =? 0) then LD_again
    else if negb eightBit then LD_go 0 r2 else sp
  else if r2 =? Z80_SP then sp
  else if among r2 [Z80_AF; Z80_F] then invalid
  else if among r2 [LR35902_MEM_HL_I; LR35902_MEM_HL_D] then
    LD_done (if r1 =? Z80_A then [r2 + 0x08] else [])
  else LD_again.

(** The fake loads of a register pair. *)
Definition LD_r16_r16 (prefix1 r1 prefix2 r2 : Z) : list Z :=
  if negb (Z.lxor prefix1 prefix2 =? 0) && (r1 =? r2)
  then pre prefix2 ++ [0xE5; INSTRUCTION_START_MARKER] ++ pre prefix1 ++ [0xE1]
  else
    let p := pre (if prefix2 =? 0 then prefix1 else prefix2) in
    p ++ [GetRegister_r16High r2 + GetRegister_r16High r1 * 8 + 0x40; INSTRUCTION_START_MARKER]
      ++ p ++ [GetRegister_r16Low r2 + GetRegister_r16Low r1 * 8 + 0x40].

(** The eight-bit loads; [d] is the displacement of an IXY memory operand. *)
Definition LD_r8_r8 (prefix1 r1 prefix2 r2 d : Z) : list Z :=
  if negb (prefix1 =? prefix2) && among r1 [Z80_H; Z80_L] && among r2 [Z80_H; Z80_L] then []
  else
    let prefix := Z.lor prefix1 prefix2 in
    pre prefix ++ [r2 + r1 * 8 + 0x40]
    ++ (if negb (prefix =? 0) && ((r1 =? Z80_MEM_HL) || (r2 =? Z80_MEM_HL)) then [d] else []).

Definition LD_both (prefix1 r1 : Z) (eightBit : bool) (prefix2 r2 : Z) : M St (list Z) :=
  if among r1 [Z80_I; Z80_R] then
    mret (if r2 =? Z80_A then [0xED; if r1 =? Z80_I then 0x47 else 0x4F] else [])
  else if r1 =? Z80_SP then mret (if r2 =? Z80_HL then pre prefix2 ++ [0xF9] else [])
  else if negb eightBit then
    nf ← noFakes; mret (if nf : bool then [] else LD_r16_r16 prefix1 r1 prefix2 r2)
  else d ← GetRegister_lastIxyD_; mret (LD_r8_r8 prefix1 r1 prefix2 r2 d).

(** Whether the load was resolved (or is invalid), and its code. *)
Definition LD_simple_r_r (r1 : Z) : M St (bool * list Z) :=
  match LD_destination r1 with
  | None => mret (false, [])
  | Some (prefix1, r1, eightBit) =>
      c ← comma_lp;
      if negb c then mret (true, [])
      else
        olp ← get_lp;
        r2 ← GetRegister_lp;
        o ← gets opt;
        match LD_source o prefix1 r1 eightBit r2 with
        | LD_done code => mret (true, code)
        | LD_again => modify (set_lp olp) ;; mret (false, [])
        | LD_go prefix2 r2 => code ← LD_both prefix1 r1 eightBit prefix2 r2; mret (true, code)
        end
  end.

(** ** LD with an immediate, a memory operand or a fake one *)

Definition ParseExpressionMemAccess_lp : M St (Z * Z) :=
  lpm (fun p => '(r, b, p) ← ParseExpressionMemAccess p; mret ((r, b), p)).

(** [op1 op2 .. low high] with the relocatable word behind the opcodes. *)
Definition ld_word (ops : list Z) (b : Z) : M St (list Z) :=
  resolveRelocationAndSmartSmc (Z.of_nat (length ops)) REGULAR ;;
  mret (ops ++ [Z.land b 255; Z.land (Z.shiftr b 8) 255]).
Definition ld_byte (ops : list Z) : M St (list Z) :=
  b ← GetByteNoMem_lp false;
  resolveRelocationAndSmartSmc (Z.of_nat (length ops)) HIGH ;;
  mret (ops ++ [b]).

Definition in_ldh (a16 : Z) : bool := (0xFF00 <=? a16) && (a16 <=? 0xFFFF).

(** [')' == lp[-1]] *)
Definition check_low (b : Z) : M St unit :=
  p ← get_lp;
  mwhen (Ascii.eqb (prev p) ")") (checkLowMemory (Z.shiftr b 8) b).

Definition LD_A_value (bt : EBracketType) : M St (list Z) :=
  '(r, b) ← ParseExpressionMemAccess_lp;
  o ← gets opt;
  if r =? 1 then
    _ ← check8 b;
    resolveRelocationAndSmartSmc 1 HIGH ;;
    mret [0x06 + 8 * Z80_A; Z.land b 255]
  else if r =? 2 then
    _ ← check16 b;
    if IsLR35902 o then
      if in_ldh b then mret [0xF0; Z.land b 255] else ld_word [0xFA] b
    else
      e ← ld_word [0x3a] b;
      mwhen (bool_decide (bt = BT_ROUND))
        (checkLowMemory (Z.land (Z.shiftr b 8) 255) (Z.land b 255)) ;;
      mret e
  else mret [].

Definition LD_A : M St (list Z) :=
  o ← gets opt;
  bt ← OpenBracket_lp;
  if bool_decide (bt = BT_NONE) then LD_A_value bt
  else
    reg2 ← GetRegister_lp;
    e ← (if among reg2 [Z80_BC; Z80_DE] then
           c ← CloseBracket_lp; mret (if c : bool then [reg2 - 6] else [])
         else if (reg2 =? Z80_C) && IsLR35902 o then
           c ← CloseBracket_lp; mret (if c : bool then [0xF2] else [])
         else mret []);
    if negb (reg2 =? Z80_UNK) then mret e
    else
      modify (fun s => set_lp (back (lp (par s))) s) ;;
      LD_A_value bt.

Definition LD_MEM_HL : M St (list Z) :=
  reg2 ← GetRegister_lp;
  if among reg2 [Z80_BC; Z80_DE] then
    nf ← noFakes;
    mret (if nf : bool then []
          else [0x70 + GetRegister_r16Low reg2; INSTRUCTION_START_MARKER; 0x23;
                INSTRUCTION_START_MARKER; 0x70 + GetRegister_r16High reg2;
                INSTRUCTION_START_MARKER; 0x2b])
  else if reg2 =? Z80_UNK then ld_byte [0x36]
  else mret [].

(** The displacement of the second half of a fake sixteen-bit access is one
    more: the first may not be 127. *)
Definition offset_error : M St (list Z) := Error "Offset out of range" None IF_FIRST ;; mret [].

Definition LD_MEM_IXY (reg1 : Z) : M St (list Z) :=
  d ← GetRegister_lastIxyD_;
  reg2 ← GetRegister_lp;
  let ixy := Z.land reg1 0xFF in
  if among reg2 [Z80_BC; Z80_DE; Z80_HL] then
    nf ← noFakes;
    if nf : bool then mret []
    else if d =? 127 then offset_error
    else mret [ixy; 0x70 + GetRegister_r16Low reg2; d; INSTRUCTION_START_MARKER;
               ixy; 0x70 + GetRegister_r16High reg2; d + 1]
  else if reg2 =? Z80_UNK then ld_byte [ixy; 0x36; d]
  else mret [].

(** [ld hl,sp+r8] of the LR35902. *)
Definition LD_HL_SP : M St (list Z) :=
  eol ← lpf SkipBlanks;
  p ← get_lp;
  if eol || isc p "," then mret [0xF8; 0]
  else if negb (isc p "+") && negb (isc p "-") then
    Error "[LD] `ld hl,sp+r8` expects + or - after sp, found" (Some (aft p)) PASS3 ;; mret []
  else b ← GetByteNoMem_lp true; mret [0xF8; b].

Definition LD_r16_value (reg1 : Z) : M St (list Z) :=
  '(r, b) ← ParseExpressionMemAccess_lp;
  o ← gets opt;
  if r =? 1 then _ ← check16 b; ld_word [reg1 - 0x0F] b
  else if r =? 2 then
    if IsLR35902 o then mret []
    else
      _ ← check16 b;
      if reg1 =? Z80_HL then e ← ld_word [0x2a] b; check_low b ;; mret e
      else if IsI8080 o then mret []
      else e ← ld_word [0xed; reg1 + 0x3b] b; check_low b ;; mret e
  else mret [].

Definition LD_r16 (reg1 : Z) : M St (list Z) :=
  o ← gets opt;
  reg2 ← GetRegister_lp;
  if reg2 =? Z80_MEM_HL then
    nf ← noFakes;
    mret (if nf : bool then []
          else [reg1 + 0x3e; INSTRUCTION_START_MARKER; 0x23; INSTRUCTION_START_MARKER;
                reg1 + 0x36; INSTRUCTION_START_MARKER; 0x2b])
  else if among reg2 ixy_mem then
    if reg1 =? Z80_SP then mret []
    else
      nf ← noFakes;
      if nf : bool then mret []
      else
        d ← GetRegister_lastIxyD_;
        let ixy := Z.land reg2 0xFF in
        if d =? 127 then offset_error
        else mret [ixy; reg1 + 0x3e; d; INSTRUCTION_START_MARKER; ixy; reg1 + 0x36; d + 1]
  else if reg2 =? Z80_SP then
    if IsLR35902 o && (reg1 =? Z80_HL) then LD_HL_SP else mret []
  else if negb (reg2 =? Z80_UNK) then mret []
  else LD_r16_value reg1.

Definition LD_IXY (reg1 : Z) : M St (list Z) :=
  '(pemaRes, b) ← ParseExpressionMemAccess_lp;
  if negb (0 <? pemaRes) then mret []
  else
    _ ← check16 b;
    e ← ld_word [reg1; if pemaRes =? 1 then 0x21 else 0x2a] b;
    mwhen (pemaRes =? 2) (check_low b) ;; mret e.

(** Only the codes the array holds at the end: byte 2 is absent for [ldh]. *)
Definition LD_LR35902 (r2 a16 : Z) : list Z :=
  if (r2 =? Z80_A) && in_ldh a16 then [0xE0; Z.land a16 255]
  else
    let tail := [Z.land a16 255; Z.land (Z.shiftr a16 8) 255] in
    if r2 =? Z80_SP then 0x08 :: tail else if r2 =? Z80_A then 0xEA :: tail else [].

Definition LD_word_from (reg2 b : Z) : M St (list Z) :=
  o ← gets opt;
  if IsLR35902 o then mret (LD_LR35902 reg2 b)
  else if among reg2 [Z80_A; Z80_HL] then ld_word [if reg2 =? Z80_A then 0x32 else 0x22] b
  else if among reg2 [Z80_BC; Z80_DE; Z80_SP] then
    if IsI8080 o then mret [] else ld_word [0xed; 0x33 + reg2] b
  else if among reg2 ixy then ld_word [reg2; 0x22] b
  else mret [].

(** [ld (..),r] *)
Definition LD_memory : M St (list Z) :=
  o ← gets opt;
  bt ← OpenBracket_lp;
  if bool_decide (bt = BT_NONE) then mret []
  else
    reg1 ← GetRegister_lp;
    b ← (if reg1 =? Z80_UNK then GetWord_lp else mret 0);
    closed ← CloseBracket_lp;
    c ← (if closed : bool then comma_lp else mret false);
    if negb c then mret []
    else
      reg2 ← GetRegister_lp;
      if reg1 =? Z80_C then mret (if IsLR35902 o && (reg2 =? Z80_A) then [0xE2] else [])
      else if among reg1 [Z80_BC; Z80_DE] then mret (if reg2 =? Z80_A then [reg1 - 14] else [])
      else if reg1 =? Z80_UNK then LD_word_from reg2 b
      else mret [].

Definition LD_other (reg1 : Z) : M St (list Z) :=
  if reg1 =? Z80_A then LD_A
  else if among reg1 r8_plain then ld_byte [0x06 + 8 * reg1]
  else if reg1 =? Z80_MEM_HL then LD_MEM_HL
  else if among reg1 ixy_mem then LD_MEM_IXY reg1
  else if among reg1 ixy_halves then ld_byte [Z.land reg1 0xFF; 0x06 + 8 * Z.shiftr reg1 8]
  else if among reg1 r16_plain then LD_r16 reg1
  else if among reg1 ixy then LD_IXY reg1
  else if reg1 =? Z80_UNK then LD_memory
  else mret [].

(** The code is a prefix of the array of eleven, the rest -1. *)
Definition OpCode_LD : M St unit :=
  each_arg
    (reg1 ← GetRegister_lp;
     '(simple, code) ← (if reg1 =? Z80_UNK then mret (false, []) else LD_simple_r_r reg1);
     code ← (if simple : bool then mret code else LD_other reg1);
     EmitBytes (puts (blank 11) 0 code) true).

(** ** LDD, LDI, LDH *)

(** [e[..] = INSTRUCTION_START_MARKER] between two instructions. *)
Definition MK : Z := INSTRUCTION_START_MARKER.
(** [Options::noFakes()] for its warning only. *)
Definition fake_note : M St unit := _ ← noFakes; mret tt.

(** [ldd (hl),a] and [ldd a,(hl)]: two forms of one operation each. *)
Definition LR35902_post (to_mem to_a : Z) : M St unit :=
  each_arg
    (r1 ← GetRegister_lp;
     comma_ok ← comma_lp;
     r2 ← (if comma_ok : bool then GetRegister_lp else mret Z80_UNK);
     EmitBytes (puts (blank 2) 0
       (if (r1 =? Z80_MEM_HL) && (r2 =? Z80_A) then [to_mem]
        else if (r1 =? Z80_A) && (r2 =? Z80_MEM_HL) then [to_a] else [])) true).
Definition OpCode_LR35902_LDD : M St unit := LR35902_post 0x32 0x3A.
Definition OpCode_LR35902_LDI : M St unit := LR35902_post 0x22 0x2A.

Definition when_closed (code : list Z) : M St (list Z) :=
  c ← CloseBracket_lp; mret (if c : bool then code else []).
(** [if (!comma(lp)) break;] *)
Definition behind_comma (m : M St (list Z)) : M St (list Z) :=
  c ← comma_lp; if c : bool then m else mret [].
Definition in_bracket (m : M St (list Z)) : M St (list Z) :=
  bt ← OpenBracket_lp; if bool_decide (bt = BT_NONE) then mret [] else m.
Definition z80GetIDxoffset_lp : M St Z := lpm z80GetIDxoffset.

(** The cases of LDD and LDI on a first operand that is A; [step_hl] moves HL or
    IXY and [step_r16] gives the code that moves BC or DE. *)
Definition post_A (step_hl : Z) (step_r16 : Z → Z) : M St (list Z) :=
  behind_comma (in_bracket (
    fake_note ;;
    reg ← GetRegister_lp;
    if among reg [Z80_BC; Z80_DE] then when_closed [reg - 6; MK; step_r16 reg]
    else if reg =? Z80_HL then when_closed [0x7e; MK; step_hl]
    else if among reg ixy then
      d ← z80GetIDxoffset_lp; when_closed [reg; 0x7e; d; MK; reg; step_hl]
    else mret [])).

(** [(hl),r] and [(hl),n]; [r16] are the pairs LDI accepts besides. *)
Definition post_MEM_HL (step_hl : Z) (r16 : bool) : M St (list Z) :=
  behind_comma (
    reg ← GetRegister_lp;
    if among reg r8_plain then fake_note ;; mret [0x70 + reg; MK; step_hl]
    else if r16 && among reg [Z80_BC; Z80_DE] then
      fake_note ;;
      mret [0x70 + GetRegister_r16Low reg; MK; step_hl; MK;
            0x70 + GetRegister_r16High reg; MK; step_hl]
    else if reg =? Z80_UNK then
      fake_note ;;
      n ← GetByteNoMem_lp false;
      mret [0x36; n; MK; step_hl]
    else mret []).

Definition post_MEM_IXY (reg step_hl : Z) (r16 : bool) : M St (list Z) :=
  behind_comma (
    reg2 ← GetRegister_lp;
    d ← GetRegister_lastIxyD_;
    let ixy := Z.land reg 0xFF in
    if among reg2 r8_plain then fake_note ;; mret [ixy; 0x70 + reg2; d; MK; ixy; step_hl]
    else if r16 && among reg2 [Z80_BC; Z80_DE; Z80_HL] then
      fake_note ;;
      mret [ixy; 0x70 + GetRegister_r16Low reg2; d; MK; ixy; step_hl; MK;
            ixy; 0x70 + GetRegister_r16High reg2; d; MK; ixy; step_hl]
    else if reg2 =? Z80_UNK then
      fake_note ;;
      n ← GetByteNoMem_lp false;
      mret [ixy; 0x36; d; n; MK; ixy; step_hl]
    else mret []).

(** [(bc),a], [(de),a], or the instruction without operands. *)
Definition post_memory (regular : Z) (step_r16 : Z → Z) : M St (list Z) :=
  bt ← OpenBracket_lp;
  if bool_decide (bt = BT_NONE) then mret [0xed; regular]
  else
    reg ← GetRegister_lp;
    closed ← CloseBracket_lp;
    if negb closed then mret []
    else behind_comma (
      if negb (among reg [Z80_BC; Z80_DE]) then mret []
      else
        a ← GetRegister_lp;
        if negb (a =? Z80_A) then mret []
        else fake_note ;; mret [reg - 14; MK; step_r16 reg]).

(** [ldd r,(hl)] takes a memory register, [ldi r,(hl)] a bracket. *)
Definition LDD_r8 (reg : Z) : M St (list Z) :=
  behind_comma (
    reg2 ← GetRegister_lp;
    if reg2 =? Z80_MEM_HL then fake_note ;; mret [0x46 + reg * 8; MK; 0x2b]
    else if among reg2 ixy_mem then
      fake_note ;;
      d ← GetRegister_lastIxyD_;
      let ixy := Z.land reg2 0xFF in
      mret [ixy; 0x46 + reg * 8; d; MK; ixy; 0x2b]
    else mret []).

Definition LDI_r8 (reg : Z) : M St (list Z) :=
  behind_comma (in_bracket (
    fake_note ;;
    reg2 ← GetRegister_lp;
    if reg2 =? Z80_HL then when_closed [0x46 + reg * 8; MK; 0x23]
    else if among reg2 ixy then
      d ← z80GetIDxoffset_lp; when_closed [reg2; 0x46 + reg * 8; d; MK; reg2; 0x23]
    else mret [])).

Definition LDI_r16 (reg : Z) : M St (list Z) :=
  behind_comma (
    reg2 ← GetRegister_lp;
    if reg2 =? Z80_MEM_HL then
      if reg =? Z80_HL then mret []
      else fake_note ;; mret [0x3e + reg; MK; 0x23; MK; 0x36 + reg; MK; 0x23]
    else if among reg2 ixy_mem then
      fake_note ;;
      d ← GetRegister_lastIxyD_;
      let ixy := Z.land reg2 0xFF in
      mret [ixy; 0x3e + reg; d; MK; ixy; 0x23; MK; ixy; 0x36 + reg; d; MK; ixy; 0x23]
    else mret []).

Definition LDD_code : M St (list Z) :=
  reg ← GetRegister_lp;
  let step_r16 r := r - 5 in
  if reg =? Z80_A then post_A 0x2b step_r16
  else if among reg r8_plain then LDD_r8 reg
  else if reg =? Z80_MEM_HL then post_MEM_HL 0x2b false
  else if among reg ixy_mem then post_MEM_IXY reg 0x2b false
  else post_memory 0xa8 step_r16.

Definition LDI_code : M St (list Z) :=
  reg ← GetRegister_lp;
  let step_r16 r := r - 13 in
  if reg =? Z80_A then post_A 0x23 step_r16
  else if among reg r8_plain then LDI_r8 reg
  else if among reg [Z80_BC; Z80_DE; Z80_HL] then LDI_r16 reg
  else if reg =? Z80_MEM_HL then post_MEM_HL 0x23 true
  else if among reg ixy_mem then post_MEM_IXY reg 0x23 true
  else post_memory 0xa0 step_r16.

(** With fakes disabled only the instruction without operands exists. *)
Definition OpCode_LDD : M St unit :=
  o ← gets opt;
  if noFakes_silent o then emit2 0xED 0xA8
  else each_arg (code ← LDD_code; EmitBytes (puts (blank 8) 0 code) true).
Definition OpCode_LDI : M St unit :=
  o ← gets opt;
  if noFakes_silent o then emit2 0xED 0xA0
  else each_arg (code ← LDI_code; EmitBytes (puts (blank 14) 0 code) true).

Definition OpCode_LDDR := emit2 0xED 0xB8.
Definition OpCode_LDIR := emit2 0xED 0xB0.

Definition OpCode_LR35902_LDH : M St unit :=
  each_arg
    (r1 ← GetRegister_lp;
     '(pemaRes, a8) ← (if r1 =? Z80_UNK then ParseExpressionMemAccess_lp else mret (0, -1));
     comma_ok ← (if (r1 =? Z80_A) || (0 <? pemaRes) then comma_lp else mret false);
     r2 ← (if comma_ok : bool then GetRegister_lp else mret Z80_F);
     '(pemaRes, a8) ←
       (if (r2 =? Z80_UNK) && (r1 =? Z80_A) then ParseExpressionMemAccess_lp
        else mret (if r2 =? Z80_A then pemaRes else 0, a8));
     code ←
       (if pemaRes =? 2 then
          let a8 := if in_ldh a8 then a8 - 0xFF00 else a8 in
          _ ← check8 a8;
          mret [if r2 =? Z80_A then 0xE0 else 0xF0; Z.land a8 0xFF]
        else
          p ← get_lp;
          Error "[LDH] only valid combinations: `ldh a,(a8)` or `ldh (a8),a`" (Some (aft p)) SUPPRESS ;;
          mret []);
     EmitBytes (puts (blank 3) 0 code) true).
