(* ===== verification/OpsMtoX.v ===== *)
(** * Instruction handlers of the Z80N and MIRROR to XOR (z80.cpp) *)

From S2P Require Export OpsLd.

(** ** Z80N instructions without operands *)

Definition next_only (m : M St unit) : M St unit :=
  o ← syntax;
  if IsNextEnabled o <? 1 then Error_bp "Z80N instructions are currently disabled" SUPPRESS else m.

Definition OpCode_Next_LDDRX := next_only (emit2 0xED 0xBC).
Definition OpCode_Next_LDDX := next_only (emit2 0xED 0xAC).
Definition OpCode_Next_LDIRX := next_only (emit2 0xED 0xB4).
Definition OpCode_Next_LDIX := next_only (emit2 0xED 0xA4).
Definition OpCode_Next_LDPIRX := next_only (emit2 0xED 0xB7).
Definition OpCode_Next_LDWS := next_only (emit2 0xED 0xA5).
Definition OpCode_Next_OUTINB := next_only (emit2 0xED 0x90).
Definition OpCode_Next_SETAE := next_only (emit2 0xED 0x95).

Definition OpCode_NEG := emit2 0xED 0x44.
Definition OpCode_NOP := emit1 0x0.
Definition OpCode_OTDR := emit2 0xED 0xBB.
Definition OpCode_OTIR := emit2 0xED 0xB3.
Definition OpCode_OUTD := emit2 0xED 0xAB.
Definition OpCode_OUTI := emit2 0xED 0xA3.
Definition OpCode_RETI := emit2 0xED 0x4D.
Definition OpCode_RETN := emit2 0xED 0x45.
Definition OpCode_RLA := emit1 0x17.
Definition OpCode_RLCA := emit1 0x7.
Definition OpCode_RLD := emit2 0xED 0x6F.
Definition OpCode_RRA := emit1 0x1f.
Definition OpCode_RRCA := emit1 0xf.
Definition OpCode_RRD := emit2 0xED 0x67.
Definition OpCode_SCF := emit1 0x37.

(** ** Z80N instructions with an optional or fixed operand *)

(** MIRROR and SWAPNIB: an explicit A is accepted. *)
Definition only_A (message : string) (second : Z) : M St unit :=
  next_only (
    reg ← GetRegister_lp;
    if negb (reg =? Z80_UNK) && negb (reg =? Z80_A) then Error_line message PASS3
    else emit2 0xED second).
Definition OpCode_Next_MIRROR := only_A "[MIRROR] Illegal operand (can be only register A)" 0x24.
Definition OpCode_Next_SWAPNIB := only_A "[SWAPNIB] Illegal operand (can be only register A)" 0x23.

(** PIXELAD and PIXELDN: an explicit HL is accepted. *)
Definition optional_HL (second : Z) : M St unit :=
  next_only (
    oldLp ← get_lp;
    reg ← GetRegister_lp;
    mwhen (negb (reg =? Z80_HL)) (modify (set_lp oldLp)) ;;
    emit2 0xED second).
Definition OpCode_Next_PIXELAD := optional_HL 0x94.
Definition OpCode_Next_PIXELDN := optional_HL 0x93.

Definition OpCode_Next_MUL : M St unit :=
  next_only (
    r1 ← GetRegister_lp;
    eol ← (if r1 =? Z80_UNK then lpf SkipBlanks else mret false);
    nf ← (if eol : bool then noFakes else mret true);
    let r1 := if eol && negb nf then Z80_DE else r1 in
    de ← (if r1 =? Z80_DE then mret true
          else if r1 =? Z80_D then
            c ← comma_lp;
            if c : bool then r2 ← GetRegister_lp; mret (r2 =? Z80_E) else mret false
          else mret false);
    if de : bool then EmitBytes (puts (blank 3) 0 [0xED; 0x30]) true
    else Error_bp ("Z80N MUL exist only with " ++ dq ++ "D,E" ++ dq ++ " arguments")%string SUPPRESS).

(** [muluw hl,bc] and [mulub a,b] of the R800, the first operand optional. *)
Definition mul_R800 (implied : Z) (codes : list (Z * Z)) : M St unit :=
  reg ← GetRegister_lp;
  c ← (if reg =? implied then comma_lp else mret false);
  reg ← (if c : bool then GetRegister_lp else mret reg);
  EmitBytes (puts (blank 3) 0
    (match List.find (fun rc => fst rc =? reg) codes with
     | Some (_, code) => [0xed; code]
     | None => []
     end)) true.
Definition OpCode_MULUB : M St unit :=
  mul_R800 Z80_A [(Z80_B, 0xc1); (Z80_C, 0xc9); (Z80_D, 0xd1); (Z80_E, 0xd9)].
Definition OpCode_MULUW : M St unit := mul_R800 Z80_HL [(Z80_BC, 0xc3); (Z80_SP, 0xf3)].

Definition OpCode_Next_NEXTREG : M St unit :=
  next_only (args_loop MultiArg_lp (
    reg ← GetRegister_lp;
    if negb (reg =? Z80_UNK) then
      Error_line "[NEXTREG] first operand should be register number" SUPPRESS ;; mret false
    else
      n ← GetByteNoMem_lp false;
      _ ← checkAndWarn false;
      c ← comma_lp;
      if negb c then Error1 "[NEXTREG] Comma expected" ;; mret false
      else
        reg ← GetRegister_lp;
        code ← (if reg =? Z80_A then mret [0xED; 0x92; n]
                else if reg =? Z80_UNK then
                  v ← GetByteNoMem_lp false;
                  resolveRelocationAndSmartSmc 3 HIGH ;;
                  mret [0xED; 0x91; n; v]
                else mret []);
        EmitBytes (puts (blank 5) 0 code) true ;; mret true)).

Definition OpCode_Next_TEST : M St unit :=
  next_only (
    n ← GetByteNoMem_lp false;
    resolveRelocationAndSmartSmc 2 HIGH ;;
    EmitBytes [0xED; 0x27; n; -1] true).

Definition OpCode_Next_SETBRK : M St unit :=
  o ← syntax;
  if IsNextEnabled o <? 2 then
    Error1 ("[SETBRK] fake instruction " ++ dq ++ "setbrk" ++ dq
            ++ " must be specifically enabled by --zxnext=cspect option")%string ;;
    SkipToEol_lp
  else
    let bad := Error1 "[SETBRK] syntax: SETBRK <type>, <start_address>, <end_address>" in
    type ← GetByte_lp false;
    c ← comma_lp;
    if negb c then bad
    else
      startad ← GetWord_lp;
      c ← comma_lp;
      if negb c then bad
      else
        endad ← GetWord_lp;
        EmitBytes [0xED; 0x01; type; -1] true ;;
        EmitWord startad false ;;
        EmitWord endad false.

(** ** OUT *)

Definition OUT_code : M St (list Z) :=
  o ← gets opt;
  ioc ← (if IsI8080 o then mret false else NeedIoC);
  if ioc : bool then
    behind_comma (
      reg ← GetRegister_lp;
      if among reg r8_plain then mret [0xed; 0x41 + 8 * reg]
      else if reg =? Z80_UNK then
        n ← GetByteNoMem_lp false;
        if n =? 0 then WarningById1 "out0" ;; mret [0xed; 0x71] else mret [-1; 0x71]
      else mret [])
  else
    port ← GetIoPort_lp;
    c ← comma_lp;
    reg ← (if c : bool then GetRegister_lp else mret Z80_UNK);
    mret [if c && (reg =? Z80_A) then 0xd3 else -1; port].

Definition OpCode_OUT : M St unit :=
  each_arg (code ← OUT_code; EmitBytes (puts (blank 3) 0 code) true).

(** ** POP and PUSH *)

Definition POP_code (r16 : Z) : list Z :=
  if r16 =? Z80_AF then [0xf1] else if r16 =? Z80_BC then [0xc1]
  else if r16 =? Z80_DE then [0xd1] else if r16 =? Z80_HL then [0xe1]
  else if among r16 ixy then [r16; 0xe1] else [].
Definition OpCode_POPone (r16 : Z) : M St unit :=
  EmitBytes (puts (blank 3) 0 (POP_code r16)) true.

Definition MAX_POP_REGS : nat := 30.

(** The registers in order; an invalid one or the thirtieth ends the list. *)
Fixpoint pop_regs (n : nat) : M St (list Z) :=
  match n with
  | O => mret []
  | S n =>
      reg ← GetRegister_lp;
      if (GetRegister_r16Low reg =? Z80_UNK) || Nat.eqb n 0 then mret [reg]
      else
        c ← relaxedMaComma_lp;
        if c : bool then regs ← pop_regs n; mret (reg :: regs) else mret [reg]
  end.
Definition OpCode_POPreverse : M St unit :=
  regs ← pop_regs MAX_POP_REGS;
  for_each (rev regs) OpCode_POPone.

Definition OpCode_POPnormal : M St unit :=
  each_relaxed (reg ← GetRegister_lp; OpCode_POPone reg).

Definition OpCode_POP : M St unit :=
  o ← syntax;
  if IsReversePOP o then OpCode_POPreverse else OpCode_POPnormal.

(** The operand of [push imm16] has the high byte first. *)
Definition PUSH_imm16 : M St (list Z) :=
  o ← syntax;
  if IsNextEnabled o =? 0 then mret []
  else
    imm16 ← GetWordNoMem_lp;
    r ← gets rel;
    mwhen (isResultAffected r)
      (if HIGH =? rel_type r then
         resolveRelocationAffected (if REGULAR =? deltaType r then 1 else 3) REGULAR
       else
         Error_bp "PUSH imm16 is big-endian encoded and can't be part of RELOCATE_TABLE" PASS3 ;;
         modify (set_isResultAffected false)) ;;
    mret [0xED; 0x8A; Z.shiftr imm16 8; Z.land imm16 255].

Definition OpCode_PUSH : M St unit :=
  each_relaxed
    (reg ← GetRegister_lp;
     code ← (if reg =? Z80_AF then mret [0xf5] else if reg =? Z80_BC then mret [0xc5]
             else if reg =? Z80_DE then mret [0xd5] else if reg =? Z80_HL then mret [0xe5]
             else if among reg ixy then mret [reg; 0xe5]
             else if reg =? Z80_UNK then PUSH_imm16 else mret []);
     EmitBytes (puts (blank 5) 0 code) true).

(** ** RES, SET, RET, RST *)

Definition cb_bit (base : Z) : M St unit :=
  each_arg
    (bit ← GetByteNoMem_lp false;
     c ← comma_lp;
     e ← (if c && (bit <=? 7)
          then '(_, e) ← OpCode_CbFamily (8 * bit + base) (blank 5) true; mret e
          else mret (blank 5));
     EmitBytes e true).
Definition OpCode_RES : M St unit := cb_bit 0x80.
Definition OpCode_SET : M St unit := cb_bit 0xc0.

Definition OpCode_RET : M St unit :=
  cc ← getz80cond_lp;
  if cc =? Z80C_UNK then EmitByte 0xc9 true else EmitByte (0xc0 + cc) true.

Definition OpCode_RST : M St unit :=
  args_loop MultiArg_lp (
    e ← GetByteNoMem_lp false;
    if negb (Z.land e (Z.lnot 0x38) =? 0) then
      Error_line "[RST] Illegal operand" PASS3 ;; SkipToEol_lp ;; mret false
    else EmitByte (0xC7 + e) true ;; mret true).

(** ** Rotations and shifts, with their fakes on register pairs *)

(** The code of a fake is that of two CB instructions. *)
Definition cb_pair (op1 op2 : Z) : list Z := [0xcb; op1; MK; 0xcb; op2].

Definition rotation (base : Z) (r16 : list Z) (fake : Z → list Z) : M St unit :=
  each_arg
    ('(reg, e) ← OpCode_CbFamily base (blank 6) true;
     e ← (if among reg r16 then
            nf ← noFakes;
            mret (if nf : bool then e else puts e 0 (fake reg))
          else mret e);
     EmitBytes e true).

(** Left: the low register first, its carry rotated into the high one. *)
Definition low_then_high (op : Z) (reg : Z) : list Z :=
  cb_pair (op + GetRegister_r16Low reg) (0x10 + GetRegister_r16High reg).
Definition high_then_low (op : Z) (reg : Z) : list Z :=
  cb_pair (op + GetRegister_r16High reg) (0x18 + GetRegister_r16Low reg).

Definition OpCode_RL : M St unit := rotation 0x10 [Z80_BC; Z80_DE; Z80_HL] (low_then_high 0x10).
Definition OpCode_RR : M St unit := rotation 0x18 [Z80_BC; Z80_DE; Z80_HL] (high_then_low 0x18).
Definition OpCode_SLA : M St unit :=
  rotation 0x20 [Z80_BC; Z80_DE; Z80_HL]
    (fun reg => if reg =? Z80_HL then [0x29] else low_then_high 0x20 reg).
Definition OpCode_SLL : M St unit := rotation 0x30 [Z80_BC; Z80_DE; Z80_HL] (low_then_high 0x30).
Definition OpCode_SRA : M St unit := rotation 0x28 [Z80_BC; Z80_DE; Z80_HL] (high_then_low 0x28).
Definition OpCode_SRL : M St unit := rotation 0x38 [Z80_BC; Z80_DE; Z80_HL] (high_then_low 0x38).

Definition OpCode_RLC : M St unit :=
  each_arg ('(_, e) ← OpCode_CbFamily 0x00 (blank 5) true; EmitBytes e true).
Definition OpCode_RRC : M St unit :=
  each_arg ('(_, e) ← OpCode_CbFamily 0x08 (blank 5) true; EmitBytes e true).

(** ** SBC, SUB, STOP *)

Definition SBC_r16 (reg reg2 : Z) (e : list Z) : M St (list Z) :=
  o ← gets opt;
  if (reg =? Z80_HL) && negb (CPU_nonZ80 o) then
    mret (if among reg2 r16_plain then puts e 0 [0xed; 0x32 + reg2] else e)
  else if (reg =? Z80_DE) && among reg2 r16_plain then
    nf ← noFakes;
    mret (if nf : bool then e else puts e 0 (ex_de_hl [0xED; 0x32 + swap_de_hl reg2]))
  else mret e.
Definition OpCode_SBC : M St unit := alu_r16 0x98 7 false "[SBC] Comma expected" SBC_r16.

(** The fakes clear the carry with [or a] first. *)
Definition SUB_r16 (reg reg2 : Z) (e : list Z) : M St (list Z) :=
  if among reg [Z80_HL; Z80_DE] && among reg2 r16_plain then
    nf ← noFakes;
    mret (if nf : bool then e
          else if reg =? Z80_HL then puts e 0 [0xB7; MK; 0xed; 0x32 + reg2]
          else puts e 0 ([0xB7; MK] ++ ex_de_hl [0xED; 0x32 + swap_de_hl reg2]))
  else mret e.
Definition OpCode_SUB : M St unit := alu_r16 0x90 9 true "[SUB] Comma expected" SUB_r16.

Definition OpCode_LR35902_STOP : M St unit :=
  EmitByte 0x10 true ;;
  eol ← lpf SkipBlanks;
  if eol : bool then EmitByte 0x00 false
  else n ← GetByteNoMem_lp false; EmitByte n false.
