(* ===== verification/OpTable.v ===== *)
(** * The instruction table and the dispatcher (z80.cpp)

    Which instructions each CPU has, the lookup of a name and [GetOpCode], which
    assembles the instruction at the line pointer. *)

From S2P Require Export OpsMtoX.

Definition optable : Type := list (list ascii * M St unit).

(** Entries of [Init], in its order; the first group is for every CPU. *)
Definition ops_shared : list (string * M St unit) := [
  ("adc"%string, OpCode_ADC); ("add"%string, OpCode_ADD); ("and"%string, OpCode_AND);
   ("call"%string, OpCode_CALL); ("ccf"%string, OpCode_CCF); ("cp"%string, OpCode_CP);
   ("cpl"%string, OpCode_CPL); ("daa"%string, OpCode_DAA); ("dec"%string, OpCode_DEC);
   ("di"%string, OpCode_DI); ("ei"%string, OpCode_EI); ("exd"%string, OpCode_EXD);
   ("halt"%string, OpCode_HALT); ("inc"%string, OpCode_INC); ("jp"%string, OpCode_JP);
   ("ld"%string, OpCode_LD); ("nop"%string, OpCode_NOP); ("or"%string, OpCode_OR);
   ("pop"%string, OpCode_POP); ("push"%string, OpCode_PUSH); ("ret"%string, OpCode_RET);
   ("rla"%string, OpCode_RLA); ("rlca"%string, OpCode_RLCA); ("rra"%string, OpCode_RRA);
   ("rrca"%string, OpCode_RRCA); ("rst"%string, OpCode_RST); ("sbc"%string, OpCode_SBC);
   ("scf"%string, OpCode_SCF); ("sub"%string, OpCode_SUB); ("xor"%string, OpCode_XOR)
].
(** Not on the LR35902. *)
Definition ops_not_lr35902 : list (string * M St unit) := [
  ("ex"%string, OpCode_EX); ("in"%string, OpCode_IN); ("out"%string, OpCode_OUT)
].
(** Not on the i8080. *)
Definition ops_not_i8080 : list (string * M St unit) := [
  ("bit"%string, OpCode_BIT); ("jr"%string, OpCode_JR); ("res"%string, OpCode_RES);
   ("rl"%string, OpCode_RL); ("rlc"%string, OpCode_RLC); ("rr"%string, OpCode_RR);
   ("rrc"%string, OpCode_RRC); ("set"%string, OpCode_SET); ("sla"%string, OpCode_SLA);
   ("sra"%string, OpCode_SRA); ("srl"%string, OpCode_SRL)
].
Definition ops_lr35902 : list (string * M St unit) := [
  ("ldd"%string, OpCode_LR35902_LDD); ("ldh"%string, OpCode_LR35902_LDH);
   ("ldi"%string, OpCode_LR35902_LDI); ("reti"%string, OpCode_EXX);
   ("stop"%string, OpCode_LR35902_STOP); ("swap"%string, OpCode_SLL)
].
Definition ops_z80 : list (string * M St unit) := [
  ("cpd"%string, OpCode_CPD); ("cpdr"%string, OpCode_CPDR); ("cpi"%string, OpCode_CPI);
   ("cpir"%string, OpCode_CPIR); ("djnz"%string, OpCode_DJNZ); ("exa"%string, OpCode_EXA);
   ("exx"%string, OpCode_EXX); ("im"%string, OpCode_IM); ("ind"%string, OpCode_IND);
   ("indr"%string, OpCode_INDR); ("inf"%string, OpCode_INF); ("ini"%string, OpCode_INI);
   ("inir"%string, OpCode_INIR); ("ldd"%string, OpCode_LDD); ("lddr"%string, OpCode_LDDR);
   ("ldi"%string, OpCode_LDI); ("ldir"%string, OpCode_LDIR); ("mulub"%string, OpCode_MULUB);
   ("muluw"%string, OpCode_MULUW); ("neg"%string, OpCode_NEG); ("otdr"%string, OpCode_OTDR);
   ("otir"%string, OpCode_OTIR); ("outd"%string, OpCode_OUTD); ("outi"%string, OpCode_OUTI);
   ("reti"%string, OpCode_RETI); ("retn"%string, OpCode_RETN); ("rld"%string, OpCode_RLD);
   ("rrd"%string, OpCode_RRD); ("sli"%string, OpCode_SLL); ("sll"%string, OpCode_SLL)
].
(** [InitNextExtensions] *)
Definition ops_next : list (string * M St unit) := [
  ("brlc"%string, OpCode_Next_BRLC); ("bsla"%string, OpCode_Next_BSLA);
   ("bsra"%string, OpCode_Next_BSRA); ("bsrf"%string, OpCode_Next_BSRF);
   ("bsrl"%string, OpCode_Next_BSRL); ("lddrx"%string, OpCode_Next_LDDRX);
   ("lddx"%string, OpCode_Next_LDDX); ("ldirx"%string, OpCode_Next_LDIRX);
   ("ldix"%string, OpCode_Next_LDIX); ("ldpirx"%string, OpCode_Next_LDPIRX);
   ("ldws"%string, OpCode_Next_LDWS); ("mirror"%string, OpCode_Next_MIRROR);
   ("mul"%string, OpCode_Next_MUL); ("nextreg"%string, OpCode_Next_NEXTREG);
   ("outinb"%string, OpCode_Next_OUTINB); ("pixelad"%string, OpCode_Next_PIXELAD);
   ("pixeldn"%string, OpCode_Next_PIXELDN); ("setae"%string, OpCode_Next_SETAE);
   ("swapnib"%string, OpCode_Next_SWAPNIB); ("test"%string, OpCode_Next_TEST);
   ("exit"%string, OpCode_Next_EXIT); ("break"%string, OpCode_Next_BREAK);
   ("setbrk"%string, OpCode_Next_SETBRK); ("clrbrk"%string, OpCode_Next_CLRBRK)
].

Definition insert_all (l : list (string * M St unit)) (t : optable) : optable :=
  fold_left (fun t e => snd (CFunctionTable_Insert (str (fst e)) (snd e) t)) l t.

(** The entries [Init] makes for a CPU, and those of the Z80N once they have been
    initialized. *)
Definition ops_of (i8080 lr35902 next : bool) : list (string * M St unit) :=
  ops_shared ++ (if lr35902 then [] else ops_not_lr35902)
  ++ (if i8080 then [] else
        ops_not_i8080 ++ (if lr35902 then ops_lr35902 else ops_z80))
  ++ (if next then ops_next else []).
Definition OpCodeTable (i8080 lr35902 next : bool) : optable :=
  insert_all (ops_of i8080 lr35902 next) [].

(** [Init]: the CPU options fix the table; the Z80N part is added on demand. *)
Definition Z80_Init : M St unit :=
  o ← gets opt;
  if IsI8080 o || IsLR35902 o then mret tt else InitNextExtensions.

(** The table as it is now; the CPU never changes during a run. *)
Definition cpu_table (s : St) : optable :=
  OpCodeTable (IsI8080 (opt s)) (IsLR35902 (opt s)) (nextWasInitialized (par s)).

Definition find_instruction (name : option (list ascii)) (s : St) : option (M St unit) :=
  match name with
  | None => None
  | Some n => CFunctionTable_zoek n (cpu_table s)
  end.

Definition GetOpCode : M St unit :=
  modify (set_lastDisplacementParsedP None) ;;
  modify (set_isResultAffected false) ;;
  modify (fun s => set_bp (lp (par s)) s) ;;
  o ← syntax;
  n ← lpf (getinstr o);
  s ← gets st;
  match find_instruction n s with
  | None => Error_bp "Unrecognized instruction" PASS3 ;; SkipToEol_lp
  | Some handler => handler ;; _ ← checkAndWarn false; mret tt
  end.

(** What holds of every handler holds of the one found. *)
Lemma insert_all_Forall (P : M St unit → Prop) l t :
  Forall (P ∘ snd) l → Forall (P ∘ snd) t → Forall (P ∘ snd) (insert_all l t).
Proof.
  unfold insert_all. intros Hl. revert t. induction Hl as [|[n f] l Hf Hl IH]; intros t Ht; simpl; [done|].
  apply IH. by apply CFunctionTable_Insert_Forall.
Qed.

Lemma find_instruction_Forall (P : M St unit → Prop) n s f :
  (∀ a b c, Forall (P ∘ snd) (ops_of a b c)) → find_instruction n s = Some f → P f.
Proof.
  intros H. destruct n as [n|]; simpl; [|done]. apply CFunctionTable_zoek_Forall.
  apply insert_all_Forall; [apply H|constructor].
Qed.
