(* ===== verification/Z80Ref.v ===== *)
(** * The instruction sets, decoded (reference for z80.cpp)

    A decoder of machine code in the manner of the processor: an opcode is cut into
    the fields [x], [y], [z] that select registers, conditions and operations.  It
    gives the text of an instruction; the assembler, which is written the other way
    round with a handler for each mnemonic, must give the same bytes back.  The Z80
    with its undocumented instructions, the part of them the i8080 has, the LR35902. *)

From S2P Require Export OpTable.

(** ** Text with operands in it *)

Inductive tok :=
| T (s : string)         (* text *)
| N                      (* a byte *)
| NN                     (* a word, low byte first *)
| D                      (* the displacement of an index register *)
| E.                     (* a relative jump *)

(** The bytes in front of the operands and behind them, and the text. *)
Record instr := mk_instr { pre : list Z; toks : list tok; post : list Z }.

Definition signed8 (b : Z) : Z := if b <? 128 then b else b - 256.
Definition signed_text (v : Z) : list ascii := if v <? 0 then "-"%char :: fmt_d (- v) else "+"%char :: fmt_d v.

(** The text for the operand bytes [l]. *)
Fixpoint render (ts : list tok) (l : list Z) : option (list ascii) :=
  match ts, l with
  | [], [] => Some []
  | T s :: ts, l => app (str s) <$> render ts l
  | N :: ts, b :: l => app (str "0x" ++ fmt_0X 2 b) <$> render ts l
  | NN :: ts, lo :: hi :: l => app (str "0x" ++ fmt_0X 4 (lo + 256 * hi)) <$> render ts l
  | D :: ts, b :: l => app (signed_text (signed8 b)) <$> render ts l
  | E :: ts, b :: l => app (str "$" ++ signed_text (signed8 b + 2)) <$> render ts l
  | _, _ => None
  end.

(** ** Fields *)

Definition xf (op : Z) : Z := op / 64.
Definition yf (op : Z) : Z := op / 8 mod 8.
Definition zf (op : Z) : Z := op mod 8.
Definition pf (op : Z) : Z := yf op / 2.
Definition qf (op : Z) : Z := yf op mod 2.

Definition pick (l : list string) (i : Z) : string := nth (Z.to_nat i) l EmptyString.

(** The three register files: no prefix, 0xDD and 0xFD. *)
Inductive index := HL | IX | IY.
Definition index_name (i : index) : string := match i with HL => "hl" | IX => "ix" | IY => "iy" end.
Definition high_name (i : index) : string := match i with HL => "h" | IX => "ixh" | IY => "iyh" end.
Definition low_name (i : index) : string := match i with HL => "l" | IX => "ixl" | IY => "iyl" end.

(** An 8-bit operand; [plain] keeps H and L, as they are beside a memory operand. *)
Definition reg8 (i : index) (plain : bool) (k : Z) : list tok :=
  if k =? 6 then
    match i with HL => [T "(hl)"] | _ => [T ("(" ++ index_name i); D; T ")"] end
  else
    let i := if plain then HL else i in
    [T (pick ["b"; "c"; "d"; "e"; high_name i; low_name i; EmptyString; "a"]%string k)].

Definition rp (i : index) (k : Z) : string := pick ["bc"; "de"; index_name i; "sp"]%string k.
Definition rp2 (i : index) (k : Z) : string := pick ["bc"; "de"; index_name i; "af"]%string k.
Definition cc (k : Z) : string := pick ["nz"; "z"; "nc"; "c"; "po"; "pe"; "p"; "m"]%string k.
Definition alu (k : Z) : string :=
  pick ["add a,"; "adc a,"; "sub "; "sbc a,"; "and "; "xor "; "or "; "cp "]%string k.
Definition rot (k : Z) : string := pick ["rlc "; "rrc "; "rl "; "rr "; "sla "; "sra "; "sll "; "srl "]%string k.

Definition dec1 (k : Z) : string := of_chars (fmt_d k).

(** ** The main page *)

Definition quadrant0 (i : index) (op : Z) : list tok :=
  let y := yf op in
  let p := pf op in
  let q := qf op =? 0 in
  match zf op with
  | 0 =>
      if y =? 0 then [T "nop"] else if y =? 1 then [T "ex af,af'"]
      else if y =? 2 then [T "djnz "; E] else if y =? 3 then [T "jr "; E]
      else [T ("jr " ++ cc (y - 4) ++ ",")%string; E]
  | 1 =>
      if q then [T ("ld " ++ rp i p ++ ",")%string; NN]
      else [T ("add " ++ index_name i ++ "," ++ rp i p)%string]
  | 2 =>
      match y with
      | 0 => [T "ld (bc),a"]
      | 1 => [T "ld a,(bc)"]
      | 2 => [T "ld (de),a"]
      | 3 => [T "ld a,(de)"]
      | 4 => [T "ld ("; NN; T ("),"  ++ index_name i)%string]
      | 5 => [T ("ld " ++ index_name i ++ ",(")%string; NN; T ")"]
      | 6 => [T "ld ("; NN; T "),a"]
      | _ => [T "ld a,("; NN; T ")"]
      end
  | 3 => [T ((if q then "inc " else "dec ") ++ rp i p)%string]
  | 4 => T "inc " :: reg8 i false y
  | 5 => T "dec " :: reg8 i false y
  | 6 => T "ld " :: reg8 i false y ++ [T ","; N]
  | _ => [T (pick ["rlca"; "rrca"; "rla"; "rra"; "daa"; "cpl"; "scf"; "ccf"]%string y)]
  end.

Definition quadrant3 (i : index) (op : Z) : list tok :=
  let y := yf op in
  let p := pf op in
  let q := qf op =? 0 in
  match zf op with
  | 0 => [T ("ret " ++ cc y)%string]
  | 1 =>
      if q then [T ("pop " ++ rp2 i p)%string]
      else [T (pick ["ret"; "exx"; "jp (" ++ index_name i ++ ")"; "ld sp," ++ index_name i]%string p)]
  | 2 => [T ("jp " ++ cc y ++ ",")%string; NN]
  | 3 =>
      match y with
      | 0 => [T "jp "; NN]
      | 2 => [T "out ("; N; T "),a"]
      | 3 => [T "in a,("; N; T ")"]
      | 4 => [T ("ex (sp)," ++ index_name i)%string]
      | 5 => [T "ex de,hl"]
      | 6 => [T "di"]
      | _ => [T "ei"]
      end
  | 4 => [T ("call " ++ cc y ++ ",")%string; NN]
  | 5 => if q then [T ("push " ++ rp2 i p)%string] else [T "call "; NN]
  | 6 => [T (alu y); N]
  | _ => [T ("rst " ++ dec1 (y * 8))%string]
  end.

Definition main_page (i : index) (op : Z) : list tok :=
  match xf op with
  | 0 => quadrant0 i op
  | 1 =>
      if op =? 0x76 then [T "halt"]
      else
        let plain := (yf op =? 6) || (zf op =? 6) in
        T "ld " :: reg8 i plain (yf op) ++ T "," :: reg8 i plain (zf op)
  | 2 => T (alu (yf op)) :: reg8 i false (zf op)
  | _ => quadrant3 i op
  end.

(** ** The pages behind 0xCB and 0xED *)

Definition cb_text (op : Z) : string :=
  match xf op with
  | 0 => rot (yf op)
  | 1 => ("bit " ++ dec1 (yf op) ++ ",")%string
  | 2 => ("res " ++ dec1 (yf op) ++ ",")%string
  | _ => ("set " ++ dec1 (yf op) ++ ",")%string
  end.

Definition ed_page (op : Z) : option (list tok) :=
  let y := yf op in
  let z := zf op in
  let p := pf op in
  let q := qf op =? 0 in
  match xf op with
  | 1 =>
      match z with
      | 0 => Some [T ("in " ++ pick ["b"; "c"; "d"; "e"; "h"; "l"; "f"; "a"] y ++ ",(c)")%string]
      | 1 => Some [T ("out (c)," ++ pick ["b"; "c"; "d"; "e"; "h"; "l"; "0"; "a"] y)%string]
      | 2 => Some [T ((if q then "sbc hl," else "adc hl,") ++ rp HL p)%string]
      | 3 =>
          if p =? 2 then None
          else if q then Some [T "ld ("; NN; T ("),"  ++ rp HL p)%string]
          else Some [T ("ld " ++ rp HL p ++ ",(")%string; NN; T ")"]
      | 4 => if y =? 0 then Some [T "neg"] else None
      | 5 => if y =? 0 then Some [T "retn"] else if y =? 1 then Some [T "reti"] else None
      | 6 => if y =? 0 then Some [T "im 0"] else if y =? 2 then Some [T "im 1"] else if y =? 3 then Some [T "im 2"] else None
      | _ => if y <=? 5 then Some [T (pick ["ld i,a"; "ld r,a"; "ld a,i"; "ld a,r"; "rrd"; "rld"]%string y)] else None
      end
  | 2 =>
      if (z <=? 3) && (4 <=? y) then
        Some [T (pick ["ldi"; "cpi"; "ini"; "outi"; "ldd"; "cpd"; "ind"; "outd"; "ldir"; "cpir"; "inir"; "otir";
                       "lddr"; "cpdr"; "indr"; "otdr"]%string ((y - 4) * 4 + z))]
      else None
  | _ => None
  end.

(** ** All instructions *)

Definition prefix_of (i : index) : list Z := match i with HL => [] | IX => [0xDD] | IY => [0xFD] end.

#[export] Instance tok_eq_dec : EqDecision tok.
Proof. solve_decision. Defined.

(** An index prefix changes the opcodes whose text is another one with it. *)
Definition uses_index (op : Z) : bool := negb (bool_decide (main_page IX op = main_page HL op)).

Definition is_prefix_byte (op : Z) : bool := existsb (Z.eqb op) [0xCB; 0xDD; 0xED; 0xFD].

Definition main_instrs (i : index) : list instr :=
  (fun op => mk_instr (prefix_of i ++ [op]) (main_page i op) [])
    <$> List.filter (fun op => negb (is_prefix_byte op)
                               && match i with HL => true | _ => uses_index op end) (upto 256).

(** Behind an index prefix the displacement comes ahead of the opcode, and a register
    other than (HL) takes a copy of the result. *)
Definition cb_instrs (i : index) : list instr :=
  (fun op =>
     match i with
     | HL => mk_instr [0xCB; op] (T (cb_text op) :: reg8 HL true (zf op)) []
     | _ =>
         let copy := if (zf op =? 6) || (xf op =? 1) then [] else T "," :: reg8 HL true (zf op) in
         mk_instr (prefix_of i ++ [0xCB]) (T (cb_text op) :: reg8 i true 6 ++ copy) [op]
     end)
    <$> List.filter (fun op => match i with HL => true | _ => negb (xf op =? 1) || (zf op =? 6) end) (upto 256).

(** The opcodes behind 0xED that are not second copies of others. *)
Definition ed_instrs : list instr :=
  omap (fun op => (fun ts => mk_instr [0xED; op] ts []) <$> ed_page op) (upto 256).

Definition z80_instrs : list instr :=
  main_instrs HL ++ cb_instrs HL ++ ed_instrs
  ++ main_instrs IX ++ cb_instrs IX ++ main_instrs IY ++ cb_instrs IY.

(** ** Operands *)

(** *** The other processors *)

(** The i8080 has the instructions of one opcode that the Z80 did not add. *)
Definition on_i8080 (i : instr) : bool :=
  match pre i, post i with
  | [op], [] => negb (existsb (Z.eqb op) [0x08; 0x10; 0x18; 0x20; 0x28; 0x30; 0x38; 0xD9])
  | _, _ => false
  end.

(** The opcodes the LR35902 uses in another way. *)
Definition lr35902_page (op : Z) : list tok :=
  match op with
  | 0x08 => [T "ld ("; NN; T "),sp"]
  | 0x10 => [T "stop"]
  | 0x22 => [T "ldi (hl),a"]
  | 0x2A => [T "ldi a,(hl)"]
  | 0x32 => [T "ldd (hl),a"]
  | 0x3A => [T "ldd a,(hl)"]
  | 0xD9 => [T "reti"]
  | 0xE0 => [T "ldh ("; N; T "),a"]
  | 0xF0 => [T "ldh a,("; N; T ")"]
  | 0xE2 => [T "ld (c),a"]
  | 0xF2 => [T "ld a,(c)"]
  | 0xE8 => [T "add sp,"; D]
  | 0xF8 => [T "ld hl,sp"; D]
  | 0xEA => [T "ld ("; NN; T "),a"]
  | 0xFA => [T "ld a,("; NN; T ")"]
  | _ => main_page HL op
  end.
Definition lr35902_unused : list Z := [0xD3; 0xDB; 0xDD; 0xE3; 0xE4; 0xEB; 0xEC; 0xED; 0xF4; 0xFC; 0xFD; 0xCB].
Definition lr35902_cb_text (op : Z) : string :=
  if (xf op =? 0) && (yf op =? 6) then "swap " else cb_text op.
Definition lr35902_instrs : list instr :=
  ((fun op => mk_instr [op] (lr35902_page op) (if op =? 0x10 then [0] else []))
     <$> List.filter (fun op => negb (existsb (Z.eqb op) lr35902_unused)) (upto 256))
  ++ ((fun op => mk_instr [0xCB; op] (T (lr35902_cb_text op) :: reg8 HL true (zf op)) []) <$> upto 256).

(** Lists of operand bytes with every operand at each of its sample values. *)
Definition samples (t : tok) : list (list Z) :=
  match t with
  | T _ => [[]]
  | N => [[0]; [0x5A]; [0xFF]]
  | NN => [[0; 0]; [0x34; 0x12]; [0xFF; 0xFE]]
  | D => [[0]; [0x7F]; [0x80]]
  | E => [[0]; [0x7F]; [0x80]]
  end.
Fixpoint operand_samples (ts : list tok) : list (list Z) :=
  match ts with
  | [] => [[]]
  | t :: ts => flat_map (fun a => (fun rest => a ++ rest) <$> operand_samples ts) (samples t)
  end.

(** ** The assembler on a line *)

(** The bytes emitted in the last pass for the text of an instruction, when the whole
    text is consumed and no error reported. *)
Definition assembled (s : St) (text : list ascii) : option (list Z) :=
  match GetOpCode (set_lp (mk_text [] text) s) with
  | Ret _ s' =>
      if bool_decide (aft (lp (par s')) = []) && negb (existsb d_error (messages (err s')))
      then Some (WriteBuffer (out s')) else None
  | _ => None
  end.

(** The last pass with one of the processors selected. *)
Definition cpu_state (i8080 lr35902 : bool) : St :=
  on_opt (fun o => {| syx := syx o; IsI8080 := i8080; IsLR35902 := lr35902; IsLongPtr := IsLongPtr o;
                      warn_enabled := warn_enabled o |}) last_pass.
