(* ===== verification/Z80Spec.v ===== *)
(** * The assembler against the decoded instruction sets

    Every instruction of the reference, assembled from its text, gives back its bytes;
    the i8080 accepts exactly those it has. *)

From S2P Require Export Z80Ref.

(** ** The table, built once *)

(** Each name in lower and in upper case. *)
Definition both_cases (l : list (string * M St unit)) : optable :=
  flat_map (fun e => [(str (fst e), snd e); (map toupper (str (fst e)), snd e)]) l.

(** [GetOpCode] with another table. *)
Definition op_with (table : St → optable) : M St unit :=
  modify (set_lastDisplacementParsedP None) ;;
  modify (set_isResultAffected false) ;;
  modify (fun s => set_bp (lp (par s)) s) ;;
  o ← syntax;
  n ← lpf (getinstr o);
  s ← gets st;
  match (match n with None => None | Some n => CFunctionTable_zoek n (table s) end) with
  | None => Error_bp "Unrecognized instruction" PASS3 ;; SkipToEol_lp
  | Some handler => handler ;; _ ← checkAndWarn false; mret tt
  end.
Definition op_by (t : optable) : M St unit := op_with (fun _ => t).

Lemma op_with_agree (f g : St → optable) s :
  (∀ s', opt s' = opt s → nextWasInitialized (par s') = nextWasInitialized (par s) → f s' = g s') →
  op_with f s = op_with g s.
Proof.
  intros H. unfold op_with. cbv [mbind M_bind modify gets syntax lpf st mret M_ret].
  destruct (getinstr _ _) as [n p]. by rewrite H.
Qed.

Lemma GetOpCode_by t s :
  OpCodeTable (IsI8080 (opt s)) (IsLR35902 (opt s)) (nextWasInitialized (par s)) = t →
  GetOpCode s = op_by t s.
Proof.
  intros Ht. change (op_with cpu_table s = op_by t s). apply op_with_agree.
  intros s' Ho Hn. unfold cpu_table. by rewrite Ho, Hn.
Qed.

Definition assembled_by (t : optable) (s : St) (text : list ascii) : option (list Z) :=
  match op_by t (set_lp (mk_text [] text) s) with
  | Ret _ s' =>
      if bool_decide (aft (lp (par s')) = []) && negb (existsb d_error (messages (err s')))
      then Some (WriteBuffer (out s')) else None
  | _ => None
  end.

Lemma cpu_tables i8080 lr35902 :
  OpCodeTable i8080 lr35902 false = both_cases (ops_of i8080 lr35902 false).
Proof. by destruct i8080, lr35902. Qed.

Lemma assembled_eq i8080 lr35902 text :
  assembled (cpu_state i8080 lr35902) text
  = assembled_by (both_cases (ops_of i8080 lr35902 false)) (cpu_state i8080 lr35902) text.
Proof.
  unfold assembled, assembled_by. rewrite <- cpu_tables. by erewrite GetOpCode_by.
Qed.

(** ** Checking a list of instructions *)

(** [expected] is what the assembler should give for an instruction and its operands. *)
Definition checked (i8080 lr35902 : bool) (expected : instr → list Z → option (list Z)) (i : instr) : bool :=
  let t := both_cases (ops_of i8080 lr35902 false) in
  forallb (fun o => match render (toks i) o with
                    | None => false
                    | Some text => bool_decide (assembled_by t (cpu_state i8080 lr35902) text = expected i o)
                    end) (operand_samples (toks i)).

Lemma checked_spec i8080 lr35902 expected l :
  forallb (checked i8080 lr35902 expected) l = true →
  ∀ i o, i ∈ l → o ∈ operand_samples (toks i) →
  ∃ text, render (toks i) o = Some text ∧ assembled (cpu_state i8080 lr35902) text = expected i o.
Proof.
  intros H i o Hi Ho. rewrite forallb_forall in H.
  specialize (H i ltac:(by apply list_elem_of_In)). unfold checked in H.
  rewrite forallb_forall in H. specialize (H o ltac:(by apply list_elem_of_In)).
  destruct (render (toks i) o) as [text|]; [|done].
  exists text. split; [done|]. rewrite assembled_eq. by apply bool_decide_eq_true in H.
Qed.

(** The bytes of an instruction with its operands. *)
Definition machine_code (i : instr) (operands : list Z) : list Z := pre i ++ operands ++ post i.

(** C1: The assembler inverts the decoder of the Z80: for every instruction of the
    processor, the undocumented ones too, and every combination of sample operands, the
    text is assembled without an error into the bytes it was decoded from. *)
Theorem GetOpCode_z80 : ∀ i o, i ∈ z80_instrs → o ∈ operand_samples (toks i) →
  ∃ text, render (toks i) o = Some text ∧ assembled (cpu_state false false) text = Some (machine_code i o).
Proof. apply (checked_spec _ _ (fun i o => Some (machine_code i o))). vm_cast_no_check (eq_refl true). Qed.

(** C2: With the i8080 selected the assembler accepts, of all the instructions of the
    Z80, exactly those that the i8080 has, with the same bytes; every other one is an
    error. *)
Theorem GetOpCode_i8080 : ∀ i o, i ∈ z80_instrs → o ∈ operand_samples (toks i) →
  ∃ text, render (toks i) o = Some text
    ∧ assembled (cpu_state true false) text = if on_i8080 i then Some (machine_code i o) else None.
Proof. apply (checked_spec _ _ (fun i o => if on_i8080 i then Some (machine_code i o) else None)). vm_cast_no_check (eq_refl true). Qed.

(** C3: The same for the LR35902: each of its instructions is assembled into the bytes
    it was decoded from. *)
Theorem GetOpCode_lr35902 : ∀ i o, i ∈ lr35902_instrs → o ∈ operand_samples (toks i) →
  ∃ text, render (toks i) o = Some text ∧ assembled (cpu_state false true) text = Some (machine_code i o).
Proof. apply (checked_spec _ _ (fun i o => Some (machine_code i o))). vm_cast_no_check (eq_refl true). Qed.

(** ** Instances *)

Lemma elem_of_instrs i l :
  existsb (fun j => bool_decide (pre i = pre j ∧ toks i = toks j ∧ post i = post j)) l = true → i ∈ l.
Proof.
  rewrite existsb_exists. intros (j & Hj & E%bool_decide_eq_true).
  destruct i, j; cbn in E. destruct E as (-> & -> & ->). by apply list_elem_of_In.
Qed.

(** SET 7,(IX-128),A: the result goes to A as well. *)
Lemma GetOpCode_z80_witness :
  ∃ text, render [T "set 7,"; T "(ix"; D; T ")"; T ","; T "a"] [0x80] = Some text
    ∧ assembled (cpu_state false false) text = Some [0xDD; 0xCB; 0x80; 0xFF].
Proof.
  apply (GetOpCode_z80 (mk_instr [0xDD; 0xCB] [T "set 7,"; T "(ix"; D; T ")"; T ","; T "a"] [0xFF]) [0x80]).
  - apply elem_of_instrs. by vm_compute.
  - apply (bool_decide_unpack _). by vm_compute.
Defined.

(** DJNZ is refused. *)
Lemma GetOpCode_i8080_witness :
  ∃ text, render [T "djnz "; E] [0x7F] = Some text ∧ assembled (cpu_state true false) text = None.
Proof.
  apply (GetOpCode_i8080 (mk_instr [0x10] [T "djnz "; E] []) [0x7F]).
  - apply elem_of_instrs. by vm_compute.
  - apply (bool_decide_unpack _). by vm_compute.
Defined.

Lemma GetOpCode_lr35902_witness :
  ∃ text, render [T "add sp,"; D] [0x7F] = Some text
    ∧ assembled (cpu_state false true) text = Some [0xE8; 0x7F].
Proof.
  apply (GetOpCode_lr35902 (mk_instr [0xE8] [T "add sp,"; D] []) [0x7F]).
  - apply elem_of_instrs. by vm_compute.
  - apply (bool_decide_unpack _). by vm_compute.
Defined.
