(* ===== verification/Frame.v ===== *)
(** * What the assembly of an instruction may touch

    [AsmFrame R] is the interface between the instruction handlers and an
    invariant: a preorder on states that every parser, relocation and symbol
    update respects and that reporting a message and emitting one byte respect.
    Every handler then respects it, which is proved once here; the invariants of
    the development are instances.  [ParseFrame R] is the part of it that the parser
    of expressions needs, which emits nothing. *)

From S2P Require Export OpTable.

Class ParseFrame (R : St → St → Prop) : Prop := {
  af_preorder :: PreOrder R;
  af_par : ∀ f s, R s (on_par f s);
  af_rel : ∀ f s, R s (on_rel f s);
  af_tab : ∀ f s, R s (on_tab f s);
  af_Error : ∀ m b t, keeps R (Error m b t);
  af_WarningImpl : ∀ i m b t, keeps R (WarningImpl i m b t)
}.

Class AsmFrame (R : St → St → Prop) : Prop := {
  af_parse :: ParseFrame R;
  af_smc : ∀ v s, R s (set_smartSmcLines v s);
  af_listing : ∀ v s, R s (set_ListEmittedBytes v s);
  af_sld : ∀ v s, R s (set_sldTrace v s);
  af_shown : ∀ v s, R s (set_PageDiffersWarningShown v s);
  af_emit : ∀ b p, keeps R (EmitByteNoListing b p)
}.

#[export] Hint Resolve af_Error af_WarningImpl af_emit : keeps.

(** [frame] closes [keeps R m] for [m] built of what the frame covers: state
    updates one setter at a time, calls by the database or by unfolding. *)
Ltac frame_update :=
  repeat first
    [ reflexivity
    | apply af_par | apply af_rel | apply af_tab | apply af_smc | apply af_listing
    | apply af_sld | apply af_shown
    | match goal with
      | |- ?R ?s (match ?x with _ => _ end) => destruct x
      | |- ?R ?s (list_emitted _ _) => unfold list_emitted; cbv zeta
      | |- ?R ?s (?f ?v ?t) => tryif constr_eq s t then fail else transitivity t
      end ].

Ltac head_of t := lazymatch t with ?f _ => head_of f | _ => t end.
Ltac unfold_call :=
  match goal with
  | |- keeps _ ?m => let h := head_of m in unfold h; cbv beta
  end.
Ltac frame :=
  intros;
  repeat first
    [ keep_leaf
    | keep_step
    | match goal with |- keeps _ (modify _) => apply keeps_modify; intros ?; cbv beta; solve [frame_update] end
    | unfold_call ].

Section parse_frame.
Context (R : St → St → Prop) `{!ParseFrame R}.

Lemma fr_Error1 m : keeps R (Error1 m). Proof. frame. Qed.
Lemma fr_ErrorInt m v t : keeps R (ErrorInt m v t). Proof. frame. Qed.
Lemma fr_Warning m b t : keeps R (Warning m b t). Proof. frame. Qed.
Lemma fr_Warning1 m : keeps R (Warning1 m). Proof. frame. Qed.
Lemma fr_WarningById i b t : keeps R (WarningById i b t). Proof. frame. Qed.
Lemma fr_WarningById1 i : keeps R (WarningById1 i). Proof. frame. Qed.
Hint Resolve fr_Error1 fr_ErrorInt fr_Warning fr_Warning1 fr_WarningById fr_WarningById1 : keeps.

(** *** Lexical layer *)

Lemma fr_GetNumericValue p n s b : keeps R (GetNumericValue p n s b). Proof. frame. Qed.
Hint Resolve fr_GetNumericValue : keeps.
Lemma fr_GetConstant p : keeps R (GetConstant p). Proof. frame. Qed.

Lemma fr_string_chars n q p e m a : keeps R (string_chars n q p e m a).
Proof. revert p e. induction n as [|n IH]; intros; simpl; frame. Qed.
Hint Resolve fr_GetConstant fr_string_chars : keeps.
Lemma fr_string_parts n p e m a : keeps R (string_parts n p e m a).
Proof. revert p e. induction n as [|n IH]; intros; simpl; frame. Qed.
Hint Resolve fr_string_parts : keeps.
Lemma fr_GetCharConst p : keeps R (GetCharConst p). Proof. frame. Qed.
Lemma fr_OpenBracket p : keeps R (OpenBracket p). Proof. frame. Qed.
Lemma fr_CloseBracket p : keeps R (CloseBracket p). Proof. frame. Qed.
Lemma fr_check8 v : keeps R (check8 v). Proof. frame. Qed.
Lemma fr_check8o v : keeps R (check8o v). Proof. frame. Qed.
Lemma fr_check16 v : keeps R (check16 v). Proof. frame. Qed.
Lemma fr_checkLowMemory h l : keeps R (checkLowMemory h l). Proof. frame. Qed.
Hint Resolve fr_GetCharConst fr_OpenBracket fr_CloseBracket fr_check8 fr_check8o fr_check16
  fr_checkLowMemory : keeps.

(** *** Symbols *)

Lemma fr_ValidateLabel p a b : keeps R (ValidateLabel p a b). Proof. frame. Qed.
Lemma fr_CLabelTable_Insert n v t q : keeps R (CLabelTable_Insert n v t q). Proof. frame. Qed.
Lemma fr_SearchLabel_loop n u g l m a f t d : keeps R (SearchLabel_loop n u g l m a f t d).
Proof. revert m a f t d. induction n as [|n IH]; intros; simpl; frame. Qed.
Hint Resolve fr_ValidateLabel fr_CLabelTable_Insert fr_SearchLabel_loop : keeps.
Lemma fr_SearchLabel p u : keeps R (SearchLabel p u). Proof. frame. Qed.
Hint Resolve fr_SearchLabel : keeps.
Lemma fr_LabelExist p : keeps R (LabelExist p). Proof. frame. Qed.
Lemma fr_label_getter f t p : keeps R (label_getter f t p). Proof. frame. Qed.
Lemma fr_GetTemporaryLabelValue p u : keeps R (GetTemporaryLabelValue p u). Proof. frame. Qed.
Hint Resolve fr_LabelExist fr_label_getter fr_GetTemporaryLabelValue : keeps.
Lemma fr_MemGetByte a : keeps R (MemGetByte a). Proof. frame. Qed.
Hint Resolve fr_MemGetByte : keeps.

(** *** Expressions *)

Lemma fr_level sub next apply p :
  (∀ p, keeps R (sub p)) → (∀ o a b, keeps R (apply o a b)) → keeps R (level sub next apply p).
Proof.
  intros Hs Ha. unfold level. keep_step; [done|]. destruct a as [[ok lhs] q].
  destruct (negb ok); [frame|]. generalize (S (room q)) as n. intros n. revert lhs q.
  induction n as [|n IH]; intros; simpl; frame.
Qed.
Hint Resolve fr_level : keeps.

Lemma fr_unary_value o v : keeps R (unary_value o v). Proof. frame. Qed.
Lemma fr_mul_value o a b : keeps R (mul_value o a b). Proof. frame. Qed.
Lemma fr_shift_value o a b : keeps R (shift_value o a b). Proof. frame. Qed.
Lemma fr_minmax_value o a b : keeps R (minmax_value o a b). Proof. frame. Qed.
Lemma fr_cmp_value o a b : keeps R (cmp_value o a b). Proof. frame. Qed.
Hint Resolve fr_unary_value fr_mul_value fr_shift_value fr_minmax_value fr_cmp_value : keeps.

Section fr_grammar.
Context (entry : text → M St presult) (Hentry : ∀ p, keeps R (entry p)).
Hint Resolve Hentry : keeps.

Lemma fr_ParseExpPrim p : keeps R (ParseExpPrim entry p). Proof. frame. Qed.
Hint Resolve fr_ParseExpPrim : keeps.
Lemma fr_ParseExpUnair n p : keeps R (ParseExpUnair entry n p).
Proof. revert p. induction n as [|n IH]; intros; simpl; frame. Qed.
Hint Resolve fr_ParseExpUnair : keeps.
Lemma fr_ParseExpLogOr p : keeps R (ParseExpLogOr entry p).
Proof.
  unfold ParseExpLogOr, ParseExpLogAnd, ParseExpBitOr, ParseExpBitXor, ParseExpBitAnd,
    ParseExpEqu, ParseExpCmp, ParseExpMinMax, ParseExpShift, ParseExpAdd, ParseExpMul.
  do 11 (apply fr_level; [intros ? | intros ? ? ?; solve [auto with keeps | apply keeps_ret; apply _]]).
  auto with keeps.
Qed.
End fr_grammar.
Hint Resolve fr_ParseExpLogOr : keeps.

Lemma fr_parse_entry n p : keeps R (parse_entry n p).
Proof. revert p. induction n as [|n IH]; intros; cbn [parse_entry]; frame. Qed.
Hint Resolve fr_parse_entry : keeps.
Lemma fr_ParseExpression p : keeps R (ParseExpression p). Proof. frame. Qed.
Hint Resolve fr_ParseExpression : keeps.
Lemma fr_ParseExpressionMemAccess p : keeps R (ParseExpressionMemAccess p). Proof. frame. Qed.
Hint Resolve fr_ParseExpressionMemAccess : keeps.
End parse_frame.
#[export] Hint Resolve fr_Error1 fr_ErrorInt fr_Warning fr_Warning1 fr_WarningById
    fr_WarningById1 fr_GetNumericValue fr_GetConstant fr_string_chars fr_string_parts
    fr_GetCharConst fr_OpenBracket fr_CloseBracket fr_check8 fr_check8o fr_check16
    fr_checkLowMemory fr_ValidateLabel fr_CLabelTable_Insert fr_SearchLabel_loop fr_SearchLabel
    fr_LabelExist fr_label_getter fr_GetTemporaryLabelValue fr_MemGetByte fr_level
    fr_unary_value fr_mul_value fr_shift_value fr_minmax_value fr_cmp_value fr_ParseExpPrim
    fr_ParseExpUnair fr_ParseExpLogOr fr_parse_entry fr_ParseExpression
    fr_ParseExpressionMemAccess : keeps.

Section frame.
Context (R : St → St → Prop) `{!AsmFrame R}.

(** *** Operands *)

Lemma fr_resolveRelocationAffected o t : keeps R (resolveRelocationAffected o t).
Proof. frame. Qed.
Lemma fr_checkAndWarn b : keeps R (checkAndWarn b). Proof. frame. Qed.
Hint Resolve fr_resolveRelocationAffected fr_checkAndWarn : keeps.
Lemma fr_resolveRelocationAndSmartSmc o t : keeps R (resolveRelocationAndSmartSmc o t).
Proof. frame. Qed.
Hint Resolve fr_resolveRelocationAndSmartSmc : keeps.

Lemma fr_lpf {A} (f : text → A * text) : keeps R (lpf f). Proof. frame. Qed.
Lemma fr_lpm {A} (f : text → M St (A * text)) : (∀ p, keeps R (f p)) → keeps R (lpm f).
Proof. frame. Qed.
Hint Resolve fr_lpf fr_lpm : keeps.
Lemma fr_GetByteNoMem b p : keeps R (GetByteNoMem b p). Proof. frame. Qed.
Lemma fr_GetWordNoMem p : keeps R (GetWordNoMem p). Proof. frame. Qed.
Lemma fr_GetIoPort p : keeps R (GetIoPort p). Proof. frame. Qed.
Lemma fr_z80GetIDxoffset p : keeps R (z80GetIDxoffset p). Proof. frame. Qed.
Lemma fr_GetAddress p : keeps R (GetAddress p). Proof. frame. Qed.
Hint Resolve fr_GetByteNoMem fr_GetWordNoMem fr_GetIoPort fr_z80GetIDxoffset fr_GetAddress : keeps.

Lemma fr_registers n :
  (∀ p, keeps R (GetRegister_fuel n p)) ∧ (∀ pp p c o, keeps R (GetRegister_mem n pp p c o)).
Proof. induction n as [|n [IH IHm]]; split; intros; simpl; frame. Qed.
Lemma fr_GetRegister p : keeps R (GetRegister p). Proof. apply fr_registers. Qed.
Hint Resolve fr_GetRegister : keeps.
Lemma fr_GetRegister_lp : keeps R GetRegister_lp. Proof. frame. Qed.
Hint Resolve fr_GetRegister_lp : keeps.
Lemma fr_bracketed_lp r : keeps R (bracketed_lp r). Proof. frame. Qed.
Lemma fr_NeedIoC : keeps R NeedIoC. Proof. frame. Qed.
Hint Resolve fr_bracketed_lp fr_NeedIoC : keeps.

(** *** Emission *)

Lemma fr_EmitByte b i : keeps R (EmitByte b i). Proof. frame. Qed.
Hint Resolve fr_EmitByte : keeps.
Lemma fr_EmitWord w i : keeps R (EmitWord w i). Proof. frame. Qed.
Lemma fr_emit_loop l i : keeps R (emit_loop l i).
Proof.
  revert i. induction l as [l IH] using (induction_ltof1 _ (@length Z)); intros i.
  destruct l as [|b l]; [apply keeps_undef|]. cbn [emit_loop].
  destruct (_ =? b); [keep_leaf|]. keep_step; [keep_leaf|].
  destruct l as [|m l]; [apply keeps_undef|].
  destruct (_ =? m); apply IH; unfold ltof; simpl; lia.
Qed.
Hint Resolve fr_EmitWord fr_emit_loop : keeps.
Lemma fr_EmitBytes l i : keeps R (EmitBytes l i). Proof. frame. Qed.
Hint Resolve fr_EmitBytes : keeps.
Lemma fr_args_loop sep body : keeps R sep → keeps R body → keeps R (args_loop sep body).
Proof. frame. Qed.
Hint Resolve fr_args_loop : keeps.
Lemma fr_each_arg body : keeps R body → keeps R (each_arg body). Proof. frame. Qed.
Hint Resolve fr_each_arg : keeps.

(** *** Handlers *)

Lemma fr_noFakes : keeps R noFakes. Proof. frame. Qed.
Hint Resolve fr_noFakes : keeps.
Lemma fr_CommonAluOpcode b e h c : keeps R (CommonAluOpcode b e h c). Proof. frame. Qed.
Lemma fr_OpCode_CbFamily b e c : keeps R (OpCode_CbFamily b e c). Proof. frame. Qed.
Lemma fr_put_address e : keeps R (put_address e). Proof. frame. Qed.
Hint Resolve fr_CommonAluOpcode fr_OpCode_CbFamily fr_put_address : keeps.
Lemma fr_LD_simple_r_r r : keeps R (LD_simple_r_r r). Proof. frame. Qed.
Hint Resolve fr_LD_simple_r_r : keeps.
Lemma fr_LD_other r : keeps R (LD_other r). Proof. frame. Qed.
Hint Resolve fr_LD_other : keeps.
Lemma fr_LDD_code : keeps R LDD_code. Proof. frame. Qed.
Lemma fr_LDI_code : keeps R LDI_code. Proof. frame. Qed.
Hint Resolve fr_LDD_code fr_LDI_code : keeps.
Lemma fr_pop_regs n : keeps R (pop_regs n).
Proof. induction n as [|n IH]; cbn [pop_regs]; frame. Qed.
Hint Resolve fr_pop_regs : keeps.

Lemma fr_handlers i8080 lr35902 next :
  Forall (keeps R ∘ snd) (ops_of i8080 lr35902 next).
Proof.
  unfold ops_of. repeat (apply Forall_app; split); repeat case_match; try (constructor; fail).
  all: repeat (apply Forall_app; split).
  all: repeat constructor; cbn [compose snd]; frame.
Qed.

Lemma fr_GetOpCode : keeps R GetOpCode.
Proof.
  unfold GetOpCode. do 3 (keep_step; [frame|]). keep_step; [frame|]. keep_step; [frame|].
  keep_step; [frame|].
  destruct (find_instruction _ _) as [f|] eqn:Hf; [|frame].
  pose proof (find_instruction_Forall (keeps R) _ _ _ fr_handlers Hf). frame.
Qed.
End frame.
