(* ===== verification/Counts.v ===== *)
(** * Error and warning bookkeeping

    Assembling an instruction only appends messages, and the counters grow by
    the number of errors and warnings appended. *)

From S2P Require Export Frame.

(** ** Relations the emission of a byte respects

    Closed under every update but those of the counters, the options and the
    pass: enough for [AsmFrame]. *)
Class OutFrame (R : St → St → Prop) : Prop := {
  of_preorder :: PreOrder R;
  of_par : ∀ f s, R s (on_par f s);
  of_rel : ∀ f s, R s (on_rel f s);
  of_tab : ∀ f s, R s (on_tab f s);
  of_smc : ∀ v s, R s (set_smartSmcLines v s);
  of_org : ∀ f s, R s (on_org f s);
  of_dev : ∀ f s, R s (on_dev f s);
  of_out : ∀ f s, R s (on_out f s);
  of_saved : ∀ v s, R s (set_saved_files v s);
  of_Error : ∀ m b t, keeps R (Error m b t);
  of_WarningImpl : ∀ i m b t, keeps R (WarningImpl i m b t)
}.

Section out_frame.
Context (R : St → St → Prop) `{!OutFrame R}.

Lemma of_upd_device f s : R s (upd_device f s).
Proof. unfold upd_device. destruct (Device _); [apply of_dev | reflexivity]. Qed.
Lemma of_close_tap s : R s (close_tap s).
Proof. unfold close_tap. destruct (FP_tapout _); [|reflexivity]. cbv zeta.
  unfold put_file. etransitivity; [|apply of_saved].
  repeat (etransitivity; [|apply of_out]). reflexivity. Qed.
Lemma of_step_over n s : R s (step_over n s).
Proof. unfold step_over. etransitivity; [|apply of_out]. apply of_out. Qed.
Lemma of_close_while n f s : R s (close_while n f s).
Proof.
  revert s. induction n as [|n IH]; intros s; simpl; [reflexivity|].
  destruct (sizeofStack (tab s)) as [|[k lvl] r]; [reflexivity|].
  destruct (f lvl); [|reflexivity]. etransitivity; [|apply IH].
  unfold close_top, put_symbol. repeat case_match; first [reflexivity | apply of_tab
    | etransitivity; [apply of_tab|apply of_tab]].
Qed.

Ltac out_update :=
  repeat first
    [ reflexivity
    | apply of_par | apply of_rel | apply of_tab | apply of_smc | apply of_org | apply of_dev
    | apply of_out | apply of_upd_device | apply of_close_tap | apply of_close_while
    | apply of_step_over
    | match goal with
      | |- ?R ?s (match ?x with _ => _ end) => destruct x
      | |- ?R ?s (?f ?v ?t) => tryif constr_eq s t then fail else transitivity t
      end ].
Ltac out_frame :=
  intros;
  repeat first
    [ keep_leaf
    | solve [apply of_Error | apply of_WarningImpl]
    | keep_step
    | match goal with |- keeps _ (modify _) => apply keeps_modify; intros ?; cbv beta; solve [out_update] end
    | unfold_call ].

Lemma of_PrintHex v n : keeps R (PrintHex v n). Proof. out_frame. Qed.
Hint Resolve of_PrintHex : keeps.
Lemma of_hex_data l c : keeps R (hex_data l c).
Proof. revert c. induction l as [|v l IH]; intros; cbn [hex_data]; out_frame. Qed.
Hint Resolve of_hex_data : keeps.
Lemma of_EmitToHex b : keeps R (EmitToHex b). Proof. out_frame. Qed.
Lemma of_WriteTape l : keeps R (WriteTape l). Proof. out_frame. Qed.
Hint Resolve of_WriteTape : keeps.
Lemma of_WriteDest : keeps R WriteDest. Proof. out_frame. Qed.
Lemma of_SizeBoundary b : keeps R (SizeBoundary b). Proof. out_frame. Qed.
Hint Resolve of_EmitToHex of_WriteDest of_SizeBoundary : keeps.
Lemma of_CheckPage l : keeps R (CheckPage l). Proof. out_frame. Qed.
Lemma of_CheckRamLimitExceeded : keeps R CheckRamLimitExceeded. Proof. out_frame. Qed.
Hint Resolve of_CheckPage of_CheckRamLimitExceeded : keeps.
Lemma of_EmitByteNoListing b p : keeps R (EmitByteNoListing b p). Proof. out_frame. Qed.

(** Not an instance: the two classes would be searched in a loop. *)
Lemma asm_of_out_frame : AsmFrame R.
Proof.
  constructor; [constructor|..]; intros; try first [apply of_Error | apply of_WarningImpl | apply of_EmitByteNoListing];
    first [apply _ | apply of_par | apply of_rel | apply of_tab | apply of_smc | apply of_out].
Qed.
End out_frame.

(** ** The counters *)

Definition n_errors (l : list diag) : Z := Z.of_nat (length (filter (fun d => d_error d = true) l)).
Definition n_warnings (l : list diag) : Z := Z.of_nat (length (filter (fun d => d_error d = false) l)).

Lemma n_errors_app l k : n_errors (l ++ k) = n_errors l + n_errors k.
Proof. unfold n_errors. rewrite filter_app, length_app. lia. Qed.
Lemma n_warnings_app l k : n_warnings (l ++ k) = n_warnings l + n_warnings k.
Proof. unfold n_warnings. rewrite filter_app, length_app. lia. Qed.

Lemma n_errors_one d : n_errors [d] = Z.b2z (d_error d).
Proof. unfold n_errors. destruct d as [[] ? ? ?]; reflexivity. Qed.
Lemma n_warnings_one d : n_warnings [d] = Z.b2z (negb (d_error d)).
Proof. unfold n_warnings. destruct d as [[] ? ? ?]; reflexivity. Qed.

(** [l] is what was reported between two states. *)
Definition reported (s s' : St) (l : list diag) : Prop :=
  messages (err s') = messages (err s) ++ l
  ∧ ErrorCount (err s') = ErrorCount (err s) + n_errors l
  ∧ WarningCount (err s') = WarningCount (err s) + n_warnings l.
Definition counted (s s' : St) : Prop :=
  opt s' = opt s ∧ pass (src s') = pass (src s) ∧ ∃ l, reported s s' l.

Lemma counted_same s s' :
  opt s' = opt s → pass (src s') = pass (src s) → err s' = err s → counted s s'.
Proof.
  intros Ho Hp He. split; [done|]. split; [done|]. exists []. unfold reported. rewrite He, app_nil_r.
  change (n_errors []) with 0. change (n_warnings []) with 0. split; [done|lia].
Qed.

#[export] Instance counted_preorder : PreOrder counted.
Proof.
  split.
  - intros s. by apply counted_same.
  - intros s1 s2 s3 (Ho & Hp & l & H1 & H2 & H3) (Ho' & Hp' & k & H1' & H2' & H3').
    split; [congruence|]. split; [congruence|]. exists (l ++ k). unfold reported.
    rewrite n_errors_app, n_warnings_app, H1', H1, <- app_assoc. split; [done|lia].
Qed.

Lemma counted_Error m b t : keeps counted (Error m b t).
Proof.
  intros s. unfold Error. destruct (Error_wrong_pass _ _); [by apply counted_same|].
  destruct (Error_skipped _ _); [by apply counted_same|]. cbv zeta.
  destruct (is_type t FATAL); (split; [done|]; split; [done|]; eexists [_]; split; [reflexivity|];
    rewrite n_errors_one, n_warnings_one; cbn; lia).
Qed.

Lemma counted_WarningImpl i m b t : keeps counted (WarningImpl i m b t).
Proof.
  apply keeps_read. intros s. destruct (WarningsAsErrors _); [apply counted_Error|]. run. split; [done|]. split; [done|]. eexists [_]. split; [reflexivity|].
  rewrite n_errors_one, n_warnings_one. cbn. lia.
Qed.

#[export] Instance counted_frame : OutFrame counted.
Proof.
  constructor; intros; try apply _; try (by apply counted_same);
    [apply counted_Error | apply counted_WarningImpl].
Qed.

(** C12: The assembly of one instruction, whatever it is and however it ends, reports
    a list of messages: the message log grows by it, [ErrorCount] by its errors
    and [WarningCount] by its warnings; options and pass stay. *)
Theorem GetOpCode_counted : keeps counted GetOpCode.
Proof. apply fr_GetOpCode, asm_of_out_frame. apply _. Qed.
