(* ===== verification/Stream.v ===== *)
(** * The byte stream and the program counter

    The abstract specification of the emission: the output is one stream of
    bytes, whatever the buffering, and the current address is where its next byte
    goes.  [EmitByteNoListing] refines it, hence every instruction does. *)

From S2P Require Export Counts.

(** What a file opened for writing holds once the buffer is flushed. *)
Definition stream (f : OutState → option (list Z)) (s : St) : option (list Z) :=
  (fun c => c ++ WriteBuffer (out s)) <$> f (out s).

(** ** Steps that emit nothing *)

Definition quiet (s s' : St) : Prop :=
  opt s' = opt s ∧ pass (src s') = pass (src s)
  ∧ PseudoORG (org s') = PseudoORG (org s) ∧ Device (dev s') = Device (dev s)
  ∧ stream FP_Output s' = stream FP_Output s ∧ stream FP_RAW s' = stream FP_RAW s.

#[export] Instance quiet_preorder : PreOrder quiet.
Proof.
  split; [by intros s|].
  intros s1 s2 s3 H H'. unfold quiet in *.
  destruct H as (?&?&?&?&?&?), H' as (?&?&?&?&?&?). split_and!; congruence.
Qed.

(** The steps below also leave [org] alone. *)
Definition still (s s' : St) : Prop := quiet s s' ∧ org s' = org s.

#[export] Instance still_preorder : PreOrder still.
Proof.
  split; [by intros s|]. intros s1 s2 s3 [H E] [H' E']. split; [by etransitivity|congruence].
Qed.

Lemma quiet_Error_still m b t : keeps still (Error m b t).
Proof.
  intros s. unfold Error. destruct (Error_wrong_pass _ _); [reflexivity|].
  destruct (Error_skipped _ _); [reflexivity|]. cbv zeta. by destruct (is_type t FATAL).
Qed.
Lemma still_WarningImpl i m b t : keeps still (WarningImpl i m b t).
Proof.
  apply keeps_read. intros s. destruct (WarningsAsErrors _); [apply quiet_Error_still|by run].
Qed.

Ltac quiet_update :=
  repeat match goal with |- ?R ?s (match ?x with _ => _ end) => destruct x end;
  repeat split; try reflexivity.
Ltac quiet_frame :=
  intros;
  repeat first
    [ keep_leaf
    | solve [apply quiet_Error_still | apply still_WarningImpl
             | eapply keeps_weaken; [|first [apply quiet_Error_still | apply still_WarningImpl]]; by intros ? ? []]
    | keep_step
    | match goal with |- keeps _ (modify _) => apply keeps_modify; intros ?; cbv beta; solve [quiet_update] end
    | unfold_call ].

(** ** Flushing and the HEX file *)

(** What the tape writer leaves alone: everything but itself and the buffer. *)
Definition files_kept (s s' : St) : Prop :=
  opt s' = opt s ∧ pass (src s') = pass (src s) ∧ org s' = org s
  ∧ Device (dev s') = Device (dev s)
  ∧ FP_Output (out s') = FP_Output (out s) ∧ FP_RAW (out s') = FP_RAW (out s).

#[export] Instance files_kept_preorder : PreOrder files_kept.
Proof.
  split; [by intros s|]. intros s1 s2 s3 H H'. unfold files_kept in *.
  destruct H as (?&?&?&?&?&?), H' as (?&?&?&?&?&?). split_and!; congruence.
Qed.

Lemma files_kept_Error1 m : keeps files_kept (Error1 m).
Proof.
  intros s. unfold Error1, Error. destruct (Error_wrong_pass _ _); [reflexivity|].
  destruct (Error_skipped _ _); [reflexivity|]. by cbv zeta.
Qed.

Lemma files_kept_close_tap s : files_kept s (close_tap s).
Proof. unfold close_tap. destruct (FP_tapout _); [by repeat split|reflexivity]. Qed.

Lemma files_kept_WriteTape buf : keeps files_kept (WriteTape buf).
Proof.
  apply keeps_read. intros s. destruct (FP_tapout _); [|by run]. cbv zeta.
  destruct (_ <? Z.of_nat (length buf)); [|by run]. run.
  match goal with |- context [Error1 ?m ?t] => pose proof (files_kept_Error1 m t) as HE end.
  match goal with |- context [close_tap ?t] => pose proof (files_kept_close_tap t) as HC end.
  destruct (Error1 _ _); try exact I; (etransitivity; [etransitivity; [|exact HC]|exact HE]); by repeat split.
Qed.

(** Only a FATAL error leaves the assembler. *)
Lemma Error_returns m b t s : t ≠ FATAL → ∃ s', Error m b t s = Ret tt s'.
Proof.
  intros Ht. unfold Error. destruct (Error_wrong_pass _ _); [eauto|].
  destruct (Error_skipped _ _); [eauto|]. cbv zeta. unfold is_type.
  rewrite bool_decide_eq_false_2 by done. eauto.
Qed.

Lemma WriteTape_returns buf s : ∃ s', WriteTape buf s = Ret tt s'.
Proof.
  unfold WriteTape. run. destruct (FP_tapout _); [|eauto].
  destruct (_ <? Z.of_nat (length buf)); [|by eauto].
  apply Error_returns. discriminate.
Qed.

Lemma stream_flushed (f : option (list Z)) b :
  (fun c => c ++ []) <$> append_to f b = (fun c => c ++ b) <$> f.
Proof. destruct f; simpl; [by rewrite app_nil_r|done]. Qed.

(** Flushing moves bytes from the buffer to the files: the streams stay. *)
Lemma still_WriteDest : keeps still WriteDest.
Proof.
  apply keeps_read. intros s. unfold st. cbv beta zeta. destruct (WBLength s =? 0); [run; reflexivity|]. run.
  match goal with |- context [WriteTape ?b ?t] =>
    pose proof (files_kept_WriteTape b t) as HF; destruct (WriteTape_returns b t) as [s' Hs'] end.
  rewrite Hs' in *. destruct HF as (Ho & Hp & Hg & Hd & H1 & H2). cbn in *.
  split; [|done]. split_and!; try done; [cbn; by rewrite Hg| |];
    unfold stream; cbn; rewrite ?H1, ?H2; apply stream_flushed.
Qed.

Lemma still_PrintHex v n : keeps still (PrintHex v n). Proof. quiet_frame. Qed.
#[local] Hint Resolve still_WriteDest still_PrintHex : keeps.
Lemma still_hex_data l c : keeps still (hex_data l c).
Proof. revert c. induction l as [|v l IH]; intros; cbn [hex_data]; quiet_frame. Qed.
#[local] Hint Resolve still_hex_data : keeps.
Lemma still_EmitToHex b : keeps still (EmitToHex b). Proof. quiet_frame. Qed.

(** ** The page check and the RAM limit *)

Lemma quiet_upd_device f s : quiet s (upd_device f s).
Proof. unfold upd_device. destruct (Device _) eqn:E; [|reflexivity]. by split_and!. Qed.
Lemma quiet_close_while n f s : quiet s (close_while n f s).
Proof.
  revert s. induction n as [|n IH]; intros s; simpl; [reflexivity|].
  destruct (sizeofStack (tab s)) as [|[k lvl] r]; [reflexivity|].
  destruct (f lvl); [|reflexivity]. etransitivity; [|apply IH].
  unfold close_top. repeat case_match; by split_and!.
Qed.

Lemma quiet_message m b t : keeps quiet (Error m b t).
Proof. eapply keeps_weaken; [|apply quiet_Error_still]. by intros ? ? []. Qed.
Lemma quiet_warning i m b t : keeps quiet (WarningImpl i m b t).
Proof. eapply keeps_weaken; [|apply still_WarningImpl]. by intros ? ? []. Qed.
#[local] Hint Resolve quiet_message quiet_warning : keeps.
Ltac quiet_update ::=
  repeat match goal with |- ?R ?s (match ?x with _ => _ end) => destruct x end;
  first [ apply quiet_upd_device | apply quiet_close_while | by repeat split ].

Lemma quiet_SizeBoundary b : keeps quiet (SizeBoundary b). Proof. quiet_frame. Qed.
#[local] Hint Resolve quiet_SizeBoundary : keeps.
Lemma quiet_CheckPage l : keeps quiet (CheckPage l). Proof. quiet_frame. Qed.

(** Without DISP the RAM check does not move the address. *)
Definition undisplaced (s s' : St) : Prop :=
  quiet s s' ∧ (PseudoORG (org s) = DISP_NONE → CurAddress (org s') = CurAddress (org s)).

#[export] Instance undisplaced_preorder : PreOrder undisplaced.
Proof.
  split; [by intros s|]. intros s1 s2 s3 [H E] [H' E']. split; [by etransitivity|].
  intros HP. rewrite E', E; [done|done|]. destruct H as (_&_&HP'&_). congruence.
Qed.

Lemma undisplaced_quiet_org s s' :
  quiet s s' → org s' = org s → undisplaced s s'.
Proof. intros H E. split; [done|]. by rewrite E. Qed.
Lemma undisplaced_Warning1 m : keeps undisplaced (Warning1 m).
Proof.
  apply (keeps_weaken still); [|quiet_frame].
  intros s s' [H E]. by apply undisplaced_quiet_org.
Qed.
#[local] Hint Resolve undisplaced_Warning1 : keeps.

Lemma undisplaced_CheckRamLimitExceeded : keeps undisplaced CheckRamLimitExceeded.
Proof.
  apply keeps_read. intros s. unfold st. cbv beta zeta.
  destruct (IsLongPtr (opt s)); [run; reflexivity|].
  destruct (PseudoORG (org s) =? DISP_NONE) eqn:E.
  - apply Z.eqb_eq in E. cbn [negb andb mwhen].
    match goal with |- match ?m s with _ => _ end =>
      enough (H : keeps undisplaced m) by exact (H s) end.
    keep; apply keeps_modify; intros t; by repeat split.
  - apply Z.eqb_neq in E. cbn [negb andb mwhen].
    match goal with |- match ?m s with _ => _ end =>
      enough (H : keeps quiet m) by (specialize (H s); destruct (m s); auto; by split) end.
    keep; first [ by apply keeps_modify; intros t; repeat split
                | eapply keeps_weaken; [|apply undisplaced_Warning1]; by intros ? ? [] ].
Qed.

(** ** What emitting does *)

(** From [s] to [s'] the bytes [l] were emitted: in the last pass they are at the
    end of every open stream, and without DISP and without a device the current
    address moved by their number. *)
Definition emitted (l : list Z) (s s' : St) : Prop :=
  opt s' = opt s ∧ pass (src s') = pass (src s)
  ∧ PseudoORG (org s') = PseudoORG (org s) ∧ Device (dev s') = Device (dev s)
  ∧ (pass (src s) = LASTPASS →
       stream FP_Output s' = (fun c => c ++ l) <$> stream FP_Output s
       ∧ stream FP_RAW s' = (fun c => c ++ l) <$> stream FP_RAW s)
  ∧ (PseudoORG (org s) = DISP_NONE → Device (dev s) = None →
       CurAddress (org s') mod 2 ^ 32 = (CurAddress (org s) + Z.of_nat (length l)) mod 2 ^ 32).

Definition advances (s s' : St) : Prop := ∃ l, Forall is_byte l ∧ emitted l s s'.

Lemma emitted_app l k s1 s2 s3 :
  emitted l s1 s2 → emitted k s2 s3 → emitted (l ++ k) s1 s3.
Proof.
  intros (Ho & Hp & HP & Hd & Hs & Ha) (Ho' & Hp' & HP' & Hd' & Hs' & Ha').
  split_and!; try congruence.
  - intros HL. destruct (Hs HL) as [H1 H2], Hs' as [H1' H2']; [congruence|].
    rewrite H1', H1, H2', H2, <- !option_fmap_compose.
    split; apply option_fmap_ext; intros c; simpl; by rewrite app_assoc.
  - intros HP1 Hd1. rewrite Ha' by congruence. rewrite length_app, Nat2Z.inj_add, Z.add_assoc.
    rewrite <- Z.add_mod_idemp_l, (Ha HP1 Hd1), Z.add_mod_idemp_l by lia. done.
Qed.

Lemma emitted_nil s s' :
  quiet s s' → (PseudoORG (org s) = DISP_NONE → Device (dev s) = None →
                CurAddress (org s') = CurAddress (org s)) → emitted [] s s'.
Proof.
  intros (Ho & Hp & HP & Hd & H1 & H2) Ha. split_and!; try done.
  - intros _. rewrite H1, H2. split; rewrite <- option_fmap_id at 1; apply option_fmap_ext;
      intros c; by rewrite app_nil_r.
  - intros. rewrite Ha by done. simpl. f_equal. lia.
Qed.

Lemma emitted_still s s' : still s s' → emitted [] s s'.
Proof. intros [H E]. apply emitted_nil; [done|]. intros. by rewrite E. Qed.

#[export] Instance advances_preorder : PreOrder advances.
Proof.
  split.
  - intros s. exists []. split; [constructor|]. by apply emitted_still.
  - intros s1 s2 s3 (l & Hl & H) (k & Hk & H'). exists (l ++ k).
    split; [by apply Forall_app|]. by eapply emitted_app.
Qed.

Lemma advances_still s s' : still s s' → advances s s'.
Proof. intros H. exists []. split; [constructor|]. by apply emitted_still. Qed.

(** ** [EmitByteNoListing] *)

Lemma stays_Error m b t : t ≠ FATAL → stays (Error m b t).
Proof. intros Ht s s' H. destruct (Error_returns m b t s Ht) as [s1 H1]. congruence. Qed.
Lemma stays_Warning1 m : stays (Warning1 m).
Proof.
  unfold Warning1, Warning, WarningImpl. stay. by apply stays_Error.
Qed.
Lemma stays_PrintHex v n : 1 ≤ n ≤ 8 → stays (PrintHex v n).
Proof.
  intros Hn. unfold PrintHex. rewrite (proj2 (Z.ltb_ge n 1)), (proj2 (Z.ltb_ge 8 n)) by lia.
  cbv beta iota delta [orb]. stay.
Qed.
#[local] Hint Extern 1 (stays (PrintHex _ _)) => apply stays_PrintHex; lia : stays.
#[local] Hint Resolve stays_Warning1 : stays.
Lemma stays_hex_data l c : stays (hex_data l c).
Proof. revert c. induction l as [|v l IH]; intros; cbn [hex_data]; stay. Qed.
#[local] Hint Resolve stays_hex_data : stays.
Lemma stays_WriteHexRecord t a l : stays (WriteHexRecord t a l).
Proof. unfold WriteHexRecord. stay. Qed.
#[local] Hint Resolve stays_WriteHexRecord : stays.
Lemma stays_EmitToHex b : stays (EmitToHex b).
Proof. unfold EmitToHex, FlushHexBuffer. stay. Qed.
Lemma stays_WriteDest : stays WriteDest.
Proof.
  unfold WriteDest. stay. intros s s' H.
  match type of H with ?m s = _ => destruct (WriteTape_returns (WriteBuffer (out a)) s) as [t Ht] end.
  congruence.
Qed.
Lemma stays_CheckRamLimitExceeded : stays CheckRamLimitExceeded.
Proof. unfold CheckRamLimitExceeded. stay. Qed.

(** Composition of steps that respect different relations. *)
Lemma keeps_comp {A B} (R1 R2 R : St → St → Prop) (m : M St A) (f : A → M St B) :
  stays m → keeps R1 m → (∀ a, keeps R2 (f a)) →
  (∀ s1 s2 s3, R1 s1 s2 → R2 s2 s3 → R s1 s3) → keeps R (m ≫= f).
Proof.
  intros Hx Hm Hf HR s. specialize (Hm s). unfold mbind, M_bind.
  destruct (m s) as [a s'|s'| |] eqn:E; auto; [|by apply Hx in E].
  specialize (Hf a s'). destruct (f a s'); eauto.
Qed.

(** A byte in the buffer and not yet counted by the address. *)
Definition pushed (l : list Z) (s s' : St) : Prop :=
  opt s' = opt s ∧ pass (src s') = pass (src s) ∧ org s' = org s
  ∧ Device (dev s') = Device (dev s)
  ∧ (pass (src s) = LASTPASS →
       stream FP_Output s' = (fun c => c ++ l) <$> stream FP_Output s
       ∧ stream FP_RAW s' = (fun c => c ++ l) <$> stream FP_RAW s).

Lemma still_pushed l s1 s2 s3 : still s1 s2 → pushed l s2 s3 → pushed l s1 s3.
Proof.
  intros [(Ho & Hp & _ & Hd & H1 & H2) E] (Ho' & Hp' & E' & Hd' & Hs).
  split_and!; try congruence. intros HL. rewrite <- H1, <- H2. apply Hs. congruence.
Qed.
Lemma pushed_still l s1 s2 s3 : pushed l s1 s2 → still s2 s3 → pushed l s1 s3.
Proof.
  intros (Ho & Hp & E & Hd & Hs) [(Ho' & Hp' & _ & Hd' & H1 & H2) E'].
  split_and!; try congruence. intros HL. rewrite H1, H2. by apply Hs.
Qed.

#[local] Hint Resolve still_EmitToHex stays_EmitToHex stays_WriteDest : keeps stays.

Lemma pushed_push_byte byte : keeps (pushed [u8 byte]) (push_byte byte).
Proof.
  apply keeps_read. intros s. unfold st. cbv zeta. destruct (Z.eqb_spec LASTPASS (pass (src s))).
  - set (s1 := set_WriteBuffer (WriteBuffer (out s) ++ [u8 byte]) s).
    assert (H1 : pushed [u8 byte] s s1).
    { split_and!; try done. intros _. split; unfold stream; cbn; rewrite <- option_fmap_compose;
        apply option_fmap_ext; intros c; simpl; by rewrite app_assoc. }
    match goal with |- match mwhen true (_ ;; ?m) s with _ => _ end =>
      assert (H2 : keeps still m) by keep; specialize (H2 s1);
      change (match m s1 with Ret _ s' | Exit s' => pushed [u8 byte] s s' | _ => True end);
      destruct (m s1); auto; by eapply pushed_still end.
  - cbn. split_and!; try done; by intros ->.
Qed.

Lemma stays_push_byte byte : stays (push_byte byte).
Proof. unfold push_byte. stay. Qed.

Lemma keeps_at {A} (R : St → St → Prop) (m : M St A) s :
  keeps R m → match m s with Ret _ s' | Exit s' => R s s' | _ => True end.
Proof. intros H. apply H. Qed.

(** One more byte counted, when the address is not displaced nor paged. *)
Definition placed (s s' : St) : Prop :=
  quiet s s'
  ∧ (PseudoORG (org s) = DISP_NONE → Device (dev s) = None →
     CurAddress (org s') mod 2 ^ 32 = (CurAddress (org s) + 1) mod 2 ^ 32).

Lemma quiet_write_memory o b s : quiet s (write_memory o b s).
Proof. apply quiet_upd_device. Qed.
#[local] Hint Resolve quiet_CheckPage : keeps.

Lemma placed_place_byte byte p : keeps placed (place_byte byte p ;; step_address).
Proof.
  intros s. destruct (Device (dev s)) as [i|] eqn:E.
  - match goal with |- match ?m s with _ => _ end => enough (H : keeps quiet m) end.
    { match goal with |- match ?m s with _ => _ end => specialize (H s); destruct (m s) end; auto;
        (split; [done|intros _ ?; congruence]). }
    unfold place_byte, step_address. repeat first
      [ keep_leaf | keep_step
      | apply keeps_modify; intros t; first [apply quiet_write_memory | by repeat case_match; repeat split]
      | eapply keeps_weaken; [|apply undisplaced_CheckRamLimitExceeded]; by intros ? ? [] ].
  - change ((place_byte byte p ;; step_address) s) with
      (match place_byte byte p s with
       | Ret _ s' => step_address s' | Exit s' => Exit s' | Undef => Undef | NoFuel => NoFuel end).
    assert (Hp : place_byte byte p s = CheckRamLimitExceeded s)
      by (unfold place_byte; run; unfold st; by rewrite E).
    rewrite Hp. pose proof (keeps_at _ _ s undisplaced_CheckRamLimitExceeded) as H.
    pose proof (stays_CheckRamLimitExceeded s) as HX.
    destruct (CheckRamLimitExceeded s) as [? t|t| |]; auto; [|by specialize (HX t)].
    destruct H as [Hq Ha]. unfold step_address. run. unfold placed.
    split; [etransitivity; [exact Hq|]; case_match; by repeat split|].
    intros HP _. specialize (Ha HP). destruct Hq as (_ & _ & HP' & _).
    case_match; cbn; rewrite wrap32_mod; by rewrite Ha.
Qed.

Lemma emitted_EmitByteNoListing byte p : keeps (emitted [u8 byte]) (EmitByteNoListing byte p).
Proof.
  unfold EmitByteNoListing.
  apply (keeps_comp still (emitted [u8 byte])); [apply stays_modify|apply keeps_modify; by repeat split|intros _|].
  2: { intros s1 s2 s3 H H'. apply (emitted_app [] _ s1 s2); [by apply emitted_still|done]. }
  apply (keeps_comp (pushed [u8 byte]) placed);
    [apply stays_push_byte|apply pushed_push_byte|intros _; apply placed_place_byte|].
  intros s1 s2 s3 (Ho & Hp & E & Hd & Hs) [(Ho' & Hp' & HP' & Hd' & H1 & H2) Ha].
  split_and!; try congruence.
  - intros HL. rewrite H1, H2. by apply Hs.
  - intros HP HD. rewrite Ha, E by congruence. done.
Qed.

Lemma advances_EmitByteNoListing byte p : keeps advances (EmitByteNoListing byte p).
Proof.
  apply (keeps_weaken (emitted [u8 byte])); [|apply emitted_EmitByteNoListing].
  intros s s' H. exists [u8 byte]. split; [|done]. by repeat constructor; apply Z.mod_pos_bound.
Qed.

#[export] Instance advances_frame : AsmFrame advances.
Proof.
  constructor; [constructor|..]; intros; try apply _; try apply advances_EmitByteNoListing;
    try (apply advances_still; by repeat split).
  - apply (keeps_weaken still); [apply advances_still | apply quiet_Error_still].
  - apply (keeps_weaken still); [apply advances_still | apply still_WarningImpl].
Qed.

(** C11: Every instruction emits a list of bytes, each in 0..255: in the last pass the
    output and the raw file grow by exactly them, and without DISP and without a
    device the program counter advances by exactly their number. *)
Theorem GetOpCode_advances : keeps advances GetOpCode.
Proof. apply fr_GetOpCode. apply _. Qed.
