(* ===== verification/Progress.v ===== *)
(** * Termination

    The loops and recursive routines of the line parser are bounded by the length
    of the text, and that bound is enough: no routine gives the text back that it
    has consumed, and every round consumes some.  [runs n m Q]: from a state whose
    line pointer has at most [n] characters ahead, [m] does not run out of fuel,
    leaves at most [n] characters ahead and its result satisfies [Q]. *)

From S2P Require Export Stream.

(** ** The length of the text ahead *)

Lemma room_adv p : room (adv p) = (room p - 1)%nat.
Proof. unfold adv, room. destruct (aft p) eqn:E; simpl; rewrite ?E; simpl; lia. Qed.
Lemma room_advn n p : room (advn n p) = (room p - n)%nat.
Proof. revert p. induction n as [|n IH]; intros p; simpl; [lia|]. rewrite IH, room_adv. lia. Qed.
Lemma room_skip_white b r : (room (skip_white b r) ≤ length r)%nat.
Proof.
  revert b. induction r as [|c r IH]; intros b; simpl; [done|].
  destruct (White c); [specialize (IH (c :: b)); lia | done].
Qed.
Lemma room_blanks p : (room (blanks p) ≤ room p)%nat.
Proof. apply room_skip_white. Qed.
Lemma room_skip_until f b r : (room (skip_until f b r) ≤ length r)%nat.
Proof.
  revert b. induction r as [|c r IH]; intros b; simpl; [done|].
  destruct (_ || _); [done|]. specialize (IH (c :: b)). lia.
Qed.
Lemma room_SkipToEol p : (room (SkipToEol p) ≤ room p)%nat.
Proof. apply room_skip_until. Qed.
Lemma room_literal_end b r : (room (literal_end b r) ≤ length r)%nat.
Proof.
  revert b. induction r as [|c r IH]; intros b; simpl; [done|].
  case_match; [specialize (IH (c :: b)); lia | done].
Qed.
Lemma room_GetConstant_end p : (room (GetConstant_end p) ≤ room p)%nat.
Proof.
  unfold GetConstant_end. etransitivity; [apply room_literal_end|].
  change (length (aft ?x)) with (room x). case_match; [rewrite room_adv|]; lia.
Qed.
Lemma room_span f b r l p : span f b r = (l, p) → (room p ≤ length r)%nat.
Proof.
  revert b l. induction r as [|c r IH]; intros b l; simpl; [by intros [= <- <-]|].
  destruct (f c); [|by intros [= <- <-]].
  destruct (span f (c :: b) r) as [l' q] eqn:E. intros [= <- <-]. apply IH in E. lia.
Qed.
Lemma room_take_while f p l q : take_while f p = (l, q) → (room q ≤ room p)%nat.
Proof. apply room_span. Qed.
Lemma room_SkipBlanks p b q : SkipBlanks p = (b, q) → (room q ≤ room p)%nat.
Proof. intros H. assert (q = blanks p) as -> by (unfold blanks; by rewrite H). apply room_blanks. Qed.

(** A character there means that there is text. *)
Lemma cur_room p : cur p ≠ NUL → (1 ≤ room p)%nat.
Proof. unfold cur, room. destruct (aft p); simpl; [done|lia]. Qed.
Lemma isc_room p c : isc p c = true → c ≠ NUL → (1 ≤ room p)%nat.
Proof. unfold isc. intros H Hc. apply Ascii.eqb_eq in H. apply cur_room. congruence. Qed.
Lemma isdigit_room p : isdigit (cur p) = true → (1 ≤ room p)%nat.
Proof. intros H. apply cur_room. intros E. by rewrite E in H. Qed.

Lemma room_need_c p c b q :
  need_c p c = (b, q) → (room q ≤ room p)%nat ∧ (b = true → c ≠ NUL → (room q < room p)%nat).
Proof.
  unfold need_c. pose proof (room_blanks p). destruct (isc (blanks p) c) eqn:E; intros [= <- <-].
  - rewrite room_adv. split; [lia|]. intros _ Hc. apply isc_room in E; [lia|done].
  - done.
Qed.
Lemma room_comma p b q : comma p = (b, q) → (room q ≤ room p)%nat ∧ (b = true → (room q < room p)%nat).
Proof.
  unfold comma. pose proof (room_blanks p). destruct (isc (blanks p) ",") eqn:E; simpl.
  - apply isc_room in E; [|done]. destruct (isn _ _ _); intros [= <- <-]; [done|]. rewrite room_adv. lia.
  - intros [= <- <-]. done.
Qed.
Lemma room_doubleComma p b q :
  doubleComma p = (b, q) → (room q ≤ room p)%nat ∧ (b = true → (room q < room p)%nat).
Proof.
  unfold doubleComma. pose proof (room_blanks p). destruct (isc (blanks p) ",") eqn:E; simpl.
  - apply isc_room in E; [|done]. destruct (isn _ _ _); intros [= <- <-]; [|done].
    rewrite room_adv, room_adv. lia.
  - intros [= <- <-]. done.
Qed.
Lemma room_call_MultiArg o p b q :
  call_MultiArg o p = (b, q) → (room q ≤ room p)%nat ∧ (b = true → (room q < room p)%nat).
Proof. unfold call_MultiArg. destruct (MultiArg o); [apply room_comma|apply room_doubleComma]. Qed.
Lemma room_relaxedMaComma o p b q :
  relaxedMaComma o p = (b, q) → (room q ≤ room p)%nat ∧ (b = true → (room q < room p)%nat).
Proof.
  unfold relaxedMaComma. pose proof (room_blanks p). destruct (isc (blanks p) ",") eqn:E; simpl.
  - apply isc_room in E; [|done]. repeat case_match; intros [= <- <-]; rewrite ?room_adv; try done; try lia.
  - intros [= <- <-]. done.
Qed.
Lemma room_nonMaComma o p b q : nonMaComma o p = (b, q) → (room q ≤ room p)%nat.
Proof.
  unfold nonMaComma. destruct (isMultiArgPlainComma o); [intros [= <- <-]; lia|].
  intros H'. by apply room_comma in H' as [? _].
Qed.

Lemma room_need_table c p z q :
  Forall (fun a => a ≠ NUL) c →
  need_table p c = (z, q) → (room q ≤ room p)%nat ∧ (z ≠ 0 → (room q < room p)%nat).
Proof.
  induction c as [c IH] using (induction_ltof1 _ (@length ascii)). intros Hc.
  destruct c as [|a [|b c]]; cbn [need_table]; try (by intros [= <- <-]).
  apply Forall_cons in Hc as [Ha Hc]. apply Forall_cons in Hc as [Hb Hc].
  destruct (isc p a) eqn:E; cbn [negb].
  - apply isc_room in E; [|done].
    repeat case_match; try (intros [= <- <-]; rewrite ?room_adv, ?room_advn; split; [lia|intros _; lia]).
    apply IH; [unfold ltof; simpl; lia|done].
  - apply IH; [unfold ltof; simpl; lia|done].
Qed.
Lemma room_need p c z q :
  forallb (fun a => negb (Ascii.eqb a NUL)) (str c) = true →
  need p c = (z, q) → (room q ≤ room p)%nat ∧ (z ≠ 0 → (room q < room p)%nat).
Proof.
  intros Hc H. apply room_need_table in H.
  - pose proof (room_blanks p). split; [lia|]. intros Hz. apply H in Hz. lia.
  - apply Forall_forall. intros a Ha. rewrite forallb_forall in Hc.
    specialize (Hc a). intros ->. by specialize (Hc (proj1 (list_elem_of_In _ _) Ha)).
Qed.

Lemma cmp_head_nonempty p2 p1 l2 l1 :
  cmp_head p2 p1 = Some (l2, l1) → p2 ≠ [] → p1 = [] → l2 ≠ [] ∧ l1 = [].
Proof.
  intros H Hne ->. destruct p2 as [|c p2]; [done|]. simpl in H.
  destruct (isalpha c); [|done]. injection H as <- <-. done.
Qed.
Lemma room_cmphstr p k a b q :
  cmphstr p k a = (b, q) →
  (room q ≤ room p)%nat ∧ (b = true → k ≠ EmptyString → (room q < room p)%nat).
Proof.
  unfold cmphstr. destruct (cmp_head _ _) as [[l2 l1]|] eqn:E1; [|by intros [= <- <-]].
  destruct (cmp_tail _ _ _) eqn:E2; [|by intros [= <- <-]].
  destruct (word_end _ _); intros [= <- <-]; [|done].
  rewrite room_advn. split; [lia|]. intros _ Hk.
  assert (Hp : aft p ≠ []).
  { intros Hp. destruct (cmp_head_nonempty _ _ _ _ E1) as [H2 H1]; [|done|].
    - unfold str. by destruct k.
    - destruct l2; [done|]. by rewrite H1 in E2. }
  assert ((1 ≤ room p)%nat) by (unfold room; destruct (aft p); simpl; [done|lia]).
  destruct k; [done|]. simpl. lia.
Qed.

(** ** The logic *)

Definition runs {A} (n : nat) (m : M St A) (Q : A → Prop) : Prop :=
  ∀ s, (room (lp (par s)) ≤ n)%nat →
    match m s with
    | Ret a s' => Q a ∧ (room (lp (par s')) ≤ n)%nat
    | NoFuel => False
    | _ => True
    end.
Abbreviation top := (fun _ => True).

Section runs.
Context {A : Type}.
Implicit Types m : M St A.

Lemma runs_ret n (a : A) (Q : A → Prop) : Q a → runs n (mret a) Q.
Proof. intros H s Hs. by split. Qed.
Lemma runs_weaken n m (Q Q' : A → Prop) : runs n m Q → (∀ a, Q a → Q' a) → runs n m Q'.
Proof. intros H HQ s Hs. specialize (H s Hs). destruct (m s); [|done..]. by destruct H; auto. Qed.
Lemma runs_bind {B} n (m : M St A) (f : A → M St B) Q Q' :
  runs n m Q → (∀ a, Q a → runs n (f a) Q') → runs n (m ≫= f) Q'.
Proof.
  intros Hm Hf s Hs. specialize (Hm s Hs). unfold mbind, M_bind.
  destruct (m s) as [a t|t| |]; try done. destruct Hm as [HQ Ht]. exact (Hf a HQ t Ht).
Qed.
Lemma runs_gets n (f : St → A) : runs n (gets f) top.
Proof. intros s Hs. by split. Qed.
Lemma runs_undef n (Q : A → Prop) : runs n (undef (A := A)) Q.
Proof. by intros s Hs. Qed.
Lemma runs_exitasm n (Q : A → Prop) : runs n (exitasm (A := A)) Q.
Proof. by intros s Hs. Qed.
End runs.

Lemma runs_get_lp n : runs n get_lp (fun p => (room p ≤ n)%nat).
Proof. intros s Hs. by split. Qed.
Lemma runs_gets_st n : runs n (gets st) (fun s => (room (lp (par s)) ≤ n)%nat).
Proof. intros s Hs. by split. Qed.
Lemma runs_modify n f : (∀ s, lp (par (f s)) = lp (par s)) → runs n (modify f) top.
Proof. intros H s Hs. split; [done|]. by rewrite H. Qed.
Lemma runs_set_lp n p : (room p ≤ n)%nat → runs n (modify (set_lp p)) top.
Proof. intros H s Hs. by split. Qed.
Lemma runs_massert n b : runs n (massert b) top.
Proof. destruct b; [by apply runs_ret|apply runs_undef]. Qed.
Lemma runs_mwhen n b m : (b = true → runs n m top) → runs n (mwhen b m) top.
Proof. destruct b; [auto|]. intros _. by apply runs_ret. Qed.

(** [m] neither runs out of fuel nor touches the line pointer. *)
Definition lp_kept (s s' : St) : Prop := lp (par s') = lp (par s).
#[export] Instance lp_kept_preorder : PreOrder lp_kept.
Proof. split; [by intros s|]. intros s1 s2 s3. unfold lp_kept. congruence. Qed.

Create HintDb runs discriminated.
#[export] Hint Resolve runs_gets runs_undef runs_exitasm runs_get_lp runs_massert : runs.
#[export] Hint Constants Opaque : runs.

(** What a pure recognizer leaves of the text. *)
Ltac room_fact E :=
  first
    [ apply room_need_c in E; destruct E
    | apply room_comma in E; destruct E
    | apply room_call_MultiArg in E; destruct E
    | apply room_relaxedMaComma in E; destruct E
    | apply room_nonMaComma in E
    | apply room_cmphstr in E; destruct E
    | apply room_need in E; [destruct E | reflexivity]
    | apply room_take_while in E
    | apply room_SkipBlanks in E
    | apply andb_true_iff in E; destruct E as [?E ?E]
    | apply isc_room in E; [|discriminate]
    | apply negb_false_iff in E; try subst
    | apply negb_true_iff in E; try subst
    | apply isdigit_room in E
    | apply bool_decide_eq_true in E
    | idtac ].

Ltac spend :=
  repeat match goal with
  | H : true = true → _ |- _ => specialize (H eq_refl)
  | H : _ ≠ NUL → _ |- _ => specialize (H ltac:(discriminate))
  | H : _ ≠ EmptyString → _ |- _ => specialize (H ltac:(discriminate))
  | H : andb _ _ = true |- _ => apply andb_true_iff in H as [? ?]
  end.
Ltac rooms :=
  cbn [fst snd] in *; spend;
  rewrite ?room_adv, ?room_advn in *;
  repeat match goal with
  | |- context [room (blanks ?p)] => lazymatch goal with H : (room (blanks p) ≤ _)%nat |- _ => fail | _ => pose proof (room_blanks p) end
  | _ : context [room (blanks ?p)] |- _ => lazymatch goal with H : (room (blanks p) ≤ _)%nat |- _ => fail | _ => pose proof (room_blanks p) end
  end;
  try done; try lia.

(** A call with a lemma in the database, whose postcondition is at least as strong
    as the one wanted; the result of any other computation that is bound is not
    looked at. *)
Ltac run_leaf :=
  first [ solve [ eauto with runs nocore ]
        | eapply runs_weaken; [ solve [ eauto with runs nocore ] | intros; rooms ] ].
Ltac run_split :=
  match goal with
  | |- runs _ (match ?x with _ => _ end) _ =>
      let E := fresh "E" in destruct x eqn:E;
      repeat match type of E with _ = (?q, _) => is_var q; match type of q with prod _ _ => destruct q end end;
      cbv beta iota; room_fact E
  end.
Ltac run_step :=
  lazymatch goal with
  | |- runs _ (mret _) _ => apply runs_ret; unfold of_int; solve [ rooms | repeat case_match; rooms ]
  | |- runs _ (mbind _ (gets st)) _ => eapply runs_bind; [apply runs_gets_st | intros ? ?]
  | |- runs _ (mbind _ _) _ =>
      first [ eapply runs_bind; [ solve [ eauto with runs nocore ] | intros ? ?]
            | apply (runs_bind _ _ _ top); [ | intros ? _ ] ]
  | |- runs _ (mwhen _ _) _ => apply runs_mwhen; intros ?
  | |- runs _ (modify (set_lp _)) _ => apply runs_set_lp; solve [ rooms ]
  | |- runs _ (modify _) _ => apply runs_modify; intros ?; repeat case_match; reflexivity
  | |- runs _ (let _ := _ in _) _ => cbv zeta
  | |- runs _ ((fun _ => _) _) _ => cbv beta
  | |- runs _ (match _ with _ => _ end) _ => run_split
  end.
Ltac run_call :=
  match goal with
  | |- runs _ (mret _) _ => fail 1
  | |- runs _ ?m _ => let h := head_of m in unfold h; cbv beta
  end.
Ltac runs := intros; repeat first [ run_leaf | run_step | run_call ].

(** *** Messages, memory *)

Lemma runs_Error n m b t : runs n (Error m b t) top.
Proof.
  intros s Hs. unfold Error. destruct (Error_wrong_pass _ _); [done|].
  destruct (Error_skipped _ _); [done|]. cbv zeta. by destruct (is_type t FATAL).
Qed.
#[export] Hint Resolve runs_Error : runs.
Lemma runs_Error1 n m : runs n (Error1 m) top. Proof. runs. Qed.
Lemma runs_ErrorInt n m v t : runs n (ErrorInt m v t) top. Proof. runs. Qed.
Lemma runs_WarningImpl n i m b t : runs n (WarningImpl i m b t) top. Proof. runs. Qed.
#[export] Hint Resolve runs_Error1 runs_ErrorInt runs_WarningImpl : runs.
Lemma runs_Warning n m b t : runs n (Warning m b t) top. Proof. runs. Qed.
Lemma runs_WarningById n i b t : runs n (WarningById i b t) top. Proof. runs. Qed.
#[export] Hint Resolve runs_Warning runs_WarningById : runs.
Lemma runs_Warning1 n m : runs n (Warning1 m) top. Proof. runs. Qed.
Lemma runs_WarningById1 n i : runs n (WarningById1 i) top. Proof. runs. Qed.
#[export] Hint Resolve runs_Warning1 runs_WarningById1 : runs.
Lemma runs_MemGetByte n a : runs n (MemGetByte a) top. Proof. runs. Qed.
#[export] Hint Resolve runs_MemGetByte : runs.

(** ** The lexical layer *)

(** The result of a text routine: its last component. *)
Abbreviation within p := (fun r => (room (snd r) ≤ room p)%nat).

Lemma room_digits_loop base f k p v e :
  (room (snd (digits_loop base f k p v e)) ≤ room p)%nat.
Proof.
  revert p v e. induction k as [|k IH]; intros; cbn [digits_loop]; [done|]. cbv zeta.
  repeat case_match; simpl; rewrite ?room_adv; try lia;
    (etransitivity; [apply IH|]; rewrite room_adv; lia).
Qed.
Lemma room_numeric_value k p b f v e q :
  numeric_value k p b f = (v, e, q) → (room q ≤ room p)%nat.
Proof.
  destruct k; simpl; [intros [= <- <- <-]; done|]. intros H.
  pose proof (room_digits_loop b f (S k) p 0 None) as Hr. simpl in Hr. by rewrite H in Hr.
Qed.
Ltac room_fact E ::=
  first
    [ apply room_need_c in E; destruct E
    | apply room_comma in E; destruct E
    | apply room_call_MultiArg in E; destruct E
    | apply room_relaxedMaComma in E; destruct E
    | apply room_nonMaComma in E
    | apply room_cmphstr in E; destruct E
    | apply room_need in E; [destruct E | reflexivity]
    | apply room_take_while in E
    | apply room_SkipBlanks in E
    | apply room_numeric_value in E
    | apply andb_true_iff in E; destruct E as [?E ?E]
    | apply isc_room in E; [|discriminate]
    | apply negb_false_iff in E; try subst
    | apply negb_true_iff in E; try subst
    | apply isdigit_room in E
    | apply bool_decide_eq_true in E
    | idtac ].

Lemma runs_GetNumericValue n p k s b : runs n (GetNumericValue p k s b) (within p).
Proof. runs. Qed.
Lemma runs_GetNumericValue_IntBased n p k b : runs n (GetNumericValue_IntBased p k b) (within p).
Proof. runs. Qed.
Lemma runs_ProcessLastError n p : runs n (GetNumericValue_ProcessLastError p) top.
Proof. runs. Qed.
#[export] Hint Resolve runs_GetNumericValue runs_GetNumericValue_IntBased runs_ProcessLastError : runs.

Lemma runs_GetConstant_decimal n op h v s b :
  (room h ≤ room op)%nat → runs n (GetConstant_decimal op h v s b) (within op).
Proof.
  intros Hh. unfold GetConstant_decimal. cbv zeta.
  match goal with |- context [literal_end ?b ?r] => pose proof (room_literal_end b r) as Hl; set (e := literal_end b r) in * end.
  change (length (aft ?x)) with (room x) in Hl. rewrite room_advn in Hl. runs.
Qed.
#[export] Hint Resolve runs_GetConstant_decimal : runs.
Lemma runs_GetConstant n p : runs n (GetConstant p) (within p).
Proof.
  unfold GetConstant. pose proof (room_GetConstant_end p) as He.
  set (h := GetConstant_end p) in *. runs.
Qed.
#[export] Hint Resolve runs_GetConstant : runs.

(** A character constant consumes text unless it is the end of the literal. *)
Definition consumes {A} (p : text) (r : option A * text) : Prop :=
  (room (snd r) ≤ room p)%nat ∧ (fst r ≠ None → (room (snd r) < room p)%nat).
Lemma not_nul_room p : isc p NUL = false → (1 ≤ room p)%nat.
Proof. unfold isc. intros H. apply cur_room. intros E. by rewrite E in H. Qed.
Lemma runs_GetCharConst_either n p (quotes : bool) :
  runs n (if quotes then GetCharConstInDoubleQuotes p else GetCharConstInApostrophes p) (consumes p).
Proof.
  destruct quotes; [unfold GetCharConstInDoubleQuotes|unfold GetCharConstInApostrophes].
  - destruct (isc p "034" || isc p NUL) eqn:E; [by apply runs_ret|].
    apply orb_false_iff in E as [_ E]. apply not_nul_room in E.
    destruct (negb _); [apply runs_ret; split; simpl; rewrite room_adv; lia|].
    destruct (escape _); [apply runs_ret; split; simpl; rewrite !room_adv; lia|].
    eapply runs_bind; [apply runs_Warning|intros ? _].
    apply runs_ret; split; simpl; rewrite room_adv; lia.
  - destruct (isc p "'" && isn p 1 "'") eqn:E1.
    + apply andb_true_iff in E1 as [E1 _]. apply isc_room in E1; [|discriminate].
      apply runs_ret; split; simpl; rewrite !room_adv; lia.
    + destruct (isc p "'" || isc p NUL) eqn:E; [by apply runs_ret|].
      apply orb_false_iff in E as [_ E]. apply not_nul_room in E.
      apply runs_ret; split; simpl; rewrite room_adv; lia.
Qed.

Lemma runs_string_chars n k q p e m a :
  (room p < k)%nat → runs n (string_chars k q p e m a) (within p).
Proof.
  revert p e. induction k as [|k IH]; intros p e Hk; [lia|]. cbn [string_chars].
  destruct (_ <? _); [|by apply runs_ret].
  eapply runs_bind; [apply runs_GetCharConst_either|]. intros [[v|] r] [Hr Hs]; simpl in *.
  - specialize (Hs ltac:(done)). eapply runs_weaken; [apply IH; lia|]. simpl. intros; lia.
  - by apply runs_ret.
Qed.
#[export] Hint Extern 2 (runs _ (string_chars _ _ _ _ _ _) _) =>
  apply runs_string_chars; rooms : runs.

(** A quoted literal starts with its quote. *)
Definition at_quote (p : text) : Prop := (1 ≤ room p)%nat.
Lemma quote_room p : negb (isc p "034") && negb (isc p "'") = false → at_quote p.
Proof.
  intros H. destruct (isc p "034") eqn:E; [by apply isc_room in E|].
  destruct (isc p "'") eqn:E'; [by apply isc_room in E'|done].
Qed.

Lemma runs_string_parts n k p e m a :
  at_quote p → (room p < k)%nat → runs n (string_parts k p e m a) (within p).
Proof.
  revert p e. induction k as [|k IH]; intros p e Hq Hk; [lia|]. cbn [string_parts]. cbv zeta.
  unfold at_quote in Hq.
  eapply runs_bind; [apply runs_string_chars; lia|]. intros [e1 p1] H1; cbn [fst snd] in H1.
  rewrite room_adv in H1.
  assert (Hfinish : ∀ e2 p2, (room p2 < room p)%nat →
    runs n (mwhen (Nat.eqb (length e) (length e2)) (WarningById "emptystr" (Some (aft p)) W_PASS3) ;;
            let '(op, p3) := need p2 ".." in
            if negb (op =? code "." + code ".") then mret (if isc p "034" then 2 else 1, e2, p3)
            else let '(eol, p4) := SkipBlanks p3 in
                 if eol || (negb (isc p4 "034") && negb (isc p4 "'"))
                 then Error "[..] String literal expected" (Some (aft p4)) SUPPRESS ;; mret (-1, e2, p4)
                 else string_parts k p4 e2 m a) (within p)).
  { intros e2 p2 H2. eapply runs_bind; [apply runs_mwhen; intros _; apply runs_WarningById|intros _ _].
    destruct (need p2 "..") as [op p3] eqn:E3. room_fact E3.
    destruct (negb _); [apply runs_ret; simpl; lia|].
    destruct (SkipBlanks p3) as [eol p4] eqn:E4. room_fact E4.
    destruct (eol || _) eqn:E5.
    - eapply runs_bind; [apply runs_Error|intros _ _]. apply runs_ret; simpl; lia.
    - apply orb_false_iff in E5 as [_ E5]. apply quote_room in E5.
      eapply runs_weaken; [apply IH; [done|lia]|]. simpl. intros; lia. }
  destruct (negb _); [destruct (negb (isc p1 NUL)); runs|].
  destruct (isc (adv p1) "Z").
  { destruct (_ <=? _); [runs|]. apply Hfinish. rewrite !room_adv. lia. }
  destruct (isc (adv p1) "C").
  { destruct (Nat.eqb _ _); [runs|]. apply Hfinish. rewrite !room_adv. lia. }
  apply Hfinish. rewrite room_adv. lia.
Qed.

Lemma runs_GetCharConstAsString n p e m a : runs n (GetCharConstAsString p e m a) (within p).
Proof.
  unfold GetCharConstAsString. destruct (_ && _) eqn:E; [by apply runs_ret|].
  apply quote_room in E. apply runs_string_parts; [done|lia].
Qed.
#[export] Hint Resolve runs_GetCharConstAsString : runs.
Lemma runs_GetCharConst n p : runs n (GetCharConst p) (within p).
Proof. runs. Qed.
Lemma runs_OpenBracket n p : runs n (OpenBracket p) (within p).
Proof. runs. Qed.
Lemma runs_CloseBracket n p : runs n (CloseBracket p) (within p).
Proof. runs. Qed.
Lemma runs_check8 n v : runs n (check8 v) top. Proof. runs. Qed.
Lemma runs_check8o n v : runs n (check8o v) top. Proof. runs. Qed.
Lemma runs_check16 n v : runs n (check16 v) top. Proof. runs. Qed.
Lemma runs_checkLowMemory n h l : runs n (checkLowMemory h l) top. Proof. runs. Qed.
#[export] Hint Resolve runs_GetCharConst runs_OpenBracket runs_CloseBracket runs_check8 runs_check8o
  runs_check16 runs_checkLowMemory : runs.

(** ** Symbols *)

Lemma runs_ValidateLabel n p a b : runs n (ValidateLabel p a b) top. Proof. runs. Qed.
Lemma runs_CLabelTable_Insert n k v t q : runs n (CLabelTable_Insert k v t q) top.
Proof. runs. Qed.
#[export] Hint Resolve runs_ValidateLabel runs_CLabelTable_Insert : runs.

Lemma outer_macro_length l c r : outer_macro l = Some (c, r) → (length r < length l)%nat.
Proof.
  revert c r. induction l as [|d l IH]; intros c r; simpl; [done|].
  destruct (_ || _); [intros [= <- <-]; lia|]. intros H. apply IH in H. lia.
Qed.

(** Outside of a macro the module name is dropped at most once; inside, each round
    goes out of one macro, the last one out of all. *)
Lemma runs_SearchLabel_loop n k u g l (m a : bool) f t d :
  ((if m then length f + 2 else if a then 2 else 1) ≤ k)%nat →
  runs n (SearchLabel_loop k u g l m a f t d) top.
Proof.
  revert m a f t d. induction k as [|k IH]; intros m a f t d Hk; [destruct m, a; lia|].
  cbn [SearchLabel_loop]. run_step. run_step; [runs|].
  destruct (match symbol _ _ with Some _ => _ | None => _ end); [by apply runs_ret|].
  destruct m.
  - destruct (outer_macro f) as [[c r]|] eqn:E; [|apply runs_undef]. apply outer_macro_length in E.
    destruct (Ascii.eqb c ">"); apply IH; lia.
  - destruct (negb g && negb l && a && _) eqn:E; [|by apply runs_ret].
    apply andb_true_iff in E as [E _]. apply andb_true_iff in E as [_ E]. subst a. apply IH; lia.
Qed.

Lemma runs_SearchLabel n p u :
  runs n (SearchLabel p u) (within p).
Proof.
  unfold SearchLabel. run_step; [runs|]. run_step. run_split. destruct o as [name|]; [|by apply runs_ret].
  run_step; [runs|]. cbv zeta. run_split. run_step.
  eapply runs_bind; [apply runs_SearchLabel_loop; case_match; lia|].
  intros [entry temp] _. by apply runs_ret.
Qed.
#[export] Hint Resolve runs_SearchLabel : runs.

Lemma runs_GetLabel n p t : runs n (GetLabel p t) (within p).
Proof. runs. Qed.
#[export] Hint Resolve runs_GetLabel : runs.
Lemma runs_LabelExist n p : runs n (LabelExist p) (within p).
Proof. runs. Qed.
Lemma runs_label_getter n f t p : runs n (label_getter f t p) (within p).
Proof. runs. Qed.
Lemma runs_GetTemporaryLabelValue n p u : runs n (GetTemporaryLabelValue p u) (within p).
Proof. runs. Qed.
#[export] Hint Resolve runs_LabelExist runs_label_getter runs_GetTemporaryLabelValue : runs.
#[export] Hint Extern 1 (runs _ (GetLabelValue _) _) => apply runs_label_getter : runs.
#[export] Hint Extern 1 (runs _ (GetLabelPage _) _) => apply runs_label_getter : runs.
#[export] Hint Extern 1 (runs _ (GetLabelPhValue _) _) => apply runs_label_getter : runs.
#[export] Hint Extern 1 (runs _ (GetLabelPhPage _) _) => apply runs_label_getter : runs.
#[export] Hint Extern 1 (runs _ (GetLabelSize _) _) => apply runs_label_getter : runs.

(** ** Expressions *)

Lemma runs_unary_value n o v : runs n (unary_value o v) top. Proof. runs. Qed.
Lemma runs_mul_value n o a b : runs n (mul_value o a b) top. Proof. runs. Qed.
Lemma runs_add_value n o a b : runs n (add_value o a b) top. Proof. runs. Qed.
Lemma runs_shift_value n o a b : runs n (shift_value o a b) top. Proof. runs. Qed.
Lemma runs_minmax_value n o a b : runs n (minmax_value o a b) top. Proof. runs. Qed.
Lemma runs_cmp_value n o a b : runs n (cmp_value o a b) top. Proof. runs. Qed.
#[export] Hint Resolve runs_unary_value runs_mul_value runs_add_value runs_shift_value
  runs_minmax_value runs_cmp_value : runs.

(** An operator recognizer: a non-zero answer has consumed text. *)
Definition recognizes (next : text → Z * text) : Prop :=
  ∀ p z q, next p = (z, q) → (room q ≤ room p)%nat ∧ (z ≠ 0 → (room q < room p)%nat).

Lemma recognizes_need c :
  forallb (fun a => negb (Ascii.eqb a NUL)) (str c) = true → recognizes (fun p => need p c).
Proof. intros Hc p z q. by apply room_need. Qed.
Lemma recognizes_keyword k z : k ≠ EmptyString → recognizes (keyword k z).
Proof.
  intros Hk p z' q. unfold keyword. destruct (cmphstr p k true) as [b r] eqn:E.
  apply room_cmphstr in E as [H1 H2]. intros [= <- <-]. split; [done|].
  destruct b; [auto|done].
Qed.
Lemma recognizes_or_else f g :
  recognizes f → recognizes g → recognizes (fun p => or_else (f p) g).
Proof.
  intros Hf Hg p z q. unfold or_else. destruct (f p) as [z' r] eqn:E; simpl.
  apply Hf in E as [H1 H2]. destruct (Z.eqb_spec z' 0).
  - intros H. apply Hg in H as [H3 H4]. split; [lia|]. intros Hz. apply H4 in Hz. lia.
  - intros [= <- <-]. auto.
Qed.
Lemma recognizes_needa ks :
  Forall (fun k => fst k ≠ EmptyString) ks → recognizes (fun p => needa p ks true).
Proof.
  intros Hk p z q. unfold needa. destruct (isalpha _); [|by intros [= <- <-]].
  induction Hk as [|[k r] ks Hk Hks IH]; cbn [needa_list]; [by intros [= <- <-]|].
  destruct (cmphstr p k true) as [b p'] eqn:E. apply room_cmphstr in E as [H1 H2].
  destruct b; [|apply IH]. intros [= <- <-]. auto.
Qed.
Lemma recognizes_shift : recognizes shift_oper.
Proof.
  intros p z q. unfold shift_oper.
  assert (H : recognizes (fun p => or_else (need p "<<>>") (fun p =>
    needa p [("shl"%string, code "<" + code "<"); ("shr"%string, code ">" + code ">")] true))).
  { apply recognizes_or_else; [by apply recognizes_need|apply recognizes_needa; by repeat constructor]. }
  destruct (or_else _ _) as [oper r] eqn:E. apply H in E as [H1 H2].
  destruct (_ && _) eqn:E2; intros [= <- <-]; [|auto].
  rewrite room_adv. apply andb_true_iff in E2 as [Eo _]. apply Z.eqb_eq in Eo.
  split; [lia|]. intros _. enough (oper ≠ 0) by (specialize (H2 ltac:(done)); lia). by rewrite Eo.
Qed.
Lemma recognizes_xor : recognizes xor_oper.
Proof.
  apply (recognizes_or_else (fun p => let '(ok, p) := need_c p "^" in (if ok then 1 else 0, p)));
    [|by apply recognizes_keyword].
  intros p z q. destruct (need_c p "^") as [b r] eqn:E. apply room_need_c in E as [H1 H2].
  intros [= <- <-]. split; [done|]. destruct b; [intros _; by apply H2|done].
Qed.
Ltac recognize :=
  first [ apply recognizes_shift | apply recognizes_xor
        | by apply recognizes_need | by apply recognizes_keyword
        | apply recognizes_needa; by repeat constructor
        | apply recognizes_or_else; recognize ].

Lemma runs_level_loop n sub next apply k v p :
  (∀ q, (room q < room p)%nat → runs n (sub q) (within q)) → recognizes next →
  (∀ o a b, runs n (apply o a b) top) → (room p < k)%nat →
  runs n (level_loop sub next apply k v p) (within p).
Proof.
  intros Hs Hn Ha. revert v p Hs. induction k as [|k IH]; intros v p Hs Hk; [lia|].
  cbn [level_loop]. destruct (next p) as [o q] eqn:E. apply Hn in E as [H1 H2].
  destruct (Z.eqb_spec o 0); [by apply runs_ret|]. specialize (H2 n0).
  eapply runs_bind; [by apply Hs|]. intros [[ok rhs] r] Hr. cbn [snd] in Hr.
  destruct (negb ok); [apply runs_ret; simpl; lia|].
  eapply runs_bind; [apply Ha|]. intros lhs _. eapply runs_weaken; [apply IH; [|lia]|].
  - intros t Ht. apply Hs. lia.
  - simpl. intros; lia.
Qed.
Lemma runs_level n sub next apply p :
  (∀ q, (room q ≤ room p)%nat → runs n (sub q) (within q)) → recognizes next →
  (∀ o a b, runs n (apply o a b) top) → runs n (level sub next apply p) (within p).
Proof.
  intros Hs Hn Ha. unfold level. eapply runs_bind; [by apply Hs|].
  intros [[ok lhs] q] Hq. cbn [snd] in Hq. destruct (negb ok); [by apply runs_ret|].
  eapply runs_weaken; [apply runs_level_loop; auto; intros; apply Hs; lia|]. simpl. intros; lia.
Qed.

Lemma runs_with_no_labels_offset {A} n (m : M St A) Q :
  runs n m Q → runs n (with_no_labels_offset m) Q.
Proof.
  intros H. unfold with_no_labels_offset. run_step. run_step; [runs|].
  eapply runs_bind; [exact H|]. intros r Hr. run_step; [runs|]. by apply runs_ret.
Qed.
Lemma runs_fails n p : runs n (fails p) (within p). Proof. by apply runs_ret. Qed.
#[export] Hint Resolve runs_with_no_labels_offset runs_fails : runs.

Section runs_grammar.
Context (entry : text → M St presult) (n k : nat).
Context (Hentry : ∀ q, (room q < k)%nat → runs n (entry q) (within q)).
Local Hint Extern 1 (runs _ (entry _) _) => apply Hentry; rooms : runs.

Lemma runs_prim_value p : runs n (prim_value p) (within p).
Proof. unfold prim_value, prim_dollars. runs. Qed.
Local Hint Resolve runs_prim_value : runs.
Lemma runs_prim_parentheses p : (room p < k)%nat → runs n (prim_parentheses entry p) (within p).
Proof. unfold prim_parentheses. runs. Qed.
Lemma runs_prim_memory p : (1 ≤ room p ≤ k)%nat → runs n (prim_memory entry p) (within p).
Proof.
  intros Hp. unfold prim_memory. run_split. rewrite room_adv in *.
  run_step. run_split. runs.
Qed.
Lemma runs_ParseExpPrim p : (room p ≤ k)%nat → runs n (ParseExpPrim entry p) (within p).
Proof.
  intros Hp. unfold ParseExpPrim. run_split. run_step.
  destruct b; [runs|]. destruct (isc t "(") eqn:E1.
  { apply isc_room in E1; [|discriminate].
    eapply runs_weaken; [apply runs_prim_parentheses|]; intros; rooms. }
  destruct (a && isc t "{") eqn:E2.
  { apply andb_true_iff in E2 as [_ E2]. apply isc_room in E2; [|discriminate].
    eapply runs_weaken; [apply runs_prim_memory|]; intros; rooms. }
  runs.
Qed.

(** The keyword operators answer with a text when they apply. *)
Definition within_opt (p : text) (r : option presult) : Prop :=
  match r with Some r => (room (snd r) ≤ room p)%nat | None => True end.

Lemma runs_unair_norel p : (room p ≤ k)%nat → runs n (unair_norel entry p) (within_opt p).
Proof.
  intros Hp. unfold unair_norel.
  eapply runs_bind; [by apply runs_with_no_labels_offset, runs_ParseExpPrim|].
  intros [[ok v] q] Hq. apply runs_ret. by destruct ok.
Qed.
Lemma runs_parenthesized (get : text → M St presult) p :
  (∀ q, runs n (get q) (within q)) →
  runs n (let '(hasParentheses, p) := need_c p "(" in
          if hasParentheses || isLabelStart p then get p else fails p) (within p).
Proof.
  intros H. run_split. destruct (b || _); (eapply runs_weaken; [first [apply H | apply runs_fails]|]);
    intros; rooms.
Qed.
Lemma runs_unair_exist p : runs n (unair_exist p) (within_opt p).
Proof.
  unfold unair_exist. run_split.
  apply (runs_bind _ _ _ (within t)); [destruct (b || _); auto with runs|].
  intros [[ok v] q] Hq. cbn [snd] in Hq.
  destruct (if ok && b then need_c q ")" else (ok, q)) as [ok' r] eqn:E.
  apply runs_ret. destruct ok'; [|done]. simpl. destruct (ok && b); [room_fact E; lia|].
  injection E as _ <-. lia.
Qed.
Lemma runs_unair_sizeof p : runs n (unair_sizeof p) (within_opt p).
Proof.
  unfold unair_sizeof. run_split.
  apply (runs_bind _ _ _ (within t)); [destruct (b || _); auto with runs|].
  intros [[ok v] q] Hq. cbn [snd] in Hq.
  destruct (if b then need_c q ")" else (true, q)) as [c r] eqn:E.
  apply runs_ret. destruct (ok && c); [|done]. simpl. destruct b; [room_fact E; lia|].
  injection E as _ <-. lia.
Qed.
Lemma runs_unair_pair oldP p :
  (room p ≤ room oldP)%nat → (room p ≤ k)%nat → runs n (unair_pair entry oldP p) (within oldP).
Proof. intros Ho Hp. unfold unair_pair. runs. Qed.

Lemma runs_attempt key p parse continue :
  (∀ q, (room q ≤ room p)%nat → runs n (parse q) (within_opt q)) →
  runs n continue (within p) → runs n (attempt key p parse continue) (within p).
Proof.
  intros Hp Hc. unfold attempt. run_split. destruct b; [|done].
  eapply runs_bind; [apply Hp; lia|]. intros [r|] Hr; [|done]. apply runs_ret. simpl in Hr. lia.
Qed.

Lemma recognizes_unary : recognizes unary_oper.
Proof. unfold unary_oper. repeat recognize. Qed.

Lemma runs_ParseExpUnair u p :
  (room p < u)%nat → (room p ≤ k)%nat → runs n (ParseExpUnair entry u p) (within p).
Proof.
  revert p. induction u as [|u IH]; intros p Hu Hp; [lia|]. cbn [ParseExpUnair]. cbv zeta.
  pose proof (room_blanks p) as Hb. set (q := blanks p) in *.
  apply (runs_weaken _ _ (within q)); [|simpl; intros; lia].
  apply runs_attempt; [intros; apply runs_unair_norel; lia|].
  apply runs_attempt; [intros; apply runs_unair_exist|].
  apply runs_attempt; [intros; apply runs_unair_sizeof|].
  run_split. destruct b; [apply runs_unair_pair; lia|].
  destruct (unary_oper q) as [o r] eqn:Eo. apply recognizes_unary in Eo as [H1 H2].
  destruct (Z.eqb_spec o 0).
  - eapply runs_weaken; [apply runs_ParseExpPrim; lia|]. simpl. intros; lia.
  - specialize (H2 n0). eapply runs_bind; [apply IH; lia|]. intros [[ok rhs] s] Hs. cbn [snd] in Hs.
    destruct (negb ok); [apply runs_ret; simpl; lia|].
    eapply runs_bind; [apply runs_unary_value|]. intros v _. apply runs_ret. simpl. lia.
Qed.

Lemma runs_level_k sub next apply :
  (∀ q, (room q ≤ k)%nat → runs n (sub q) (within q)) → recognizes next →
  (∀ o a b, runs n (apply o a b) top) →
  ∀ p, (room p ≤ k)%nat → runs n (level sub next apply p) (within p).
Proof. intros Hs Hn Ha p Hp. apply runs_level; auto. intros. apply Hs. lia. Qed.

Lemma runs_ParseExpLogOr p : (room p ≤ k)%nat → runs n (ParseExpLogOr entry p) (within p).
Proof.
  revert p. unfold ParseExpLogOr, ParseExpLogAnd, ParseExpBitOr, ParseExpBitXor, ParseExpBitAnd,
    ParseExpEqu, ParseExpCmp, ParseExpMinMax, ParseExpShift, ParseExpAdd, ParseExpMul.
  do 11 (apply runs_level_k;
    [| unfold logor_oper, logand_oper, or_oper, and_oper, equ_oper, cmp_oper, minmax_oper, add_oper,
         mul_oper; recognize
     | intros; first [run_leaf | by apply runs_ret]]).
  intros p Hp. apply runs_ParseExpUnair; lia.
Qed.
End runs_grammar.

Lemma runs_parse_entry n k p : (room p < k)%nat → runs n (parse_entry k p) (within p).
Proof.
  revert p. induction k as [|k IH]; intros p Hp; [lia|]. cbn [parse_entry].
  eapply runs_bind; [apply (runs_ParseExpLogOr _ _ k); [done|lia]|].
  intros [[ok v] q] Hq. apply runs_ret. by destruct ok.
Qed.
Lemma runs_ParseExpressionEntry n p : runs n (ParseExpressionEntry p) (within p).
Proof. apply runs_parse_entry. lia. Qed.
#[export] Hint Resolve runs_ParseExpressionEntry : runs.
Lemma runs_ParseExpression n p : runs n (ParseExpression p) (within p).
Proof. unfold ParseExpression, ParseExpression_alternative. runs. Qed.
#[export] Hint Resolve runs_ParseExpression : runs.

Lemma room_back p : (room (back p) ≤ room p + 1)%nat.
Proof. unfold back, room. destruct (bef p); simpl; lia. Qed.

(** An opening bracket found has been consumed. *)
Lemma runs_OpenBracket_strict n p :
  runs n (OpenBracket p) (fun r => (room (snd r) ≤ room p)%nat
    ∧ (fst r ≠ BT_NONE → (room (snd r) < room p)%nat)).
Proof.
  unfold OpenBracket. cbv zeta. pose proof (room_blanks p) as Hb. set (q := blanks p) in *.
  run_step. destruct (_ && _); [by apply runs_ret|].
  destruct (isc q "(") eqn:E1; [|destruct (isc q "[") eqn:E2].
  - apply isc_room in E1; [|discriminate]. run_step; [runs|]. apply runs_ret. simpl.
    rewrite room_adv. lia.
  - apply isc_room in E2; [|discriminate]. run_step; [runs|]. apply runs_ret. simpl.
    rewrite room_adv. lia.
  - run_step; [runs|]. by apply runs_ret.
Qed.

Lemma runs_ParseExpressionMemAccess n p : runs n (ParseExpressionMemAccess p) (within p).
Proof.
  unfold ParseExpressionMemAccess. eapply runs_bind; [apply runs_OpenBracket_strict|].
  intros [bt q] [Hq Hs]. cbn [fst snd] in *. cbv zeta.
  set (r := if bool_decide (bt = BT_ROUND) then back q else q).
  assert (Hr : (room r ≤ room p)%nat).
  { subst r. case_bool_decide as E; [|done]. pose proof (room_back q).
    assert (bt ≠ BT_NONE) by (by rewrite E). specialize (Hs ltac:(done)). lia. }
  eapply runs_bind; [apply runs_ParseExpression|]. intros [[ok v] t] Ht. cbn [snd] in Ht.
  runs.
Qed.
#[export] Hint Resolve runs_ParseExpressionMemAccess : runs.

(** ** Operands *)

Lemma runs_resolveRelocationAffected n o t : runs n (resolveRelocationAffected o t) top.
Proof. runs. Qed.
Lemma runs_checkAndWarn n b : runs n (checkAndWarn b) top. Proof. runs. Qed.
#[export] Hint Resolve runs_resolveRelocationAffected runs_checkAndWarn : runs.
Lemma runs_resolveRelocationAndSmartSmc n o t : runs n (resolveRelocationAndSmartSmc o t) top.
Proof. runs. Qed.
#[export] Hint Resolve runs_resolveRelocationAndSmartSmc : runs.

Lemma runs_GetByte n b p : runs n (GetByte b p) (within p). Proof. runs. Qed.
Lemma runs_GetWord n p : runs n (GetWord p) (within p). Proof. runs. Qed.
#[export] Hint Resolve runs_GetByte runs_GetWord : runs.
Lemma runs_GetByteNoMem n b p : runs n (GetByteNoMem b p) (within p). Proof. runs. Qed.
Lemma runs_GetWordNoMem n p : runs n (GetWordNoMem p) (within p). Proof. runs. Qed.
Lemma runs_GetIoPort n p : runs n (GetIoPort p) (within p). Proof. runs. Qed.
Lemma runs_z80GetIDxoffset n p : runs n (z80GetIDxoffset p) (within p). Proof. runs. Qed.
Lemma runs_GetAddress n p : runs n (GetAddress p) (within p). Proof. runs. Qed.
#[export] Hint Resolve runs_GetByteNoMem runs_GetWordNoMem runs_GetIoPort runs_z80GetIDxoffset
  runs_GetAddress : runs.

Lemma room_match_names o nz up p l reg q :
  match_names o nz up p l = Some (reg, q) → (room q ≤ room p)%nat.
Proof.
  induction l as [|[[z80 name] r] l IH]; cbn [match_names]; [done|].
  destruct (z80 && nz); [done|].
  assert (Hm : (room (snd (match_name o up p name)) ≤ room p)%nat).
  { unfold match_name. destruct (str name) as [|a [|b [|? ?]]]; try done.
    - unfold GetRegister_pair. case_match; simpl; rewrite ?room_adv; lia.
    - unfold GetRegister_3letter. repeat case_match; simpl; rewrite ?room_adv; lia. }
  destruct (match_name o up p name) as [[] p']; [|auto]. by intros [= <- <-].
Qed.

Lemma runs_registers n k :
  (∀ p, (2 * room p < k)%nat → runs n (GetRegister_fuel k p) (within p))
  ∧ (∀ pp p c o, (2 * room p + 1 < k)%nat → (room p ≤ room pp)%nat →
       runs n (GetRegister_mem k pp p c o) (within pp)).
Proof.
  induction k as [|k [IH IHm]]; [split; intros; lia|]. split.
  - intros pp Hk. cbn [GetRegister_fuel]. run_step. cbv zeta.
    pose proof (room_blanks pp) as Hb. set (p := blanks pp) in *.
    destruct (in_range _ _ _ && _); [apply runs_ret; case_match; simpl; rewrite ?room_adv; lia|].
    run_split. destruct b; spend.
    { eapply runs_bind; [apply IH; lia|]. intros [reg q] Hq. apply runs_ret. case_match; simpl in *; lia. }
    run_split. destruct b; spend.
    { eapply runs_bind; [apply IH; lia|]. intros [reg q] Hq. apply runs_ret. case_match; simpl in *; lia. }
    set (m := match_names _ _ _ _ _). destruct m as [[reg q]|] eqn:E.
    { apply room_match_names in E. rewrite room_adv in E. apply runs_ret. simpl. lia. }
    set (mc := if Ascii.eqb (cur t0) "(" then _ else _). destruct mc eqn:Emc; [|by apply runs_ret].
    assert (Hc : cur t0 ≠ NUL).
    { intros Hc. subst mc. by rewrite Hc in Emc. }
    apply cur_room in Hc. apply IHm; rewrite room_adv; lia.
  - intros pp p c o Hk Hp. cbn [GetRegister_mem].
    eapply runs_bind; [apply IH; lia|]. intros [reg q] Hq. cbn [snd] in Hq.
    set (m := if IsLR35902 o && _ then _ else _).
    assert (Hm : (room (snd m) ≤ room q)%nat)
      by (subst m; repeat case_match; simpl; rewrite ?room_adv; lia).
    destruct m as [reg' q']. cbn [snd] in Hm.
    apply (runs_bind _ _ _ (fun r => (room r ≤ room q')%nat)).
    { destruct (among _ _); [|by apply runs_ret].
      eapply runs_bind; [apply runs_z80GetIDxoffset|]. intros [d r] Hr. run_step; [runs|].
      by apply runs_ret. }
    intros r Hr. cbv zeta. pose proof (room_blanks r).
    destruct (isc (blanks r) c); apply runs_ret; repeat case_match; simpl; rewrite ?room_adv; lia.
Qed.
Lemma runs_GetRegister n p : runs n (GetRegister p) (within p).
Proof. apply runs_registers. lia. Qed.
#[export] Hint Resolve runs_GetRegister : runs.

(** ** The line pointer *)

Lemma runs_lpm {A} n (f : text → M St (A * text)) :
  (∀ p, runs n (f p) (within p)) → runs n (lpm f) top.
Proof.
  intros H. unfold lpm. eapply runs_bind; [apply runs_gets_st|]. intros s Hs. cbv beta in Hs.
  eapply runs_bind; [apply H|]. intros [a p] Hp. cbn [snd] in Hp.
  eapply runs_bind; [apply runs_set_lp; lia|]. intros _ _. by apply runs_ret.
Qed.
Lemma runs_lpf {A} n (f : text → A * text) :
  (∀ p, (room (snd (f p)) ≤ room p)%nat) → runs n (lpf f) top.
Proof.
  intros H. unfold lpf. eapply runs_bind; [apply runs_gets_st|]. intros s Hs. cbv beta in Hs.
  specialize (H (lp (par s))). destruct (f (lp (par s))) as [a p]. cbn [snd] in H.
  eapply runs_bind; [apply runs_set_lp; lia|]. intros _ _. by apply runs_ret.
Qed.

Lemma room_getz80cond_Z80 p : (room (snd (getz80cond_Z80 p)) ≤ room p)%nat.
Proof.
  unfold getz80cond_Z80. destruct (SkipBlanks p) as [e q] eqn:E. room_fact E.
  repeat case_match; simpl; rewrite ?room_adv; lia.
Qed.
Lemma runs_getz80cond_lp n : runs n getz80cond_lp top.
Proof.
  unfold getz80cond_lp. eapply runs_bind; [apply runs_gets|intros a _]. apply runs_lpf. intros p. unfold getz80cond.
  pose proof (room_getz80cond_Z80 p). destruct (getz80cond_Z80 p). repeat case_match; simpl in *; lia.
Qed.
Lemma runs_comma_lp n : runs n comma_lp top.
Proof. apply runs_lpf. intros p. destruct (comma p) eqn:E. room_fact E. done. Qed.
Lemma runs_nonMaComma_lp n : runs n nonMaComma_lp top.
Proof. unfold nonMaComma_lp. eapply runs_bind; [apply runs_gets|intros a _]. apply runs_lpf. intros p.
  destruct (nonMaComma a p) eqn:E. by apply room_nonMaComma in E. Qed.
Lemma runs_SkipBlanks_lp n : runs n (lpf SkipBlanks) top.
Proof. apply runs_lpf. intros p. destruct (SkipBlanks p) eqn:E. by room_fact E. Qed.
Lemma runs_relaxedMaComma_lp n : runs n relaxedMaComma_lp top.
Proof. unfold relaxedMaComma_lp. eapply runs_bind; [apply runs_gets|intros a _]. apply runs_lpf. intros p.
  destruct (relaxedMaComma a p) eqn:E. by room_fact E. Qed.
Lemma runs_SkipToEol_lp n : runs n SkipToEol_lp top.
Proof.
  intros s Hs. split; [done|]. etransitivity; [|exact Hs]. apply room_SkipToEol.
Qed.
#[export] Hint Resolve runs_getz80cond_lp runs_comma_lp runs_nonMaComma_lp runs_SkipBlanks_lp
  runs_relaxedMaComma_lp runs_SkipToEol_lp : runs.
#[export] Hint Extern 1 (runs _ GetRegister_lp _) => apply runs_lpm; intros ?; apply runs_GetRegister : runs.
#[export] Hint Extern 1 (runs _ (GetByteNoMem_lp _) _) => apply runs_lpm; intros ?; apply runs_GetByteNoMem : runs.
#[export] Hint Extern 1 (runs _ (GetByte_lp _) _) => apply runs_lpm; intros ?; apply runs_GetByte : runs.
#[export] Hint Extern 1 (runs _ GetWordNoMem_lp _) => apply runs_lpm; intros ?; apply runs_GetWordNoMem : runs.
#[export] Hint Extern 1 (runs _ GetWord_lp _) => apply runs_lpm; intros ?; apply runs_GetWord : runs.
#[export] Hint Extern 1 (runs _ GetIoPort_lp _) => apply runs_lpm; intros ?; apply runs_GetIoPort : runs.
#[export] Hint Extern 1 (runs _ OpenBracket_lp _) => apply runs_lpm; intros ?; apply runs_OpenBracket : runs.
#[export] Hint Extern 1 (runs _ CloseBracket_lp _) => apply runs_lpm; intros ?; apply runs_CloseBracket : runs.
#[export] Hint Extern 1 (runs _ z80GetIDxoffset_lp _) => apply runs_lpm; intros ?; apply runs_z80GetIDxoffset : runs.
Lemma runs_GetAddress_lp n : runs n GetAddress_lp top.
Proof.
  apply runs_lpm. intros p. eapply runs_bind; [apply runs_GetAddress|].
  intros [[ok ad] q] Hq. by apply runs_ret.
Qed.
Lemma runs_ParseExpressionMemAccess_lp n : runs n ParseExpressionMemAccess_lp top.
Proof.
  apply runs_lpm. intros p. eapply runs_bind; [apply runs_ParseExpressionMemAccess|].
  intros [[ok ad] q] Hq. by apply runs_ret.
Qed.
#[export] Hint Resolve runs_GetAddress_lp runs_ParseExpressionMemAccess_lp : runs.

(** ** Emission *)

Lemma lp_upd_device f s : lp (par (upd_device f s)) = lp (par s).
Proof. unfold upd_device. by destruct (Device _). Qed.
Lemma lp_close_tap s : lp (par (close_tap s)) = lp (par s).
Proof. unfold close_tap. by destruct (FP_tapout _). Qed.
Lemma lp_close_while n f s : lp (par (close_while n f s)) = lp (par s).
Proof.
  revert s. induction n as [|n IH]; intros s; simpl; [done|].
  destruct (sizeofStack (tab s)) as [|[k lvl] r]; [done|]. destruct (f lvl); [|done].
  rewrite IH. unfold close_top. by repeat case_match.
Qed.
Lemma runs_upd_device n f : runs n (modify (upd_device f)) top.
Proof. apply runs_modify. apply lp_upd_device. Qed.
Lemma runs_close_tap n : runs n (modify close_tap) top.
Proof. apply runs_modify. apply lp_close_tap. Qed.
Lemma runs_close_while n k f : runs n (modify (fun s => close_while (k s) f s)) top.
Proof. apply runs_modify. intros s. apply lp_close_while. Qed.
Lemma runs_write_memory n o b : runs n (modify (write_memory o b)) top.
Proof. apply runs_modify. intros s. apply lp_upd_device. Qed.
#[export] Hint Resolve runs_upd_device runs_close_tap runs_close_while runs_write_memory : runs.

Lemma runs_SizeBoundary n b : runs n (SizeBoundary b) top.
Proof.
  unfold SizeBoundary. run_step. destruct (bool_decide _); [by apply runs_ret|]. cbv zeta.
  run_step; [runs|]. eapply runs_bind; [apply (runs_close_while n stack_depth)|intros _ _].
  run_step. destruct (bool_decide _); [by apply runs_ret|]. destruct (negb _ && _); [by apply runs_ret|].
  run_step; [runs|]. apply (runs_close_while n stack_depth).
Qed.
#[export] Hint Resolve runs_SizeBoundary : runs.
Lemma runs_PrintHex n v k : runs n (PrintHex v k) top. Proof. runs. Qed.
#[export] Hint Resolve runs_PrintHex : runs.
Lemma runs_hex_data n l c : runs n (hex_data l c) top.
Proof. revert c. induction l as [|v l IH]; intros; cbn [hex_data]; runs. Qed.
#[export] Hint Resolve runs_hex_data : runs.
Lemma runs_EmitToHex n b : runs n (EmitToHex b) top. Proof. runs. Qed.
Lemma runs_WriteDest n : runs n WriteDest top. Proof. runs. Qed.
Lemma runs_CheckPage n l : runs n (CheckPage l) top. Proof. runs. Qed.
Lemma runs_CheckRamLimitExceeded n : runs n CheckRamLimitExceeded top. Proof. runs. Qed.
#[export] Hint Resolve runs_EmitToHex runs_WriteDest runs_CheckPage runs_CheckRamLimitExceeded : runs.
Lemma runs_EmitByteNoListing n b p : runs n (EmitByteNoListing b p) top. Proof. runs. Qed.
#[export] Hint Resolve runs_EmitByteNoListing : runs.
Lemma runs_list_emitted n b : runs n (modify (list_emitted b)) top.
Proof. apply runs_modify. intros s. unfold list_emitted. by repeat case_match. Qed.
#[export] Hint Resolve runs_list_emitted : runs.
Lemma runs_EmitByte n b i : runs n (EmitByte b i) top. Proof. runs. Qed.
#[export] Hint Resolve runs_EmitByte : runs.
Lemma runs_EmitWord n w i : runs n (EmitWord w i) top. Proof. runs. Qed.
Lemma runs_emit_loop n l i : runs n (emit_loop l i) top.
Proof.
  revert i. induction l as [l IH] using (induction_ltof1 _ (@length Z)); intros i.
  destruct l as [|b l]; [apply runs_undef|]. cbn [emit_loop].
  destruct (_ =? b); [by apply runs_ret|]. eapply runs_bind; [apply runs_EmitByte|intros _ _].
  destruct l as [|m l]; [apply runs_undef|].
  destruct (_ =? m); apply IH; unfold ltof; simpl; lia.
Qed.
#[export] Hint Resolve runs_EmitWord runs_emit_loop : runs.
Lemma runs_EmitBytes n l i : runs n (EmitBytes l i) top.
Proof.
  unfold EmitBytes. run_step. run_step; [|runs]. run_step. run_step. apply runs_SkipToEol_lp.
Qed.
#[export] Hint Resolve runs_EmitBytes : runs.

(** ** The argument loops *)

(** A separator found has been consumed. *)
Definition separates (sep : M St bool) : Prop :=
  ∀ s, match sep s with
       | Ret b s' => (room (lp (par s')) ≤ room (lp (par s)))%nat
                     ∧ (b = true → (room (lp (par s')) < room (lp (par s)))%nat)
       | NoFuel => False
       | _ => True
       end.

Lemma separates_lpf (f : SSyntax → text → bool * text) :
  (∀ o p b q, f o p = (b, q) → (room q ≤ room p)%nat ∧ (b = true → (room q < room p)%nat)) →
  separates (o ← syntax; lpf (f o)).
Proof.
  intros H s. unfold syntax, lpf, st. run. destruct (f _ (lp (par s))) as [b q] eqn:E.
  by apply H in E.
Qed.
Lemma separates_MultiArg : separates MultiArg_lp.
Proof. apply (separates_lpf call_MultiArg). intros *. apply room_call_MultiArg. Qed.
Lemma separates_relaxed : separates relaxedMaComma_lp.
Proof. apply (separates_lpf relaxedMaComma). intros *. apply room_relaxedMaComma. Qed.

Lemma runs_do_while_sep sep body k m :
  separates sep → (∀ n, runs n body top) → (m < k)%nat →
  runs m (do_while k (go ← body; if go : bool then sep else mret false)) top.
Proof.
  intros Hsep Hbody. revert m. induction k as [|k IH]; intros m Hk; [lia|].
  intros s Hs. cbn [do_while]. unfold mbind, M_bind, mret, M_ret.
  specialize (Hbody m s Hs). destruct (body s) as [go t|t| |]; try done.
  destruct Hbody as [_ Ht]. destruct go; [|done].
  specialize (Hsep t). destruct (sep t) as [b u|u| |]; try done. destruct Hsep as [H1 H2].
  destruct b; [|split; [done|lia]]. specialize (H2 eq_refl).
  specialize (IH (m - 1)%nat ltac:(lia) u ltac:(lia)).
  destruct (do_while k _ u) as [a v|v| |]; try done. split; [done|]. destruct IH. lia.
Qed.

Lemma runs_args_loop n sep body :
  separates sep → (∀ n, runs n body top) → runs n (args_loop sep body) top.
Proof.
  intros Hsep Hbody s Hs. unfold args_loop, get_lp, gets. unfold mbind at 1, M_bind.
  pose proof (runs_do_while_sep sep body (S (room (lp (par s)))) (room (lp (par s))) Hsep Hbody
    ltac:(lia) s ltac:(lia)) as H.
  destruct (do_while _ _ s); try done. destruct H. split; [done|lia].
Qed.
Lemma runs_each_arg n body : (∀ n, runs n body top) → runs n (each_arg body) top.
Proof.
  intros H. apply runs_args_loop; [apply separates_MultiArg|]. intros k.
  eapply runs_bind; [apply H|intros _ _]. by apply runs_ret.
Qed.
Lemma runs_each_relaxed n body : (∀ n, runs n body top) → runs n (each_relaxed body) top.
Proof.
  intros H. apply runs_args_loop; [apply separates_relaxed|]. intros k.
  eapply runs_bind; [apply H|intros _ _]. by apply runs_ret.
Qed.

(** ** Handlers *)

Lemma runs_noFakes n : runs n noFakes top. Proof. runs. Qed.
#[export] Hint Resolve runs_noFakes : runs.
Lemma runs_bracketed_lp n r : runs n (bracketed_lp r) top. Proof. runs. Qed.
#[export] Hint Resolve runs_bracketed_lp : runs.
Lemma runs_NeedIoC n : runs n NeedIoC top.
Proof.
  unfold NeedIoC. run_step. eapply runs_bind; [apply runs_get_lp|]. intros p Hp. cbv beta in Hp.
  run_step. run_step; [runs|]. by apply runs_ret.
Qed.
#[export] Hint Resolve runs_NeedIoC : runs.
Lemma runs_alu_register n b r e : runs n (alu_register b r e) top. Proof. runs. Qed.
#[export] Hint Resolve runs_alu_register : runs.
Lemma runs_CommonAluOpcode n b e h c : runs n (CommonAluOpcode b e h c) top.
Proof. runs. Qed.
Lemma runs_OpCode_CbFamily n b e c : runs n (OpCode_CbFamily b e c) top. Proof. runs. Qed.
Lemma runs_put_address n e : runs n (put_address e) top. Proof. runs. Qed.
#[export] Hint Resolve runs_CommonAluOpcode runs_OpCode_CbFamily runs_put_address : runs.
Lemma runs_LD_simple_r_r n r : runs n (LD_simple_r_r r) top. Proof. runs. Qed.
#[export] Hint Resolve runs_LD_simple_r_r : runs.
Lemma runs_LD_A_value n bt : runs n (LD_A_value bt) top. Proof. runs. Qed.
#[export] Hint Resolve runs_LD_A_value : runs.

(** LD A gives back the bracket it has consumed, and no more. *)
Definition runs_to {A} (a b : nat) (m : M St A) : Prop :=
  ∀ s, (room (lp (par s)) ≤ a)%nat →
    match m s with
    | Ret _ s' => (room (lp (par s')) ≤ b)%nat
    | NoFuel => False
    | _ => True
    end.
Lemma runs_to_bind {A B} a b c (m : M St A) (f : A → M St B) :
  runs_to a b m → (∀ x, runs_to b c (f x)) → runs_to a c (m ≫= f).
Proof.
  intros Hm Hf s Hs. specialize (Hm s Hs). unfold mbind, M_bind.
  destruct (m s) as [x t|t| |]; try done. exact (Hf x t Hm).
Qed.
Lemma runs_to_of {A} a b (m : M St A) Q : (a ≤ b)%nat → runs a m Q → runs_to a b m.
Proof.
  intros Hab H s Hs. specialize (H s Hs). destruct (m s); try done. destruct H. lia.
Qed.
Lemma runs_of_to {A} n (m : M St A) : runs_to n n m → runs n m top.
Proof. intros H s Hs. specialize (H s Hs). by destruct (m s). Qed.

Lemma OpenBracket_lp_cases {B} n (f : EBracketType → M St B) :
  runs_to n n (f BT_NONE) → (∀ bt, bt ≠ BT_NONE → (1 ≤ n)%nat → runs_to (n - 1) n (f bt)) →
  runs_to n n (OpenBracket_lp ≫= f).
Proof.
  intros H0 H1 s Hs. unfold OpenBracket_lp, lpm, st. unfold mbind, M_bind, gets, modify, mret, M_ret.
  pose proof (runs_OpenBracket_strict (room (lp (par s))) (lp (par s)) s ltac:(lia)) as H.
  destruct (OpenBracket (lp (par s)) s) as [[bt q] t|t| |]; try done.
  destruct H as [[Hq Hstrict] _]. cbn [fst snd] in *.
  destruct (decide (bt = BT_NONE)) as [->|Hbt].
  - apply (H0 (set_lp q t)). simpl. lia.
  - specialize (Hstrict Hbt). apply (H1 bt Hbt ltac:(lia) (set_lp q t)). simpl. lia.
Qed.

Lemma runs_LD_A n : runs n LD_A top.
Proof.
  unfold LD_A. run_step. apply runs_of_to, OpenBracket_lp_cases.
  - rewrite bool_decide_eq_true_2 by done. by eapply runs_to_of; [|apply runs_LD_A_value].
  - intros bt Hbt Hn. rewrite bool_decide_eq_false_2 by done.
    apply (runs_to_bind _ (n - 1)).
    { eapply runs_to_of; [done|]. run_leaf. }
    intros reg. apply (runs_to_bind _ (n - 1)).
    { eapply (runs_to_of _ _ _ top); [done|]. runs. }
    intros e. destruct (negb _); [eapply (runs_to_of _ _ _ top); [lia|by apply runs_ret]|].
    apply (runs_to_bind _ n).
    { intros s Hs. cbn. pose proof (room_back (lp (par s))). lia. }
    intros _. by eapply runs_to_of; [|apply runs_LD_A_value].
Qed.
#[export] Hint Resolve runs_LD_A : runs.
Lemma runs_LD_other n r : runs n (LD_other r) top. Proof. runs. Qed.
#[export] Hint Resolve runs_LD_other : runs.
Lemma runs_LDD_code n : runs n LDD_code top. Proof. runs. Qed.
Lemma runs_LDI_code n : runs n LDI_code top. Proof. runs. Qed.
#[export] Hint Resolve runs_LDD_code runs_LDI_code : runs.
Lemma runs_pop_regs n k : runs n (pop_regs k) top.
Proof. induction k as [|k IH]; cbn [pop_regs]; runs. Qed.
Lemma runs_for_each {A} n (l : list A) f : (∀ x, runs n (f x) top) → runs n (for_each l f) top.
Proof.
  intros H. induction l as [|x l IH]; cbn [for_each]; [by apply runs_ret|].
  eapply runs_bind; [apply H|]. by intros.
Qed.
#[export] Hint Resolve runs_pop_regs : runs.
#[export] Hint Extern 1 (runs _ (for_each _ _) _) => apply runs_for_each; intros ?; solve [runs] : runs.
#[export] Hint Extern 1 (runs _ (each_arg _) _) => apply runs_each_arg; intros ?; solve [runs] : runs.
#[export] Hint Extern 1 (runs _ (each_relaxed _) _) => apply runs_each_relaxed; intros ?; solve [runs] : runs.
#[export] Hint Extern 1 (runs _ (args_loop MultiArg_lp _) _) =>
  apply runs_args_loop; [apply separates_MultiArg | intros ?; solve [runs]] : runs.

Lemma runs_skip_char n c :
  runs n (modify (fun s => let p := lp (par s) in if isc p c then set_lp (adv p) s else s)) top.
Proof.
  intros s Hs. split; [done|]. cbv zeta. destruct (isc _ c); [|done]. cbn. rewrite room_adv. lia.
Qed.
#[export] Hint Resolve runs_skip_char : runs.

Lemma runs_handlers n i8080 lr35902 next :
  Forall ((fun m => runs n m top) ∘ snd) (ops_of i8080 lr35902 next).
Proof.
  unfold ops_of. repeat (apply Forall_app; split); repeat case_match; try (constructor; fail).
  all: repeat (apply Forall_app; split).
  all: repeat constructor; cbn [compose snd]; try solve [runs].
Qed.

Lemma runs_GetOpCode n : runs n GetOpCode top.
Proof.
  unfold GetOpCode. run_step; [runs|]. run_step; [runs|]. run_step; [runs|].
  eapply runs_bind; [apply runs_gets|intros o _].
  eapply runs_bind; [apply runs_lpf; intros p|intros name _].
  { unfold getinstr. cbv zeta. pose proof (room_blanks p).
    destruct (_ && _); [done|]. destruct (take_while _ _) as [l q] eqn:E.
    room_fact E. rewrite room_adv in E. case_match; simpl; lia. }
  eapply runs_bind; [apply runs_gets|intros t _].
  destruct (find_instruction name _) as [f|] eqn:Hf; [|runs].
  pose proof (find_instruction_Forall _ _ _ _ (runs_handlers n) Hf) as H. cbv beta in H.
  eapply runs_bind; [exact H|intros _ _]. runs.
Qed.

(** C9: The assembly of one instruction always comes to an end, in every state: it
    returns, leaves through a FATAL error or meets undefined behaviour, and it
    leaves no more of the line to be read than there was. *)
Theorem GetOpCode_terminates :
  fuelled GetOpCode
  ∧ ∀ s s', GetOpCode s = Ret tt s' → (room (lp (par s')) ≤ room (lp (par s)))%nat.
Proof.
  split; [intros s E|intros s s' E];
    pose proof (runs_GetOpCode (room (lp (par s))) s ltac:(lia)) as H; rewrite E in H;
    [done|by destruct H].
Qed.

(** C10: An expression always evaluates to an answer: whatever the text and the state,
    the evaluation ends and the pointer is inside of the text it was given. *)
Theorem ParseExpression_terminates :
  ∀ p, fuelled (ParseExpression p)
  ∧ ∀ s ok v q s', ParseExpression p s = Ret (ok, v, q) s' → (room q ≤ room p)%nat.
Proof.
  intros p. split; [intros s E|intros s ok v q s' E];
    pose proof (runs_ParseExpression (room (lp (par s))) p s ltac:(lia)) as H; rewrite E in H;
    [done|by destruct H].
Qed.
