(* ===== verification/DefTable.v ===== *)
(** * Definitions as the program uses them (tables.cpp, [CDefineTable])

    The operations of the define table on the state, with the two dynamic names
    and the errors, and the theorem that the table is a stack of definitions per
    name. *)

From S2P Require Export Errors.

(** ** Operations *)

Definition CDefineTable_Init : M St unit :=
  modify (fun s => set_defs ∅ (set_DefArrayList [] s)).

Definition CDefineTable_Add (name value : list ascii) (nss : list (list ascii)) : M St unit :=
  s ← gets st;
  mwhen (CDefineTable_FindDuplicate (defs (tab s)) name)
    (Error "Duplicate define (replacing old value)" (Some name) PASS03) ;;
  modify (fun s =>
    let t := defs (tab s) in
    set_defs (<[bucket name := new_CDefineTableEntry name value nss :: chain t name]> t) s).

(** The line of [__LINE__] is that of the innermost source. *)
Definition current_line (s : St) : Z :=
  match last (sourcePosStack (src s)) with None => 0 | Some p => pos_line p end.

(** [None] is [nullptr]. *)
Definition CDefineTable_Get (name : list ascii) : M St (option (list ascii)) :=
  modify (set_DefArrayList []) ;;
  if bool_decide (name = []) then mret None
  else
    s ← gets st;
    if bool_decide (name = str "__COUNTER__") then
      modify (set_PredefinedCounter (PredefinedCounter (src s) + 1)) ;;
      mret (Some (fmt_d (PredefinedCounter (src s))))
    else if bool_decide (name = str "__LINE__") then mret (Some (fmt_d (current_line s)))
    else match CDefineTable_find (defs (tab s)) name with
         | None => mret None
         | Some e => modify (set_DefArrayList (def_nss e)) ;; mret (Some (def_value e))
         end.

(** 1 when the name was not there. *)
Definition CDefineTable_Replace_str (name value : list ascii) : M St Z :=
  s ← gets st;
  modify (set_defs (CDefineTable_Replace name value (defs (tab s)))) ;;
  mret (if CDefineTable_FindDuplicate (defs (tab s)) name then 0 else 1).

Definition CDefineTable_Remove_str (name : list ascii) : M St Z :=
  s ← gets st;
  if CDefineTable_FindDuplicate (defs (tab s)) name then
    modify (set_defs (CDefineTable_Remove name (defs (tab s)))) ;;
    modify (set_DefArrayList []) ;;
    mret 1
  else mret 0.

Definition CDefineTable_RemoveAll : M St unit :=
  modify (fun s => set_defs ∅ (set_DefArrayList [] s)).

(** ** The specification: a stack of definitions for each name *)

Definition stack_of (name : list ascii) (s : St) : list CDefineTableEntry :=
  List.filter (is_named name) (chain (defs (tab s)) name).

Lemma is_named_eq n e : is_named n e = true ↔ n = def_name e.
Proof. apply bool_decide_eq_true. Qed.

Lemma find_filter {A} (f : A → bool) l : List.find f l = head (List.filter f l).
Proof. induction l as [|x l IH]; cbn; [done|]. by destruct (f x). Qed.

Lemma filter_other n m l : n ≠ m → List.filter (is_named n) (remove_first m l) = List.filter (is_named n) l.
Proof.
  intros Hn. induction l as [|e l IH]; cbn [remove_first List.filter]; [done|].
  destruct (is_named m e) eqn:Hm.
  - apply is_named_eq in Hm. destruct (is_named n e) eqn:He; [|done].
    apply is_named_eq in He. congruence.
  - cbn [List.filter]. by rewrite IH.
Qed.
Lemma filter_same n l : List.filter (is_named n) (remove_first n l) = tail (List.filter (is_named n) l).
Proof.
  induction l as [|e l IH]; cbn [remove_first List.filter]; [done|].
  destruct (is_named n e) eqn:He; [done|]. cbn [List.filter]. by rewrite He.
Qed.

(** The bucket of another name may be the same one. *)
Lemma chain_insert n m l t : chain (<[bucket n := l]> t) m = if decide (bucket n = bucket m) then l else chain t m.
Proof.
  unfold chain. destruct (decide (bucket n = bucket m)) as [->|Hn].
  - by rewrite lookup_insert_eq.
  - by rewrite lookup_insert_ne.
Qed.

Lemma stack_update n m l s :
  (n ≠ m → List.filter (is_named m) l = List.filter (is_named m) (chain (defs (tab s)) n)) →
  stack_of m (set_defs (<[bucket n := l]> (defs (tab s))) s)
  = if decide (n = m) then List.filter (is_named m) l else stack_of m s.
Proof.
  intros H. unfold stack_of. change (defs (tab (set_defs ?d s))) with d. rewrite chain_insert.
  destruct (decide (n = m)) as [->|Hn]; [by rewrite decide_True|].
  destruct (decide (bucket n = bucket m)) as [E|]; [|done].
  rewrite H by done. unfold chain. by rewrite E.
Qed.

Definition push_define (name value : list ascii) (nss : list (list ascii)) (s : St) : St :=
  set_defs (<[bucket name := new_CDefineTableEntry name value nss :: chain (defs (tab s)) name]>
              (defs (tab s))) s.

Lemma stack_push n v nss m s :
  stack_of m (push_define n v nss s)
  = if decide (n = m) then new_CDefineTableEntry n v nss :: stack_of m s else stack_of m s.
Proof.
  unfold push_define. rewrite stack_update; cbn [List.filter].
  - destruct (decide (n = m)) as [->|]; [|done].
    unfold is_named at 1; cbn [def_name new_CDefineTableEntry]. by rewrite bool_decide_eq_true_2.
  - intros Hn. unfold is_named at 1; cbn [def_name new_CDefineTableEntry]. rewrite bool_decide_eq_false_2 by done. done.
Qed.

Lemma stack_duplicate n s : CDefineTable_FindDuplicate (defs (tab s)) n = negb (bool_decide (stack_of n s = [])).
Proof.
  unfold CDefineTable_FindDuplicate, stack_of.
  induction (chain (defs (tab s)) n) as [|e l IH]; [done|]. cbn [existsb List.filter].
  by destruct (is_named n e).
Qed.

(** [Error] leaves the stacks of all names but its counter's alone. *)
Lemma stack_replace n v m s :
  n ≠ m → stack_of m (set_defs (CDefineTable_Replace n v (defs (tab s))) s) = stack_of m s.
Proof.
  intros Hn. unfold CDefineTable_Replace. destruct (CDefineTable_FindDuplicate _ _).
  - rewrite stack_update; [by rewrite decide_False|]. intros _.
    induction (chain (defs (tab s)) n) as [|e l IH]; [done|]. cbn [replace_first].
    destruct (is_named n e) eqn:He; cbn [List.filter]; [|by rewrite IH].
    assert (Hm : is_named m e = false).
    { apply is_named_eq in He. apply bool_decide_eq_false_2. congruence. }
    change (is_named m {| def_name := def_name e; def_value := v; def_nss := def_nss e |}) with (is_named m e).
    by rewrite Hm.
  - rewrite stack_update; [by rewrite decide_False|]. intros _. cbn [List.filter].
    unfold is_named at 1; cbn [def_name new_CDefineTableEntry]. by rewrite bool_decide_eq_false_2.
Qed.

Definition error_name : list ascii := str "__ERRORS__".
Definition same_stack (n : list ascii) (s s' : St) : Prop := stack_of n s' = stack_of n s.

Lemma stack_Error n m b t : n ≠ error_name → keeps (same_stack n) (Error m b t).
Proof.
  intros Hn s. unfold Error. destruct (Error_wrong_pass _ _); [done|].
  destruct (Error_skipped _ _); [done|]. cbv zeta.
  destruct (is_type t FATAL); unfold same_stack;
    exact (stack_replace error_name (fmt_d (ErrorCount (err s) + 1)) n s (not_eq_sym Hn)).
Qed.

(** Only a FATAL error ends the program. *)
Lemma Error_nonfatal m b t s : is_type t FATAL = false → ∃ s', Error m b t s = Ret tt s'.
Proof.
  intros Ht. unfold Error. destruct (Error_wrong_pass _ _); [eauto|].
  destruct (Error_skipped _ _); [eauto|]. cbv zeta. rewrite Ht. eauto.
Qed.

Definition dynamic_name (n : list ascii) : bool :=
  bool_decide (n = []) || bool_decide (n = str "__COUNTER__") || bool_decide (n = str "__LINE__").

Lemma chain_find n s : CDefineTable_find (defs (tab s)) n = head (stack_of n s).
Proof. apply find_filter. Qed.

(** [Add] reports a name that is there, then pushes. *)
Lemma CDefineTable_Add_pushes n v nss s :
  ∃ s1, CDefineTable_Add n v nss s = Ret tt (push_define n v nss s1)
    ∧ (∀ k, k ≠ error_name → stack_of k s1 = stack_of k s)
    ∧ if bool_decide (stack_of n s = []) then s1 = s
      else Error "Duplicate define (replacing old value)" (Some n) PASS03 s = Ret tt s1.
Proof.
  unfold CDefineTable_Add, mbind, M_bind, gets, modify. change (st s) with s. rewrite stack_duplicate.
  case_bool_decide as Hs; cbn [negb mwhen]; [by exists s|].
  destruct (Error_nonfatal "Duplicate define (replacing old value)" (Some n) PASS03 s) as [s1 E]; [done|].
  exists s1. rewrite E. split; [done|]. split; [|done]. intros k Hk.
  pose proof (stack_Error k "Duplicate define (replacing old value)" (Some n) PASS03 Hk s) as H. by rewrite E in H.
Qed.

(** C17: the table is a stack of definitions for each name: [Add] always pushes one, so
    [DEFINE] of a name that is defined reports an error ("replacing old value") and
    shadows the old value instead; [Get] reads the top one and its array; [Remove] pops
    one, so the first [UNDEFINE] after it brings the old value back instead of removing
    the name, against the documentation.  None touches another name, the counter of
    errors aside. *)
Theorem define_table_stack : ∀ n v nss s,
  n ≠ error_name →
  (∃ s', CDefineTable_Add n v nss s = Ret tt s'
     ∧ stack_of n s' = new_CDefineTableEntry n v nss :: stack_of n s
     ∧ (∀ m, m ≠ n → m ≠ error_name → stack_of m s' = stack_of m s)
     ∧ if bool_decide (stack_of n s = []) then err s' = err s
       else ∃ s1, Error "Duplicate define (replacing old value)" (Some n) PASS03 s = Ret tt s1 ∧ err s' = err s1)
  ∧ (dynamic_name n = false →
     ∃ s', CDefineTable_Get n s = Ret (def_value <$> head (stack_of n s)) s'
       ∧ DefArrayList (tab s') = default [] (def_nss <$> head (stack_of n s))
       ∧ ∀ m, stack_of m s' = stack_of m s)
  ∧ (∃ r s', CDefineTable_Remove_str n s = Ret r s'
       ∧ r = (if bool_decide (stack_of n s = []) then 0 else 1)
       ∧ stack_of n s' = tail (stack_of n s)
       ∧ ∀ m, m ≠ n → stack_of m s' = stack_of m s).
Proof.
  intros n v nss s Hn. split_and!.
  - destruct (CDefineTable_Add_pushes n v nss s) as (s1 & E & Hs & He). eexists. split; [exact E|]. split_and!.
    + by rewrite stack_push, decide_True, Hs.
    + intros k Hkn Hke. by rewrite stack_push, decide_False, Hs by congruence.
    + destruct (bool_decide _); [by subst s1|by exists s1].
  - unfold dynamic_name. rewrite !orb_false_iff. intros [[H1 H2] H3].
    unfold CDefineTable_Get. rewrite H1. unfold mbind, M_bind, gets, modify, st.
    rewrite H2, H3.
    change (defs (tab (set_DefArrayList [] s))) with (defs (tab s)). rewrite chain_find.
    destruct (head (stack_of n s)) as [e|]; (eexists; split; [reflexivity|done]).
  - unfold CDefineTable_Remove_str. unfold mbind, M_bind, gets, modify, st. rewrite stack_duplicate.
    case_bool_decide as Hb; cbn [negb]; (eexists _, _; split; [reflexivity|]).
    + rewrite Hb. done.
    + split; [done|].
      assert (Hst : ∀ m, stack_of m (set_DefArrayList [] (set_defs (CDefineTable_Remove n (defs (tab s))) s))
                    = if decide (n = m) then List.filter (is_named m) (remove_first n (chain (defs (tab s)) n))
                      else stack_of m s).
      { intros m. unfold CDefineTable_Remove. rewrite <- stack_update; [done|]. intros Hnm.
        by apply filter_other. }
      split; [rewrite Hst, decide_True by done; apply filter_same|].
      intros m Hm. by rewrite Hst, decide_False.
Qed.

Lemma define_table_stack_witness :
  match (CDefineTable_Add (str "size") (str "16") [] ;; CDefineTable_Add (str "size") (str "32") [] ;;
         CDefineTable_Remove_str (str "size") ;; CDefineTable_Get (str "size")) last_pass with
  | Ret v s => v = Some (str "16") ∧ ErrorCount (err s) = 1
  | _ => False
  end
  ∧ dynamic_name (str "size") = false.
Proof.
  assert (Hn : str "size" ≠ error_name) by discriminate.
  destruct (define_table_stack (str "size") (str "16") [] last_pass Hn) as (_ & H & _).
  destruct (H eq_refl) as (s' & E & _).
  split; [vm_compute; by split|reflexivity].
Defined.
