(* ===== verification/Messages.v ===== *)
(** * Which messages are shown

    The filters of [Error] over a whole line of errors, and the suppression of
    warnings by the comment at the end of the line, against declarative
    specifications. *)

From S2P Require Export Errors.

(** ** The errors of one line *)

(** One call of [Error] and the message it makes. *)
Abbreviation report := (string * option (list ascii) * EStatus)%type.
Definition raise (r : report) : M St unit := let '(m, b, t) := r in Error m b t.
Definition diag_of (r : report) : diag := let '(m, b, _) := r in mk_diag true None m b.
Definition status (r : report) : EStatus := snd r.

(** In the last pass: early errors were shown in an earlier pass, an [IF_FIRST]
    error only shows when the line has none yet, and a [SUPPRESS] error is the
    last of its line. *)
Fixpoint visible (first : bool) (l : list report) : list report :=
  match l with
  | [] => []
  | r :: l =>
      match status r with
      | EARLY => visible first l
      | IF_FIRST => if first then r :: visible false l else visible first l
      | SUPPRESS => [r]
      | _ => r :: visible false l
      end
  end.

(** The line has shown an error already; [IsSkipErrors] is left from it. *)
Definition fresh (s : St) : bool := negb (PreviousErrorLine (err s) =? CompiledCurrentLine (src s)).
Definition muted (s : St) : bool := negb (fresh s) && IsSkipErrors (err s).

Lemma raise_shown m b t s :
  pass (src s) = LASTPASS → t ≠ FATAL → Error_wrong_pass t LASTPASS = false →
  muted s = false → (t = IF_FIRST → fresh s = true) →
  ∃ s', Error m b t s = Ret tt s'
    ∧ messages (err s') = messages (err s) ++ [mk_diag true None m b]
    ∧ ErrorCount (err s') = ErrorCount (err s) + 1
    ∧ pass (src s') = LASTPASS ∧ fresh s' = false ∧ muted s' = is_type t SUPPRESS.
Proof.
  intros Hp Ht Hw Hm Hf. unfold Error. rewrite Hp, Hw.
  assert (Hs : Error_skipped t s = false).
  { unfold Error_skipped, muted, fresh in *. destruct (_ =? _); [|by rewrite andb_false_r].
    cbn [negb andb] in *. rewrite Hm. cbn [orb]. unfold is_type.
    destruct (decide (t = IF_FIRST)) as [E|E]; [by specialize (Hf E)|].
    by rewrite (bool_decide_eq_false_2 _ E), andb_false_r. }
  rewrite Hs. cbv zeta. unfold is_type. rewrite (bool_decide_eq_false_2 (t = FATAL)) by done.
  eexists. split; [reflexivity|]. unfold muted, fresh, is_type in *. cbn.
  rewrite Z.eqb_refl. split_and!; try done. cbn [negb andb].
  destruct (_ =? _); cbn [negb andb] in *; [|by rewrite andb_false_r].
  rewrite Hm. done.
Qed.

Lemma raise_hidden m b t s :
  pass (src s) = LASTPASS → t ≠ FATAL →
  Error_wrong_pass t LASTPASS = true ∨ muted s = true ∨ (t = IF_FIRST ∧ fresh s = false) →
  Error m b t s = Ret tt s.
Proof.
  intros Hp Ht H. unfold Error. rewrite Hp. destruct (Error_wrong_pass t LASTPASS) eqn:Hw; [done|].
  assert (Hs : Error_skipped t s = true).
  { unfold Error_skipped, muted, fresh, is_type in *. rewrite (bool_decide_eq_false_2 (t = FATAL)) by done.
    destruct (_ =? _); cbn [negb andb] in *; [|by destruct H as [?|[?|[? ?]]]].
    destruct H as [?|[->|[-> _]]]; [done|done|by rewrite orb_true_r]. }
  by rewrite Hs.
Qed.

Lemma raise_muted l s :
  pass (src s) = LASTPASS → Forall (fun r => status r ≠ FATAL) l → muted s = true →
  for_each l raise s = Ret tt s.
Proof.
  intros Hp Hl Hm. induction Hl as [|[[m b] t] l Ht Hl IH]; [done|].
  cbn [for_each raise status snd] in *. unfold mbind, M_bind.
  rewrite raise_hidden by auto. apply IH.
Qed.

Lemma raise_all l s :
  pass (src s) = LASTPASS → Forall (fun r => status r ≠ FATAL) l → muted s = false →
  ∃ s', for_each l raise s = Ret tt s'
    ∧ messages (err s') = messages (err s) ++ (diag_of <$> visible (fresh s) l)
    ∧ ErrorCount (err s') = ErrorCount (err s) + Z.of_nat (length (visible (fresh s) l)).
Proof.
  intros Hp Hl. revert s Hp. induction Hl as [|[[m b] t] l Ht Hl IH]; intros s Hp Hm.
  { exists s. cbn. rewrite app_nil_r. split_and!; [done|done|lia]. }
  cbn [for_each raise status snd visible] in *. unfold mbind, M_bind.
  assert (Hshow : t ≠ EARLY → (t = IF_FIRST → fresh s = true) →
    ∃ s', (Error m b t ;; for_each l raise) s = Ret tt s'
    ∧ let v := (m, b, t) :: (if decide (t = SUPPRESS) then [] else visible false l) in
      messages (err s') = messages (err s) ++ (diag_of <$> v)
      ∧ ErrorCount (err s') = ErrorCount (err s) + Z.of_nat (length v)).
  { intros He Hf. destruct (raise_shown m b t s) as (s1 & E & Hmsg & Hcnt & Hp1 & Hf1 & Hm1); try done.
    { by destruct t. }
    unfold mbind, M_bind. rewrite E. cbv zeta. destruct (decide (t = SUPPRESS)) as [->|Hn].
    - rewrite raise_muted by done. exists s1. cbn. rewrite Hmsg, Hcnt. split_and!; [done|done|lia].
    - destruct (IH s1 Hp1) as (s2 & E2 & Hmsg2 & Hcnt2).
      { rewrite Hm1. by apply bool_decide_eq_false_2. }
      exists s2. split; [done|]. rewrite Hf1, Hmsg, Hcnt in *. rewrite Hmsg2, Hcnt2. cbn.
      rewrite <- app_assoc. split; [done|lia]. }
  unfold mbind, M_bind in Hshow.
  destruct t; try done; try (apply Hshow; done).
  - rewrite raise_hidden by auto. by apply IH.
  - destruct (fresh s) eqn:Hf; [by apply Hshow|].
    rewrite raise_hidden by auto. rewrite <- Hf. by apply IH.
Qed.

(** C27: in the last pass the errors of a line show up to the first [SUPPRESS] one,
    without the [IF_FIRST] ones that are not the first and without the early
    ones, in order, and each is counted once. *)
Theorem errors_of_a_line : ∀ l s,
  pass (src s) = LASTPASS → Forall (fun r => status r ≠ FATAL) l →
  PreviousErrorLine (err s) ≠ CompiledCurrentLine (src s) →
  ∃ s', for_each l (fun '(m, b, t) => Error m b t) s = Ret tt s'
    ∧ messages (err s') = messages (err s) ++ (diag_of <$> visible true l)
    ∧ ErrorCount (err s') = ErrorCount (err s) + Z.of_nat (length (visible true l)).
Proof.
  intros l s Hp Hl Hline. assert (Hf : fresh s = true).
  { unfold fresh. by rewrite (proj2 (Z.eqb_neq _ _)). }
  rewrite <- Hf. apply raise_all; [done..|]. unfold muted. by rewrite Hf.
Qed.

Definition some_errors : list report :=
  [("early"%string, None, EARLY); ("one"%string, None, PASS3); ("if first"%string, None, IF_FIRST);
   ("two"%string, None, SUPPRESS); ("three"%string, None, PASS3)].

Lemma errors_of_a_line_witness :
  match for_each some_errors (fun '(m, b, t) => Error m b t) last_pass with
  | Ret _ s => d_msg <$> messages (err s) = ["one"%string; "two"%string]
  | _ => False
  end.
Proof.
  destruct (errors_of_a_line some_errors last_pass) as (s' & E & Hm & _);
    [reflexivity|by repeat constructor|discriminate|].
  rewrite E, Hm. reflexivity.
Defined.

(** ** Suppression by comment *)

(** What has to stand in the comment. *)
Definition suppression (id : list ascii) : list ascii :=
  if bool_decide (id = str "fake") then id else id ++ str "-ok".

Definition occurs_in (l s : list ascii) : Prop := ∃ a b, s = a ++ l ++ b.

(** No proper end of [id] is also a start of it. *)
Definition unbordered (id : list ascii) : bool :=
  forallb (fun k => negb (is_prefix (drop k id) id)) (seq 1 (pred (length id))).

Lemma is_prefix_spec l s : is_prefix l s = true ↔ ∃ r, s = l ++ r.
Proof.
  revert s. induction l as [|c l IH]; intros [|d s]; cbn [is_prefix app].
  - split; [by exists []|done].
  - split; [by eexists|done].
  - split; [done|by intros [r ?]].
  - rewrite andb_true_iff, IH, Ascii.eqb_eq. split.
    + intros [-> [r ->]]. by exists r.
    + intros [r [= -> ->]]. eauto.
Qed.

Lemma suppressed_skip id s k :
  id ≠ [] → suppressed_in id s k = suppressed_in id (drop k s) 0.
Proof.
  intros Hid. revert s. induction k as [|k IH]; intros s; [by rewrite drop_0|].
  destruct s as [|c s]; cbn [suppressed_in drop]; [by destruct id|]. apply IH.
Qed.

Lemma occurs_cons l c s : occurs_in l (c :: s) ↔ is_prefix l (c :: s) = true ∨ occurs_in l s.
Proof.
  rewrite is_prefix_spec. split.
  - intros ([|a0 a] & b & E); [left; by exists b|]. right. injection E as -> E. by exists a, b.
  - intros [[r E]|(a & b & ->)]; [by exists [], r|by exists (c :: a), b].
Qed.

Lemma occurs_nil l : l ≠ [] → ¬ occurs_in l [].
Proof. intros Hl (a & b & E). destruct a, l; done. Qed.

(** Two occurrences of an unbordered word do not overlap. *)
Lemma unbordered_apart id a r r' :
  unbordered id = true → id ++ r = a ++ id ++ r' → a = [] ∨ (length id ≤ length a)%nat.
Proof.
  intros Hu E. destruct (Nat.le_gt_cases (length id) (length a)) as [H|H]; [by right|left].
  destruct a as [|c a]; [done|exfalso].
  assert (Hd : is_prefix (drop (length (c :: a)) id) id = true).
  { apply is_prefix_spec.
    assert (Hid : id = (c :: a) ++ drop (length (c :: a)) id).
    { rewrite <- (take_drop (length (c :: a)) id) at 1. f_equal.
      apply (f_equal (take (length (c :: a)))) in E. rewrite take_app_le, take_app_length in E by lia. done. }
    set (d := drop (length (c :: a)) id) in *. exists (drop (length d) id).
    assert (E' : d ++ r = id ++ r') by (apply (app_inv_head (c :: a)); rewrite app_assoc, <- Hid; exact E).
    assert (Hlen : (length d ≤ length id)%nat) by (unfold d; rewrite length_drop; lia).
    rewrite <- (take_drop (length d) id) at 1. f_equal.
    apply (f_equal (take (length d))) in E'. rewrite take_app_length, take_app_le in E' by done. done. }
  unfold unbordered in Hu. rewrite forallb_forall in Hu.
  specialize (Hu (length (c :: a))). rewrite Hd in Hu. cbn [negb] in Hu.
  discriminate Hu. apply in_seq. cbn [length] in *. lia.
Qed.

Lemma suppression_prefix id s :
  is_prefix (suppression id) s
  = is_prefix id s && (bool_decide (id = str "fake") || is_prefix (str "-ok") (drop (length id) s)).
Proof.
  unfold suppression. case_bool_decide; [by rewrite andb_true_r|]. cbn [orb].
  apply eq_bool_prop_intro. rewrite !Is_true_true, andb_true_iff, !is_prefix_spec. split.
  - intros [r ->]. rewrite <- app_assoc, drop_app_length. eauto.
  - intros [[r ->] [r' E]]. rewrite drop_app_length in E. subst r. exists r'. by rewrite app_assoc.
Qed.

Lemma suppression_nonempty id : id ≠ [] → suppression id ≠ [].
Proof. unfold suppression. case_bool_decide; [done|]. by destruct id. Qed.

Lemma suppressed_in_sound id s :
  id ≠ [] → suppressed_in id s 0 = true → occurs_in (suppression id) s.
Proof.
  intros Hid. induction s as [s IH] using (induction_ltof1 _ (@length ascii)); unfold ltof in IH.
  destruct s as [|c s]; cbn [suppressed_in].
  { destruct (is_prefix id []) eqn:E; [by destruct id|done]. }
  rewrite occurs_cons, suppression_prefix.
  destruct (is_prefix id (c :: s)) eqn:Hp; cbn [andb]; [|right; apply IH; [cbn; lia|done]].
  destruct (_ || _); [by left|]. rewrite suppressed_skip by done. intros H.
  apply IH in H as (a & b & E); [|rewrite length_drop; cbn; lia].
  right. exists (take (pred (length id)) s ++ a), b. rewrite <- app_assoc, <- E. by rewrite take_drop.
Qed.

Lemma suppressed_in_complete id s :
  id ≠ [] → unbordered id = true → occurs_in (suppression id) s → suppressed_in id s 0 = true.
Proof.
  intros Hid Hu. induction s as [s IH] using (induction_ltof1 _ (@length ascii)); unfold ltof in IH.
  destruct s as [|c s]; cbn [suppressed_in].
  { intros H. by apply occurs_nil in H; [|apply suppression_nonempty]. }
  rewrite occurs_cons, suppression_prefix.
  destruct (is_prefix id (c :: s)) eqn:Hp; cbn [andb].
  2: { intros [?|?]; [done|]. apply IH; [cbn; lia|done]. }
  destruct (_ || _); [done|]. intros [?|(a & b & E)]; [done|].
  rewrite suppressed_skip by done. apply IH; [rewrite length_drop; cbn; lia|].
  apply is_prefix_spec in Hp as [r Hp].
  assert (Hpre : ∃ r', suppression id ++ b = id ++ r').
  { unfold suppression. case_bool_decide; [by eexists|]. rewrite <- app_assoc. by eexists. }
  destruct Hpre as [r' Hr'].
  destruct (unbordered_apart id (c :: a) r r' Hu) as [?|Hlen]; [|done|].
  { rewrite <- Hp, E, Hr'. done. }
  destruct id as [|i id]; [done|]. cbn [length pred] in *.
  exists (drop (length id) a), b. rewrite E, drop_app_le by lia. done.
Qed.

(** The place of the text that suppresses the warning [id] on the line. *)
Definition asked_for (id : string) (s : St) : Prop :=
  ∃ c, eolComment (src s) = Some c ∧ occurs_in (suppression (str id)) c.

(** C28: a warning is only suppressed when its id followed by [-ok] (for the
    fake-instruction warning the id alone) stands in the comment at the end of the
    line, and always then; the two ids that start the way they end may be
    overlooked right behind themselves. *)
Theorem suppressedById_spec :
  (∀ id s, id ≠ EmptyString → suppressedById id s = true → asked_for id s)
  ∧ (∀ id s, is_Some (assoc id w_texts) → id ∉ ["fwdref"; "trdext"]%string →
       asked_for id s → suppressedById id s = true).
Proof.
  split; intros id s.
  - intros Hid. unfold suppressedById, asked_for. destruct (eolComment (src s)) as [c|]; [|done].
    intros H. exists c. split; [done|]. apply suppressed_in_sound; [by destruct id|done].
  - intros [x Hx] Hne (c & Hc & Hocc). unfold suppressedById. rewrite Hc.
    assert (Hall : forallb (fun e => negb (Ascii.eqb NUL (hd NUL (str (fst e))))
      && (unbordered (str (fst e)) || bool_decide (fst e ∈ ["fwdref"; "trdext"]%string))) w_texts = true)
      by by vm_compute.
    rewrite forallb_forall in Hall. unfold assoc in Hx.
    apply fmap_Some in Hx as ([k v] & Hf & _). apply find_some in Hf as [Hin Hk].
    apply bool_decide_eq_true in Hk. cbn in Hk. subst k. specialize (Hall _ Hin). cbn [fst] in Hall.
    rewrite (bool_decide_eq_false_2 _ Hne), orb_false_r, andb_true_iff in Hall. destruct Hall as [Hn Hu].
    apply suppressed_in_complete; [by destruct id|done..].
Qed.

Lemma suppressedById_spec_witness :
  suppressedById "rdlow" (set_eolComment (Some (str "; rdlow? rdlow-ok")) last_pass) = true.
Proof.
  apply (proj2 suppressedById_spec "rdlow"%string); [by eexists|by rewrite !not_elem_of_cons; split_and!; [discriminate|discriminate|apply not_elem_of_nil]|].
  exists (str "; rdlow? rdlow-ok"). split; [done|]. exists (str "; rdlow? "), []. reflexivity.
Defined.
