(* ===== verification/Numbers.v ===== *)
(** * Numeric literals: what the number parsers compute

    The value of a list of digits, the exact overflow test of the power-of-two
    bases, the one-sided test of the other bases, and the round trips of printed
    decimal and hexadecimal numbers. *)

From S2P Require Export Progress.

(** The number the digits stand for. *)
Definition number_from (base : Z) (a : Z) (l : list ascii) : Z :=
  fold_left (fun a c => a * base + getval c) l a.
Definition number (base : Z) (l : list ascii) : Z := number_from base 0 l.

(** A digit of the base. *)
Definition is_digit_of (base : Z) (c : ascii) : Prop := isalnum c = true ∧ 0 ≤ getval c < base.

#[export] Instance is_digit_of_dec base c : Decision (is_digit_of base c).
Proof. unfold is_digit_of. apply _. Defined.

Lemma number_from_nonneg base a l :
  0 ≤ base → 0 ≤ a → Forall (is_digit_of base) l → 0 ≤ number_from base a l.
Proof.
  intros Hb Ha Hl. revert a Ha. induction Hl as [|c l [_ Hc] Hl IH]; intros a Ha; simpl; [done|].
  apply IH. nia.
Qed.
Lemma number_from_mono base a l :
  1 ≤ base → 0 ≤ a → Forall (is_digit_of base) l → a ≤ number_from base a l.
Proof.
  intros Hb Ha Hl. revert a Ha. induction Hl as [|c l [_ Hc] Hl IH]; intros a Ha; simpl; [done|].
  etransitivity; [|apply IH; nia]. nia.
Qed.

(** ** The loop over the digits *)

Fixpoint fold_digits (fold : Z → Z → Z * bool) (l : list ascii) (v : Z) (e : option numerr) : Z * option numerr :=
  match l with
  | [] => (v, e)
  | c :: l =>
      let '(v', over) := fold v (getval c) in
      fold_digits fold l v' (if over then Some getNumericValueErr_overflow else e)
  end.

Lemma digits_loop_run base fold l b r v e :
  Forall (is_digit_of base) l →
  digits_loop base fold (length l) (mk_text b (l ++ r)) v e
  = (fold_digits fold l v e, mk_text (rev l ++ b) r).
Proof.
  intros Hl. revert b v e. induction Hl as [|c l [Ha Hc] Hl IH]; intros b v e; [done|].
  cbn [digits_loop length app fold_digits]. cbv zeta. unfold cur, adv at 1; cbn [aft bef].
  assert (Hq : (Ascii.eqb c "'" || Ascii.eqb c "_") = false).
  { apply orb_false_iff. split; apply Ascii.eqb_neq; intros ->; done. }
  rewrite Hq, Ha. cbn [andb negb]. assert (Hn : Ascii.eqb c NUL = false) by (apply Ascii.eqb_neq; by intros ->).
  rewrite Hn. cbn [orb]. rewrite (proj2 (Z.leb_gt base (getval c))) by lia.
  destruct (fold v (getval c)) as [v' over].
  unfold adv; cbn [aft bef]. rewrite IH. cbn [rev]. by rewrite <- app_assoc.
Qed.

(** *** Bases that are a power of two: the overflow test is exact *)

Lemma land_high_zero m w :
  0 ≤ m → Z.land w (- 2 ^ m) = 0 ↔ 0 ≤ w < 2 ^ m.
Proof.
  intros Hm.
  assert (E : - 2 ^ m = Z.lnot (Z.ones m)) by (rewrite Z.ones_equiv; unfold Z.lnot; lia).
  rewrite E. change (Z.land w (Z.lnot (Z.ones m))) with (Z.land w (Z.lnot (Z.ones m))).
  rewrite <- Z.ldiff_land, Z.ldiff_ones_r by lia.
  rewrite Z.shiftl_mul_pow2, Z.shiftr_div_pow2 by lia.
  pose proof (Z.pow_pos_nonneg 2 m ltac:(lia) Hm) as Hp.
  pose proof (Z.div_mod w (2 ^ m) ltac:(lia)) as Hd.
  pose proof (Z.mod_pos_bound w (2 ^ m) Hp) as Hb.
  split; intros H; [|rewrite Z.div_small by lia; lia].
  assert (w / 2 ^ m = 0) by nia. nia.
Qed.

Lemma mask_TwoBased k : 1 ≤ k ≤ 5 → wrap32 (Z.shiftl (-1) (32 - k)) = - 2 ^ (32 - k).
Proof.
  intros Hk. assert (H : k = 1 ∨ k = 2 ∨ k = 3 ∨ k = 4 ∨ k = 5) by lia.
  by destruct H as [->|[->|[->|[->| ->]]]].
Qed.

Lemma u32_wrap32 z : u32 (wrap32 z) = u32 z.
Proof. apply wrap32_mod. Qed.

Lemma u32_in32 w : in32 w → u32 w = if w <? 0 then w + 2 ^ 32 else w.
Proof.
  unfold in32, INT_MIN, INT_MAX, u32. intros H. destruct (Z.ltb_spec w 0).
  - rewrite <- (Z_mod_plus_full w 1), Z.mod_small by lia. lia.
  - by rewrite Z.mod_small by lia.
Qed.

Lemma over_TwoBased k w :
  1 ≤ k ≤ 5 → in32 w →
  negb (Z.land w (wrap32 (Z.shiftl (-1) (32 - k))) =? 0) = (2 ^ (32 - k) <=? u32 w).
Proof.
  intros Hk Hw. rewrite mask_TwoBased by done. rewrite u32_in32 by done.
  pose proof (land_high_zero (32 - k) w ltac:(lia)) as Hz.
  assert (Hp : 2 ^ (32 - k) ≤ 2 ^ 31) by (apply Z.pow_le_mono_r; lia).
  unfold in32, INT_MIN, INT_MAX in Hw.
  destruct (Z.eqb_spec (Z.land w (- 2 ^ (32 - k))) 0) as [E|E]; cbn [negb]; symmetry.
  - apply Hz in E. destruct (Z.ltb_spec w 0); apply Z.leb_gt; lia.
  - destruct (Z.ltb_spec w 0); apply Z.leb_le; [lia|].
    destruct (Z.le_gt_cases (2 ^ (32 - k)) w); [done|]. destruct E. apply Hz. lia.
Qed.

Lemma wrap32_add_l a b : wrap32 (wrap32 a + b) = wrap32 (a + b).
Proof.
  apply wrap32_eq. rewrite Zplus_mod, wrap32_mod, <- Zplus_mod. done.
Qed.
Lemma wrap32_mul_l a b : wrap32 (wrap32 a * b) = wrap32 (a * b).
Proof.
  apply wrap32_eq. rewrite Zmult_mod, wrap32_mod, <- Zmult_mod. done.
Qed.

(** The overflow error as the digits leave it. *)
Definition overflow_if (b : bool) : option numerr := if b then Some getNumericValueErr_overflow else None.

Lemma fold_TwoBased_run k l a :
  1 ≤ k ≤ 5 → 0 ≤ a → Forall (is_digit_of (2 ^ k)) l →
  fold_digits (fold_TwoBased k) l (wrap32 a) (overflow_if (2 ^ 32 <=? a))
  = (wrap32 (number_from (2 ^ k) a l), overflow_if (2 ^ 32 <=? number_from (2 ^ k) a l)).
Proof.
  intros Hk Ha Hl. revert a Ha. induction Hl as [|c l [_ Hc] Hl IH]; intros a Ha; [done|].
  cbn [fold_digits]. unfold fold_TwoBased at 1; cbv zeta.
  rewrite over_TwoBased, u32_wrap32 by auto using wrap32_range.
  cbn [number_from fold_left]. fold (number_from (2 ^ k) (a * 2 ^ k + getval c) l).
  rewrite Z.shiftl_mul_pow2, wrap32_mul_l, wrap32_add_l by lia.
  rewrite <- IH by nia. f_equal.
  assert (Hs : 2 ^ 32 = 2 ^ (32 - k) * 2 ^ k) by (rewrite <- Z.pow_add_r by lia; f_equal; lia).
  pose proof (Z.pow_pos_nonneg 2 (32 - k) ltac:(lia) ltac:(lia)) as Hp.
  unfold u32. destruct (Z.leb_spec (2 ^ 32) a) as [H|H].
  - rewrite (proj2 (Z.leb_le _ (a * 2 ^ k + getval c))) by nia. by destruct (_ <=? _).
  - rewrite Z.mod_small by lia. unfold overflow_if.
    destruct (Z.leb_spec (2 ^ (32 - k)) a); destruct (Z.leb_spec (2 ^ 32) (a * 2 ^ k + getval c)); [done|nia|nia|done].
Qed.

(** *** The other bases: no false alarm, but the test misses overflows *)

Lemma fold_IntBased_value base l a e :
  fst (fold_digits (fold_IntBased base) l (wrap32 a) e) = wrap32 (number_from base a l).
Proof.
  revert a e. induction l as [|c l IH]; intros a e; [done|].
  cbn [fold_digits]. unfold fold_IntBased at 1; cbv zeta.
  rewrite <- wrap32_add_l, wrap32_mul_l, wrap32_add_l. apply IH.
Qed.

Lemma fold_IntBased_clean base l a :
  2 ≤ base ≤ 36 → 0 ≤ a → Forall (is_digit_of base) l → number_from base a l < 2 ^ 32 →
  fold_digits (fold_IntBased base) l (wrap32 a) None = (wrap32 (number_from base a l), None).
Proof.
  intros Hb Ha Hl. revert a Ha. induction Hl as [|c l [Hx Hc] Hl IH]; intros a Ha Hn; [done|].
  cbn [fold_digits]. unfold fold_IntBased at 1; cbv zeta.
  cbn [number_from fold_left] in *. fold (number_from base (a * base + getval c) l) in *.
  pose proof (number_from_mono base (a * base + getval c) l ltac:(lia) ltac:(nia) Hl).
  rewrite <- wrap32_add_l, wrap32_mul_l, wrap32_add_l, !u32_wrap32.
  unfold u32. rewrite !Z.mod_small by nia.
  rewrite (proj2 (Z.ltb_ge _ _)) by nia. apply IH; [nia|done].
Qed.

Lemma fold_digits_app fold l k v e :
  fold_digits fold (l ++ k) v e
  = fold_digits fold k (fst (fold_digits fold l v e)) (snd (fold_digits fold l v e)).
Proof.
  revert v e. induction l as [|c l IH]; intros v e; [done|]. cbn [app fold_digits].
  destruct (fold v (getval c)) as [v' over]. apply IH.
Qed.
Lemma number_from_app base a l k : number_from base a (l ++ k) = number_from base (number_from base a l) k.
Proof. apply fold_left_app. Qed.

(** The values of up to ten decimal digits that are reported: there are two gaps, from
    4772185884 on and from 9544371768 on. *)
Definition reported10 (n : Z) : bool :=
  ((2 ^ 32 <=? n) && (n <? 4772185884)) || ((2 ^ 33 <=? n) && (n <? 9544371768)).

Lemma wraps_below v d :
  0 ≤ v < 10 ^ 9 → 0 ≤ d < 10 → ((v * 10 + d) mod 2 ^ 32 <? v) = reported10 (v * 10 + d).
Proof.
  intros Hv Hd. unfold reported10. change (10 ^ 9) with 1000000000 in Hv.
  change (2 ^ 32) with 4294967296. change (2 ^ 33) with 8589934592. set (n := v * 10 + d).
  pose proof (Z.div_mod n 4294967296 ltac:(lia)) as Hn. pose proof (Z.mod_pos_bound n 4294967296 ltac:(lia)) as Hm.
  set (q := n / 4294967296) in *. set (m := n mod 4294967296) in *. clearbody q m. subst n.
  assert (q = 0 ∨ q = 1 ∨ q = 2) as [-> | [-> | ->]] by lia;
    apply Bool.eq_iff_eq_true; rewrite orb_true_iff, !andb_true_iff, !Z.leb_le, !Z.ltb_lt; lia.
Qed.

Lemma fold_decimal_error l :
  Forall (is_digit_of 10) l → number 10 l < 10 ^ 10 →
  snd (fold_digits (fold_IntBased 10) l 0 None) = overflow_if (reported10 (number 10 l)).
Proof.
  intros Hl Hn. destruct l as [|c l _] using rev_ind; [done|]. rename l into k.
  apply Forall_app in Hl as [Hk Hc]. apply Forall_singleton in Hc as [_ Hc].
  unfold number in *. rewrite number_from_app in *. cbn [number_from fold_left] in *. fold (number 10 k) in *.
  set (v := number 10 k) in *. assert (0 ≤ v) by (apply number_from_nonneg; [lia|lia|done]).
  change (10 ^ 10) with 10000000000 in Hn.
  pose proof (fold_IntBased_clean 10 k 0 ltac:(lia) ltac:(lia) Hk ltac:(change (2 ^ 32) with 4294967296; fold (number 10 k); lia)) as Hf.
  change (wrap32 0) with 0 in Hf. rewrite fold_digits_app, Hf. cbn [fst snd fold_digits]. fold (number 10 k). fold v.
  unfold fold_IntBased. cbv zeta. cbn [snd].
  rewrite <- wrap32_add_l, wrap32_mul_l, wrap32_add_l, !u32_wrap32. unfold u32. rewrite (Z.mod_small v) by lia.
  rewrite wraps_below by lia. by destruct (reported10 _).
Qed.

(** ** The two routines on well-formed digits *)

Lemma GetNumericValue_TwoBased_run k l b r s :
  1 ≤ k ≤ 5 → l ≠ [] → Forall (is_digit_of (2 ^ k)) l →
  GetNumericValue_TwoBased (mk_text b (l ++ r)) (length l) k s
  = Ret (number (2 ^ k) l <? 2 ^ 32, wrap32 (number (2 ^ k) l), mk_text (rev l ++ b) r)
        (set_getNumericValueLastErr (overflow_if (2 ^ 32 <=? number (2 ^ k) l)) s).
Proof.
  intros Hk Hn Hl. unfold GetNumericValue_TwoBased.
  rewrite (proj2 (Z.ltb_ge k 1)), (proj2 (Z.ltb_ge 5 k)) by lia. cbn [orb].
  unfold numeric_value. destruct (length l) eqn:Hlen; [by destruct l|]. rewrite <- Hlen.
  rewrite Z.shiftl_mul_pow2, Z.mul_1_l by lia. rewrite digits_loop_run by done.
  pose proof (fold_TwoBased_run k l 0 Hk ltac:(lia) Hl) as Hf. fold (number (2 ^ k) l) in Hf.
  change (wrap32 0) with 0 in Hf. change (overflow_if (2 ^ 32 <=? 0)) with (@None numerr) in Hf.
  rewrite Hf. run. f_equal. f_equal. f_equal.
  destruct (Z.ltb_spec (number (2 ^ k) l) (2 ^ 32)); destruct (Z.leb_spec (2 ^ 32) (number (2 ^ k) l)); try lia; done.
Qed.

Lemma GetNumericValue_IntBased_run base l b r s over :
  2 ≤ base ≤ 36 → l ≠ [] → Forall (is_digit_of base) l →
  snd (fold_digits (fold_IntBased base) l 0 None) = overflow_if over →
  GetNumericValue_IntBased (mk_text b (l ++ r)) (length l) base s
  = Ret (negb over, wrap32 (number base l), mk_text (rev l ++ b) r)
        (set_getNumericValueLastErr (overflow_if over) s).
Proof.
  intros Hb Hn Hl Hv. unfold GetNumericValue_IntBased.
  rewrite (proj2 (Z.ltb_ge base 2)), (proj2 (Z.ltb_ge 36 base)) by lia. cbn [orb].
  unfold numeric_value. destruct (length l) eqn:Hlen; [by destruct l|]. rewrite <- Hlen.
  rewrite digits_loop_run by done.
  pose proof (fold_IntBased_value base l 0 None) as Hf. change (wrap32 0) with 0 in Hf.
  destruct (fold_digits (fold_IntBased base) l 0 None) as [v e]. cbn [fst snd] in *. subst v e. by destruct over.
Qed.

(** ** Printed numbers *)

Lemma number_from_cons base a c l :
  number_from base a (c :: l) = number_from base (a * base + getval c) l.
Proof. done. Qed.

Lemma digit_char_val d : 0 ≤ d < 36 → getval (digit_char d) = d ∧ isalnum (digit_char d) = true.
Proof.
  intros H. assert (Hin : d ∈ (Z.of_nat <$> seq 0 36)).
  { apply list_elem_of_fmap. exists (Z.to_nat d). split; [lia|]. apply elem_of_seq. lia. }
  assert (Hall : Forall (λ d, getval (digit_char d) = d ∧ isalnum (digit_char d) = true) (Z.of_nat <$> seq 0 36)).
  { repeat constructor. }
  rewrite Forall_forall in Hall. by apply Hall.
Qed.

Lemma digit_char_is_digit base d : 2 ≤ base ≤ 36 → 0 ≤ d < base → is_digit_of base (digit_char d).
Proof.
  intros Hb Hd. destruct (digit_char_val d ltac:(lia)) as [Hv Ha]. split; [done|]. by rewrite Hv.
Qed.

Lemma digits_fuel_spec base f n acc :
  2 ≤ base ≤ 36 → 0 ≤ n < base ^ Z.of_nat f → (0 < f)%nat →
  number base (digits_fuel f base n acc) = number_from base n acc.
Proof.
  intros Hb. revert n acc. induction f as [|f IH]; intros n acc Hn Hf; [lia|].
  cbn [digits_fuel]. cbv zeta.
  pose proof (Z.mod_pos_bound n base ltac:(lia)) as Hm.
  pose proof (Z.div_mod n base ltac:(lia)) as Hd.
  destruct (digit_char_val (n mod base) ltac:(lia)) as [Hv _].
  destruct (Z.ltb_spec n base) as [H|H].
  - unfold number. rewrite number_from_cons, Hv, Z.mod_small by lia. f_equal.
  - rewrite Nat2Z.inj_succ, Z.pow_succ_r in Hn by lia.
    assert (Hdiv : 0 ≤ n / base < base ^ Z.of_nat f).
    { split; [apply Z.div_pos; lia|]. apply Z.div_lt_upper_bound; lia. }
    destruct f as [|f].
    + cbn in Hdiv. assert (1 ≤ n / base) by (apply Z.div_le_lower_bound; lia). lia.
    + rewrite IH, number_from_cons, Hv by (done || lia). f_equal. lia.
Qed.

Lemma digits_fuel_Forall base f n acc :
  2 ≤ base ≤ 36 → Forall (is_digit_of base) acc → Forall (is_digit_of base) (digits_fuel f base n acc).
Proof.
  intros Hb. revert n acc. induction f as [|f IH]; intros n acc Hacc; [done|].
  cbn [digits_fuel]. cbv zeta.
  assert (H : Forall (is_digit_of base) (digit_char (n mod base) :: acc)).
  { constructor; [|done]. apply digit_char_is_digit; [done|]. apply Z.mod_pos_bound. lia. }
  destruct (n <? base); auto.
Qed.

Lemma number_digits base n : 2 ≤ base ≤ 36 → 0 ≤ n → number base (digits base n) = n.
Proof.
  intros Hb Hn. unfold digits. rewrite digits_fuel_spec; try done; [|lia].
  split; [done|]. rewrite Nat2Z.inj_succ, Z2Nat.id by apply Z.log2_nonneg.
  destruct (Z.eq_dec n 0) as [->|]; [cbn; lia|].
  apply Z.lt_le_trans with (2 ^ Z.succ (Z.log2 n)); [apply Z.log2_spec; lia|].
  apply Z.pow_le_mono_l. lia.
Qed.

Lemma digits_Forall base n : 2 ≤ base ≤ 36 → Forall (is_digit_of base) (digits base n).
Proof. intros. by apply digits_fuel_Forall. Qed.

Lemma digits_fuel_nonempty f base n acc : (0 < f)%nat ∨ acc ≠ [] → digits_fuel f base n acc ≠ [].
Proof.
  revert n acc. induction f as [|f IH]; intros n acc [H|H]; try lia; [done| |];
    cbn [digits_fuel]; cbv zeta; destruct (n <? base); (done || (apply IH; by right)).
Qed.
Lemma digits_nonempty base n : digits base n ≠ [].
Proof. apply digits_fuel_nonempty. left. lia. Qed.

(** ** Literals *)

(** What may follow a literal without being part of it. *)
Definition literal_stop (r : list ascii) : Prop :=
  match r with
  | [] => True
  | c :: r' => isalnum c = false ∧ Ascii.eqb c "." = false
               ∧ ((Ascii.eqb c "'" || Ascii.eqb c "_") && isalnum (cur (mk_text [] r'))) = false
  end.

Lemma literal_end_run l b r :
  Forall (fun c => isalnum c = true) l → literal_stop r →
  literal_end b (l ++ r) = mk_text (rev l ++ b) r.
Proof.
  intros Hl Hr. revert b. induction Hl as [|c l Hc Hl IH]; intros b.
  - destruct r as [|d r]; [done|]. destruct Hr as (Ha & _ & Hq). cbn [literal_end app].
    rewrite Ha. unfold cur in Hq; cbn [aft] in Hq. cbn [orb]. by rewrite Hq.
  - cbn [literal_end app]. rewrite Hc. cbn [orb]. rewrite IH. cbn [rev]. by rewrite <- app_assoc.
Qed.

Lemma Forall_alnum base l : Forall (is_digit_of base) l → Forall (fun c => isalnum c = true) l.
Proof. intros H. eapply Forall_impl; [exact H|]. by intros c []. Qed.

Ltac all_chars c := destruct c as [[] [] [] [] [] [] [] []].

(** None of the characters that mean something inside a literal. *)
Definition plain_digit (c : ascii) : bool :=
  isdigit c
  && negb (existsb (Ascii.eqb c) (str "#$%'_."))
  && negb (existsb (Ascii.eqb (or20 c)) (str "xbqhod")).

Lemma decimal_plain c : is_digit_of 10 c → plain_digit c = true.
Proof. intros [Ha Hv]. all_chars c; cbv in Ha |- *; first [done|by destruct Hv]. Qed.
Lemma or20_plain c : isalnum c = false → existsb (Ascii.eqb (or20 c)) (str "xbqhod") = false.
Proof. intros Ha. all_chars c; cbv in Ha |- *; congruence. Qed.

Lemma plain_digit_facts c :
  plain_digit c = true →
  isdigit c = true
  ∧ (Ascii.eqb c "#" = false ∧ Ascii.eqb c "$" = false ∧ Ascii.eqb c "%" = false
     ∧ Ascii.eqb c "'" = false ∧ Ascii.eqb c "_" = false ∧ Ascii.eqb c "." = false)
  ∧ (Ascii.eqb (or20 c) "x" = false ∧ Ascii.eqb (or20 c) "b" = false ∧ Ascii.eqb (or20 c) "q" = false
     ∧ Ascii.eqb (or20 c) "h" = false ∧ Ascii.eqb (or20 c) "o" = false ∧ Ascii.eqb (or20 c) "d" = false).
Proof.
  unfold plain_digit. rewrite !andb_true_iff, !negb_true_iff. cbn [existsb str list_ascii_of_string].
  rewrite !orb_false_iff. intuition.
Qed.

Lemma cur_stop c r : literal_stop r → isalnum c = true → or20 (cur (mk_text [] r)) = or20 c →
  existsb (Ascii.eqb (or20 c)) (str "xbqhod") = true → False.
Proof.
  intros Hr Ha He Hx. rewrite <- He in Hx. destruct r as [|d r]; [by cbv in Hx|].
  destruct Hr as (Hd & _). unfold cur in Hx; cbn [aft] in Hx. by rewrite or20_plain in Hx.
Qed.

Lemma or20_second c l r :
  Forall (is_digit_of 10) l → literal_stop r →
  existsb (Ascii.eqb (or20 (pk (mk_text [] ((c :: l) ++ r)) 1))) (str "xbqhod") = false.
Proof.
  intros Hl Hr. unfold pk; cbn [aft app nth]. destruct l as [|d l]; cbn [app].
  - destruct r as [|e r]; [done|]. destruct Hr as (He & _). cbn [nth]. by apply or20_plain.
  - cbn [nth]. inversion Hl as [|? ? Hd]. apply decimal_plain, plain_digit_facts in Hd.
    cbn [existsb str list_ascii_of_string]. destruct Hd as (_ & _ & -> & -> & -> & -> & -> & ->). done.
Qed.

(** The last character of the literal. *)
Lemma prev_end c l b r : prev (mk_text (rev (c :: l) ++ b) r) = List.last (c :: l) NUL.
Proof.
  unfold prev; cbn [bef]. revert c. induction l as [|d l IH]; intros c; [done|].
  specialize (IH d). cbn [rev] in *. rewrite <- !app_assoc in *. cbn [app] in *.
  change (List.last (c :: d :: l) NUL) with (List.last (d :: l) NUL). rewrite <- IH.
  destruct (rev l) eqn:E; [done|]. done.
Qed.

Lemma last_Forall (P : ascii → Prop) c l : Forall P (c :: l) → P (List.last (c :: l) NUL).
Proof.
  revert c. induction l as [|d l IH]; intros c H; inversion_clear H; [done|].
  change (List.last (c :: d :: l) NUL) with (List.last (d :: l) NUL). auto.
Qed.

Lemma room_skip l b r b' : (room (mk_text b (l ++ r)) - room (mk_text b' r))%nat = length l.
Proof. unfold room; cbn [aft]. rewrite length_app. lia. Qed.

(** The literal without a decimal part, once its parts are known. *)
Lemma GetConstant_parts op hardEnd sb p shiftBase base pend suffixed s :
  (isdigit (cur op) || isc op "#" || isc op "$" || isc op "%") = true →
  GetConstant_end op = hardEnd → GetConstant_prefix op hardEnd = (sb, p) →
  (if sb =? 0 then GetConstant_suffix hardEnd else (sb, 0, hardEnd, false))
  = (shiftBase, base, pend, suffixed) →
  isc hardEnd "." = false →
  (isc p "'" || Ascii.eqb (prev pend) "'" || isc p "_" || Ascii.eqb (prev pend) "_") = false →
  GetConstant op s
  = ('(ok, val, _) ← GetNumericValue p (room p - room pend)%nat shiftBase base;
     failed ← (if (ok : bool) then mret false else GetNumericValue_ProcessLastError op);
     mret (if (failed : bool) then (0, val, op) else (1, val, hardEnd))) s.
Proof.
  intros Hok Hend Hpre Hsuf Hdot Hsep. unfold GetConstant. rewrite Hok. cbn [massert].
  rewrite Hend, Hpre. cbv beta iota zeta. rewrite Hsuf, Hdot, Hsep. cbn [andb negb].
  unfold mbind at 1, M_bind, mret at 1, M_ret. unfold mbind, M_bind, mret, M_ret.
  destruct (GetNumericValue _ _ _ _ s) as [[[ok val] x] s'|s'| |]; try done.
  destruct ok; [done|]. destruct (GetNumericValue_ProcessLastError op s') as [[] s''|s''| |]; done.
Qed.

Lemma isc_stop b r : literal_stop r → isc (mk_text b r) "." = false.
Proof. unfold isc, cur; cbn [aft]. destruct r as [|d r]; [done|]. by intros (_ & -> & _). Qed.

(** A hexadecimal digit is not a separator. *)
Lemma is_digit_no_tick base c :
  is_digit_of base c → Ascii.eqb c "'" = false ∧ Ascii.eqb c "_" = false.
Proof. intros [Ha _]. split; apply Ascii.eqb_neq; intros ->; done. Qed.

(** *** Numbers printed in hexadecimal *)

Lemma digits_fuel_length base f w : ∀ n acc,
  2 ≤ base → (1 ≤ w)%nat → 0 ≤ n < base ^ Z.of_nat w →
  (length (digits_fuel f base n acc) ≤ w + length acc)%nat.
Proof.
  revert w. induction f as [|f IH]; intros w n acc Hb Hw Hn; cbn [digits_fuel]; [lia|].
  destruct (Z.ltb_spec n base) as [Hlt|Hge]; cbn [length]; [lia|].
  destruct w as [|[|w]]; [lia|change (base ^ Z.of_nat 1) with (base ^ 1) in Hn; lia|].
  specialize (IH (S w) (n / base) (digit_char (n mod base) :: acc) Hb ltac:(lia)). cbn [length] in IH.
  enough (0 ≤ n / base < base ^ Z.of_nat (S w)) by (specialize (IH ltac:(done)); lia).
  split; [apply Z.div_pos; lia|]. apply Z.div_lt_upper_bound; [lia|].
  replace (Z.of_nat (S (S w))) with (1 + Z.of_nat (S w)) in Hn by lia. rewrite Z.pow_add_r in Hn by lia. lia.
Qed.

Lemma number_zeros k l : number 16 (repeat "0"%char k ++ l) = number 16 l.
Proof. induction k as [|k IH]; [done|]. exact IH. Qed.
Lemma fmt_0X_digits width n : Forall (is_digit_of 16) (fmt_0X width n).
Proof.
  unfold fmt_0X, fmt_X. apply Forall_app. split; [|by apply digits_Forall].
  apply List.Forall_forall. intros c ->%repeat_spec. by apply (bool_decide_unpack _).
Qed.
Lemma number_fmt_0X width n : number 16 (fmt_0X width n) = u32 n.
Proof.
  unfold fmt_0X, fmt_X. rewrite number_zeros. apply number_digits; [lia|].
  unfold u32. by apply Z.mod_pos_bound.
Qed.

(** What [GetNumericValue_ProcessLastError] makes of an overflow. *)
Definition overflow_error (op : text) : M St unit :=
  Error (numerr_text getNumericValueErr_overflow) (Some (aft op)) SUPPRESS.

Lemma GetConstant_decimal_run l b r s over :
  l ≠ [] → Forall (is_digit_of 10) l → literal_stop r →
  snd (fold_digits (fold_IntBased 10) l 0 None) = overflow_if over →
  let op := mk_text b (l ++ r) in
  GetConstant op s
  = (modify (set_getNumericValueLastErr (overflow_if over)) ;;
     mwhen over (overflow_error op) ;;
     mret (1, wrap32 (number 10 l), mk_text (rev l ++ b) r)) s.
Proof.
  intros Hn Hl Hr Hv op. subst op. destruct l as [|c l]; [done|]. clear Hn.
  assert (Hc : plain_digit c = true) by (inversion Hl; by apply decimal_plain).
  pose proof (last_Forall _ c l Hl) as Hlast. apply decimal_plain, plain_digit_facts in Hlast.
  apply plain_digit_facts in Hc as (Hd & (H1 & H2 & H3 & H4 & H5 & H6) & _).
  destruct Hlast as (_ & (_ & _ & _ & L4 & L5 & _) & (_ & L6 & L7 & L8 & L9 & L10)).
  pose proof (or20_second c l r ltac:(by inversion Hl) Hr) as Hs.
  cbn [existsb str list_ascii_of_string] in Hs. rewrite !orb_false_iff in Hs.
  destruct Hs as (S1 & S2 & S3 & _).
  erewrite GetConstant_parts with (hardEnd := mk_text (rev (c :: l) ++ b) r) (sb := 0)
    (p := mk_text b ((c :: l) ++ r)) (shiftBase := 0) (base := 10)
    (pend := mk_text (rev (c :: l) ++ b) r) (suffixed := false).
  - rewrite room_skip. change (GetNumericValue ?p ?n 0 10) with (GetNumericValue_IntBased p n 10).
    unfold mbind at 1, M_bind. rewrite (GetNumericValue_IntBased_run 10 _ _ _ _ over) by (done || lia).
    unfold GetNumericValue_ProcessLastError, overflow_error. destruct over; [|done]. run. cbn.
    by destruct (Error _ _ _ _).
  - unfold cur; cbn [aft app]. by rewrite Hd.
  - unfold GetConstant_end, isc, cur; cbn [aft app]. rewrite H1, H2, H3. cbn [orb bef aft].
    change (c :: l ++ r) with ((c :: l) ++ r). apply literal_end_run; [by apply Forall_alnum in Hl|done].
  - unfold GetConstant_prefix, isc, cur.
    change (pk (mk_text b ((c :: l) ++ r)) 1) with (pk (mk_text [] ((c :: l) ++ r)) 1).
    rewrite S1, S2, S3. cbn [aft app]. rewrite H1, H2, H3. by rewrite !andb_false_r.
  - cbn [Z.eqb]. unfold GetConstant_suffix. by rewrite prev_end, L6, L7, L8, L9, L10.
  - by apply isc_stop.
  - rewrite prev_end, L4, L5. unfold isc, cur; cbn [aft app]. by rewrite H4, H5.
Qed.

Lemma GetConstant_decimal_digits l b r s :
  l ≠ [] → Forall (is_digit_of 10) l → literal_stop r → number 10 l < 2 ^ 32 →
  GetConstant (mk_text b (l ++ r)) s
  = Ret (1, wrap32 (number 10 l), mk_text (rev l ++ b) r) (set_getNumericValueLastErr None s).
Proof.
  intros Hn Hl Hr Hv. pose proof (fold_IntBased_clean 10 l 0 ltac:(lia) ltac:(lia) Hl Hv) as Hf.
  change (wrap32 0) with 0 in Hf. rewrite (GetConstant_decimal_run l b r s false) by (done || by rewrite Hf). done.
Qed.

Lemma GetConstant_hex_digits l b r s :
  l ≠ [] → Forall (is_digit_of 16) l → literal_stop r →
  let op := mk_text b ("0"%char :: "x"%char :: l ++ r) in
  let ok := number 16 l <? 2 ^ 32 in
  GetConstant op s
  = (modify (set_getNumericValueLastErr (overflow_if (negb ok))) ;;
     mwhen (negb ok) (overflow_error op) ;;
     mret (1, wrap32 (number 16 l), mk_text (rev l ++ "x"%char :: "0"%char :: b) r)) s.
Proof.
  intros Hn Hl Hr op ok. subst op. destruct l as [|c l]; [done|]. clear Hn.
  pose proof (last_Forall _ c l Hl) as Hlast. apply is_digit_no_tick in Hlast as [L1 L2].
  destruct (is_digit_no_tick 16 c ltac:(by inversion Hl)) as [C1 C2].
  set (b' := "x"%char :: "0"%char :: b).
  erewrite GetConstant_parts with (hardEnd := mk_text (rev (c :: l) ++ b') r) (sb := 4)
    (p := mk_text b' ((c :: l) ++ r)) (shiftBase := 4) (base := 0)
    (pend := mk_text (rev (c :: l) ++ b') r) (suffixed := false).
  - rewrite room_skip. change (GetNumericValue ?p ?n 4 0) with (GetNumericValue_TwoBased p n 4).
    change 16 with (2 ^ 4) in Hl. unfold mbind at 1, M_bind.
    rewrite GetNumericValue_TwoBased_run by (done || lia).
    change (2 ^ 4) with 16. subst ok. rewrite <- Z.leb_antisym. unfold GetNumericValue_ProcessLastError.
    destruct (Z.ltb_spec (number 16 (c :: l)) (2 ^ 32)) as [H|H].
    + rewrite (proj2 (Z.leb_gt _ _)) by done. done.
    + rewrite (proj2 (Z.leb_le _ _)) by done. unfold overflow_error. run. cbn.
      by destruct (Error _ _ _ _).
  - done.
  - unfold GetConstant_end. change (isc _ "#" || isc _ "$" || isc _ "%") with false. cbn [bef aft].
    change ("0"%char :: "x"%char :: (c :: l) ++ r) with (("0"%char :: "x"%char :: c :: l) ++ r).
    rewrite literal_end_run; [|by repeat constructor; apply Forall_alnum in Hl; inversion Hl|done].
    f_equal. subst b'. cbn [rev]. rewrite <- !app_assoc. done.
  - done.
  - done.
  - by apply isc_stop.
  - rewrite prev_end, L1, L2. unfold isc, cur; cbn [aft app]. by rewrite C1, C2.
Qed.

Lemma digits_decided base l : bool_decide (Forall (is_digit_of base) l) = true → Forall (is_digit_of base) l.
Proof. apply bool_decide_eq_true. Qed.

(** ** The theorems *)

(** C6: a number below 2^32 printed in decimal is read back, wherever it stands
    in the line and whatever ends it, and nothing is reported. *)
Theorem GetConstant_decimal_roundtrip : ∀ n b r s,
  0 ≤ n < 2 ^ 32 → literal_stop r →
  GetConstant (mk_text b (digits 10 n ++ r)) s
  = Ret (1, wrap32 n, mk_text (rev (digits 10 n) ++ b) r) (set_getNumericValueLastErr None s).
Proof.
  intros n b r s Hn Hr. pose proof (number_digits 10 n ltac:(lia) ltac:(lia)) as Hv.
  rewrite GetConstant_decimal_digits; [by rewrite Hv|apply digits_nonempty|by apply digits_Forall|done|lia].
Qed.

Lemma GetConstant_decimal_roundtrip_witness :
  GetConstant (txt "3000000000+1") last_pass
  = Ret (1, -1294967296, mk_text (rev (str "3000000000")) (str "+1")) (set_getNumericValueLastErr None last_pass).
Proof. exact (GetConstant_decimal_roundtrip 3000000000 [] (str "+1") last_pass ltac:(lia) ltac:(done)). Defined.

(** C7: a hexadecimal literal of any length has the value of its digits modulo
    2^32, and an overflow is reported exactly when that value needs more than 32
    bits. *)
Theorem GetConstant_hex_exact : ∀ l b r s,
  l ≠ [] → Forall (is_digit_of 16) l → literal_stop r →
  let overflow := 2 ^ 32 <=? number 16 l in
  GetConstant (mk_text b (str "0x" ++ l ++ r)) s
  = (modify (set_getNumericValueLastErr (overflow_if overflow)) ;;
     mwhen overflow (Error "Overflow" (Some (str "0x" ++ l ++ r)) SUPPRESS) ;;
     mret (1, wrap32 (number 16 l), mk_text (rev (str "0x" ++ l) ++ b) r)) s.
Proof.
  intros l b r s Hn Hl Hr overflow. cbn [str list_ascii_of_string app].
  rewrite (GetConstant_hex_digits l b r s Hn Hl Hr), <- Z.leb_antisym.
  fold overflow. cbn [rev]. by rewrite <- !app_assoc.
Qed.

Lemma GetConstant_hex_exact_witness :
  match GetConstant (txt "0x1FFFFFFFF") last_pass with
  | Ret (1, -1, _) s => ErrorCount (err s) = 1 ∧ number 16 (str "1FFFFFFFF") = 2 ^ 33 - 1
  | _ => False
  end.
Proof.
  pose proof (GetConstant_hex_exact (str "1FFFFFFFF") [] [] last_pass ltac:(done)) as H.
  change (txt "0x1FFFFFFFF") with (mk_text [] (str "0x" ++ str "1FFFFFFFF" ++ [])).
  rewrite H; [by vm_compute|by apply digits_decided|done].
Defined.

(** C8: the overflow test of the other bases is one-sided, and this is what it finds in
    decimal literals of up to ten digits (zeros in front aside): the value is always that
    of the digits modulo 2^32, what fits is never reported, and of what does not fit the
    values from 4772185884 to 8589934591 and from 9544371768 on pass without a word. *)
Theorem GetConstant_decimal_overflow_exact : ∀ l b r s,
  l ≠ [] → Forall (is_digit_of 10) l → literal_stop r → number 10 l < 10 ^ 10 →
  let n := number 10 l in
  let reported := ((2 ^ 32 <=? n) && (n <? 4772185884)) || ((2 ^ 33 <=? n) && (n <? 9544371768)) in
  GetConstant (mk_text b (l ++ r)) s
  = (modify (set_getNumericValueLastErr (overflow_if reported)) ;;
     mwhen reported (Error "Overflow" (Some (l ++ r)) SUPPRESS) ;;
     mret (1, wrap32 n, mk_text (rev l ++ b) r)) s.
Proof.
  intros l b r s Hn Hl Hr Hv n reported.
  exact (GetConstant_decimal_run l b r s reported Hn Hl Hr (fold_decimal_error l Hl Hv)).
Qed.

(** 4772185883 is reported; 4772185884 is not, and counts as 477218588. *)
Lemma GetConstant_decimal_overflow_exact_witness :
  match GetConstant (txt "4772185883") last_pass with Ret (1, 477218587, _) s => ErrorCount (err s) = 1 | _ => False end
  ∧ match GetConstant (txt "4772185884") last_pass with Ret (1, 477218588, _) s => ErrorCount (err s) = 0 | _ => False end.
Proof.
  split.
  - pose proof (GetConstant_decimal_overflow_exact (str "4772185883") [] [] last_pass ltac:(done)) as H.
    change (txt "4772185883") with (mk_text [] (str "4772185883" ++ [])).
    rewrite H; [by vm_compute|by apply digits_decided|done|by vm_compute].
  - pose proof (GetConstant_decimal_overflow_exact (str "4772185884") [] [] last_pass ltac:(done)) as H.
    change (txt "4772185884") with (mk_text [] (str "4772185884" ++ [])).
    rewrite H; [by vm_compute|by apply digits_decided|done|by vm_compute].
Defined.
