(* ===== verification/Literals.v ===== *)
(** * Keywords and string literals

    What [cmphstr] recognizes, and the round trips of byte strings through the two
    kinds of string literals. *)

From S2P Require Export Numbers.

(** ** Keywords *)

(** A keyword as the callers write it: lower case, a letter first. *)
Definition keyword_chars (l : list ascii) : Prop :=
  match l with [] => False | c :: _ => islower c = true end.

Lemma cmp_tail_spec conv l p r : cmp_tail conv l p = Some r ↔ p = map conv l ++ r.
Proof.
  revert p. induction l as [|c l IH]; intros p; cbn [cmp_tail map app].
  - split; [by intros [= ->]|by intros ->].
  - destruct p as [|d p]; [by split|]. destruct (Ascii.eqb_spec d (conv c)) as [->|Hn].
    + rewrite IH. split; [by intros ->|by intros [= ->]].
    + split; [done|]. intros [= ? _]. done.
Qed.

Lemma advn_app w b r : advn (length w) (mk_text b (w ++ r)) = mk_text (rev w ++ b) r.
Proof.
  revert b. induction w as [|c w IH]; intros b; [done|]. cbn [length advn app].
  unfold adv; cbn [aft bef]. rewrite IH. cbn [rev]. by rewrite <- app_assoc.
Qed.

Lemma length_str k : length (str k) = String.length k.
Proof. induction k as [|c k IH]; [done|]. cbn. by f_equal. Qed.

Lemma toupper_upper c : islower c = true → isupper (toupper c) = true.
Proof. intros H. all_chars c; cbv in H |- *; congruence. Qed.
Lemma lower_not_upper c : islower c = true → isupper c = false.
Proof. intros H. all_chars c; cbv in H |- *; congruence. Qed.

(** The text starts with the keyword, all in lower case or all in upper case. *)
Definition spelled (k : list ascii) (p : text) (w r : list ascii) : Prop :=
  aft p = w ++ r ∧ (w = k ∨ w = map toupper k).

Lemma spelled_case k p w r :
  keyword_chars k → spelled k p w r →
  w = map (if isupper (match aft p with [] => NUL | c :: _ => c end) then toupper else id) k.
Proof.
  intros Hk [E Hw]. rewrite E. destruct k as [|c k]; [done|]. cbn in Hk.
  destruct Hw as [-> | ->]; cbn [app map].
  - rewrite (lower_not_upper c Hk). f_equal. by rewrite map_id.
  - by rewrite (toupper_upper c Hk).
Qed.

(** C29: a keyword is recognized exactly when the text goes on with it, all in
    lower case or all in upper case, and what follows ends a word; the pointer
    then stands behind it, and otherwise where it was. *)
Theorem cmphstr_spec : ∀ p k a,
  keyword_chars (str k) →
  (∀ w r, spelled (str k) p w r → word_end (mk_text (rev w ++ bef p) r) a = true →
     cmphstr p k a = (true, mk_text (rev w ++ bef p) r))
  ∧ ((∀ w r, spelled (str k) p w r → word_end (mk_text (rev w ++ bef p) r) a = false) →
     cmphstr p k a = (false, p)).
Proof.
  intros [b t] k a Hk. unfold cmphstr. cbn [aft bef].
  assert (Hh : cmp_head (str k) t = Some (str k, t)).
  { destruct (str k) as [|c l]; [done|]. cbn [cmp_head]. unfold isalpha. cbn in Hk.
    by rewrite Hk, orb_true_r. }
  rewrite Hh. cbv zeta. set (conv := if isupper _ then toupper else id).
  assert (Hs : ∀ w r, spelled (str k) (mk_text b t) w r → w = map conv (str k)).
  { intros w r H. by apply spelled_case in H. }
  destruct (cmp_tail conv (str k) t) as [r'|] eqn:E.
  - apply cmp_tail_spec in E.
    assert (Hadv : advn (String.length k) (mk_text b t) = mk_text (rev (map conv (str k)) ++ b) r').
    { rewrite E, <- advn_app. f_equal. by rewrite length_map, length_str. }
    rewrite Hadv. split.
    + intros w r H Hend. pose proof (Hs _ _ H) as ->. destruct H as [Ht _]. cbn [aft] in Ht.
      rewrite E in Ht. apply app_inv_head in Ht as ->. by rewrite Hend.
    + intros Hend. rewrite (Hend (map conv (str k)) r'); [done|]. split; [done|].
      unfold conv. destruct (isupper _); [by right|]. left. by rewrite map_id.
  - split; [|done]. intros w r H _. pose proof (Hs _ _ H) as ->. destruct H as [Ht _]. cbn [aft] in Ht.
    by apply cmp_tail_spec in Ht; rewrite Ht in E.
Qed.

Lemma cmphstr_spec_witness :
  cmphstr (txt "NOT(x)") "not" true = (true, mk_text (rev (str "NOT")) (str "(x)"))
  ∧ cmphstr (txt "Not(x)") "not" true = (false, txt "Not(x)").
Proof.
  split.
  - apply (proj1 (cmphstr_spec (txt "NOT(x)") "not" true ltac:(done)) (str "NOT") (str "(x)")); [|done].
    split; [done|by right].
  - apply (cmphstr_spec (txt "Not(x)") "not" true ltac:(done)).
    intros w r [E [-> | ->]]; discriminate E.
Defined.

(** ** String literals *)

(** A byte as a character of a literal: in apostrophes an apostrophe is doubled,
    in quotes the backslash, the quote and the zero byte are escaped. *)
Definition apo_char (c : ascii) : list ascii := if Ascii.eqb c "'" then str "''" else [c].
Definition quo_char (c : ascii) : list ascii :=
  if Ascii.eqb c NUL then str "\0"
  else if Ascii.eqb c "\" || Ascii.eqb c "034" then ["\"%char; c] else [c].
Definition lit_char (quotes : bool) : ascii → list ascii := if quotes then quo_char else apo_char.
Definition delim (quotes : bool) : ascii := if quotes then "034"%char else "'"%char.
Definition literal (quotes : bool) (l : list ascii) : list ascii :=
  delim quotes :: (flat_map (lit_char quotes) l) ++ [delim quotes].

(** In apostrophes there is no way to write the zero byte. *)
Definition writable (quotes : bool) (c : ascii) : Prop := quotes = true ∨ c ≠ NUL.

Definition get_char (quotes : bool) (p : text) : M St (option Z * text) :=
  if quotes then GetCharConstInDoubleQuotes p else GetCharConstInApostrophes p.

Lemma schar_byte c : Z.land (schar c + 0) 255 = code c.
Proof. by all_chars c. Qed.

Lemma get_char_lit quotes c b r s :
  writable quotes c →
  get_char quotes (mk_text b (lit_char quotes c ++ r)) s
  = Ret (Some (schar c), mk_text (rev (lit_char quotes c) ++ b) r) s.
Proof.
  intros Hw. destruct quotes; cbn [get_char lit_char].
  - clear. all_chars c; reflexivity.
  - destruct Hw as [?|Hw]; [done|]. unfold apo_char, GetCharConstInApostrophes.
    destruct (Ascii.eqb_spec c "'") as [->|Hn]; [done|]. unfold isc, cur; cbn [aft app].
    rewrite (proj2 (Ascii.eqb_neq c "'") Hn), (proj2 (Ascii.eqb_neq c NUL) Hw). done.
Qed.

(** Behind the closing delimiter: not another apostrophe, no suffix, no joining. *)
Definition literal_ends (r : list ascii) : Prop :=
  let p := mk_text [] r in
  isc p "'" = false ∧ isc p "Z" = false ∧ isc p "C" = false
  ∧ ∀ b, need (mk_text b r) ".." = (0, blanks (mk_text b r)).

Lemma get_char_end quotes b r s :
  literal_ends r →
  get_char quotes (mk_text b (delim quotes :: r)) s = Ret (None, mk_text b (delim quotes :: r)) s.
Proof.
  intros (Hr & _). destruct quotes; [done|]. unfold get_char, GetCharConstInApostrophes.
  assert (E : isn (mk_text b (delim false :: r)) 1 "'" = isc (mk_text [] r) "'") by by destruct r.
  by rewrite E, Hr.
Qed.

Lemma string_chars_lit quotes l b r e max fuel s :
  Forall (writable quotes) l → literal_ends r →
  (length l < fuel)%nat → Z.of_nat (length e + length l) < max →
  string_chars fuel quotes (mk_text b ((flat_map (lit_char quotes) l) ++ delim quotes :: r)) e max 0 s
  = Ret (e ++ map code l, mk_text (rev (flat_map (lit_char quotes) l) ++ b) (delim quotes :: r)) s.
Proof.
  intros Hl Hr. revert b e fuel. induction Hl as [|c l Hc Hl IH]; intros b e [|fuel] Hf Hm; try (cbn in Hf; lia);
    cbn [length] in *; cbn [string_chars]; rewrite (proj2 (Z.ltb_lt _ _)) by lia;
    unfold mbind at 1, M_bind;
    change (if quotes then GetCharConstInDoubleQuotes ?p else GetCharConstInApostrophes ?p) with (get_char quotes p).
  - cbn [flat_map app]. rewrite get_char_end by done. cbn [map rev app]. by rewrite app_nil_r.
  - change (flat_map (lit_char quotes) (c :: l)) with (lit_char quotes c ++ (flat_map (lit_char quotes) l)).
    rewrite <- app_assoc, get_char_lit by done. rewrite schar_byte, IH by (done || (rewrite ?length_app; cbn; lia)).
    cbn [map]. rewrite rev_app_distr, <- !app_assoc. done.
Qed.

Lemma length_lit quotes l : (length l ≤ length (flat_map (lit_char quotes) l))%nat.
Proof.
  induction l as [|c l IH]; [done|].
  change (flat_map (lit_char quotes) (c :: l)) with (lit_char quotes c ++ (flat_map (lit_char quotes) l)).
  rewrite length_app. cbn [length].
  assert (1 ≤ length (lit_char quotes c))%nat; [|lia].
  destruct quotes; cbn [lit_char]; unfold quo_char, apo_char; repeat case_match; cbn; lia.
Qed.

(** C30: every non-empty string of bytes, written as a literal in quotes or in
    apostrophes, is read back as these bytes; the buffer must hold one byte more. *)
Theorem string_literal_roundtrip : ∀ quotes l b r max s,
  l ≠ [] → Forall (writable quotes) l → literal_ends r → Z.of_nat (length l) < max →
  GetCharConstAsString (mk_text b (literal quotes l ++ r)) [] max 0 s
  = Ret (if quotes then 2 else 1, map code l, blanks (mk_text (rev (literal quotes l) ++ b) r)) s.
Proof.
  intros quotes l b r max s Hn Hl Hr Hm. unfold literal. cbn [app]. rewrite <- app_assoc. cbn [app].
  set (ls := flat_map (lit_char quotes) l).
  set (p := mk_text b (delim quotes :: ls ++ delim quotes :: r)). unfold GetCharConstAsString.
  assert (Hq : isc p "034" = quotes ∧ isc p "'" = negb quotes) by by destruct quotes.
  destruct Hq as [Hq Hq']. rewrite Hq, Hq'.
  assert (Hd : negb quotes && negb (negb quotes) = false) by by destruct quotes. rewrite Hd.
  change (room p) with (S (length (ls ++ delim quotes :: r))). cbn [string_parts]. rewrite Hq.
  change (adv p) with (mk_text (delim quotes :: b) (ls ++ delim quotes :: r)).
  unfold mbind at 1, M_bind. unfold ls at 2. rewrite string_chars_lit; [|done..| |cbn; lia].
  2: { unfold room, ls; cbn [aft]. rewrite length_app. pose proof (length_lit quotes l). lia. }
  fold ls. cbn [app length]. cbv beta iota zeta. change (if quotes then "034"%char else "'"%char) with (delim quotes).
  unfold cur at 1; cbn [aft]. rewrite Ascii.eqb_refl. cbn [negb].
  change (adv (mk_text ?x (delim quotes :: r))) with (mk_text (delim quotes :: x) r). destruct Hr as (_ & HZ & HC & Hneed).
  change (isc (mk_text ?x r) "Z") with (isc (mk_text [] r) "Z"). rewrite HZ.
  change (isc (mk_text ?x r) "C") with (isc (mk_text [] r) "C"). rewrite HC.
  rewrite length_map. destruct (length l) eqn:El; [by destruct l|]. cbn [Nat.eqb mwhen].
  rewrite Hneed. cbn [rev]. rewrite rev_app_distr, <- !app_assoc. done.
Qed.

Definition sample_bytes : list ascii := str "it's " ++ ["034"%char; NUL; "255"%char].

Lemma string_literal_roundtrip_witness :
  GetCharConstAsString (mk_text [] (literal true sample_bytes ++ str ", 1")) [] 128 0 last_pass
  = Ret (2, map code sample_bytes, mk_text (rev (literal true sample_bytes)) (str ", 1")) last_pass.
Proof.
  assert (Hw : Forall (writable true) sample_bytes) by (apply Forall_forall; intros; by left).
  assert (Hr : literal_ends (str ", 1")) by (split_and!; [..|intros b]; reflexivity).
  assert (Hn : sample_bytes ≠ []) by discriminate.
  rewrite (string_literal_roundtrip true sample_bytes [] (str ", 1") 128 last_pass Hn Hw Hr eq_refl).
  reflexivity.
Defined.
