(* ===== verification/ExprSpec.v ===== *)
(** * Expressions: the parser computes what the grammar says

    An abstract syntax of expressions, its printing with every choice of white
    space, its value in 32-bit arithmetic, and the proof that parsing a printed
    expression gives its value: precedence and associativity of all the levels,
    brackets and prefix operators. *)

From S2P Require Export Numbers.

(** ** Abstract syntax *)

Inductive unop := U_not | U_com | U_plus | U_minus.
Inductive binop :=
| B_mul | B_div | B_mod | B_add | B_sub | B_shl | B_shr | B_ushr | B_min | B_max
| B_lt | B_gt | B_le | B_ge | B_eq | B_ne | B_and | B_xor | B_or | B_land | B_lor.

Inductive expr :=
| Num (n : Z)
| Un (op : unop) (e : expr)
| Bin (op : binop) (a b : expr).

Definition un_text (op : unop) : ascii :=
  match op with U_not => "!" | U_com => "~" | U_plus => "+" | U_minus => "-" end.

Definition op_text (op : binop) : list ascii :=
  str match op with
  | B_mul => "*" | B_div => "/" | B_mod => "%" | B_add => "+" | B_sub => "-"
  | B_shl => "<<" | B_shr => ">>" | B_ushr => ">>>" | B_min => "<?" | B_max => ">?"
  | B_lt => "<" | B_gt => ">" | B_le => "<=" | B_ge => ">=" | B_eq => "==" | B_ne => "!="
  | B_and => "&" | B_xor => "^" | B_or => "|" | B_land => "&&" | B_lor => "||"
  end.

(** The level of precedence, 1 the tightest. *)
Definition op_level (op : binop) : nat :=
  match op with
  | B_mul | B_div | B_mod => 1
  | B_add | B_sub => 2
  | B_shl | B_shr | B_ushr => 3
  | B_min | B_max => 4
  | B_lt | B_gt | B_le | B_ge => 5
  | B_eq | B_ne => 6
  | B_and => 7 | B_xor => 8 | B_or => 9 | B_land => 10 | B_lor => 11
  end.

(** ** Value *)

Definition flag (b : bool) : Z := if b then -1 else 0.

Definition un_denote (op : unop) (v : Z) : Z :=
  match op with
  | U_not => flag (v =? 0) | U_com => - v - 1 | U_plus => v | U_minus => wrap32 (- v)
  end.

(** [None]: an error is reported (division by zero) or the result undefined in
    C++ (shift count outside 0..31, the quotient that does not fit). *)
Definition bin_denote (op : binop) (a b : Z) : option Z :=
  let dividable := negb (b =? 0) && negb ((a =? INT_MIN) && (b =? -1)) in
  let shiftable := (0 <=? b) && (b <=? 31) in
  match op with
  | B_mul => Some (wrap32 (a * b))
  | B_div => if dividable then Some (Z.quot a b) else None
  | B_mod => if dividable then Some (Z.rem a b) else None
  | B_add => Some (wrap32 (a + b))
  | B_sub => Some (wrap32 (a - b))
  | B_shl => if shiftable then Some (wrap32 (a * 2 ^ b)) else None
  | B_shr => if shiftable then Some (a / 2 ^ b) else None
  | B_ushr => if shiftable then Some (wrap32 (a mod 2 ^ 32 / 2 ^ b)) else None
  | B_min => Some (Z.min a b)
  | B_max => Some (Z.max a b)
  | B_lt => Some (flag (a <? b))
  | B_gt => Some (flag (b <? a))
  | B_le => Some (flag (a <=? b))
  | B_ge => Some (flag (b <=? a))
  | B_eq => Some (flag (a =? b))
  | B_ne => Some (flag (negb (a =? b)))
  | B_and => Some (Z.land a b)
  | B_xor => Some (Z.lxor a b)
  | B_or => Some (Z.lor a b)
  | B_land => Some (flag (negb (a =? 0) && negb (b =? 0)))
  | B_lor => Some (flag (negb (a =? 0) || negb (b =? 0)))
  end.

Fixpoint denote (e : expr) : option Z :=
  match e with
  | Num n => Some (wrap32 n)
  | Un op e => un_denote op <$> denote e
  | Bin op a b => va ← denote a; vb ← denote b; bin_denote op va vb
  end.

(** The numbers an expression holds fit in 32 bits. *)
Fixpoint in_bounds (e : expr) : Prop :=
  match e with
  | Num n => 0 ≤ n < 2 ^ 32
  | Un _ e => in_bounds e
  | Bin _ a b => in_bounds a ∧ in_bounds b
  end.

(** ** Printing

    [pr sp i e]: text of [e] for a place where the operators up to level [i] may
    stand unbracketed, with the blanks [sp] around operators. *)
Section print.
Context (sp : list ascii).

Definition brackets (l : list ascii) : list ascii := "("%char :: sp ++ l ++ sp ++ [")"%char].

Fixpoint pr (i : nat) (e : expr) : list ascii :=
  match e with
  | Num n => digits 10 n
  | Un op e => un_text op :: sp ++ pr 0 e
  | Bin op a b =>
      let body := pr (op_level op) a ++ sp ++ op_text op ++ sp ++ pr (pred (op_level op)) b in
      if (op_level op <=? i)%nat then body else brackets body
  end.
End print.

(** ** The levels of the parser by number *)

Definition nxt (i : nat) : text → Z * text :=
  match i with
  | 1 => mul_oper | 2 => add_oper | 3 => shift_oper | 4 => minmax_oper | 5 => cmp_oper
  | 6 => equ_oper | 7 => and_oper | 8 => xor_oper | 9 => or_oper | 10 => logand_oper
  | _ => logor_oper
  end%nat.
Definition app_value (i : nat) : Z → Z → Z → M St Z :=
  match i with
  | 1 => mul_value | 2 => add_value | 3 => shift_value | 4 => minmax_value | 5 => cmp_value
  | 6 => equ_value | 7 => and_value | 8 => xor_value | 9 => or_value | 10 => logand_value
  | _ => logor_value
  end%nat.

Fixpoint parse_level (entry : text → M St presult) (i : nat) : text → M St presult :=
  match i with
  | O => fun p => ParseExpUnair entry (S (room p)) p
  | S i => level (parse_level entry i) (nxt (S i)) (app_value (S i))
  end.

Lemma parse_level_LogOr entry : parse_level entry 11 = ParseExpLogOr entry.
Proof. reflexivity. Qed.

(** The code of the operator at its level. *)
Definition op_code (op : binop) : Z :=
  match op with
  | B_mul => code "*" | B_div => code "/" | B_mod => code "%"
  | B_add => code "+" | B_sub => code "-"
  | B_shl => code "<" + code "<" | B_shr => code ">" + code ">"
  | B_ushr => code ">" + code ">" + code ">"
  | B_min => code "<" + code "?" | B_max => code ">" + code "?"
  | B_lt => code "<" | B_gt => code ">" | B_le => code "<" + code "=" | B_ge => code ">" + code "="
  | B_eq => code "=" + code "=" | B_ne => code "!" + code "="
  | B_and | B_xor | B_or => match op with B_and => code "&" | B_xor => 1 | _ => code "|" end
  | B_land => code "&" + code "&" | B_lor => code "|" + code "|"
  end.

Definition op_apply (op : binop) : Z → Z → M St Z := app_value (op_level op) (op_code op).
Definition un_code (op : unop) : Z := code (un_text op).

(** The evaluation as the parser performs it, its effects included. *)
Fixpoint eval (e : expr) : M St Z :=
  match e with
  | Num n => modify (set_getNumericValueLastErr None) ;; mret (wrap32 n)
  | Un op e => v ← eval e; unary_value (un_code op) v
  | Bin op a b => va ← eval a; vb ← eval b; op_apply op va vb
  end.

(** ** Recognizing operators *)

(** No character that could continue an operator. *)
Definition op_safe (r : list ascii) : Prop :=
  existsb (Ascii.eqb (cur (mk_text [] r))) (str "<>=?&|") = false.

Lemma op_safe_facts c r :
  op_safe (c :: r) →
  Ascii.eqb c "<" = false ∧ Ascii.eqb c ">" = false ∧ Ascii.eqb c "=" = false
  ∧ Ascii.eqb c "?" = false ∧ Ascii.eqb c "&" = false ∧ Ascii.eqb c "|" = false.
Proof.
  unfold op_safe, cur; cbn [aft existsb str list_ascii_of_string]. rewrite !orb_false_iff. intuition.
Qed.

Lemma blanks_head b c r : White c = false → blanks (mk_text b (c :: r)) = mk_text b (c :: r).
Proof. intros H. unfold blanks, SkipBlanks; cbn [bef aft skip_white]. by rewrite H. Qed.

(** Runs the recognizers on a text that starts with an operator. *)
Ltac operators :=
  cbn [nxt op_level op_text op_code app str list_ascii_of_string rev];
  unfold mul_oper, add_oper, shift_oper, minmax_oper, cmp_oper, equ_oper, and_oper, xor_oper,
    or_oper, logand_oper, logor_oper, need, need_c, or_else, keyword;
  rewrite ?blanks_head by reflexivity;
  cbv [need_table isc isn cur pk adv advn bef aft nth fst snd str list_ascii_of_string
       Ascii.eqb Bool.eqb negb andb orb];
  fold Ascii.eqb.

Lemma nxt_op op b r :
  op_safe r →
  nxt (op_level op) (mk_text b (op_text op ++ r)) = (op_code op, mk_text (rev (op_text op) ++ b) r).
Proof.
  destruct r as [|c r]; [by destruct op|].
  intros (H1 & H2 & H3 & H4 & H5 & H6)%op_safe_facts.
  destruct op; try reflexivity.
  all: operators; all_chars c; first [reflexivity | discriminate].
Qed.

Ltac all_levels :=
  repeat match goal with i : nat |- _ => destruct i as [|i]; try (exfalso; lia) end.

(** A text that starts with an operator has none of a tighter level. *)
Lemma nxt_below op i b r :
  op_safe r → (1 ≤ i < op_level op)%nat →
  nxt i (mk_text b (op_text op ++ r)) = (0, mk_text b (op_text op ++ r)).
Proof.
  intros Hr Hi. destruct r as [|c r].
  - destruct op; cbn [op_level] in Hi; all_levels; reflexivity.
  - apply op_safe_facts in Hr as (H1 & H2 & H3 & H4 & H5 & H6).
    destruct op; cbn [op_level] in Hi; all_levels; try reflexivity.
    all: operators; all_chars c; first [reflexivity | discriminate].
Qed.

(** ** Blanks *)

Definition spaces (l : list ascii) : Prop := Forall (fun c => White c = true) l.

Lemma spaces_forallb l : forallb White l = true → spaces l.
Proof. intros H. apply Forall_forall. intros x Hx. rewrite forallb_forall in H. apply H. by apply list_elem_of_In. Qed.

Lemma skip_white_app ws b r : spaces ws → skip_white b (ws ++ r) = skip_white (rev ws ++ b) r.
Proof.
  intros H. revert b. induction H as [|c ws Hc Hws IH]; intros b; [done|].
  cbn [app skip_white rev]. rewrite Hc, IH. by rewrite <- app_assoc.
Qed.
Lemma blanks_app ws b r : spaces ws → blanks (mk_text b (ws ++ r)) = blanks (mk_text (rev ws ++ b) r).
Proof. apply skip_white_app. Qed.

Lemma blanks_head_of p : cur (blanks p) = NUL ∨ White (cur (blanks p)) = false.
Proof.
  destruct p as [b r]. unfold blanks, SkipBlanks; cbn [bef aft snd].
  revert b. induction r as [|c r IH]; intros b; cbn [skip_white]; [by left|].
  destruct (White c) eqn:E; [apply IH|by right].
Qed.
Lemma blanks_idemp p : blanks (blanks p) = blanks p.
Proof.
  destruct p as [b r]. unfold blanks, SkipBlanks; cbn [bef aft snd].
  revert b. induction r as [|c r IH]; intros b; cbn [skip_white]; [done|].
  destruct (White c) eqn:E; [apply IH|]. cbn [bef aft skip_white]. by rewrite E.
Qed.

Lemma nxt_cases (P : (text → Z * text) → Prop) :
  Forall P [mul_oper; add_oper; shift_oper; minmax_oper; cmp_oper; equ_oper; and_oper; xor_oper;
            or_oper; logand_oper; logor_oper] → ∀ i, P (nxt i).
Proof.
  intros H i. repeat match goal with H : Forall _ (_ :: _) |- _ => inversion_clear H end.
  destruct i as [|[|[|[|[|[|[|[|[|[|[|i]]]]]]]]]]]; done.
Qed.

Lemma nxt_blanks i p : nxt i (blanks p) = nxt i p.
Proof.
  revert i. apply (nxt_cases (fun n => n (blanks p) = n p)). repeat constructor;
    unfold mul_oper, add_oper, shift_oper, minmax_oper, cmp_oper, equ_oper, and_oper, xor_oper,
      or_oper, logand_oper, logor_oper, need, need_c; by rewrite blanks_idemp.
Qed.

Lemma level_loop_blanks i sub f v p :
  level_loop sub (nxt i) (app_value i) f v (blanks p) = level_loop sub (nxt i) (app_value i) f v p.
Proof. destruct f; cbn [level_loop]; [done|]. by rewrite nxt_blanks. Qed.

(** ** What may follow a printed expression *)

(** The literal before it ends there, and no operator up to the level starts. *)
Definition follow (i : nat) (r : list ascii) : Prop :=
  literal_stop r ∧ Ascii.eqb (cur (mk_text [] r)) "_" = false
  ∧ ∀ j b, (1 ≤ j ≤ i)%nat → nxt j (mk_text b r) = (0, blanks (mk_text b r)).

Lemma follow_le i j r : (i ≤ j)%nat → follow j r → follow i r.
Proof. intros Hij (H1 & H2 & H3). split_and!; [done..|]. intros k b Hk. apply H3. lia. Qed.

Lemma white_plain c : White c = true → isalnum c = false ∧ existsb (Ascii.eqb c) (str "'_.<>=?&|") = false.
Proof. intros H. all_chars c; cbv in H |- *; first [done|discriminate]. Qed.

Lemma literal_stop_head c r :
  isalnum c = false → existsb (Ascii.eqb c) (str "'_.") = false →
  literal_stop (c :: r) ∧ Ascii.eqb (cur (mk_text [] (c :: r))) "_" = false.
Proof.
  intros Ha Hx. cbn [existsb str list_ascii_of_string] in Hx. rewrite !orb_false_iff in Hx.
  destruct Hx as (H1 & H2 & H3 & _). cbn [literal_stop]. unfold cur; cbn [aft].
  rewrite H1, H2, H3. done.
Qed.

(** Behind an operand and blanks, an operator or a closing character. *)
Lemma follow_intro i sp c r :
  spaces sp → White c = false → isalnum c = false → existsb (Ascii.eqb c) (str "'_.") = false →
  (∀ j b, (1 ≤ j ≤ i)%nat → nxt j (mk_text b (c :: r)) = (0, mk_text b (c :: r))) →
  follow i (sp ++ c :: r).
Proof.
  intros Hsp Hw Ha Hx Hn. unfold follow. apply and_assoc. split.
  - destruct sp as [|d sp]; cbn [app]; [by apply literal_stop_head|].
    inversion Hsp as [|? ? Hd]. apply white_plain in Hd as [Hd1 Hd2]. apply literal_stop_head; [done|].
    revert Hd2. cbn [existsb str list_ascii_of_string]. rewrite !orb_false_iff. intuition.
  - intros j b Hj. rewrite <- nxt_blanks, blanks_app, blanks_head by done. by apply Hn.
Qed.

Definition closing (c : ascii) : bool := existsb (Ascii.eqb c) (str "),]};:").

Lemma nxt_closing j b c r : closing c = true → nxt j (mk_text b (c :: r)) = (0, mk_text b (c :: r)).
Proof.
  intros H. cbn [closing existsb str list_ascii_of_string] in H. unfold closing in H.
  rewrite !orb_true_iff, !Ascii.eqb_eq in H.
  revert j. apply (nxt_cases (fun n => n (mk_text b (c :: r)) = _)).
  destruct H as [H|[H|[H|[H|[H|[H|H]]]]]]; try discriminate; subst c; repeat constructor.
Qed.

Lemma follow_closing i sp c r : spaces sp → closing c = true → follow i (sp ++ c :: r).
Proof.
  intros Hsp Hc. assert (Hp : White c = false ∧ isalnum c = false ∧ existsb (Ascii.eqb c) (str "'_.") = false).
  { all_chars c; cbv in Hc |- *; first [done|discriminate]. }
  destruct Hp as (? & ? & ?). apply follow_intro; try done. intros. by apply nxt_closing.
Qed.

Lemma follow_nil i sp : spaces sp → follow i sp.
Proof.
  intros Hsp. unfold follow. apply and_assoc. split.
  - destruct sp as [|d sp]; cbn [app]; [done|]. inversion Hsp as [|? ? Hd].
    apply white_plain in Hd as [Hd1 Hd2]. apply literal_stop_head; [done|].
    revert Hd2. cbn [existsb str list_ascii_of_string]. rewrite !orb_false_iff. intuition.
  - intros j b _. rewrite <- nxt_blanks, <- (app_nil_r sp), blanks_app by done.
    apply (nxt_cases (fun n => n _ = _)). repeat constructor.
Qed.

(** ** Operands *)

Lemma cmphstr_not_word p c k a :
  isalpha c = true → isalpha (cur p) = false → cmphstr p (String c k) a = (false, p).
Proof.
  intros Hc Hp. unfold cmphstr. cbn [str list_ascii_of_string cmp_head]. rewrite Hc.
  cbv beta iota zeta. unfold cur in Hp. destruct (aft p) as [|d r]; [done|].
  cbn [cmp_tail]. assert (Hd : Ascii.eqb d ((if isupper d then toupper else id) c) = false).
  { apply Ascii.eqb_neq. intros E. unfold id in E.
    destruct (isupper d); rewrite E in Hp; [|congruence].
    clear -Hc Hp. all_chars c; cbv in Hc, Hp; discriminate. }
  by rewrite Hd.
Qed.

Lemma needa_not_word p ks a : isalpha (cur p) = false → needa p ks a = (0, p).
Proof. intros H. unfold needa. by rewrite H. Qed.

Lemma span_run f b l r :
  Forall (fun c => f c = true) l → f (cur (mk_text [] r)) = false →
  span f b (l ++ r) = (l, mk_text (rev l ++ b) r).
Proof.
  intros Hl Hr. revert b. induction Hl as [|c l Hc Hl IH]; intros b.
  - destruct r as [|d r]; cbn [app span rev]; [done|]. unfold cur in Hr; cbn [aft] in Hr. by rewrite Hr.
  - cbn [app span rev]. rewrite Hc, IH. by rewrite <- app_assoc.
Qed.

(** The head of an operand that is neither an operator nor a keyword. *)
Definition operand_head (c : ascii) : bool := isdigit c || Ascii.eqb c "(".

Lemma operand_head_facts c :
  operand_head c = true → White c = false ∧ isalpha c = false ∧ Ascii.eqb c NUL = false
  ∧ Ascii.eqb c "{" = false ∧ ∀ b r, unary_oper (mk_text b (c :: r)) = (0, mk_text b (c :: r)).
Proof. intros H. all_chars c; cbv in H; first [discriminate|repeat split]. Qed.

Section unary.
Context (entry : text → M St presult).

(** No keyword operator starts with a character that is not a letter. *)
Lemma ParseExpUnair_symbol n p :
  isalpha (cur (blanks p)) = false →
  ParseExpUnair entry (S n) p
  = (let '(oper, q) := unary_oper (blanks p) in
     if oper =? 0 then ParseExpPrim entry q
     else '(ok, rhs, q) ← ParseExpUnair entry n q;
          if negb ok then fails q else v ← unary_value oper rhs; mret (true, v, q)).
Proof.
  intros H. cbn [ParseExpUnair]. unfold attempt. by rewrite !cmphstr_not_word by done.
Qed.

Lemma ParseExpUnair_operand n b ws c r :
  spaces ws → operand_head c = true →
  ParseExpUnair entry (S n) (mk_text b (ws ++ c :: r)) = ParseExpPrim entry (mk_text (rev ws ++ b) (c :: r)).
Proof.
  intros Hws Hc. destruct (operand_head_facts c Hc) as (Hw & Ha & _ & _ & Hu).
  rewrite ParseExpUnair_symbol; rewrite blanks_app, blanks_head by done; [|done]. by rewrite Hu.
Qed.

Lemma ParseExpUnair_prefix n b ws op r :
  spaces ws →
  ParseExpUnair entry (S n) (mk_text b (ws ++ un_text op :: r))
  = ('(ok, rhs, q) ← ParseExpUnair entry n (mk_text (un_text op :: rev ws ++ b) r);
     if negb ok then fails q else v ← unary_value (un_code op) rhs; mret (true, v, q)).
Proof.
  intros Hws. assert (Hw : White (un_text op) = false) by by destruct op.
  rewrite ParseExpUnair_symbol; rewrite blanks_app, blanks_head by done; [by destruct op|by destruct op].
Qed.

Lemma GetTemporaryLabelValue_number b l r s :
  l ≠ [] → Forall (is_digit_of 10) l → literal_stop r → Ascii.eqb (cur (mk_text [] r)) "_" = false →
  GetTemporaryLabelValue (mk_text b (l ++ r)) true s = Ret (0, 0, mk_text b (l ++ r)) s.
Proof.
  intros Hn Hl Hr Hu.
  assert (Hd : Forall (fun c => isdigit c = true) l).
  { eapply Forall_impl; [exact Hl|]. intros c H. by apply decimal_plain, plain_digit_facts in H as (? & _). }
  destruct l as [|c l]; [done|]. inversion Hd as [|? ? Hc].
  destruct (operand_head_facts c) as (Hw & _ & Hnul & _); [unfold operand_head; by rewrite Hc|].
  unfold GetTemporaryLabelValue, SkipBlanks. cbn [aft bef app skip_white]. rewrite Hw.
  unfold isc at 1, cur at 1 2; cbn [aft]. rewrite Hnul, Hc. cbn [orb negb].
  change (mk_text b (c :: l ++ r)) with (mk_text b ((c :: l) ++ r)).
  assert (Hs : take_while isdigit (mk_text b ((c :: l) ++ r)) = (c :: l, mk_text (rev (c :: l) ++ b) r)).
  { apply (span_run isdigit b (c :: l) r); [done|]. destruct r as [|d r]; [done|].
    destruct Hr as (Ha & _). unfold cur; cbn [aft]. unfold isalnum in Ha. by apply orb_false_iff in Ha as []. }
  rewrite Hs. unfold isc at 1. unfold cur at 1 in Hu. unfold cur; cbn [aft] in *. rewrite Hu. done.
Qed.

Lemma ParseExpPrim_number b l r s :
  l ≠ [] → Forall (is_digit_of 10) l → number 10 l < 2 ^ 32 → follow 0 r →
  ParseExpPrim entry (mk_text b (l ++ r)) s
  = Ret (true, wrap32 (number 10 l), mk_text (rev l ++ b) r) (set_getNumericValueLastErr None s).
Proof.
  intros Hn Hl Hv (Hr & Hu & _).
  assert (Hc : ∃ c l', l = c :: l' ∧ isdigit c = true).
  { destruct l as [|c l']; [done|]. exists c, l'. split; [done|]. inversion Hl as [|? ? H].
    by apply decimal_plain, plain_digit_facts in H as (? & _). }
  destruct Hc as (c & l' & E & Hc).
  destruct (operand_head_facts c) as (Hw & _ & Hnul & Hcb & _); [unfold operand_head; by rewrite Hc|].
  assert (Hpar : Ascii.eqb c "(" = false) by (apply Ascii.eqb_neq; by intros ->).
  assert (Hsk : SkipBlanks (mk_text b (l ++ r)) = (false, mk_text b (l ++ r))).
  { subst l. unfold SkipBlanks; cbn [bef aft app skip_white]. rewrite Hw.
    unfold isc, cur; cbn [aft]. by rewrite Hnul. }
  unfold ParseExpPrim. rewrite Hsk.
  assert (Hcur : cur (mk_text b (l ++ r)) = c) by by subst l. unfold isc; rewrite !Hcur, Hpar, Hcb, Hc.
  unfold mbind at 1, M_bind, gets. rewrite andb_false_r. unfold mbind at 1, M_bind.
  rewrite GetTemporaryLabelValue_number by done. cbv beta iota zeta. cbn [Z.eqb].
  unfold prim_value. rewrite Hcur, Hc. cbn [orb]. unfold mbind, M_bind.
  by rewrite GetConstant_decimal_digits.
Qed.
End unary.

(** ** The printed expression is parsed back *)

Lemma op_safe_app ws c r :
  spaces ws → existsb (Ascii.eqb c) (str "<>=?&|") = false → op_safe (ws ++ c :: r).
Proof.
  unfold op_safe. intros [|d l Hd Hl]; [done|]. intros _. cbn [app]. unfold cur; cbn [aft].
  all_chars d; cbv in Hd |- *; first [done|discriminate].
Qed.

Section roundtrip.
Context (sp : list ascii) (Hsp : spaces sp).

Abbreviation pr := (pr sp).

Definition at_end (i : nat) (p : text) : text := match i with O => p | S _ => blanks p end.

(** The text [l], read at level [i], amounts to [m]. *)
Definition parses (f i : nat) (l : list ascii) (m : M St Z) : Prop :=
  ∀ b ws r s, spaces ws → follow i r →
    parse_level (parse_entry f) i (mk_text b (ws ++ l ++ r)) s
    = (v ← m; mret (true, v, at_end i (mk_text (rev l ++ rev ws ++ b) r))) s.

(** The same while the loop of the level may still go on behind [l]. *)
Definition loops (f i : nat) (l : list ascii) (m : M St Z) : Prop :=
  ∀ b ws r s, spaces ws → follow (pred i) r →
    ∃ g, (room (blanks (mk_text (rev l ++ rev ws ++ b) r)) < g)%nat
      ∧ parse_level (parse_entry f) i (mk_text b (ws ++ l ++ r)) s
        = (v ← m; level_loop (parse_level (parse_entry f) (pred i)) (nxt i) (app_value i) g v
                    (mk_text (rev l ++ rev ws ++ b) r)) s.

Lemma parses_of_loops f i l m : (1 ≤ i)%nat → loops f i l m → parses f i l m.
Proof.
  intros Hi H b ws r s Hws Hr. destruct i as [|i]; [lia|].
  destruct (H b ws r s Hws) as (g & Hg & E); [by eapply follow_le; [|exact Hr]; lia|].
  rewrite E. unfold mbind, M_bind. destruct (m s) as [v s'|s'| |]; try done.
  destruct g as [|g]; [lia|]. cbn [level_loop]. destruct Hr as (_ & _ & Hn).
  rewrite Hn by lia. done.
Qed.

Lemma loops_of_parses f i l m : parses f i l m → loops f (S i) l m.
Proof.
  intros H b ws r s Hws Hr. specialize (H b ws r s Hws Hr). cbn [pred] in *.
  exists (S (room (at_end i (mk_text (rev l ++ rev ws ++ b) r)))). split.
  { destruct i; cbn [at_end]; [pose proof (room_blanks (mk_text (rev l ++ rev ws ++ b) r))|]; lia. }
  cbn [parse_level]. unfold level. unfold mbind at 1, M_bind. rewrite H.
  unfold mbind, M_bind. destruct (m s) as [v s'|s'| |]; try done. cbn [mret M_ret negb].
  destruct i as [|i]; cbn [at_end]; [done|]. by rewrite level_loop_blanks.
Qed.

Lemma parses_up f i l m : parses f i l m → parses f (S i) l m.
Proof. intros H. apply parses_of_loops; [lia|]. by apply loops_of_parses. Qed.

Lemma parses_le f i j l m : (i ≤ j)%nat → parses f i l m → parses f j l m.
Proof. intros Hij H. induction Hij; [done|]. by apply parses_up. Qed.

(** *** Heads *)

Definition expr_head (c : ascii) : bool := operand_head c || existsb (Ascii.eqb c) (str "!~+-").

Lemma pr_head i e : ∃ c l, pr i e = c :: l ∧ expr_head c = true.
Proof.
  revert i. induction e as [n|op e IH|op a IHa c IHc]; intros i; cbn [ExprSpec.pr].
  - pose proof (digits_nonempty 10 n) as Hn. pose proof (digits_Forall 10 n ltac:(lia)) as Hf.
    destruct (digits 10 n) as [|c l]; [done|]. inversion Hf as [|? ? H].
    apply decimal_plain, plain_digit_facts in H as (H & _).
    exists c, l. split; [done|]. unfold expr_head, operand_head. by rewrite H.
  - exists (un_text op), (sp ++ pr 0 e). split; [done|]. by destruct op.
  - destruct (IHa (op_level op)) as (d & l & -> & Hd).
    destruct (op_level op <=? i)%nat; cbn [app]; [by eexists _, _|]. unfold brackets. by eexists _, _.
Qed.

Lemma op_safe_operand i e r : op_safe (sp ++ pr i e ++ r).
Proof.
  destruct (pr_head i e) as (c & l & -> & Hc). apply op_safe_app; [done|].
  all_chars c; cbv in Hc |- *; first [done|discriminate].
Qed.

Lemma follow_op i op k e r :
  (i < op_level op)%nat → follow i (sp ++ op_text op ++ sp ++ pr k e ++ r).
Proof.
  intros Hi. pose proof (op_safe_operand k e r) as Hs.
  assert (Hop : ∃ c l, op_text op = c :: l ∧ White c = false ∧ isalnum c = false
                       ∧ existsb (Ascii.eqb c) (str "'_.") = false).
  { destruct op; (eexists _, _; split; [reflexivity|done]). }
  destruct Hop as (c & l & Hop & Hw & Ha & Hx).
  assert (Hb : ∀ j b, (1 ≤ j ≤ i)%nat → nxt j (mk_text b (op_text op ++ sp ++ pr k e ++ r))
                = (0, mk_text b (op_text op ++ sp ++ pr k e ++ r))).
  { intros j b Hj. apply nxt_below; [done|lia]. }
  rewrite Hop in *. by apply follow_intro.
Qed.

(** *** The cases of the induction *)

(** A chain of prefix operators takes one unit of fuel each. *)
Definition unary_parses (f : nat) (l : list ascii) (m : M St Z) : Prop :=
  ∀ n b ws r s, spaces ws → follow 0 r → (length (ws ++ l ++ r) < n)%nat →
    ParseExpUnair (parse_entry f) n (mk_text b (ws ++ l ++ r)) s
    = (v ← m; mret (true, v, mk_text (rev l ++ rev ws ++ b) r)) s.
Lemma unary_number f n : 0 ≤ n < 2 ^ 32 → unary_parses f (digits 10 n) (eval (Num n)).
Proof.
  intros Hn [|k] b ws r s Hws Hr Hk; [lia|]. cbn [eval].
  pose proof (digits_nonempty 10 n) as Hne. pose proof (digits_Forall 10 n ltac:(lia)) as Hd.
  pose proof (number_digits 10 n ltac:(lia) ltac:(lia)) as Hv.
  destruct (digits 10 n) as [|c l] eqn:E; [done|]. cbn [app].
  rewrite ParseExpUnair_operand; [|done|].
  2: { inversion Hd as [|? ? H]. apply decimal_plain, plain_digit_facts in H as (H & _).
       unfold operand_head. by rewrite H. }
  change (c :: l ++ r) with ((c :: l) ++ r).
  rewrite ParseExpPrim_number by (done || lia). by rewrite Hv.
Qed.

Lemma unary_brackets f l m : parses f 11 l m → unary_parses (S f) (brackets sp l) m.
Proof.
  intros H [|k] b ws r s Hws Hr Hk; [lia|]. unfold brackets. cbn [app].
  rewrite ParseExpUnair_operand by done. unfold ParseExpPrim.
  change (SkipBlanks (mk_text (rev ws ++ b) ("("%char :: (sp ++ l ++ sp ++ [")"%char]) ++ r)))
    with (false, mk_text (rev ws ++ b) ("("%char :: (sp ++ l ++ sp ++ [")"%char]) ++ r)).
  cbv beta iota zeta. unfold mbind at 1, M_bind, gets.
  change (isc (mk_text ?x ("("%char :: ?y)) "(") with true. cbv iota.
  unfold adv; cbn [aft bef]. unfold prim_parentheses. cbn [parse_entry].
  rewrite <- (parse_level_LogOr (parse_entry f)). rewrite <- !app_assoc. cbn [app].
  set (q := mk_text ("("%char :: rev ws ++ b) (sp ++ l ++ sp ++ ")"%char :: r)).
  assert (E : parse_level (parse_entry f) 11 q s
    = (v ← m; mret (true, v, mk_text (rev sp ++ rev l ++ rev sp ++ "("%char :: rev ws ++ b) (")"%char :: r))) s).
  { unfold q. rewrite (H _ sp _ s) by (done || by apply follow_closing). unfold mbind, M_bind.
    destruct (m s); try done. cbn [at_end]. by rewrite blanks_app, blanks_head by done. }
  unfold mbind, M_bind in *. rewrite E.
  destruct (m s) as [v s'|s'| |]; try done. cbn [mret M_ret]. unfold need_c.
  rewrite blanks_head by done. cbv [isc cur aft adv bef]. cbn.
  do 2 f_equal. rewrite rev_app_distr. cbn [rev]. rewrite !rev_app_distr. cbn [rev app].
  by rewrite <- !app_assoc.
Qed.


Lemma unary_prefix f op l m :
  unary_parses f l m →
  unary_parses f (un_text op :: sp ++ l) (v ← m; unary_value (un_code op) v).
Proof.
  intros H [|n] b ws r s Hws Hr Hn; [lia|]. cbn [app]. rewrite ParseExpUnair_prefix by done.
  rewrite <- app_assoc. unfold mbind at 1, M_bind.
  rewrite H by (done || (revert Hn; rewrite !length_app; cbn [length]; rewrite !length_app; lia)).
  unfold mbind, M_bind. destruct (m s) as [v s'|s'| |]; try done. cbn [mret M_ret negb].
  destruct (unary_value _ v s') as [w s''|s''| |]; try done.
  cbn [mret M_ret rev]. rewrite rev_app_distr. by rewrite <- !app_assoc.
Qed.

Lemma parses_unary f l m : unary_parses f l m → parses f 0 l m.
Proof.
  intros H b ws r s Hws Hr. cbn [parse_level at_end]. apply H; [done..|].
  unfold room; cbn [aft]. lia.
Qed.

Lemma loops_operator f op la ma k b mb :
  loops f (op_level op) la ma → parses f (pred (op_level op)) (pr k b) mb →
  loops f (op_level op) (la ++ sp ++ op_text op ++ sp ++ pr k b)
    (va ← ma; vb ← mb; op_apply op va vb).
Proof.
  intros Ha Hb b0 ws r s Hws Hr.
  assert (Hl : (1 ≤ op_level op)%nat) by (destruct op; cbn; lia).
  set (rest := sp ++ op_text op ++ sp ++ pr k b ++ r).
  destruct (Ha b0 ws rest s Hws) as (g & Hg & E); [apply follow_op; lia|].
  rewrite <- !app_assoc. fold rest. cbn [app].
  assert (Hrest : blanks (mk_text (rev la ++ rev ws ++ b0) rest)
                  = mk_text (rev sp ++ rev la ++ rev ws ++ b0) (op_text op ++ sp ++ pr k b ++ r)).
  { unfold rest. rewrite blanks_app by done. destruct op; cbn [op_text str list_ascii_of_string app]; by rewrite blanks_head. }
  rewrite Hrest in Hg. unfold room in Hg; cbn [aft] in Hg. rewrite !length_app in Hg.
  destruct g as [|g]; [lia|]. exists g. split.
  { pose proof (room_blanks (mk_text (rev (la ++ sp ++ op_text op ++ sp ++ pr k b) ++ rev ws ++ b0) r)) as Hb0.
    unfold room at 2 in Hb0; cbn [aft] in Hb0. assert (1 ≤ length (op_text op))%nat by (destruct op; cbn; lia). lia. }
  rewrite E. unfold mbind at 1 2 3 4, M_bind. destruct (ma s) as [va s1|s1| |]; try done.
  cbn [level_loop]. rewrite <- nxt_blanks, Hrest, nxt_op by apply op_safe_operand.
  assert (Hc : (op_code op =? 0) = false) by by destruct op. rewrite Hc.
  unfold mbind at 1, M_bind. rewrite Hb by done. unfold mbind, M_bind.
  destruct (mb s1) as [vb s2|s2| |]; try done. cbn [mret M_ret negb].
  unfold op_apply. destruct (app_value _ _ va vb s2) as [v s3|s3| |]; try done.
  assert (Hend : rev (pr k b) ++ rev sp ++ rev (op_text op) ++ rev sp ++ rev la ++ rev ws ++ b0
                 = rev (la ++ sp ++ op_text op ++ sp ++ pr k b) ++ rev ws ++ b0).
  { by rewrite !rev_app_distr, <- !app_assoc. }
  rewrite Hend. destruct (pred (op_level op)); [done|]. cbn [at_end]. by rewrite level_loop_blanks.
Qed.

Lemma length_brackets l : length (brackets sp l) = (2 + length sp + length sp + length l)%nat.
Proof. unfold brackets. cbn [length]. rewrite !length_app. cbn [length]. lia. Qed.

(** Every printed expression is read back at every level. *)
Record reads_back (f : nat) (e : expr) : Prop := {
  rb_parses : ∀ i, (length (pr i e) ≤ f)%nat → parses f i (pr i e) (eval e);
  rb_loops : ∀ i, (1 ≤ i)%nat → (length (pr i e) ≤ f)%nat → loops f i (pr i e) (eval e);
  rb_unary : (length (pr 0 e) ≤ f)%nat → unary_parses f (pr 0 e) (eval e)
}.

(** An operand is the same text at every level. *)
Lemma reads_back_operand f e :
  (∀ i, pr i e = pr 0 e) → ((length (pr 0 e) ≤ f)%nat → unary_parses f (pr 0 e) (eval e)) →
  reads_back f e.
Proof.
  intros Hi Hu.
  assert (Hp : ∀ i, (length (pr 0 e) ≤ f)%nat → parses f i (pr 0 e) (eval e)).
  { intros i Hf. apply parses_le with O; [lia|]. by apply parses_unary, Hu. }
  split; [intros i; rewrite Hi; apply Hp| |done].
  intros [|i] H; [lia|]. rewrite Hi. intros Hf. by apply loops_of_parses, Hp.
Qed.

Lemma reads_back_bin f op a c :
  (∀ g, reads_back g a) → (∀ g, reads_back g c) → reads_back f (Bin op a c).
Proof.
  intros Ha Hc. set (l := op_level op). set (e := Bin op a c).
  set (body := pr l a ++ sp ++ op_text op ++ sp ++ pr (pred l) c).
  assert (Hl : (1 ≤ l ≤ 11)%nat) by (subst l; destruct op; cbn; lia).
  assert (Hpr : ∀ i, pr i e = if (l <=? i)%nat then body else brackets sp body) by done.
  assert (Hloop : ∀ g, (length body ≤ g)%nat → loops g l body (eval e)).
  { intros g Hg. unfold body in Hg. rewrite !length_app in Hg. apply loops_operator.
    - apply rb_loops; [apply Ha|fold l; lia..].
    - apply rb_parses; [apply Hc|fold l; lia]. }
  assert (Hbody : ∀ g i, (l ≤ i)%nat → (length body ≤ g)%nat → parses g i body (eval e)).
  { intros g i Hi Hg. apply parses_le with l; [done|]. apply parses_of_loops; [lia|auto]. }
  assert (Hun : (length (pr 0 e) ≤ f)%nat → unary_parses f (pr 0 e) (eval e)).
  { rewrite Hpr, (proj2 (Nat.leb_gt l 0)), length_brackets by lia. intros Hf.
    destruct f as [|g]; [lia|]. apply unary_brackets, Hbody; lia. }
  assert (Hbr : ∀ i, (i < l)%nat → pr i e = pr 0 e).
  { intros i Hi. rewrite !Hpr, !(proj2 (Nat.leb_gt l _)) by lia. done. }
  assert (Hp : ∀ i, (length (pr i e) ≤ f)%nat → parses f i (pr i e) (eval e)).
  { intros i. destruct (Nat.lt_ge_cases i l) as [Hi|Hi].
    - rewrite Hbr by done. intros Hf. apply parses_le with O; [lia|]. by apply parses_unary, Hun.
    - rewrite Hpr, (proj2 (Nat.leb_le l i)) by done. by apply Hbody. }
  split; [done| |done]. intros [|i] H Hf; [lia|].
  destruct (Nat.lt_trichotomy (S i) l) as [Hi|[Hi|Hi]].
  - rewrite Hbr in * by done. rewrite <- (Hbr i) in * by lia. by apply loops_of_parses, Hp.
  - rewrite Hpr, Hi, Nat.leb_refl in *. by apply Hloop.
  - assert (E : pr (S i) e = pr i e) by (rewrite !Hpr, !(proj2 (Nat.leb_le l _)) by lia; done).
    rewrite E in *. by apply loops_of_parses, Hp.
Qed.

Lemma pr_reads_back e : in_bounds e → ∀ f, reads_back f e.
Proof.
  induction e as [n|op e IH|op a IHa c IHc]; cbn [in_bounds].
  - intros Hn f. apply reads_back_operand; [done|]. intros _. by apply unary_number.
  - intros He f. apply reads_back_operand; [done|]. intros Hf. cbn [ExprSpec.pr eval].
    apply unary_prefix, rb_unary; [by apply IH|]. cbn [ExprSpec.pr length] in Hf.
    rewrite length_app in Hf. lia.
  - intros [Ha Hc] f. apply reads_back_bin; auto.
Qed.

(** ** The entry point *)

(** Effects included, errors too. *)
Lemma ParseExpressionEntry_eval e b ws r s :
  in_bounds e → spaces ws → follow 11 r →
  ParseExpressionEntry (mk_text b (ws ++ pr 11 e ++ r)) s
  = (v ← eval e; mret (true, v, blanks (mk_text (rev (pr 11 e) ++ rev ws ++ b) r))) s.
Proof.
  intros He Hws Hr. unfold ParseExpressionEntry. cbn [parse_entry].
  rewrite <- parse_level_LogOr. unfold mbind at 1, M_bind.
  rewrite (rb_parses _ _ (pr_reads_back e He _)); [|unfold room; cbn [aft]; rewrite !length_app; lia|done..].
  unfold mbind, M_bind. by destruct (eval e s).
Qed.
End roundtrip.

(** ** The value *)

Lemma un_value op v s : unary_value (un_code op) v s = Ret (un_denote op v) s.
Proof.
  destruct op; try reflexivity.
  change (Ret (wrap32 (Z.lnot v + 1)) s = Ret (wrap32 (- v)) s). do 2 f_equal. unfold Z.lnot. lia.
Qed.

Lemma division_value f a b s :
  negb (b =? 0) && negb ((a =? INT_MIN) && (b =? -1)) = true → division f a b s = Ret (f a b) s.
Proof.
  rewrite andb_true_iff, !negb_true_iff. intros [H1 H2]. unfold division. by rewrite H1, H2.
Qed.

Lemma shiftable_value op a b s :
  (0 <=? b) && (b <=? 31) = true →
  shift_value op a b s
  = (if op =? code "<" + code "<" then mret (wrap32 (Z.shiftl a b))
     else if op =? code ">" + code ">" then mret (Z.shiftr a b)
     else if op =? code ">" + code ">" + code ">" then mret (wrap32 (Z.shiftr (u32 a) b))
     else Error "internal error" None FATAL ;; undef) s.
Proof.
  rewrite andb_true_iff, !Z.leb_le. intros [H1 H2]. unfold shift_value.
  by rewrite (proj2 (Z.ltb_ge b 0)), (proj2 (Z.ltb_ge 31 b)) by lia.
Qed.

Lemma bin_value op a b v s : bin_denote op a b = Some v → op_apply op a b s = Ret v s.
Proof.
  unfold op_apply, bin_denote. intros H.
  destruct op; cbn [op_level op_code app_value] in *; cbv zeta in H;
    try (injection H as <-; reflexivity);
    try (match type of H with (if ?c then _ else _) = _ => destruct c eqn:Hc; [|discriminate] end;
         injection H as <-).
  - by apply division_value.
  - by apply division_value.
  - injection H as <-. change (Ret (wrap32 (a + wrap32 (- b))) s = Ret (wrap32 (a - b)) s).
    f_equal. rewrite Z.add_comm, wrap32_add_l. f_equal. lia.
  - rewrite shiftable_value by done. rewrite <- Z.shiftl_mul_pow2 by lia. done.
  - rewrite shiftable_value by done. rewrite <- Z.shiftr_div_pow2 by lia. done.
  - rewrite shiftable_value by done. rewrite <- Z.shiftr_div_pow2 by lia. done.
  - injection H as <-. change (Ret (if a <? b then a else b) s = Ret (Z.min a b) s).
    f_equal. destruct (Z.ltb_spec a b); lia.
  - injection H as <-. change (Ret (if b <? a then a else b) s = Ret (Z.max a b) s).
    f_equal. destruct (Z.ltb_spec b a); lia.
Qed.

Lemma eval_denote e v s :
  denote e = Some v → eval e s = Ret v (set_getNumericValueLastErr None s).
Proof.
  revert v s. induction e as [n|op e IH|op a IHa c IHc]; intros v s; cbn [denote eval].
  - by intros [= <-].
  - intros (w & Hw & ->)%fmap_Some. unfold mbind, M_bind. rewrite (IH w) by done. apply un_value.
  - intros (va & Ha & H)%bind_Some. apply bind_Some in H as (vb & Hb & H).
    unfold mbind, M_bind. rewrite (IHa va), (IHc vb) by done. by apply bin_value.
Qed.

(** *** The values fit in 32 bits *)

Lemma in32_shiftr z : in32 z ↔ Z.shiftr z 31 = 0 ∨ Z.shiftr z 31 = -1.
Proof.
  unfold in32, INT_MIN, INT_MAX. rewrite Z.shiftr_div_pow2 by lia.
  pose proof (Z.div_mod z (2 ^ 31) ltac:(lia)). pose proof (Z.mod_pos_bound z (2 ^ 31) ltac:(lia)). lia.
Qed.

Lemma in32_bits f a b :
  (∀ x y n, Z.shiftr (f x y) n = f (Z.shiftr x n) (Z.shiftr y n)) →
  (∀ x y, (x = 0 ∨ x = -1) → (y = 0 ∨ y = -1) → f x y = 0 ∨ f x y = -1) →
  in32 a → in32 b → in32 (f a b).
Proof. intros Hs Hf. rewrite !in32_shiftr, Hs. apply Hf. Qed.

Ltac in32_simple := unfold in32, INT_MIN, INT_MAX in *.

Lemma in32_flag b : in32 (flag b).
Proof. destruct b; by vm_compute. Qed.

Lemma bin_denote_in32 op a b v : in32 a → in32 b → bin_denote op a b = Some v → in32 v.
Proof.
  intros Ha Hb. unfold bin_denote. cbv zeta.
  destruct op; try (match goal with |- (if ?c then _ else _) = _ → _ => destruct c eqn:Hc; [|discriminate] end);
    intros [= <-]; auto using wrap32_range, in32_flag.
  - rewrite andb_true_iff, !negb_true_iff, Z.eqb_neq, andb_false_iff, !Z.eqb_neq in Hc.
    destruct Hc as [Hz Hm]. in32_simple.
    assert (Habs : Z.abs (Z.quot a b) = Z.abs a / Z.abs b).
    { rewrite <- Z.quot_div_nonneg by lia. symmetry. by apply Z.quot_abs. }
    assert (Z.abs a / Z.abs b ≤ Z.abs a) by (apply Z.div_le_upper_bound; nia).
    destruct (Z.eq_dec (Z.abs b) 1) as [H1|H1].
    + assert (b = 1 ∨ b = -1) as [->| ->] by lia.
      * rewrite Z.quot_1_r. lia.
      * change (-1) with (- (1)). rewrite (Z.quot_opp_r a 1), Z.quot_1_r by lia. lia.
    + assert (Z.abs a / Z.abs b ≤ 2 ^ 31 / 2).
      { etransitivity; [apply Z.div_le_mono with (b := 2 ^ 31); lia|].
        apply Z.div_le_compat_l; lia. }
      change (2 ^ 31 / 2) with (2 ^ 30) in *. lia.
  - rewrite andb_true_iff, negb_true_iff, Z.eqb_neq in Hc. destruct Hc as [Hz _].
    in32_simple. pose proof (Z.rem_bound_abs a b Hz). lia.
  - rewrite andb_true_iff, !Z.leb_le in Hc. in32_simple.
    assert (0 < 2 ^ b) by (apply Z.pow_pos_nonneg; lia).
    split; [apply Z.div_le_lower_bound; nia|].
    apply Z.lt_succ_r. apply Z.div_lt_upper_bound; nia.
  - in32_simple. lia.
  - in32_simple. lia.
  - apply in32_bits; [apply Z.shiftr_land| |done..]. by intros ? ? [->| ->] [->| ->]; vm_compute; auto.
  - apply in32_bits; [apply Z.shiftr_lxor| |done..]. by intros ? ? [->| ->] [->| ->]; vm_compute; auto.
  - apply in32_bits; [apply Z.shiftr_lor| |done..]. by intros ? ? [->| ->] [->| ->]; vm_compute; auto.
Qed.

Lemma denote_in32 e v : denote e = Some v → in32 v.
Proof.
  revert v. induction e as [n|op e IH|op a IHa c IHc]; intros v; cbn [denote].
  - intros [= <-]. apply wrap32_range.
  - intros (w & Hw & ->)%fmap_Some. apply IH in Hw.
    destruct op; cbn [un_denote]; auto using wrap32_range, in32_flag. in32_simple. lia.
  - intros (va & Ha & H)%bind_Some. apply bind_Some in H as (vb & Hb & H). eauto using bin_denote_in32.
Qed.

Lemma ParseExpression_plain p s :
  rel_type (rel s) = 0 → ParseExpression p s = ParseExpressionEntry p s.
Proof.
  intros H. unfold ParseExpression, ParseExpression_alternative. unfold mbind at 1, M_bind.
  unfold mbind at 1, M_bind, gets. rewrite H. cbn [Z.eqb mret M_ret]. unfold mbind at 1, M_bind.
  destruct (ParseExpressionEntry p s) as [[[ok v] q] s'|s'| |]; try done.
  rewrite andb_false_r. done.
Qed.

(** ** The theorems *)

(** C4: outside of a relocation block the evaluator gives the value of the
    expression, whatever the expression, the blanks in it, the text around it and
    the state; nothing is reported and nothing but the error flag of the number
    parser changes. *)
Theorem ParseExpression_value : ∀ sp e v b ws r s,
  in_bounds e → denote e = Some v → spaces sp → spaces ws → follow 11 r → rel_type (rel s) = 0 →
  ParseExpression (mk_text b (ws ++ pr sp 11 e ++ r)) s
  = Ret (true, v, blanks (mk_text (rev (pr sp 11 e) ++ rev ws ++ b) r)) (set_getNumericValueLastErr None s)
  ∧ in32 v.
Proof.
  intros sp e v b ws r s He Hv Hsp Hws Hr Hrel. split; [|by eapply denote_in32].
  rewrite ParseExpression_plain, ParseExpressionEntry_eval by done.
  unfold mbind, M_bind. by rewrite (eval_denote e v s Hv).
Qed.

Definition sample : expr :=
  Bin B_sub (Bin B_add (Num 1) (Bin B_mul (Num 2) (Num 3)))
    (Bin B_and (Un U_minus (Num 4)) (Bin B_ushr (Num 4294967295) (Num 28))).

Lemma ParseExpression_value_witness :
  of_chars (pr [" "%char] 11 sample) = "1 + 2 * 3 - ( - 4 & 4294967295 >>> 28 )"%string
  ∧ denote sample = Some (-5)
  ∧ fst <$> match ParseExpression (txt "  1 + 2 * 3 - ( - 4 & 4294967295 >>> 28 ), 7") last_pass with
            | Ret a _ => Some a | _ => None end = Some (true, -5).
Proof.
  split; [reflexivity|]. split; [reflexivity|].
  destruct (ParseExpression_value [" "%char] sample (-5) [] [" "%char; " "%char] (str ", 7") last_pass) as [H _];
    [vm_compute; repeat split; discriminate|reflexivity|by apply spaces_forallb|by apply spaces_forallb
    |apply (follow_closing 11 [] ","%char (str " 7")); [constructor|reflexivity]|reflexivity|].
  change (txt "  1 + 2 * 3 - ( - 4 & 4294967295 >>> 28 ), 7")
    with (mk_text [] ([" "%char; " "%char] ++ pr [" "%char] 11 sample ++ str ", 7")).
  rewrite H. reflexivity.
Defined.

(** The value of a quotient by zero: zero, with one error. *)
Lemma division_by_zero op a s :
  op = B_div ∨ op = B_mod →
  op_apply op a 0 s = (Error1 "Division by zero" ;; mret 0) s.
Proof. by intros [-> | ->]. Qed.

(** C5: a division by zero is reported and the expression still has a value: the
    quotient and the remainder count as zero, and parsing goes on behind. *)
Theorem ParseExpression_division_by_zero : ∀ sp op x y v b ws r s,
  (op = B_div ∨ op = B_mod) → in_bounds (Bin op x y) → denote x = Some v → denote y = Some 0 →
  spaces sp → spaces ws → follow 11 r → rel_type (rel s) = 0 →
  ParseExpression (mk_text b (ws ++ pr sp 11 (Bin op x y) ++ r)) s
  = (Error "Division by zero" None PASS3 ;;
     mret (true, 0, blanks (mk_text (rev (pr sp 11 (Bin op x y)) ++ rev ws ++ b) r)))
    (set_getNumericValueLastErr None s).
Proof.
  intros sp op x y v b ws r s Hop Hb Hx Hy Hsp Hws Hr Hrel.
  rewrite ParseExpression_plain, ParseExpressionEntry_eval by done. cbn [eval].
  unfold mbind, M_bind. rewrite (eval_denote x v s Hx), (eval_denote y 0 _ Hy).
  rewrite division_by_zero by done. unfold Error1, mbind, M_bind.
  change (set_getNumericValueLastErr None (set_getNumericValueLastErr None s))
    with (set_getNumericValueLastErr None s).
  by destruct (Error _ _ _ _).
Qed.

Lemma ParseExpression_division_by_zero_witness :
  match ParseExpression (txt "7/(2-2)") last_pass with
  | Ret (true, 0, _) s => ErrorCount (err s) = 1
  | _ => False
  end.
Proof.
  pose proof (ParseExpression_division_by_zero [] B_div (Num 7) (Bin B_sub (Num 2) (Num 2)) 7 [] [] [] last_pass) as H.
  change (txt "7/(2-2)") with (mk_text [] ([] ++ pr [] 11 (Bin B_div (Num 7) (Bin B_sub (Num 2) (Num 2))) ++ [])).
  rewrite H; [reflexivity|by left|vm_compute; repeat split; discriminate|reflexivity|reflexivity
             |constructor|constructor|apply follow_nil; constructor|reflexivity].
Defined.
