(* ===== verification/Substitution.v ===== *)
(** * Substitution of defines and macro arguments (parser.cpp, tables.cpp, reader.cpp)

    [ReplaceDefine] rewrites a source line until no define or macro argument is
    left in it: comments are dropped, strings copied, and every identifier is
    grown sub-word by sub-word until one of the tables knows it.  The text that
    was written so far is kept nearest character first. *)

From S2P Require Export Bytes DefTable.

Definition LINEMAX : Z := 2048.

(** ** Arguments of the macro being expanded ([CMacroDefineTable]) *)

Definition CMacroDefineTable_ReInit : M St unit :=
  modify (fun s => set_mdefs [] (set_mdef_used [] s)).

Definition CMacroDefineTable_AddMacro (naam vervanger : list ascii) : M St unit :=
  modify (fun s => set_mdefs (new_CDefineTableEntry naam vervanger [] :: mdefs (lin s))
                     (set_mdef_used (bucket naam :: mdef_used (lin s)) s)).

Definition CMacroDefineTable_setdefs (ndefs : list CDefineTableEntry) : M St unit :=
  modify (set_mdefs ndefs).

Definition CMacroDefineTable_getverv (name : list ascii) (s : St) : option (list ascii) :=
  if negb (existsb (Z.eqb (bucket name)) (mdef_used (lin s))) then None
  else def_value <$> List.find (is_named name) (mdefs (lin s)).

(** ** Growing an identifier *)

(** The sub-word ends where a block of underscores starts or ends. *)
Fixpoint sub_word (ends_at : ascii → bool) (b r : list ascii) : list ascii * text :=
  match r with
  | [] => ([], mk_text b [])
  | c :: r' =>
      if negb (islabchar c) then ([], mk_text b r)
      else if ends_at (hd NUL r') then ([c], mk_text (c :: b) r')
      else let '(l, p) := sub_word ends_at (c :: b) r' in (c :: l, p)
  end.

Definition grown (nid : list ascii) (p : text) : M St (list ascii * text) :=
  mwhen (LINEMAX <=? Z.of_nat (length nid))
    (Error "ID too long, buffer overflow detected." None FATAL) ;;
  mret (nid, p).

(** [nid] is what the previous calls collected. *)
Definition GrowSubId (nid : list ascii) (p : text) : M St (list ascii * text) :=
  o ← gets (fun s => syx (opt s));
  let startsAtUnderscore := isc p "_" in
  let '(l, p) := sub_word
        (fun d => IsSubwordSubstitution o && negb (Bool.eqb (Ascii.eqb d "_") startsAtUnderscore))
        (bef p) (aft p) in
  grown (nid ++ l) p.

Definition GrowSubIdByExtraChar (nid : list ascii) (p : text) : M St (list ascii * text) :=
  grown (nid ++ [cur p]) (adv p).

(** ** Glue: an underscore between blanks next to a substitution *)

Definition GLUE_TAG : ascii := "010"%char.
Definition GLUE_CHAR : ascii := "_"%char.

Definition glue_white (c : ascii) : bool := negb (Ascii.eqb c GLUE_TAG) && White c.

(** Behind blanks: [l] goes away from the substitution. *)
Definition glue_tag (l : list ascii) : option (list ascii) :=
  match drop_while glue_white l with
  | c :: d :: r =>
      if Nat.ltb 0 (count_while glue_white l) && Ascii.eqb c GLUE_CHAR && White d
      then Some (take (count_while glue_white l) l ++ GLUE_TAG :: d :: r) else None
  | _ => None
  end.

(** The second half of [ReplaceDefineInternal]: the tags and the blanks around
    them disappear; a tag with nothing on one side is an underscore again. *)
Fixpoint glue_loop (fuel : nat) (out l : list ascii) : list ascii :=
  match fuel with
  | O => rev out
  | S fuel =>
      match l with
      | [] => rev out
      | c :: l' =>
          if Ascii.eqb c GLUE_TAG then
            match drop_while White out, drop_while White l with
            | a :: before, d :: behind => glue_loop fuel (d :: a :: before) behind
            | _, _ => glue_loop fuel (GLUE_CHAR :: out) l'
            end
          else glue_loop fuel (c :: out) l'
      end
  end.
Definition glue (l : list ascii) : list ascii := glue_loop (S (length l)) [] l.

(** ** One pass over the line *)

Record subst := mk_subst {
  sb_out : list ascii;
  sb_glue : bool;
  sb_replaced : bool;
  sb_isDefDir : bool;
  sb_afterNonAlphaNum : bool
}.

Definition push (l : list ascii) (x : subst) : subst :=
  {| sb_out := rev l ++ sb_out x; sb_glue := sb_glue x; sb_replaced := sb_replaced x;
     sb_isDefDir := sb_isDefDir x; sb_afterNonAlphaNum := sb_afterNonAlphaNum x |}.
Definition set_after (b : bool) (x : subst) : subst :=
  {| sb_out := sb_out x; sb_glue := sb_glue x; sb_replaced := sb_replaced x;
     sb_isDefDir := sb_isDefDir x; sb_afterNonAlphaNum := b |}.
Definition set_def_dir (b : bool) (x : subst) : subst :=
  {| sb_out := sb_out x; sb_glue := sb_glue x; sb_replaced := sb_replaced x;
     sb_isDefDir := b; sb_afterNonAlphaNum := sb_afterNonAlphaNum x |}.

(** What still fits the buffer. *)
Definition push_limited (l : list ascii) (x : subst) : subst :=
  push (take (Z.to_nat LINEMAX - length (sb_out x)) l) x.

(** A string literal from its opening delimiter [c1] on: [esc] copies the
    character behind a backslash. *)
Fixpoint copy_string (c1 : ascii) (esc : bool) (b r : list ascii) : list ascii * text :=
  match r with
  | [] => ([], mk_text b [])
  | c :: r' =>
      if Ascii.eqb c NUL then ([], mk_text b r)
      else if esc then let '(l, p) := copy_string c1 false (c :: b) r' in (c :: l, p)
      else if Ascii.eqb c c1 then ([c], mk_text (c :: b) r')
      else
        let e := Ascii.eqb c1 "034" && Ascii.eqb c "\" && negb (Ascii.eqb (hd NUL r') NUL) in
        let '(l, p) := copy_string c1 e (c :: b) r' in (c :: l, p)
  end.

Definition define_directives : list string :=
  ["define+"; "define"; "undefine"; "defarray+"; "defarray"; "ifdef"; "ifndef"; "macro"]%string.
Definition define_directive (p : text) : bool :=
  existsb (fun k => fst (cmphstr p k false)) define_directives.

(** The number of a substitution: 2 a macro argument, 1 a define, 0 none yet,
    -1 text to copy as it is; then the text, the identifier and the pointer. *)
Definition found : Type := Z * list ascii * list ascii * text.

(** [id[expression]] and [id[#]] of an array; [next] is where the identifier
    starts. *)
Definition substitute_array (arr : list (list ascii)) (next : text) (nid : list ascii) (p : text) :
    M St found :=
  let '(l, p) := take_while White p in
  '(nid, p) ← grown (nid ++ l) p;
  mwhen (negb (isc p "[")) (Error "[ARRAY] Expression error" (Some (aft next)) SUPPRESS) ;;
  if isc p "[" && isn p 1 "#" && isn p 2 "]"
  then mret (1, fmt_d (Z.of_nat (length arr)), nid, advn 3 p)
  else
    modify (set_IsLabelNotFound false) ;;
    if negb (isc p "[") then mret (-1, nid, nid, p)
    else
      '(nid, expLp) ← GrowSubIdByExtraChar nid p;
      '(ok, val, q) ← ParseExpressionInSubstitution expLp;
      s ← gets st;
      if ok && isc q "]" && negb (IsLabelNotFound (par s)) then
        match (if val <? 0 then None else arr !! Z.to_nat val) with
        | Some item => mret (1, item, nid, adv q)
        | None =>
            Error "[ARRAY] index not in 0..<Size-1> range" (Some (aft next)) SUPPRESS ;;
            mret (1, [], nid, adv q)
        end
      else mret (-1, nid, nid, expLp).

Definition find_substitution (isDefDir inside : bool) (next : text) (nid : list ascii) (p : text) :
    M St found :=
  s ← gets st;
  let arg := if bool_decide (is_Some (macrolabp (tab s))) && inside
             then CMacroDefineTable_getverv nid s else None in
  match arg with
  | Some v => mret (2, v, nid, p)
  | None =>
      if isDefDir || negb inside then mret (0, nid, nid, p)
      else
        v ← CDefineTable_Get nid;
        match (v : option (list ascii)) with
        | None => mret (0, nid, nid, p)
        | Some v =>
            arr ← gets (fun s => DefArrayList (tab s));
            if bool_decide (arr = []) then mret (1, v, nid, p)
            else substitute_array arr next nid p
        end
  end.

(** The glue tags on both sides of a substitution; the one ahead is written into
    the buffer being read. *)
Definition tag_glue (from_line : bool) (x : subst) (p : text) : M St (subst * text) :=
  let out := glue_tag (sb_out x) in
  let ahead := glue_tag (aft p) in
  let p' := mk_text (bef p) (default (aft p) ahead) in
  mwhen (from_line && bool_decide (is_Some ahead))
    (modify (set_line (mk_text [] (rev (bef p') ++ aft p')))) ;;
  mret ({| sb_out := default (sb_out x) out;
           sb_glue := sb_glue x || bool_decide (is_Some out) || bool_decide (is_Some ahead);
           sb_replaced := true; sb_isDefDir := sb_isDefDir x;
           sb_afterNonAlphaNum := sb_afterNonAlphaNum x |}, p').

(** The inner loop over the parts of one identifier, from [whole] on; [next] is
    where the part being grown starts.  Every second round at the latest moves
    [next], which bounds the fuel. *)
Fixpoint sub_ids (fuel : nat) (from_line : bool) (x : subst) (whole next : text)
    (nid : list ascii) (p : text) : M St (subst * text) :=
  match fuel with
  | O => nofuel
  | S fuel =>
      '(nid, p) ← GrowSubId nid p;
      let inside := negb (Ascii.eqb (hd NUL nid) "_")
                    || Nat.eqb (length (bef next)) (length (bef whole)) in
      '(dr, ver, nid, p) ← find_substitution (sb_isDefDir x) inside next nid p;
      '(dr, ver, p) ← (if (dr =? 0) && negb (islabchar (cur p)) then
                         '(nid, p) ← GrowSubId [] next; mret (-1, nid, p)
                       else mret (dr, ver, p));
      '(x, p) ← (if 0 <? dr then tag_glue from_line x p else mret (x, p));
      let written := negb (dr =? 0) in
      let x := if written then push_limited ver x else x in
      let nid := if written then [] else nid in
      let next := if written then p else next in
      if islabchar (cur p) then sub_ids fuel from_line x whole next nid p else mret (x, p)
  end.

(** The outer loop: the line up to its end or the comment that ends it. *)
Fixpoint subst_loop (fuel : nat) (from_line : bool) (x : subst) (p : text) : M St subst :=
  match fuel with
  | O => nofuel
  | S fuel =>
      if isc p NUL || (LINEMAX <=? Z.of_nat (length (sb_out x))) then mret x
      else
        let afterNonAlphaNum := sb_afterNonAlphaNum x in
        let x := set_after (negb (isalnum (cur p))) x in
        n ← gets (fun s => comlin (lin s));
        if isc p "/" && isn p 1 "*" then
          modify (set_comlin (n + 1)) ;; subst_loop fuel from_line x (advn 2 p)
        else if negb (n =? 0) then
          if isc p "*" && isn p 1 "/" then
            modify (set_comlin (n - 1)) ;;
            subst_loop fuel from_line (if n =? 1 then push [" "%char] x else x) (advn 2 p)
          else subst_loop fuel from_line x (adv p)
        else if isc p ";" || (isc p "/" && isn p 1 "/") then
          e ← gets (fun s => eolComment (src s));
          mwhen (bool_decide (e = None) && from_line) (modify (set_eolComment (Some (aft p)))) ;;
          mret x
        else if afterNonAlphaNum && (isc p "034" || isc p "'") then
          let '(l, p') := copy_string (cur p) false (bef (adv p)) (aft (adv p)) in
          subst_loop fuel from_line (push (cur p :: l) x) p'
        else if negb (isLabelStart_false p) then
          subst_loop fuel from_line (push [cur p] x) (adv p)
        else
          let x := set_def_dir (sb_isDefDir x || (afterNonAlphaNum && define_directive p)) x in
          '(x, p) ← sub_ids (S (room p) * S (room p)) from_line x p p [] p;
          subst_loop fuel from_line x p
  end.

(** Whether something was substituted, the new line and [glueToProcess]. *)
Definition ReplaceDefineInternal (from_line glueToProcess : bool) (lp : text) :
    M St (bool * list ascii * bool) :=
  x ← subst_loop (S (room lp)) from_line
        {| sb_out := []; sb_glue := glueToProcess; sb_replaced := false; sb_isDefDir := false;
           sb_afterNonAlphaNum := true |} lp;
  let nl := rev (sb_out x) in
  mwhen (LINEMAX <=? Z.of_nat (length nl) + 1)
    (Error "line too long after macro expansion" (Some nl) SUPPRESS) ;;
  if negb (sb_replaced x) && sb_glue x then mret (true, glue nl, false)
  else
    let nl := if negb (sb_glue x) && fst (SkipBlanks (mk_text [] nl)) then [] else nl in
    modify (set_substitutedLine (Some nl)) ;;
    mret (sb_replaced x, nl, sb_glue x).

Fixpoint replace_rounds (maxIter : nat) (from_line glueToProcess : bool) (src : text) : M St text :=
  match maxIter with
  | O =>
      Error "Unable to finish substitutions, line after last iteration" (Some (aft src)) SUPPRESS ;;
      mret src
  | S maxIter =>
      '(again, nl, g) ← ReplaceDefineInternal from_line glueToProcess src;
      if negb again then mret (mk_text [] nl)
      else replace_rounds maxIter false g (mk_text [] nl)
  end.

(** [src] is inside of [line]. *)
Definition ReplaceDefine (src : text) : M St text := replace_rounds 31 true false src.
