(* ===== verification/Lines.v ===== *)
(** * Reading source lines and listing them (sjio.cpp, tables.cpp)

    A file is read in blocks of 4096 characters ([FP_Input] is what is left of
    the file, [rlpbuf] what is left of the block); [ReadBufLine] cuts it into the
    segments the assembler parses one by one: physical lines, and the parts of a
    line between colons.  The listing file is the list of the lines written.
    Reading from the standard input is left out. *)

From S2P Require Export Substitution.

(** ** Positions *)

(** [TextFilePos::nextSegment] *)
Definition nextSegment (endsWithColon : bool) (advanceColumns : Z) (q : TextFilePos) : TextFilePos :=
  let colEnd0 := if endsWithColon && (colEnd q =? 0) then 1 else colEnd q in
  {| filename := filename q;
     pos_line := if colEnd0 <=? 1 then u32 (pos_line q + 1) else pos_line q;
     colBegin := colEnd0;
     colEnd := if endsWithColon then u32 (colEnd0 + advanceColumns) else 0 |}.

(** The top of [sourcePosStack]; the program asserts that there is one. *)
Definition back_pos : M St TextFilePos :=
  s ← gets st;
  match last (sourcePosStack (src s)) with None => undef | Some q => mret q end.
Definition set_back (q : TextFilePos) : M St unit :=
  modify (fun s => set_sourcePosStack (removelast (sourcePosStack (src s)) ++ [q]) s).
Definition next_segment (endsWithColon : bool) (advanceColumns : Z) : M St unit :=
  q ← back_pos; set_back (nextSegment endsWithColon advanceColumns q).

(** [CStringsList(text)] *)
Definition new_CStringsList (l : list ascii) (s : St) : strline :=
  {| ls_string := Some l; ls_source := default no_position (last (sourcePosStack (src s))) |}.

(** [InitVorlab] *)
Definition InitVorlab : M St unit :=
  modify (fun s => set_vorlab (if bool_decide (ModuleName (tab s) = []) then str "_"
                               else ModuleName (tab s) ++ str "._") s).

(** ** The listing *)

Definition nListBytes (s : St) : Z := Z.of_nat (length (ListEmittedBytes (out s))).

Definition patch (pos : nat) (l buf : list ascii) : list ascii :=
  take pos buf ++ l ++ drop (pos + length l) buf.

(** [%*u] *)
Definition pad_left (width : nat) (l : list ascii) : list ascii :=
  repeat " "%char (width - length l) ++ l.

Fixpoint until_NUL (l : list ascii) : list ascii :=
  match l with [] => [] | c :: l => if Ascii.eqb c NUL then [] else c :: until_NUL l end.

(** The first 24 columns: line number, include level, address. *)
Definition list_prefix (s : St) (currentLine hexadd : Z) : list ascii :=
  let wide := 5 <=? reglenwidth (lin s) in
  let linewidth := if wide then 5 else reglenwidth (lin s) in
  let w := Z.to_nat linewidth in
  let digit := if wide then Z.min (currentLine / 10000 + 48) 126 else 32 in
  let linenumber := currentLine mod 10000 + (if wide && (10000 <=? currentLine) then 10000 else 0) in
  let plus := if 6 - linewidth <? IncludeLevel (src s) then 6 - linewidth else IncludeLevel (src s) in
  let b := repeat " "%char 24 in
  let b := if negb (listmacro (lin s) =? 0) then patch 23 [">"%char] b else b in
  let b := match ListingType (syx (opt s)) with LST_T_MC_ONLY => patch 23 ["{"%char] b | _ => b end in
  let b := patch 0 (pad_left w (digits 10 linenumber) ++ [NUL]) b in
  let b := patch w [" "%char] b in
  let b := patch w (repeat "+"%char (Z.to_nat plus)) b in
  let b := patch 6 (fmt_0X 4 (Z.land hexadd 65535) ++ [" "%char]) b in
  if 48 <? digit then patch 0 [char_of digit] b else b.

(** [PrepareListLine] *)
Definition PrepareListLine (hexadd : Z) : M St (list ascii * list ascii) :=
  s ← gets st;
  match (if IncludeLevel (src s) <? 0 then None
         else sourcePosStack (src s) !! Z.to_nat (IncludeLevel (src s))) with
  | None => undef
  | Some q =>
      mwhen (bool_decide (substituted s = [])) (modify (set_substitutedLine None)) ;;
      s ← gets st;
      let comment := match substitutedLine (par s), eolComment (src s) with
                     | Some _, Some c => c
                     | _, _ => []
                     end in
      mret (list_prefix s (pos_line q) hexadd, substituted s ++ comment)
  end.

Fixpoint rtrim_white (l : list ascii) : list ascii :=
  match l with [] => [] | c :: l' => if White c then rtrim_white l' else l end.
Definition ListFileStringRtrim (l : list ascii) : list ascii :=
  rev (rtrim_white (rev l)) ++ ["010"%char].

Definition list_byte (b : Z) : list ascii :=
  if b =? -2 then str "..." else " "%char :: fmt_0X 2 b.

(** One row with up to four bytes. *)
Definition list_row (showAsSkipped : bool) : M St unit :=
  mwhen showAsSkipped (modify (set_substitutedLine None)) ;;
  adr ← gets (fun s => ListAddress (lin s));
  '(prefix, source) ← PrepareListLine adr;
  s ← gets st;
  let hideSource := negb showAsSkipped && (lastListedLine (lin s) =? CompiledCurrentLine (src s)) in
  modify (set_lastListedLine (CompiledCurrentLine (src s))) ;;
  let shown := take 4 (ListEmittedBytes (out s)) in
  let prefix := patch 10 (concat (map list_byte shown) ++ [" "%char]) prefix in
  let prefix := if showAsSkipped then patch 11 ["~"%char] prefix else prefix in
  let row := ListFileStringRtrim (prefix ++ (if hideSource then [] else source)) in
  modify (fun s => set_listing ((fun l => l ++ [until_NUL row]) <$> listing (lin s)) s) ;;
  modify (set_ListEmittedBytes (drop 4 (ListEmittedBytes (out s)))) ;;
  modify (set_ListAddress (wrap32 (adr + Z.of_nat (length shown)))).

Fixpoint list_rows (fuel : nat) (showAsSkipped : bool) : M St unit :=
  match fuel with
  | O => nofuel
  | S fuel =>
      list_row showAsSkipped ;;
      n ← gets nListBytes;
      if 0 <? n then list_rows fuel showAsSkipped else mret tt
  end.

Definition ListFile (showAsSkipped : bool) : M St unit :=
  s ← gets st;
  let o := syx (opt s) in
  if negb (LASTPASS =? pass (src s)) || bool_decide (listing (lin s) = None) || donotlist (lin s)
     || IsListingSuspended o
  then modify (fun s => set_donotlist false (set_ListEmittedBytes [] s))
  else match showAsSkipped, ListingType o with
       | true, LST_T_ACTIVE =>
           massert (nListBytes s =? 0) ;; modify (set_ListEmittedBytes [])
       | _, t =>
           if match t with LST_T_MC_ONLY => nListBytes s =? 0 | _ => false end then mret tt
           else
             list_rows (S (length (ListEmittedBytes (out s)))) showAsSkipped ;;
             modify (fun s => set_ListEmittedBytes [] (set_ListAddress (CurAddress (org s)) s))
       end.

Definition silentOrExternalBytes : list ascii :=
  str "; these bytes were emitted silently/externally (lua script?)".

Definition ListSilentOrExternalEmits : M St unit :=
  s ← gets st;
  if nListBytes s =? 0 then mret tt
  else
    modify (set_CompiledCurrentLine (wrap32 (CompiledCurrentLine (src s) + 1))) ;;
    modify (set_substitutedLine (Some silentOrExternalBytes)) ;;
    modify (set_eolComment None) ;;
    ListFile false ;;
    modify (set_substitutedLine None).
