(* ===== verification/Source.v ===== *)
(** * Cutting a file into lines (sjio.cpp, [ReadBufData] and [ReadBufLine])

    The line being built is kept nearest character first; [length ln] is
    [rlppos - line]. *)

From S2P Require Export Lines.

(** ** The read buffer *)

Definition BLOCK : nat := 4096.

(** [UtfBomMarkers] *)
Definition UtfBomMarkers : list (string * list Z) := [
  ("UTF8", [239; 187; 191]);
  ("UTF32BE", [0; 0; 254; 255]);
  ("UTF32LE", [255; 254; 0; 0]);
  ("UTF16BE", [254; 255]);
  ("UTF16LE", [255; 254]) ]%string.

Definition starts_with (m : list ascii) (l : list ascii) : bool :=
  bool_decide (take (length m) l = m).

Definition skip_bom (marker : string * list Z) : M St unit :=
  s ← gets st;
  let '(name, m) := marker in
  mwhen (starts_with (char_of <$> m) (rlpbuf (lin s)))
    (mwhen (negb (bool_decide (name = "UTF8"%string)))
       (Error "Invalid UTF encoding detected (only ASCII and UTF8 works)" (Some (str name)) FATAL) ;;
     modify (set_rlpbuf (drop (length m) (rlpbuf (lin s))))).

(** Whether there is a character to read; a new block is fetched when the old
    one is used up, and the markers are looked for before the first line. *)
Definition ReadBufData (ln : list ascii) : M St bool :=
  mwhen (LINEMAX - 2 <=? Z.of_nat (length ln)) (Error "Line too long" None FATAL) ;;
  s ← gets st;
  if negb (bool_decide (rlpbuf (lin s) = [])) then mret true
  else if bool_decide (FP_Input (lin s) = []) then mret false
  else
    modify (fun s => set_rlpbuf (take BLOCK (FP_Input (lin s)))
                       (set_FP_Input (drop BLOCK (FP_Input (lin s))) s)) ;;
    q ← back_pos;
    mwhen (pos_line q =? 0) (for_each UtfBomMarkers skip_bom) ;;
    s ← gets st;
    mret (negb (bool_decide (rlpbuf (lin s) = []))).

(** [ReadBufData() && f( *rlpbuf)], the character being [*rlpbuf]. *)
Definition look (ln : list ascii) : M St (option ascii) :=
  b ← ReadBufData ln;
  s ← gets st;
  mret (if (b : bool) then head (rlpbuf (lin s)) else None).
(** [++rlpbuf] *)
Definition eat : M St unit := modify (fun s => set_rlpbuf (tail (rlpbuf (lin s))) s).

Definition is_char (c : ascii) (x : option ascii) : bool :=
  match x with Some d => Ascii.eqb d c | None => false end.
Arguments is_char c%_char x.

Definition CR : ascii := "013"%char.
Definition is_eol (x : option ascii) : bool := is_char CR x || is_char LF x.

(** The end of line at the pointer and the other character of a pair. *)
Definition eat_eol (ln : list ascii) (x : option ascii) : M St unit :=
  eat ;;
  y ← look ln;
  mwhen (is_char (if is_char CR x then LF else CR) y) eat.

(** ** One segment *)

Record scan := mk_scan {
  sc_line : list ascii;
  sc_IsLabel : bool;
  sc_after : bool;
  sc_comment : option nat
}.

Definition scanned (ln : list ascii) (x : scan) : scan :=
  {| sc_line := ln; sc_IsLabel := sc_IsLabel x; sc_after := sc_after x; sc_comment := sc_comment x |}.
Definition no_label (b : bool) (x : scan) : scan :=
  {| sc_line := sc_line x; sc_IsLabel := b; sc_after := sc_after x; sc_comment := sc_comment x |}.

(** How many characters are left to read. *)
Definition unread (s : St) : nat := length (rlpbuf (lin s)) + length (FP_Input (lin s)).

(** [while (ReadBufData() && f( *rlpbuf)) *rlppos++ = *rlpbuf++;] *)
Fixpoint copy_while (fuel : nat) (f : ascii → bool) (ln : list ascii) : M St (list ascii) :=
  match fuel with
  | O => nofuel
  | S fuel =>
      x ← look ln;
      match (x : option ascii) with
      | Some c => if f c then eat ;; copy_while fuel f (c :: ln) else mret ln
      | None => mret ln
      end
  end.
Definition copying (f : ascii → bool) (ln : list ascii) : M St (list ascii) :=
  n ← gets unread; copy_while (S n) f ln.

(** A label character: SMC offset and colon behind it. *)
Definition scan_label (c : ascii) (x : scan) : M St scan :=
  let ln := c :: sc_line x in
  y ← look ln;
  '(lab, ln) ← (if is_char "+" y then
                  eat ;;
                  z ← look ("+"%char :: ln);
                  match z with
                  | Some d => if isdigit d || Ascii.eqb d "*"
                              then eat ;; mret (false, d :: "+"%char :: ln)
                              else mret (false, "+"%char :: ln)
                  | None => mret (false, "+"%char :: ln)
                  end
                else mret (true, ln));
  y ← look ln;
  if is_char ":" y then eat ;; mret (scanned (":"%char :: ln) (no_label false x))
  else mret (scanned ln (no_label lab x)).

(** A string literal: [c] is the last character, not yet confirmed; [escaped]
    counts down over the character behind a backslash. *)
Fixpoint scan_string (fuel : nat) (delim : ascii) (escaped : nat) (c : ascii) (ln : list ascii) :
    M St (list ascii) :=
  match fuel with
  | O => nofuel
  | S fuel =>
      let ln := c :: ln in
      let escaped := pred escaped in
      y ← look ln;
      match (y : option ascii) with
      | None => mret ln
      | Some d =>
          if Ascii.eqb d NUL || is_eol y then mret ln
          else
            eat ;;
            let escaped := if Ascii.eqb delim "034" && Nat.eqb escaped 0 && Ascii.eqb d "\"
                           then 2%nat else escaped in
            if negb (Nat.eqb escaped 0) || negb (Ascii.eqb d delim)
            then scan_string fuel delim escaped d ln else mret (d :: ln)
      end
  end.

(** The body of the loop on one character [c], already taken from the buffer.
    Looking at the next character before it is needed only fetches a block
    earlier. *)
Definition scan_char (c : ascii) (x : scan) : M St scan :=
  let afterNonAlphaNum := sc_after x in
  let x := {| sc_line := sc_line x; sc_IsLabel := sc_IsLabel x; sc_after := negb (isalnum c);
              sc_comment := sc_comment x |} in
  let ln := sc_line x in
  y ← look ln;
  s ← gets st;
  let block := blockComment (lin s) in
  if Ascii.eqb c "\" && is_eol y then eat_eol ln y ;; next_segment false 0 ;; mret x
  else if Ascii.eqb c "*" && is_char "/" y then
    mwhen (0 <? block) (modify (set_blockComment (block - 1))) ;;
    eat ;; mret (scanned ("/"%char :: c :: ln) x)
  else if Ascii.eqb c "/" && is_char "*" y then
    modify (set_blockComment (block + 1)) ;;
    eat ;; mret (scanned ("*"%char :: c :: ln) x)
  else if negb (block =? 0) then mret (scanned (c :: ln) x)
  else
    let x := no_label (sc_IsLabel x && islabchar c) x in
    if sc_IsLabel x then scan_label c x
    else if Ascii.eqb c ";" || (Ascii.eqb c "/" && is_char "/" y) then
      rest ← copying (fun d => negb (is_eol (Some d))) (c :: ln);
      mret {| sc_line := rest; sc_IsLabel := false; sc_after := sc_after x;
              sc_comment := Some (length ln) |}
    else if afterNonAlphaNum && (Ascii.eqb c "034" || Ascii.eqb c "'") then
      n ← gets unread;
      l ← scan_string (S n) c 0 c ln;
      mret (scanned l x)
    else mret (scanned (c :: ln) x).

(** Up to the end of line or a splitting colon. *)
Fixpoint scan_line (fuel : nat) (SplitByColon : bool) (x : scan) : M St scan :=
  match fuel with
  | O => nofuel
  | S fuel =>
      y ← look (sc_line x);
      block ← gets (fun s => blockComment (lin s));
      match (y : option ascii) with
      | None => mret x
      | Some c =>
          if is_eol y then mret x
          else if (block =? 0) && SplitByColon && negb (bool_decide (sc_line x = []))
                  && Ascii.eqb c ":" then mret x
          else eat ;; x ← scan_char c x; scan_line fuel SplitByColon x
      end
  end.

(** The start of a segment behind a colon: whether it is a SIZEOF tag. *)
Definition start_subline : M St (bool * list ascii) :=
  modify (set_colonSubline false) ;;
  x ← gets (fun s => head (rlpbuf (lin s)));
  let ln := [" "%char] in
  ln ← (if is_char "." x then eat ;; mret ("."%char :: ln) else mret ln);
  y ← look ln;
  if is_char ":" y
  then eat ;; mret (true, ":"%char :: removelast ln ++ [":"%char])
  else mret (false, ln).

(** The start of a line: whether a label may follow, the columns of a discarded
    indentation and the blanks kept. *)
Definition start_line (SplitByColon : bool) : M St (bool * Z * list ascii) :=
  block ← gets (fun s => blockComment (lin s));
  if (block =? 0) && SplitByColon then
    ln ← copying (fun d => Ascii.eqb d " " || Ascii.eqb d "009") [];
    y ← look ln;
    if is_char ">" y then eat ;; mret (true, 1 + Z.of_nat (length ln), [])
    else mret (bool_decide (ln = []), 0, ln)
  else mret (block =? 0, 0, []).

(** The end of a segment: the end of line is skipped, with one more empty line
    behind the last one; a colon starts a new segment. *)
Definition finish_segment (SplitByColon sizeofTag : bool) (ln : list ascii) : M St unit :=
  y ← look ln;
  if is_eol y then
    eat_eol ln y ;;
    more ← ReadBufData ln;
    mwhen (negb more && negb (Ascii.eqb (List.last ln NUL) NUL)) (modify (set_rlpbuf [LF]))
  else if sizeofTag then modify (set_colonSubline true)
  else if SplitByColon then
    y ← look ln;
    if is_char ":" y then eat ;; modify (set_colonSubline true)
    else modify (set_colonSubline false)
  else modify (set_colonSubline false).

(** Whether it is a tag, whether a label may follow, the columns discarded and
    the characters so far. *)
Definition start_segment (SplitByColon : bool) : M St (bool * bool * Z * list ascii) :=
  sub ← gets (fun s => colonSubline (lin s));
  if sub : bool then
    r ← start_subline;
    mret (r.1, false, 0, r.2)
  else
    '(lab, cols, ln) ← start_line SplitByColon;
    mret (false, lab, cols, ln).

Definition read_segment (SplitByColon : bool) : M St unit :=
  modify (set_substitutedLine None) ;;
  modify (set_eolComment None) ;;
  '(sizeofTag, IsLabel, indented, ln) ← start_segment SplitByColon;
  n ← gets unread;
  let x := {| sc_line := ln; sc_IsLabel := IsLabel; sc_after := true; sc_comment := None |} in
  x ← (if (sizeofTag : bool) then mret x else scan_line (S n) SplitByColon x);
  let ln := sc_line x in
  let l := rev ln in
  modify (set_line (mk_text [] l)) ;;
  modify (set_eolComment ((fun i => drop i l) <$> sc_comment x)) ;;
  finish_segment SplitByColon sizeofTag ln ;;
  sub ← gets (fun s => colonSubline (lin s));
  q ← back_pos;
  next_segment sub
    (if (sub : bool)
     then (if colEnd q =? 0 then 1 else 0) + (Z.of_nat (length ln) - (if (sizeofTag : bool) then 1 else 0)) + indented
     else 0).

Definition read_ahead (run : bool) : M St bool := if run then ReadBufData [] else mret false.

(** [ReadBufLine(false, SplitByColon)]: [line] is empty when nothing is left. *)
Definition ReadBufLine (SplitByColon : bool) : M St unit :=
  modify (set_line (mk_text [] [])) ;;
  run ← gets (fun s => IsRunning (lin s));
  more ← read_ahead run;
  mwhen more (read_segment SplitByColon).

(** [ReadBufLine(true)]: every segment is given to the parser, which may read on
    itself; the end of the last line can add one more, hence the factor two. *)
Section parsing.
Context (ParseLine : M St unit).

Fixpoint read_and_parse (fuel : nat) : M St unit :=
  match fuel with
  | O => nofuel
  | S fuel =>
      run ← gets (fun s => IsRunning (lin s));
      more ← read_ahead run;
      if negb more then mret tt
      else read_segment true ;; ParseLine ;; read_and_parse fuel
  end.

Definition ReadBufLine_parse : M St unit :=
  modify (set_line (mk_text [] [])) ;;
  n ← gets unread;
  read_and_parse (S (2 * S n)).
End parsing.

(** ** The line readers of the blocks *)

Definition ReadLineNoMacro (SplitByColon : bool) : M St bool :=
  run ← gets (fun s => IsRunning (lin s));
  more ← read_ahead run;
  if negb more then mret false else ReadBufLine SplitByColon ;; mret true.

(** The line of a macro or of a repeated block becomes [line]. *)
Definition load_line (x : strline) (l : list ascii) : M St unit :=
  modify (set_line (mk_text [] l)) ;;
  modify (set_substitutedLine None) ;;
  modify (set_eolComment None) ;;
  modify (fun s => set_lijstp (tail (lijstp (lin s))) s).

Definition ReadLine (SplitByColon : bool) : M St bool :=
  s ← gets st;
  if IsRunning (lin s) && negb (lijst (lin s) =? 0) then
    match lijstp (lin s) with
    | {| ls_string := Some l |} as x :: _ => _ ← back_pos; set_back (ls_source x) ;; load_line x l ;; mret true
    | _ => mret false
    end
  else ReadLineNoMacro SplitByColon.

(** The lines up to the one that starts with [end_]: whether it was found, and
    the lines in front of it. *)
Fixpoint read_until (fuel : nat) (end_ : string) (SplitByColon : bool) (f : list strline) :
    M St (bool * list strline) :=
  match fuel with
  | O => nofuel
  | S fuel =>
      ok ← ReadLineNoMacro SplitByColon;
      if negb ok then mret (false, f)
      else
        modify (fun s => set_CompiledCurrentLine (wrap32 (CompiledCurrentLine (src s) + 1)) s) ;;
        l ← gets (fun s => line (par s));
        let p := blanks l in
        let p := if isc p "." then adv p else p in
        let '(found, p) := cmphstr p end_ false in
        if found : bool then
          l ← ReplaceDefine p; modify (set_lp l) ;; mret (true, f)
        else
          s ← gets st;
          let f := f ++ [new_CStringsList (aft l) s] in
          ListFile true ;;
          let SplitByColon := if SplitByColon then negb (fst (cmphstr p "lua" false))
                              else fst (cmphstr p "endlua" false) in
          read_until fuel end_ SplitByColon f
  end.

Definition ReadFileToCStringsList (end_ : string) : M St (bool * list strline) :=
  n ← gets unread; read_until (S (2 * S n)) end_ true [].
