(* ===== verification/Repeat.v ===== *)
(** * Repeated blocks and the preparation of a line (directives.cpp, parser.cpp)

    DUP/REPT/WHILE collect the lines up to EDUP/ENDR/ENDW, which then parses them
    again and again.  [ParseLine] is the line parser, closed in [LineParser]. *)

From S2P Require Export Source Operands.

Definition ParseExpressionNoSyntaxError_lp : M St (bool * Z) :=
  lpm (fun p => '(ok, val, p) ← ParseExpressionNoSyntaxError p; mret ((ok, val), p)).
Definition ParseExpression_lp : M St (bool * Z) :=
  lpm (fun p => '(ok, val, p) ← ParseExpression p; mret ((ok, val), p)).
(** [Error(message, lp, type)] *)
Definition Error_lp (message : string) (type : EStatus) : M St unit :=
  s ← gets st; Error message (Some (aft (lp (par s)))) type.
Definition SkipBlanks_lp : M St bool := lpf SkipBlanks.
Definition anyComma_lp : M St bool := lpf anyComma.
Definition GetID_lp : M St (option (list ascii)) := lpf GetID.

Definition ParseLineSafe (ParseLine : M St unit) : M St unit :=
  rp ← get_lp; ParseLine ;; modify (set_lp rp).

(** ** The stack of repeated blocks, innermost first *)

Definition with_count (n : Z) (d : SRepeatStack) : SRepeatStack :=
  {| RepeatCount := n; RepeatCondition := RepeatCondition d; dup_sourcePos := dup_sourcePos d;
     dup_Lines := dup_Lines d; IsInWork := IsInWork d; Level := Level d |}.
Definition with_lines (l : list strline) (w : bool) (d : SRepeatStack) : SRepeatStack :=
  {| RepeatCount := RepeatCount d; RepeatCondition := RepeatCondition d;
     dup_sourcePos := dup_sourcePos d; dup_Lines := l; IsInWork := w; Level := Level d |}.
Definition with_level (n : Z) (d : SRepeatStack) : SRepeatStack :=
  {| RepeatCount := RepeatCount d; RepeatCondition := RepeatCondition d;
     dup_sourcePos := dup_sourcePos d; dup_Lines := dup_Lines d; IsInWork := IsInWork d; Level := n |}.

Definition top_dup (s : St) : option SRepeatStack := head (RepeatStack (lin s)).
Definition upd_top (f : SRepeatStack → SRepeatStack) (s : St) : St :=
  match RepeatStack (lin s) with
  | d :: r => set_RepeatStack (f d :: r) s
  | [] => s
  end.
(** A block whose lines are being collected is on top. *)
Definition collecting (s : St) : bool :=
  match top_dup s with Some d => negb (IsInWork d) | None => false end.

(** The block with [depth] blocks outside of it, which a reference keeps naming
    when others are pushed. *)
Definition dup_index (depth : nat) (s : St) : nat := length (RepeatStack (lin s)) - S depth.
Definition dup_at (depth : nat) (s : St) : option SRepeatStack :=
  if Nat.ltb depth (length (RepeatStack (lin s)))
  then RepeatStack (lin s) !! dup_index depth s else None.
Definition upd_dup (depth : nat) (f : SRepeatStack → SRepeatStack) (s : St) : St :=
  set_RepeatStack (alter f (dup_index depth s) (RepeatStack (lin s))) s.

(** ** DUP, REPT and WHILE *)

(** The condition of WHILE and the value its guard counts down from. *)
Definition while_condition : M St (strline * Z) :=
  s ← gets st;
  let c := aft (lp (par s)) in
  let node := new_CStringsList c s in
  SkipToEol_lp ;;
  '(ok, val, e) ← ParseExpressionNoSyntaxError (mk_text [] c);
  let '(guarded, e) := if ok && negb (isc e NUL) then comma e else (false, e) in
  '(ok, cond, val) ←
    (if guarded : bool then
       '(ok, val, _) ← ParseExpressionNoSyntaxError e;
       mret (M := M St) (ok, if (ok : bool) then rev (tail (bef e)) else c, wrap32 (val + 1))
     else mret (ok, c, 100001));
  if ok : bool
  then mret ({| ls_string := Some cond; ls_source := ls_source node |}, val)
  else
    Error "[WHILE] Syntax error in <expression>" (Some c) SUPPRESS ;;
    mret ({| ls_string := Some (str "0"); ls_source := ls_source node |}, 1).

(** The count and the index variable of DUP; [None] ends the directive. *)
Definition dup_count : M St (option (Z * list ascii)) :=
  modify (set_IsLabelNotFound false) ;;
  '(ok, val) ← ParseExpressionNoSyntaxError_lp;
  if negb ok then Error_lp "[DUP/REPT] Syntax error in <count>" SUPPRESS ;; mret None
  else
    nf ← gets (fun s => IsLabelNotFound (par s));
    mwhen nf (Error "[DUP/REPT] Forward reference" None ALL) ;;
    if val <? 0 then
      ErrorInt "[DUP/REPT] Repeat value must be positive or zero" val IF_FIRST ;; mret None
    else
      more ← comma_lp;
      if negb more then mret (Some (val, []))
      else
        n ← GetID_lp;
        match (n : option (list ascii)) with
        | Some n => mret (Some (val, n))
        | None =>
            Error_lp "[DUP/REPT] invalid index variable name" IF_FIRST ;;
            SkipToEol_lp ;; mret (Some (val, []))
        end.

Definition push_dup (count : Z) (condition : option strline) (indexVar : list ascii) : M St unit :=
  pos ← back_pos;
  modify (fun s => set_RepeatStack
    ({| RepeatCount := count; RepeatCondition := condition; dup_sourcePos := pos;
        dup_Lines := [new_CStringsList indexVar s]; IsInWork := false; Level := 0 |}
     :: RepeatStack (lin s)) s).

Definition DupWhileImplementation (isWhile : bool) : M St unit :=
  s ← gets st;
  if collecting s then
    SkipToEol_lp ;; modify (upd_top (fun d => with_level (Level d + 1) d))
  else
    started ← (if isWhile then
                 '(condition, val) ← while_condition; push_dup val (Some condition) [] ;; mret true
               else
                 r ← dup_count;
                 match (r : option (Z * list ascii)) with
                 | None => mret false
                 | Some (val, indexVar) => push_dup val None indexVar ;; mret true
                 end);
    if negb started then mret tt
    else
      eol ← SkipBlanks_lp;
      mwhen (negb eol) (Error_lp "[DUP] unexpected chars" SUPPRESS).

Definition dirDUP : M St unit := DupWhileImplementation false.
Definition dirWHILE : M St unit := DupWhileImplementation true.

(** ** EDUP, ENDR and ENDW *)

Definition while_again (condition : strline) : M St bool :=
  let c := default [] (ls_string condition) in
  modify (set_IsLabelNotFound false) ;;
  '(ok, val, e) ← ParseExpressionNoSyntaxError (mk_text [] c);
  if negb ok || negb (isc e NUL) then
    oSourcePos ← back_pos;
    set_back (ls_source condition) ;;
    Error "[WHILE] Syntax error in <expression>" (Some c) SUPPRESS ;;
    set_back oSourcePos ;;
    mret false
  else
    nf ← gets (fun s => IsLabelNotFound (par s));
    if nf : bool then WarningById "fwdref" (Some c) W_EARLY ;; mret false
    else mret (negb (val =? 0)).

Definition shouldRepeat (depth : nat) : M St bool :=
  s ← gets st;
  match dup_at depth s with
  | None => undef
  | Some dup =>
      modify (upd_dup depth (with_count (wrap32 (RepeatCount dup - 1)))) ;;
      match RepeatCondition dup with
      | None => mret (0 <=? RepeatCount dup - 1)
      | Some condition =>
          if RepeatCount dup =? 0 then
            modify (fun s => set_sourcePosStack (sourcePosStack (src s) ++ [ls_source condition]) s) ;;
            Error1 "[WHILE] infinite loop? (reaching the guardian value, default 100k)" ;;
            modify (fun s => set_sourcePosStack (removelast (sourcePosStack (src s))) s) ;;
            mret false
          else while_again condition
      end
  end.

(** The index variable holds the number of the round. *)
Definition set_index_variable (name : list ascii) (currentRepeatIndex : Z) : M St unit :=
  '(_, indexVar) ← ValidateLabel (mk_text [] name) false false;
  match (indexVar : option (list ascii)) with
  | None => mret tt
  | Some v =>
      ok ← CLabelTable_Insert (of_chars v) currentRepeatIndex LABEL_IS_DEFL LABEL_PAGE_UNDEFINED;
      s ← gets st;
      mwhen (negb ok && (currentRepeatIndex =? 0) && (pass (src s) =? 1))
        (Error "Duplicate label" (Some v) EARLY)
  end.

Definition end_lines (l : list strline) : list strline :=
  match last l with
  | Some x => removelast l ++ [{| ls_string := None; ls_source := ls_source x |}]
  | None => l
  end.

Section parsing.
Context (ParseLine : M St unit).

(** The lines of one round, up to the node without a string. *)
Fixpoint dup_lines (fuel : nat) : M St unit :=
  match fuel with
  | O => nofuel
  | S fuel =>
      s ← gets st;
      match lijstp (lin s) with
      | {| ls_string := Some l; ls_source := source |} as x :: _ =>
          if negb (IsRunning (lin s)) then mret tt
          else
            mwhen (negb (pos_line source =? 0)) (set_back source) ;;
            load_line x l ;;
            ParseLineSafe ParseLine ;;
            next_segment false 0 ;;
            dup_lines fuel
      | _ => mret tt
      end
  end.

Fixpoint dup_rounds (fuel : nat) (depth : nat) (currentRepeatIndex : Z) : M St unit :=
  match fuel with
  | O => nofuel
  | S fuel =>
      s ← gets st;
      if negb (IsRunning (lin s)) then mret tt
      else
        again ← shouldRepeat depth;
        if negb again then mret tt
        else
          s ← gets st;
          match dup_at depth s with
          | Some dup =>
              match dup_Lines dup with
              | {| ls_string := Some v |} :: lines =>
                  set_back (dup_sourcePos dup) ;;
                  modify (set_lijstp (dup_Lines dup)) ;;
                  mwhen (negb (bool_decide (v = []))) (set_index_variable v currentRepeatIndex) ;;
                  modify (set_lijstp lines) ;;
                  dup_lines (S (length lines)) ;;
                  dup_rounds fuel depth
                    (if bool_decide (v = []) then currentRepeatIndex else wrap32 (currentRepeatIndex + 1))
              | _ => undef
              end
          | None => undef
          end
  end.

Definition dirEDUP : M St unit :=
  s ← gets st;
  match top_dup s with
  | None => Error1 "[EDUP/ENDR/ENDW] End repeat without repeat"
  | Some dup =>
      if IsInWork dup then Error1 "[EDUP/ENDR/ENDW] End repeat without repeat"
      else if negb (Level dup =? 0) then modify (upd_top (with_level (Level dup - 1)))
      else
        modify (upd_top (with_lines (end_lines (dup_Lines dup)) true)) ;;
        modify (set_listmacro (listmacro (lin s) + 1)) ;;
        modify (set_lijst (lijst (lin s) + 1)) ;;
        oSourcePos ← back_pos;
        dup_rounds (S (S (Z.to_nat (u32 (RepeatCount dup))))) (length (RepeatStack (lin s)) - 1) 0 ;;
        set_back oSourcePos ;;
        modify (fun s => set_RepeatStack (tail (RepeatStack (lin s))) s) ;;
        modify (set_lijstp (lijstp (lin s))) ;;
        modify (fun s => set_lijst (lijst (lin s) - 1) s) ;;
        modify (fun s => set_listmacro (listmacro (lin s) - 1) s) ;;
        modify (set_line (line (par s))) ;;
        modify (fun s => set_CompiledCurrentLine (wrap32 (CompiledCurrentLine (src s) + 1)) s) ;;
        modify (set_substitutedLine None) ;;
        ListFile false
  end.

Definition dirENDM : M St unit :=
  s ← gets st;
  if bool_decide (RepeatStack (lin s) = []) then Error1 "[ENDM] End macro without macro"
  else
    Warning1 "ENDM used as DUP/REPT block terminator, this is deprecated (and bugged when used inside macro), change to EDUP or ENDR" ;;
    dirEDUP.

(** ** Preparing a line *)

(** [DirectivesTable_dup]: each name with and without the dot. *)
Definition directives_dup : list (string * M St unit) := [
  (".dup"%string, dirDUP); (".edup"%string, dirEDUP); (".endm"%string, dirENDM);
  (".endr"%string, dirEDUP); (".endw"%string, dirEDUP); (".rept"%string, dirDUP);
  (".while"%string, dirWHILE) ].

Definition insertd_all (l : list (string * M St unit)) : list (list ascii * M St unit) :=
  fold_left (fun t e => snd (CFunctionTable_insertd (str (fst e)) (snd e) t)) l [].

Definition DirectivesTable_dup : list (list ascii * M St unit) := insertd_all directives_dup.

Definition ParseDirective_REPT : M St bool :=
  olp ← get_lp;
  modify (set_bp olp) ;;
  o ← syntax;
  n ← lpf (getinstr o);
  match n ≫= (fun n => CFunctionTable_zoek n DirectivesTable_dup) with
  | Some f => f ;; mret true
  | None => modify (set_lp olp) ;; mret false
  end.

(** The line goes to the block being collected; nested blocks are counted. *)
Definition collect_line : M St unit :=
  s ← gets st;
  let p := line (par s) in
  modify (set_lp p) ;;
  modify (upd_top (fun d => with_lines (dup_Lines d ++ [new_CStringsList (aft p) s]) (IsInWork d) d)) ;;
  o ← syntax;
  done ← (if islabchar (cur p) && IsPseudoOpBOF o then ParseDirective_REPT else mret false);
  if done : bool then mret tt
  else
    mwhen (islabchar (cur p))
      (modify (fun s => let q := snd (take_while islabchar (lp (par s))) in
                        set_lp (if isc q ":" then adv q else q) s)) ;;
    _ ← ParseDirective_REPT; mret tt.

Definition win2dos : list Z := [
  0xB0; 0xB1; 0xB2; 0xB3; 0xB4; 0xB5; 0xB6; 0xB7; 0xB8; 0xB9; 0xBA; 0xBB; 0xBC; 0xBD; 0xBE; 0xBF;
  0xC0; 0xC1; 0xC2; 0xC3; 0xC4; 0xC5; 0xC6; 0xC7; 0xC8; 0xC9; 0xCA; 0xCB; 0xCC; 0xCD; 0xCE; 0xCF;
  0xD0; 0xD1; 0xD2; 0xD3; 0xD4; 0xD5; 0xD6; 0xD7; 0xF0; 0xD8; 0xD9; 0xDA; 0xDB; 0xDC; 0xDD; 0xDE;
  0xDF; 0xF2; 0xF3; 0xF4; 0xF5; 0xF6; 0xF7; 0xF8; 0xF1; 0xF9; 0xFA; 0xFB; 0xFC; 0xFD; 0xFE; 0x20;
  0x80; 0x81; 0x82; 0x83; 0x84; 0x85; 0x86; 0x87; 0x88; 0x89; 0x8A; 0x8B; 0x8C; 0x8D; 0x8E; 0x8F;
  0x90; 0x91; 0x92; 0x93; 0x94; 0x95; 0x96; 0x97; 0x98; 0x99; 0x9A; 0x9B; 0x9C; 0x9D; 0x9E; 0x9F;
  0xA0; 0xA1; 0xA2; 0xA3; 0xA4; 0xA5; 0xA6; 0xA7; 0xA8; 0xA9; 0xAA; 0xAB; 0xAC; 0xAD; 0xAE; 0xAF;
  0xE0; 0xE1; 0xE2; 0xE3; 0xE4; 0xE5; 0xE6; 0xE7; 0xE8; 0xE9; 0xEA; 0xEB; 0xEC; 0xED; 0xEE; 0xEF ].

Definition to_dos (c : ascii) : ascii :=
  if 128 <=? code c then char_of (nth (Z.to_nat (code c - 128)) win2dos 0) else c.

(** Whether the line needs no more work.  The text is converted where it is, in the
    buffer of the substituted line. *)
Definition PrepareLine : M St bool :=
  ListSilentOrExternalEmits ;;
  modify (fun s => set_CompiledCurrentLine (wrap32 (CompiledCurrentLine (src s) + 1)) s) ;;
  s ← gets st;
  if collecting s then collect_line ;; mret true
  else
    p ← ReplaceDefine (line (par s));
    modify (set_lp p) ;;
    mwhen (bool_decide (is_Some (Device (dev s)))) (CheckPage CHECK_NO_EMIT) ;;
    modify (fun s => set_ListAddress (CurAddress (org s)) s) ;;
    mwhen (bool_decide (ConvertEncoding (lin s) = ENCDOS))
      (modify (fun s => set_lp (mk_text (bef (lp (par s))) (to_dos <$> aft (lp (par s))))
                          (set_substitutedLine (option_map (map to_dos) (substitutedLine (par s))) s))) ;;
    mret false.

(** Lines are fetched until [p] is not blank. *)
Fixpoint nonblank_lines (fuel : nat) (p : text) : M St (bool * text) :=
  match fuel with
  | O => nofuel
  | S fuel =>
      let '(eol, p) := SkipBlanks p in
      if negb eol then mret (true, p)
      else
        s ← gets st;
        if negb (listmacro (lin s) =? 0) && bool_decide (lijstp (lin s) = []) then mret (false, p)
        else
          ListFile false ;;
          ok ← ReadLine true;
          if negb ok then mret (false, p)
          else _ ← PrepareLine; p ← get_lp; nonblank_lines fuel p
  end.

Definition PrepareNonBlankMultiLine (p : text) : M St (bool * text) :=
  n ← gets unread; m ← gets (fun s => length (lijstp (lin s)));
  nonblank_lines (S (S (m + 2 * S n))) p.
End parsing.
