(* ===== verification/Macros.v ===== *)
(** * Macros and the source-level-debugging records of labels (tables.cpp, sjio.cpp)

    The table of macros, their definition and their expansion: the arguments
    become substitutions of the lines of the body, which are parsed one by one. *)

From S2P Require Export Repeat.

(** ** Names in the debugging data *)

Definition begins_with (m l : list ascii) : bool := bool_decide (take (length m) l = m).

(** [ExportLabelToSld]: module, main label, local label and usage of a label whose
    name was accepted by [ValidateLabel]. *)
Definition label_usage (inMacro : bool) (label : SLabelTableEntry) : list ascii :=
  let flag (b : bool) (t : string) := if b then str t else [] in
  flag (has (traits label) LABEL_IS_LOCAL) ",+local"
  ++ flag (has (traits label) LABEL_IS_EQU) ",+equ"
  ++ flag inMacro ",+macro"
  ++ flag (has (traits label) LABEL_IS_SMC) ",+smc"
  ++ flag (isRelocatable label =? REGULAR) ",+reloc"
  ++ flag (isRelocatable label =? HIGH) ",+reloc_high"
  ++ flag (used label) ",+used"
  ++ flag (has (traits label) LABEL_IS_STRUCT_D) ",+struct_def"
  ++ flag (has (traits label) LABEL_IS_STRUCT_E) ",+struct_data"
  ++ flag (has (traits label) LABEL_HAS_SIZE) ",+sizeof".

Definition ExportLabelToSld (naam : list ascii) (label : SLabelTableEntry) : M St (list ascii) :=
  s ← gets st;
  let setNameSpace := negb (Ascii.eqb (hd NUL naam) "!") in
  let naam := if setNameSpace then naam else tail naam in
  let inside := bool_decide (is_Some (macrolabp (tab s))) in
  let escMacro := setNameSpace && inside && Ascii.eqb (hd NUL naam) "@" && Ascii.eqb (nth 1 naam NUL) "." in
  let naam := if escMacro then tail naam else naam in
  massert (isLabelStart (mk_text [] naam)) ;;
  let global := Ascii.eqb (hd NUL naam) "@" in
  let local := Ascii.eqb (hd NUL naam) "." in
  let naam := if global || local then tail naam else naam in
  let m := ModuleName (tab s) in
  let in_module := negb (bool_decide (m = [])) in
  let inMacro := negb escMacro && local && inside in
  let globalStructDef := has (traits label) LABEL_IS_STRUCT_D
        && (negb (begins_with m naam) || negb (Ascii.eqb (nth (length m) naam NUL) ".")) in
  let inModule := negb inMacro && negb global && in_module && negb globalStructDef in
  let isStructLabel := has (traits label) (Z.lor LABEL_IS_STRUCT_D LABEL_IS_STRUCT_E) in
  let '(is_vorlab, mainLabel) :=
    if negb setNameSpace then (false, naam)
    else if isStructLabel && negb local then (false, naam)
    else if inMacro then (false, default [] (macrolabp (tab s)))
    else (true, vorlab (tab s)) in
  let mainLabel := if (is_vorlab || isStructLabel) && in_module && begins_with m mainLabel
                   then drop (S (length m)) mainLabel else mainLabel in
  massert (Bool.eqb local (has (traits label) LABEL_IS_LOCAL)) ;;
  mret ((if inModule then m else []) ++ str "," ++ take LABMAX mainLabel ++ str ","
        ++ (if local then take LABMAX naam else []) ++ label_usage inMacro label).

Definition ExportModuleToSld (endModule : bool) : M St (list ascii) :=
  s ← gets st;
  massert (negb (bool_decide (ModuleName (tab s) = []))) ;;
  mret (ModuleName (tab s) ++ (if endModule then str ",,,+endmod" else str ",,,+module")).

Definition SldAddCommentKeyword (keyword : option (list ascii)) : M St unit :=
  s ← gets st;
  match keyword with
  | Some ((_ :: _) as k) =>
      mwhen ((pass (src s) =? 1) && negb (bool_decide (k ∈ sldCommentKeywords (lin s))))
        (modify (set_sldCommentKeywords (sldCommentKeywords (lin s) ++ [k])))
  | _ => mwhen (LASTPASS =? pass (src s)) (Error_lp "[SLDOPT COMMENT] invalid keyword" SUPPRESS)
  end.

(** [strstr] *)
Fixpoint contains (m l : list ascii) : bool :=
  begins_with m l || match l with [] => false | _ :: l => contains m l end.

Definition SldTrackComments : M St unit :=
  s ← gets st;
  match eolComment (src s), cur_device s with
  | Some c, Some d =>
      mwhen (negb (bool_decide (c = [])) && existsb (fun k => contains k c) (sldCommentKeywords (lin s)))
        (WriteToSldFile
           (if PseudoORG (org s) =? DISP_NONE then pg_Number (Page (dev s))
            else if LABEL_PAGE_UNDEFINED =? dispPageNum (org s) then GetPageOfA16 d (CurAddress (org s))
            else dispPageNum (org s))
           (CurAddress (org s)) "K" c)
  | _, _ => undef
  end.

(** ** The table of macros *)

Definition CMacroTable_ReInit : M St unit := modify (fun s => set_mac_used [] (set_macs ∅ s)).

(** The names of the arguments, up to the end of the line. *)
Fixpoint macro_arguments (fuel : nat) (args : list (list ascii)) : M St (list (list ascii)) :=
  match fuel with
  | O => nofuel
  | S fuel =>
      n ← GetID_lp;
      s ← gets st;
      let first := pass (src s) =? 1 in
      match (n : option (list ascii)) with
      | None =>
          mwhen (first && (negb (bool_decide (args = [])) || negb (isc (lp (par s)) NUL)))
            (Error_lp "Illegal argument name" EARLY) ;;
          SkipToEol_lp ;; mret args
      | Some n =>
          mwhen (first && bool_decide (n ∈ args)) (Error "Duplicate argument name" (Some n) EARLY) ;;
          more ← anyComma_lp;
          if more : bool then macro_arguments fuel (args ++ [n]) else mret (args ++ [n])
      end
  end.

(** The body is read up to [endm]; the line pointer is behind it. *)
Definition CMacroTable_Add (nnaam : list ascii) : M St unit :=
  s ← gets st;
  let key := of_chars nnaam in
  if bool_decide (is_Some (macs (lin s) !! key)) then Error "Duplicate macroname" (Some nnaam) PASS3
  else
    modify (fun s => set_macs (<[key := {| mac_args := []; mac_body := [] |}]> (macs (lin s)))
                       (set_mac_used (bucket nnaam :: mac_used (lin s)) s)) ;;
    p ← get_lp;
    args ← macro_arguments (S (room p)) [];
    s ← gets st;
    mwhen ((pass (src s) =? 1) && negb (isc (lp (par s)) NUL)) (Error_lp "Unexpected" EARLY) ;;
    ListFile false ;;
    '(ok, body) ← ReadFileToCStringsList "endm";
    modify (fun s => set_macs (<[key := {| mac_args := args; mac_body := body |}]> (macs (lin s))) s) ;;
    mwhen (negb ok) (Error "Unexpected end of macro" None EARLY).

(** ** Expansion *)

(** The name in front of a single [=], and the pointer at it. *)
Definition named_argument (p : text) : option (list ascii * text) :=
  match GetID p with
  | (Some n, q) =>
      let q := blanks q in
      if isc q "=" && negb (isn q 1 "=") then Some (n, q) else None
  | _ => None
  end.
Definition IsNamedMacroArg (arg_p : text) : bool := bool_decide (is_Some (named_argument arg_p)).

(** A failure: the message, its bad value and the pointer. *)
Definition macro_failure : Type := string * list ascii * text.

(** The name of the next argument, the names seen and the pointer at its value. *)
Definition argument_name (macName : list ascii) (all : list (list ascii)) (isNamed : bool)
    (seen : list (list ascii)) (implicit : list ascii) (p : text) :
    macro_failure + (list ascii * list (list ascii) * text) :=
  let mixed := "Named arguments must be used for all parameters or none"%string in
  if isNamed then
    match named_argument p with
    | None => inl (mixed, macName, blanks (snd (GetID p)))
    | Some (n, q) =>
        if negb (bool_decide (n ∈ all)) then inl ("Invalid named argument"%string, n, q)
        else if bool_decide (n ∈ seen) then inl ("Duplicate named argument"%string, n, q)
        else inr (n, n :: seen, adv q)
    end
  else if IsNamedMacroArg p then inl (mixed, macName, p)
  else inr (implicit, seen, p).

(** The values, for each argument of the definition. *)
Fixpoint argument_values (macName : list ascii) (all : list (list ascii)) (isNamed : bool)
    (seen : list (list ascii)) (a : list (list ascii)) (p : text) : M St (macro_failure + text) :=
  match a with
  | [] =>
      let '(eol, p) := SkipBlanks p in
      mret (if eol then inr p else inl ("Too many arguments for macro"%string, macName, p))
  | implicit :: a =>
      match argument_name macName all isNamed seen implicit p with
      | inl failure => mret (inl failure)
      | inr (argName, seen, p) =>
          '(ok, ml, p) ← GetMacroArgumentValue p;
          let '(more, p) := if (ok : bool) && negb (bool_decide (a = [])) then comma p else (ok, p) in
          if negb more then mret (inl ("Not enough arguments for macro"%string, macName, p))
          else CMacroDefineTable_AddMacro argName ml ;; argument_values macName all isNamed seen a p
      end
  end.

Section parsing.
Context (ParseLine : M St unit).

Fixpoint macro_lines (fuel : nat) : M St unit :=
  match fuel with
  | O => nofuel
  | S fuel =>
      s ← gets st;
      match lijstp (lin s) with
      | {| ls_string := Some l; ls_source := source |} as x :: _ =>
          set_back source ;; load_line x l ;; ParseLineSafe ParseLine ;; macro_lines fuel
      | _ :: _ => undef
      | [] => mret tt
      end
  end.

(** The lines of the body, inside one more source position. *)
Definition emit_macro (naam : list ascii) (m : CMacroTableEntry) (p : text) : M St unit :=
  modify (set_lp p) ;;
  ListFile false ;;
  s ← gets st;
  modify (set_sourceBlockLevel (sourceBlockLevel (src s) + 2)) ;;
  modify (set_listmacro (listmacro (lin s) + 1)) ;;
  modify (set_lijstp (mac_body m)) ;;
  modify (set_lijst (lijst (lin s) + 1)) ;;
  modify (set_sourcePosStack (sourcePosStack (src s) ++ [no_position])) ;;
  macro_lines (S (length (mac_body m))) ;;
  SizeBoundary BOUNDARY_MAIN ;;
  modify (fun s => set_sourceBlockLevel (sourceBlockLevel (src s) - 2) s) ;;
  swap ← gets (fun s => sldSwapSrcPos (lin s));
  mwhen (negb (swap =? sldSwapSrcPos (lin s))) (WarningById "sldswap" (Some naam) W_PASS3) ;;
  modify (fun s => set_sourcePosStack (removelast (sourcePosStack (src s))) s) ;;
  modify (fun s => set_CompiledCurrentLine (wrap32 (CompiledCurrentLine (src s) + 1)) s) ;;
  modify (set_line (line (par s))) ;;
  modify (set_lijstp (lijstp (lin s))) ;;
  modify (fun s => set_lijst (lijst (lin s) - 1) s).

(** 0: no such macro, 1: an error was reported, 2: expanded; and the pointer. *)
Definition CMacroTable_Emit (naam : list ascii) (p : text) : M St (Z * text) :=
  s ← gets st;
  if negb (existsb (Z.eqb (bucket naam)) (mac_used (lin s))) then mret (0, p)
  else match macs (lin s) !! of_chars naam with
  | None => mret (0, p)
  | Some m =>
      let omacrolabp := macrolabp (tab s) in
      let labnr := fmt_d (macronummer (lin s)) in
      modify (set_macronummer (wrap32 (macronummer (lin s) + 1))) ;;
      modify (set_macrolabp (Some (match omacrolabp with
                                   | Some o => labnr ++ "."%char :: o
                                   | None => labnr
                                   end))) ;;
      mwhen (bool_decide (omacrolabp = None)) CMacroDefineTable_ReInit ;;
      odefs ← gets (fun s => mdefs (lin s));
      r ← argument_values naam (mac_args m) (IsNamedMacroArg p) [] (mac_args m) p;
      match (r : macro_failure + text) with
      | inl (msg, arg, p) =>
          Error msg (Some arg) SUPPRESS ;;
          CMacroDefineTable_setdefs odefs ;;
          modify (set_macrolabp omacrolabp) ;;
          mret (1, p)
      | inr p =>
          emit_macro naam m p ;;
          CMacroDefineTable_setdefs odefs ;;
          modify (set_macrolabp omacrolabp) ;;
          modify (fun s => set_listmacro (listmacro (lin s) - 1) s) ;;
          modify (set_donotlist true) ;;
          mret (2, p)
      end
  end.
End parsing.
