(* ===== verification/Structures.v ===== *)
(** * Structures (tables.cpp, reader.cpp, parser.cpp)

    A structure has the labels and the members its definition collected; an
    instance defines one label per structure label and emits the members, each
    with the value given or its default.  The initial values can go on over
    several lines, so these loops read further lines; [limit] bounds them. *)

From S2P Require Export Macros.

Definition TEXT_MAX_SIZE : Z := 8192.

(** ** A structure being defined *)

Definition new_CStructure (nnaam : list ascii) : CStructure :=
  {| st_naam := nnaam; maxAlignment := 0; noffset := 0; mnf := []; mbf := [] |}.
Definition set_maxAlignment (n : Z) (st : CStructure) : CStructure :=
  {| st_naam := st_naam st; maxAlignment := n; noffset := noffset st; mnf := mnf st; mbf := mbf st |}.

Definition CopyLabel (nnaam : list ascii) (offset : Z) (st : CStructure) : CStructure :=
  {| st_naam := st_naam st; maxAlignment := maxAlignment st; noffset := noffset st;
     mnf := mnf st ++ [{| se1_naam := nnaam; se1_offset := wrap32 (noffset st + offset) |}];
     mbf := mbf st |}.
Definition AddLabel (nnaam : list ascii) : CStructure → CStructure := CopyLabel nnaam 0.

Definition AddMember (n : CStructureEntry2) (st : CStructure) : CStructure :=
  {| st_naam := st_naam st; maxAlignment := maxAlignment st;
     noffset := wrap32 (noffset st + se2_len n); mnf := mnf st; mbf := mbf st ++ [n] |}.

(** [CStructureEntry2(noffset, len, def, deltatype, type)] and the one of a text. *)
Definition new_member (st : CStructure) (len def delta : Z) (type : EStructureMembers) : CStructureEntry2 :=
  {| se2_text := []; se2_offset := noffset st; se2_len := len; se2_def := def;
     se2_defDeltaType := delta; se2_type := type |}.
Definition new_text_member (st : CStructure) (text : list Z) : CStructureEntry2 :=
  {| se2_text := text; se2_offset := noffset st; se2_len := Z.of_nat (length text); se2_def := 0;
     se2_defDeltaType := OFF; se2_type := SMEMBTEXT |}.
Definition add_member (len def delta : Z) (type : EStructureMembers) (st : CStructure) : CStructure :=
  AddMember (new_member st len def delta type) st.
Definition CopyMember (item : CStructureEntry2) (newDefault newDeltaType : Z) : CStructure → CStructure :=
  add_member (se2_len item) newDefault newDeltaType (se2_type item).

(** The labels of [from] below the label in front of its inclusion. *)
Definition CopyLabels (from : CStructure) (previous : option (list ascii)) (st : CStructure) : CStructure :=
  match previous with
  | None => st
  | Some l => fold_left (fun st np => CopyLabel (l ++ "."%char :: se1_naam np) (se1_offset np) st)
                (mnf from) st
  end.

(** ** The table: buckets by the low seven bits of the first character *)

Definition str_bucket (naam : list ascii) (s : St) : list CStructure :=
  default [] (strs (lin s) !! bucket naam).
Definition is_struct (naam : list ascii) (st : CStructure) : bool := bool_decide (naam = st_naam st).

Definition CStructureTable_ReInit : M St unit := modify (set_strs ∅).

Definition CStructureTable_FindDuplicate (naam : list ascii) (s : St) : bool :=
  existsb (is_struct naam) (str_bucket naam s).

Definition put_structure (st : CStructure) (s : St) : St :=
  set_strs (<[bucket (st_naam st) := st :: str_bucket (st_naam st) s]> (strs (lin s))) s.

(** The structure as it is while its definition goes on. *)
Fixpoint replace_structure (st : CStructure) (l : list CStructure) : list CStructure :=
  match l with
  | [] => []
  | x :: l => if is_struct (st_naam st) x then st :: l else x :: replace_structure st l
  end.
Definition update_structure (st : CStructure) (s : St) : St :=
  set_strs (<[bucket (st_naam st) := replace_structure st (str_bucket (st_naam st) s)]> (strs (lin s))) s.

Definition CStructureTable_Add (naam : list ascii) (offset : Z) : M St (option CStructure) :=
  s ← gets st;
  if CStructureTable_FindDuplicate naam s
  then Error "[STRUCT] Structure already exist" (Some naam) PASS3 ;; mret None
  else
    let n := new_CStructure naam in
    let n := if offset =? 0 then n else add_member offset (-1) OFF SMEMBBLOCK n in
    modify (put_structure n) ;; mret (Some n).

(** The name with the current module (or main label) in front, then without the
    module; a name shorter than the module is read behind its end. *)
Definition CStructureTable_zoek (naam : list ascii) (gl : bool) : M St (option CStructure) :=
  s ← gets st;
  let m := ModuleName (tab s) in
  let dotted := Ascii.eqb (hd NUL naam) "." in
  let ns := if gl then [] else if dotted then vorlab (tab s) else m in
  let sn := ns ++ (if bool_decide (ns = []) || dotted then [] else ["."%char]) ++ naam in
  match List.find (is_struct sn) (str_bucket sn s) with
  | Some p => mret (Some p)
  | None =>
      if gl || bool_decide (m = []) then mret None
      else if Nat.ltb (length sn) (S (length m)) then undef
      else
        let sp := drop (S (length m)) sn in
        mret (List.find (is_struct sp) (str_bucket sp s))
  end.

(** ** The labels *)

Definition write_struct_label (isDefine : bool) (name : list ascii) (value : Z) (e : SLabelTableEntry) :
    M St unit :=
  l ← ExportLabelToSld name e;
  WriteToSldFile (if isDefine then -1 else page e) value "L" l.

(** The last pass compares with the value the label got. *)
Definition check_struct_label (name fullName : list ascii) (value : Z) (isDefine : bool) : M St unit :=
  '(ok, oval, _) ← GetLabelValue (mk_text [] name);
  mwhen (negb ok) (Error "Internal error. InsertSingleStructLabel()" (Some fullName) FATAL) ;;
  mwhen (negb (value =? oval)) (Error "Label has different value in pass 2" (Some fullName) PASS3) ;;
  s ← gets st;
  if IsSldExportActive s then
    match CLabelTable_Find (of_chars fullName) true s with
    | None => undef
    | Some e => write_struct_label isDefine name value e
    end
  else mret tt.

Definition struct_traits (isLocal isDefine isRelocatable : bool) : Z :=
  Z.lor LABEL_HAS_RELOC_TRAIT
    (Z.lor (if isLocal then LABEL_IS_LOCAL else 0)
       (Z.lor (if isDefine then LABEL_IS_STRUCT_D else LABEL_IS_STRUCT_E)
          (if isRelocatable then LABEL_IS_RELOC else 0))).

Definition set_size_of (key : string) (n : Z) (s : St) : St :=
  match symbol key s with
  | Some e => put_symbol key (set_label_size n e) s
  | None => s
  end.

Definition insert_struct_label (isLocal setNameSpace : bool) (fullName : list ascii) (isRelocatable : bool)
    (value : Z) (isDefine : bool) : M St unit :=
  modify (set_isResultAffected isRelocatable) ;;
  modify (set_deltaType (if isRelocatable then REGULAR else OFF)) ;;
  massert (negb isDefine || negb isRelocatable) ;;
  let key := of_chars fullName in
  ok ← CLabelTable_Insert key value (struct_traits isLocal isDefine isRelocatable) LABEL_PAGE_UNDEFINED;
  if negb ok then Error "Duplicate label" (Some fullName) EARLY
  else if isDefine && setNameSpace then
    s ← gets st;
    massert (bool_decide (is_Some (CLabelTable_Find key true s))) ;;
    modify (set_size_of key value)
  else mret tt.

Definition InsertSingleStructLabel (setNameSpace : bool) (name : list ascii) (isRelocatable : bool)
    (value : Z) (isDefine : bool) : M St unit :=
  '(isLocal, fullName) ← (if isDefine then mret (M := M St) (false, Some name)
                          else ValidateLabel (mk_text [] name) setNameSpace false);
  match (fullName : option (list ascii)) with
  | None => mret tt
  | Some fullName =>
      s ← gets st;
      if pass (src s) =? LASTPASS then check_struct_label name fullName value isDefine
      else insert_struct_label isLocal setNameSpace fullName isRelocatable value isDefine
  end.

Definition InsertStructSubLabels (mainName : list ascii) (isRelocatable : bool)
    (members : list CStructureEntry1) (address : Z) (isDefine : bool) : M St unit :=
  for_each members (fun m =>
    InsertSingleStructLabel false (mainName ++ "."%char :: se1_naam m) isRelocatable
      (wrap32 (se1_offset m + address)) isDefine).

Definition deflab (st : CStructure) : M St unit :=
  InsertSingleStructLabel true (st_naam st) false (noffset st) true ;;
  InsertStructSubLabels (st_naam st) false (mnf st) 0 true.

Definition misaligned_text (st : CStructure) (misalignment : Z) : string :=
  of_chars (str "Struct " ++ st_naam st ++ str " did use ALIGN " ++ fmt_d (maxAlignment st)
            ++ str " in definition, but here it is misaligned by " ++ fmt_d misalignment ++ str " bytes").

(** How far an address is in front of the alignment of the structure. *)
Definition misalignment (st : CStructure) (address : Z) : Z :=
  if maxAlignment st =? 0 then 0 else Z.land (wrap32 (- address)) (wrap32 (maxAlignment st - 1)).

Definition emitlab (iid : list ascii) (address : Z) (isRelocatable : bool) (st : CStructure) : M St unit :=
  let m := misalignment st address in
  mwhen (negb (m =? 0)) (Warning1 (misaligned_text st m)) ;;
  InsertSingleStructLabel true iid isRelocatable address false ;;
  InsertStructSubLabels iid isRelocatable (mnf st) address false ;;
  modify (fun s => if bool_decide (is_Some (CLabelTable_Find (of_chars iid) true s))
                   then set_size_of (of_chars iid) (noffset st) s else s).

(** ** Values of members *)

(** [check8], [check16] and [check24] with the truncation. *)
Definition checked (type : EStructureMembers) (val : Z) : M St Z :=
  match type with
  | SMEMBBYTE => _ ← check8 val; mret (Z.land val 255)
  | SMEMBWORD => _ ← check16 val; mret (Z.land val 65535)
  | SMEMBD24 => _ ← check24 val; mret (Z.land val 16777215)
  | _ => mret val
  end.

Definition default_relocation (item : CStructureEntry2) : M St unit :=
  modify (fun s => set_deltaType (se2_defDeltaType item)
    (set_isResultAffected (isResultAffected (rel s) || negb (se2_defDeltaType item =? 0)) s)).

(** [CStructureEntry2::ParseValue]: the value for the member at the pointer, its
    default when there is none; relocation data is noted on the way. *)
Definition ParseValue (item : CStructureEntry2) (p : text) : M St (Z * text) :=
  if negb (bool_decide (se2_type item ∈ [SMEMBBYTE; SMEMBWORD; SMEMBDWORD; SMEMBD24]))
  then mret (se2_def item, p)
  else
    let p := blanks p in
    '(keep, val, p) ← (if isc p "{" then mret (M := M St) (false, se2_def item, p)
                       else
                         '(ok, val, p) ← ParseExpressionNoSyntaxError p;
                         val ← checked (se2_type item) (if (ok : bool) then val else se2_def item);
                         mret (ok, val, p));
    s ← gets st;
    let type := rel_type (rel s) in
    if type =? 0 then mret (val, p)
    else
      (match se2_type item with
       | SMEMBBYTE =>
           mwhen (type =? HIGH)
             (mwhen (negb keep) (default_relocation item) ;; resolveRelocationAffected 0 HIGH)
       | SMEMBWORD =>
           mwhen (negb keep) (default_relocation item) ;; resolveRelocationAffected 0 REGULAR
       | _ => mret tt
       end) ;;
      _ ← checkAndWarn false;
      mret (val, p).

(** [if (ip->next && SMEMBPARENCLOSE != ip->next->type) anyComma(p)] *)
Definition next_member_comma (rest : list CStructureEntry2) (p : text) : text :=
  match rest with
  | n :: _ => if bool_decide (se2_type n = SMEMBPARENCLOSE) then p else snd (anyComma p)
  | [] => p
  end.

Section parsing.
Context (limit : nat) (ParseLine : M St unit).

Let NonBlank : text → M St (bool * text) := PrepareNonBlankMultiLine ParseLine.

(** The bytes of a text in braces; then the byte an abandoned one-character
    literal left behind them. *)
Fixpoint text_values (fuel : nat) (len : Z) (p : text) (data : list Z) : M St (list Z * list Z * text) :=
  match fuel with
  | O => nofuel
  | S fuel =>
      '(more, p) ← NonBlank p;
      if negb more || isc p "}" then mret (data, [], p)
      else
        '(strRes, data', p') ← GetCharConstAsString p data len 0;
        let '(eol, q) := if Nat.eqb (length data' - length data) 1 then SkipBlanks p' else (true, p') in
        if (0 <? strRes) && (eol || isc q "," || isc q "}") then
          let '(more, p) := comma q in
          if more : bool then text_values fuel len p data' else mret (data', [], p)
        else if strRes =? -1 then mret (data', [], p')
        else
          let '(data, stale, p) := if 0 <? strRes then (data, drop (length data) data', p)
                                   else (data', [], p') in
          if (strRes =? -2) || (len <=? Z.of_nat (length data)) then
            Error "Maximum length of struct text reached. Values over" (Some (aft p)) SUPPRESS ;;
            mret (data, stale, p)
          else
            '(ok, val, p) ← ParseExpressionNoSyntaxError p;
            if negb ok then Error "Syntax error" (Some (aft p)) SUPPRESS ;; mret (data, stale, p)
            else
              _ ← check8 val;
              let data := data ++ [u8 val] in
              let '(more, p) := comma p in
              if more : bool then text_values fuel len p data else mret (data, [], p)
  end.

Definition fill_text (len : Z) (data : list Z) (initData : option (list Z)) : list Z :=
  data ++ match initData with
          | Some d => drop (length data) (take (Z.to_nat len) d)
          | None => repeat (List.last data 0) (Z.to_nat len - length data)
          end.

(** [len] bytes; without braces the initial ones. *)
Definition GetStructText (p : text) (len : Z) (initData : option (list Z)) : M St (list Z * text) :=
  massert ((1 <=? len) && (len <=? TEXT_MAX_SIZE)) ;;
  modify (set_isResultAffected false) ;;
  let '(open, p) := need_c p "{" in
  if negb open then
    match initData with
    | Some d => mret (take (Z.to_nat len) d, p)
    | None =>
        Error "TEXT field value must be enclosed in curly braces, missing '{'" (Some (aft p)) PASS3 ;;
        mret (repeat 0 (Z.to_nat len), p)
    end
  else
    '(data, stale, p) ← text_values limit len p [];
    '(more, p) ← NonBlank p;
    let '(closed, p) := if (more : bool) then need_c p "}" else (false, p) in
    if negb closed then
      Error "TEXT field value must be enclosed in curly braces, missing '}'" (Some (aft p)) PASS3 ;;
      mret (take (Z.to_nat len) (data ++ stale ++ repeat 0 (Z.to_nat len)), p)
    else
      _ ← checkAndWarn false;
      mret (fill_text len data initData, p).

(** ** Emitting an instance ([CStructure::emitmembs]) *)

(** One member, given those behind it: the braces left open and the pointer. *)
Definition emit_member (ip : CStructureEntry2) (rest : list CStructureEntry2) (haakjes : Z) (p : text) :
    M St (Z * text) :=
  match se2_type ip with
  | SMEMBBLOCK =>
      EmitBlock (if se2_def ip =? -1 then 0 else se2_def ip) (se2_len ip) (se2_def ip =? -1) 8 ;;
      mwhen (8 <? se2_len ip) (ListFile false) ;;
      mret (haakjes, p)
  | SMEMBBYTE =>
      '(val, p) ← ParseValue ip p;
      EmitByte val false ;; mret (haakjes, next_member_comma rest p)
  | SMEMBWORD =>
      '(val, p) ← ParseValue ip p;
      EmitWord val false ;; mret (haakjes, next_member_comma rest p)
  | SMEMBD24 =>
      '(val, p) ← ParseValue ip p;
      EmitByte (Z.land val 255) false ;; EmitWord (Z.land (Z.shiftr val 8) 65535) false ;;
      mret (haakjes, next_member_comma rest p)
  | SMEMBDWORD =>
      '(val, p) ← ParseValue ip p;
      EmitWord (Z.land val 65535) false ;; EmitWord (Z.land (Z.shiftr val 16) 65535) false ;;
      mret (haakjes, next_member_comma rest p)
  | SMEMBTEXT =>
      '(data, p) ← GetStructText p (se2_len ip) (Some (se2_text ip));
      for_each data (fun b => EmitByte b false) ;;
      mret (haakjes, next_member_comma rest p)
  | SMEMBPARENOPEN =>
      let p := blanks p in
      if isc p "{" then mret (haakjes + 1, adv p) else mret (haakjes, p)
  | SMEMBPARENCLOSE =>
      let p := blanks p in
      if negb (haakjes =? 0) && isc p "}" then mret (haakjes - 1, next_member_comma rest (adv p))
      else mret (haakjes, next_member_comma rest p)
  | _ => ErrorInt "Internal Error CStructure::emitmembs" 0 FATAL ;; undef
  end.

Fixpoint emit_members (fuel : nat) (ip : list CStructureEntry2) (haakjes : Z) (p : text) : M St (Z * text) :=
  match fuel with
  | O => nofuel
  | S fuel =>
      if bool_decide (ip = []) && negb (0 <? haakjes) then mret (haakjes, p)
      else
        '(more, p) ← (if 0 <? haakjes then NonBlank p else mret (true, p));
        if negb more then mret (haakjes, p)
        else match ip with
             | [] =>
                 let '(closed, p) := need_c p "}" in
                 if closed : bool then emit_members fuel [] (haakjes - 1) p else mret (haakjes, p)
             | m :: rest =>
                 '(haakjes, p) ← emit_member m rest haakjes p;
                 emit_members fuel rest haakjes p
             end
  end.

Definition emitmembs (st : CStructure) (p : text) : M St text :=
  let p := blanks p in
  let '(haakjes, p) := if isc p "{" then (1, adv p) else (0, p) in
  modify (set_isResultAffected false) ;;
  '(haakjes, p) ← emit_members limit (mbf st) haakjes p;
  mwhen (negb (haakjes =? 0)) (Error1 "closing } missing") ;;
  let '(eol, p) := SkipBlanks p in
  mwhen (negb eol) (Error1 "[STRUCT] Syntax error - too many arguments?") ;;
  _ ← checkAndWarn false;
  mret p.

(** [INT_MAX]: no address is given. *)
Definition ParseDesignedAddress (p : text) : M St (Z * text) :=
  let '(eol, p) := SkipBlanks p in
  if negb eol && isc p "=" then
    let adrP := adv p in
    '(ok, resultAdr, p) ← ParseExpressionNoSyntaxError adrP;
    if ok : bool then mret (resultAdr, p)
    else Error "[STRUCT] Syntax error in designed address" (Some (aft adrP)) SUPPRESS ;; mret (0, p)
  else mret (INT_MAX, p).

(** Whether [naam] is a structure, and the pointer behind the instance; [l] is
    its label. *)
Definition CStructureTable_Emit (naam : list ascii) (l : option (list ascii)) (p : text) (gl : bool) :
    M St (bool * text) :=
  st' ← CStructureTable_zoek naam gl;
  match (st' : option CStructure) with
  | None => mret (false, p)
  | Some st' =>
      '(address, p) ← ParseDesignedAddress p;
      let here := address =? INT_MAX in
      s ← gets st;
      let relocatable :=
        if here then (if rel_type (rel s) =? 0 then OFF else REGULAR)
        else if isResultAffected (rel s) then deltaType (rel s) else OFF in
      (match l with
       | Some l => emitlab l (if here then CurAddress (org s) else address) (relocatable =? REGULAR) st'
       | None => mret tt
       end) ;;
      if here then p ← emitmembs st' p; mret (true, p)
      else
        mwhen (bool_decide (l = None)) (Warning1 "[STRUCT] designed address without label = no effect") ;;
        mret (true, p)
  end.

(** ** The definition (STRUCT ... ENDS) *)

(** One member of [from] copied into [st], as [emit_member] reads it. *)
Definition copy_member (ip : CStructureEntry2) (rest : list CStructureEntry2) (haakjes : Z)
    (st : CStructure) (p : text) : M St (Z * CStructure * text) :=
  match se2_type ip with
  | SMEMBBLOCK => mret (haakjes, CopyMember ip (se2_def ip) OFF st, p)
  | SMEMBBYTE | SMEMBWORD | SMEMBD24 | SMEMBDWORD =>
      '(ok, val, p) ← ParseExpressionNoSyntaxError p;
      s ← gets (fun s : St => s);
      let narrow := bool_decide (se2_type ip ∈ [SMEMBWORD; SMEMBBYTE]) in
      let st := if ok : bool
                then CopyMember ip val (if isResultAffected (rel s) && narrow then deltaType (rel s) else OFF) st
                else CopyMember ip (se2_def ip) (se2_defDeltaType ip) st in
      (match se2_type ip with
       | SMEMBWORD => resolveRelocationAffected INT_MAX REGULAR
       | SMEMBBYTE => resolveRelocationAffected INT_MAX HIGH
       | _ => mret tt
       end) ;;
      mret (haakjes, st, next_member_comma rest p)
  | SMEMBTEXT =>
      '(data, p) ← GetStructText p (se2_len ip) (Some (se2_text ip));
      mret (haakjes, AddMember (new_text_member st data) st, next_member_comma rest p)
  | SMEMBPARENOPEN =>
      let p := blanks p in
      let '(haakjes, p) := if isc p "{" then (haakjes + 1, adv p) else (haakjes, p) in
      mret (haakjes, CopyMember ip 0 OFF st, p)
  | SMEMBPARENCLOSE =>
      let p := blanks p in
      let '(haakjes, p) := if negb (haakjes =? 0) && isc p "}"
                           then (haakjes - 1, next_member_comma rest (adv p)) else (haakjes, p) in
      mret (haakjes, CopyMember ip 0 OFF st, p)
  | _ => Error "internalerror CStructure::CopyMembers" None FATAL ;; undef
  end.

Fixpoint copy_members (fuel : nat) (ip : list CStructureEntry2) (haakjes : Z) (st : CStructure) (p : text) :
    M St (Z * CStructure * text) :=
  match fuel with
  | O => nofuel
  | S fuel =>
      if bool_decide (ip = []) && negb (0 <? haakjes) then mret (haakjes, st, p)
      else
        modify (set_isResultAffected false) ;;
        '(more, p) ← (if 0 <? haakjes then NonBlank p else mret (true, p));
        if negb more then mret (haakjes, st, p)
        else match ip with
             | [] =>
                 let '(closed, p) := need_c p "}" in
                 if closed : bool then copy_members fuel [] (haakjes - 1) st p
                 else mret (haakjes, st, p)
             | m :: rest =>
                 '(haakjes, st, p) ← copy_member m rest haakjes st p;
                 _ ← checkAndWarn false;
                 copy_members fuel rest haakjes st p
             end
  end.

Definition CopyMembers (from st : CStructure) (p : text) : M St (CStructure * text) :=
  let st := add_member 0 0 OFF SMEMBPARENOPEN st in
  let p := blanks p in
  let '(haakjes, p) := if isc p "{" then (1, adv p) else (0, p) in
  '(haakjes, st, p) ← copy_members limit (mbf from) haakjes st p;
  mwhen (negb (haakjes =? 0)) (Error1 "closing } missing") ;;
  mret (add_member 0 0 OFF SMEMBPARENCLOSE st, p).

Definition ParseStructLabel (st : CStructure) : M St CStructure :=
  modify (set_PreviousIsLabel None) ;;
  p ← get_lp;
  if White (cur p) then mret st
  else
    let '(l, p) := take_while islabchar (if isc p "." then adv p else p) in
    let p := blanks (if isc p ":" then adv p else p) in
    modify (set_lp p) ;;
    if isdigit (hd NUL l) then Error1 "[STRUCT] Number labels not allowed within structs" ;; mret st
    else modify (set_PreviousIsLabel (Some l)) ;; mret (AddLabel l st).

(** The value of BYTE, WORD, D24 and DWORD, 0 when there is none. *)
Definition member_value : M St Z :=
  '(ok, val) ← ParseExpression_lp; mret (if (ok : bool) then val else 0).
Definition affected_delta : M St Z :=
  r ← gets rel; mret (if isResultAffected r then deltaType r else OFF).

Definition struct_block (st : CStructure) : M St CStructure :=
  '(ok, len) ← ParseExpression_lp;
  mwhen (negb ok) (Error1 "[STRUCT] Expression expected") ;;
  let len := if (ok : bool) then len else 1 in
  more ← comma_lp;
  val ← (if (more : bool) then
           '(ok, val) ← ParseExpression_lp;
           mwhen (negb ok) (Error1 "[STRUCT] Expression expected") ;;
           let val := if (ok : bool) then val else 0 in
           _ ← check8 val; mret (Z.land val 255)
         else mret (-1));
  mret (add_member len val OFF SMEMBBLOCK st).

Definition struct_text (st : CStructure) : M St CStructure :=
  '(ok, len) ← ParseExpression_lp;
  if negb ok || (len <? 1) || (TEXT_MAX_SIZE <? len) then
    Error1 "[STRUCT] Expression for length of text expected (1..8192)" ;; SkipToEol_lp ;; mret st
  else
    more ← comma_lp;
    data ← (if (more : bool) then lpm (fun p => GetStructText p len None)
            else
              eol ← SkipBlanks_lp;
              mwhen (negb eol) (Error_lp "[STRUCT] Comma expected" SUPPRESS) ;;
              mret (repeat 0 (Z.to_nat len)));
    mret (AddMember (new_text_member st data) st).

Definition struct_align (st : CStructure) : M St CStructure :=
  '(val, fill) ← ParseAlignArguments;
  let val := if val =? -1 then 4 else val in
  let st := if maxAlignment st <? val then set_maxAlignment val st else st in
  let bytesToAdvance := Z.land (wrap32 (- noffset st)) (val - 1) in
  mret (if bytesToAdvance <? 1 then st else add_member bytesToAdvance fill OFF SMEMBBLOCK st).

(** The inclusion of another structure. *)
Definition struct_include (st : CStructure) : M St CStructure :=
  p ← get_lp;
  let pp := blanks p in
  let gl := isc pp "@" in
  let '(n, pp) := GetID (if gl then adv pp else pp) in
  match n with
  | None => mret st
  | Some n =>
      s' ← CStructureTable_zoek n gl;
      match (s' : option CStructure) with
      | None => mret st
      | Some from =>
          if bool_decide (st_naam from = st_naam st) then
            Error "[STRUCT] Can't include itself" None PASS3 ;;
            modify (set_lp (SkipToEol pp)) ;; mret st
          else
            let m := misalignment from (noffset st) in
            mwhen (negb (m =? 0)) (Warning1 (misaligned_text from m)) ;;
            previous ← gets (fun s => PreviousIsLabel (lin s));
            modify (set_lp pp) ;;
            lpm (CopyMembers from (CopyLabels from previous st))
      end
  end.

Definition ParseStructMember (st : CStructure) : M St CStructure :=
  p ← get_lp;
  modify (set_bp p) ;;
  modify (set_isResultAffected false) ;;
  member ← lpf GetStructMemberId;
  st ← match (member : EStructureMembers) with
       | SMEMBBLOCK => struct_block st
       | SMEMBBYTE =>
           val ← member_value; _ ← check8 val; delta ← affected_delta;
           resolveRelocationAffected INT_MAX HIGH ;; mret (add_member 1 val delta SMEMBBYTE st)
       | SMEMBWORD =>
           val ← member_value; _ ← check16 val; delta ← affected_delta;
           resolveRelocationAffected INT_MAX REGULAR ;; mret (add_member 2 val delta SMEMBWORD st)
       | SMEMBD24 => val ← member_value; _ ← check24 val; mret (add_member 3 val OFF SMEMBD24 st)
       | SMEMBDWORD => val ← member_value; mret (add_member 4 val OFF SMEMBDWORD st)
       | SMEMBTEXT => struct_text st
       | SMEMBALIGN => struct_align st
       | _ => struct_include st
       end;
  _ ← checkAndWarn false;
  mret st.

Definition ParseStructLine (st : CStructure) : M St CStructure :=
  modify (fun s => set_CompiledCurrentLine (wrap32 (CompiledCurrentLine (src s) + 1)) s) ;;
  l ← gets (fun s => line (par s));
  p ← ReplaceDefine l;
  modify (set_lp p) ;;
  if isc p NUL then mret st
  else
    st ← ParseStructLabel st;
    eol ← SkipBlanks_lp;
    if eol : bool then mret st
    else
      st ← ParseStructMember st;
      eol ← SkipBlanks_lp;
      mwhen (negb eol) (Error_lp "[STRUCT] Unexpected" PASS3) ;;
      mret st.
End parsing.
