(* ===== verification/DirData.v ===== *)
(** * Data directives (directives.cpp)

    DB, DC, DZ, DP, ABYTE, DW, DD, D24, DG, DH, DS/BLOCK and ALIGN: their
    arguments become bytes that are emitted at the current address. *)

From S2P Require Export Repeat Bytes.

Definition GetBytes_lp (add dc : Z) : M St (list Z) := lpm (fun p => GetBytes p add dc).

(** [EmitBytes] of the values of a directive; the array ends with the marker. *)
Definition EmitData (e : list Z) : M St unit := EmitBytes (e ++ [BYTES_END_MARKER]) false.

Definition getBytesWithCheck (add dc : Z) (dz : bool) : M St unit :=
  _ ← check8 add;
  e ← GetBytes_lp (Z.land add 255) dc;
  if bool_decide (e = []) then Error1 "no arguments"
  else EmitData e ;; mwhen dz (EmitByte 0 false).

Definition dirBYTE : M St unit := getBytesWithCheck 0 0 false.
Definition dirDC : M St unit := getBytesWithCheck 0 1 false.
Definition dirDZ : M St unit := getBytesWithCheck 0 0 true.

Definition DP_HELPER_LABEL : Z := - 0x3FFFFFFF.

(** The size byte is known from the label the previous pass left behind the
    string. *)
Definition dirDP : M St unit :=
  s ← gets st;
  let endLabel := seekForward DP_HELPER_LABEL s in
  let dpSize := match endLabel with
                | Some l => wrap32 (tl_value l - (CurAddress (org s) + 1))
                | None => 0
                end in
  mwhen ((LASTPASS =? pass (src s)) && negb (bool_decide (is_Some endLabel)))
    (Error "dirDP(): please, contact the author of this program." None FATAL) ;;
  EmitByte dpSize false ;;
  getBytesWithCheck 0 0 false ;;
  _ ← InsertRefresh DP_HELPER_LABEL; mret tt.

Definition offset_bytes (message : string) (dc : Z) (dz : bool) : M St unit :=
  '(ok, add) ← ParseExpressionNoSyntaxError_lp;
  if ok : bool then _ ← checkAndWarn false; getBytesWithCheck add dc dz
  else Error_bp message SUPPRESS.

Definition dirABYTE : M St unit :=
  offset_bytes "ABYTE <offset> <bytes>: parsing <offset> failed" 0 false.
Definition dirABYTEC : M St unit :=
  offset_bytes "ABYTEC <offset> <bytes>: parsing <offset> failed" 1 false.
Definition dirABYTEZ : M St unit :=
  offset_bytes "ABYTEZ <offset> <bytes>: parsing <offset> failed" 0 true.

(** ** DW, DD and D24

    The loop the three share: [item] turns a value into the entries of the
    array, which holds [max] of them at most; [before] is done in front of each
    value. *)
Fixpoint values_loop (fuel : nat) (before : M St unit) (message : string)
    (item : nat → Z → M St (list Z)) (max : nat) (e : list Z) : M St (list Z) :=
  match fuel with
  | O => nofuel
  | S fuel =>
      before ;;
      eol ← SkipBlanks_lp;
      '(go, e) ←
        (if eol : bool then Error "Expression expected" None SUPPRESS ;; mret (M := M St) (true, e)
         else
           '(ok, val) ← ParseExpressionNoSyntaxError_lp;
           if ok : bool then l ← item (length e) val; mret (M := M St) (true, e ++ l)
           else Error_lp message SUPPRESS ;; mret (false, e));
      if negb go then mret e
      else
        more ← comma_lp;
        if more && Nat.ltb (length e) max then values_loop fuel before message item max e
        else mret e
  end.

Definition values (before : M St unit) (message over none : string)
    (item : nat → Z → M St (list Z)) (max : nat) (emit : list Z → M St unit) : M St unit :=
  p ← get_lp;
  e ← values_loop (S (room p)) before message item max [];
  q ← get_lp;
  mwhen (Nat.eqb (length e) max && negb (isc q NUL)) (Error_lp over SUPPRESS) ;;
  if bool_decide (e = []) then Error1 none else emit (e ++ [BYTES_END_MARKER]).

Definition dirWORD : M St unit :=
  values (modify (set_isResultAffected false)) "[DW/DEFW/WORD] Syntax error"
    "Over 128 values in DW/DEFW/WORD. Values over"
    "DW/DEFW/WORD with no arguments"
    (fun teller val =>
       _ ← check16 val;
       resolveRelocationAffected (Z.of_nat teller * 2) REGULAR ;;
       mret [Z.land val 65535])
    128 (fun e => EmitWords e false).

Definition dirDWORD : M St unit :=
  values (mret tt) "[DWORD] Syntax error" "Over 128 values in DWORD. Values over"
    "DWORD with no arguments"
    (fun _ val => mret [Z.land val 65535; Z.land (Z.shiftr val 16) 65535])
    256 (fun e => EmitWords e false).

Definition dirD24 : M St unit :=
  values (mret tt) "[D24] Syntax error" "Over 128 values in D24. Values over" "D24 with no arguments"
    (fun _ val =>
       _ ← check24 val;
       mret [Z.land val 255; Z.land (Z.shiftr val 8) 255; Z.land (Z.shiftr val 16) 255])
    384 (fun e => EmitBytes e false).

(** ** DG and DH *)

Definition data_of (get : text → M St (list Z * text)) : M St unit :=
  e ← lpm get;
  if bool_decide (e = []) then Error1 "no arguments" else EmitData e.

Definition dirDG : M St unit := data_of GetBits.
Definition dirDH : M St unit := data_of GetBytesHexaText.

(** ** DS/DEFS/BLOCK *)

(** The explicit bytes of a block of [teller] bytes: how many are kept, the
    filler, and the listing entries left for it. *)
Definition block_init (teller : Z) : M St (Z * Z * Z) :=
  dirDx ← GetBytes_lp 0 0;
  let count := Z.of_nat (length dirDx) in
  n ← (if teller <? count then
         WarningById "shortblock" (Some (fmt_d teller)) W_PASS3 ;;
         mret (if teller <? 0 then 0 else teller)
       else mret count);
  if 0 <? n then
    let kept := take (Z.to_nat n) dirDx in
    EmitData kept ;; mret (n, default 0 (last kept), 4 - Z.land n 3)
  else mret (n, 0, 4).

Definition dirBLOCK : M St unit :=
  '(ok, teller) ← ParseExpressionNoSyntaxError_lp;
  if negb ok then Error_lp "[BLOCK] Syntax Error in <length>" SUPPRESS
  else
    mwhen (teller <? 0) (Warning1 "Negative BLOCK moves PC backwards") ;;
    more ← comma_lp;
    '(initByteCount, val, emitMaxToListing) ←
      (if more : bool then block_init teller else mret (M := M St) (0, 0, 4));
    EmitBlock val (teller - initByteCount) false emitMaxToListing.

(** ** ALIGN *)

Definition align_length (address val : Z) : Z := Z.land (wrap32 (- address)) (val - 1).

Definition dirALIGN : M St unit :=
  '(val, fill) ← ParseAlignArguments;
  s ← gets st;
  let val := if val =? -1 then 4 else val in
  let len := align_length (CurAddress (org s)) val in
  if len <? 1 then mret tt
  else if fill =? -1 then EmitBlock 0 len true 4
  else EmitBlock fill len false 4.
