(* ===== verification/DirSpace.v ===== *)
(** * Address, page and module directives (directives.cpp)

    ORG, DISP/ENT, PAGE, SLOT, MMU, DEVICE, DEFDEVICE, MODULE/ENDMODULE, END and
    SIZE. *)

From S2P Require Export DirData Macros.

Definition SkipParam_lp : M St unit := modify (fun s => set_lp (SkipParam (lp (par s))) s).

(** The current device; the code dereferences [Device]. *)
Definition the_device : M St CDevice :=
  s ← gets st; match cur_device s with None => undef | Some d => mret d end.
Definition has_device (s : St) : bool := bool_decide (is_Some (Device (dev s))).

(** ** PAGE *)

Definition dirPageImpl (dirName : string) (pageNumber : Z) : M St bool :=
  s ← gets st;
  if negb (has_device s) then mret false
  else
    d ← the_device;
    if (pageNumber <? 0) || (PagesCount d <=? pageNumber) then
      ErrorInt (of_chars (str "[" ++ str dirName ++ str "] Page number must be in range 0.."
                          ++ fmt_d (PagesCount d - 1))) pageNumber PASS3 ;;
      mret false
    else
      pg ← GetPage d pageNumber;
      _ ← GetCurrentSlot d;
      modify (upd_device (fun d => upd_slot (CurrentSlot d) (set_sl_Page (Some (pg_Number pg))) d)) ;;
      CheckPage CHECK_RESET ;;
      mret true.

Definition dirPageImpl_lp (dirName : string) : M St unit :=
  '(ok, pageNum) ← ParseExpressionNoSyntaxError_lp;
  if ok : bool then _ ← dirPageImpl dirName pageNum; mret tt
  else Error_lp "Syntax error in <page_number>" SUPPRESS.

Definition dirPAGE : M St unit :=
  s ← gets st;
  if negb (has_device s) then
    Warning1 "PAGE only allowed in real device emulation mode (See DEVICE)" ;; SkipParam_lp
  else dirPageImpl_lp "PAGE".

(** ** ORG *)

(** The address cropped to 16 bits where the code crops it. *)
Definition crop_address (val : Z) : M St Z :=
  s ← gets st;
  if has_device s || negb (IsLongPtr (opt s)) then
    r ← check16u val;
    mret (if r =? 0 then Z.land val 0xFFFF else val)
  else mret val.

Definition org_boundary : M St unit :=
  s ← gets st;
  mwhen (PseudoORG (org s) =? DISP_NONE) (SizeBoundary BOUNDARY_ALL).

Definition displaced_org : M St unit :=
  s ← gets st;
  mwhen (negb (PseudoORG (org s) =? DISP_NONE)) (WarningById1 "displacedorg").

Definition warn_org_page : M St unit :=
  d ← the_device;
  slot ← GetCurrentSlot d;
  s ← gets st;
  let cur := CurAddress (org s) in
  mwhen ((cur <? sl_Address slot) || (sl_Address slot + sl_Size slot <=? cur))
    (WarningById "orgpage"
       (Some (str "address 0x" ++ fmt_0X 4 cur ++ str " vs slot " ++ fmt_d (CurrentSlot d)
              ++ str " range 0x" ++ fmt_0X 4 (sl_Address slot) ++ str "..0x"
              ++ fmt_0X 4 (sl_Address slot + sl_Size slot - 1))) W_PASS3).

Definition dirORG : M St unit :=
  org_boundary ;;
  '(ok, val) ← ParseExpressionNoSyntaxError_lp;
  if negb ok then Error_lp "[ORG] Syntax error in <address>" SUPPRESS
  else
    val ← crop_address val;
    s ← gets st;
    mwhen (DidWriteOutputByte s && negb (CurAddress (org s) =? val))
      (WarningById "fileorg" (Some (fmt_d (wrap32 (val - CurAddress (org s))))) W_PASS3) ;;
    modify (set_CurAddress val) ;;
    displaced_org ;;
    s ← gets st;
    if negb (has_device s) then mret tt
    else
      more ← comma_lp;
      if negb more then CheckPage CHECK_RESET
      else warn_org_page ;; dirPageImpl_lp "ORG".

Definition dirOrgOnlyAddr (address : Z) : M St unit :=
  org_boundary ;;
  address ← crop_address address;
  modify (set_CurAddress address) ;;
  displaced_org ;;
  s ← gets st;
  mwhen (has_device s) (CheckPage CHECK_RESET).

(** ** DISP and ENT *)

(** The page of the block; [None] ends the directive. *)
Definition disp_page : M St (option Z) :=
  more ← comma_lp;
  if negb more then mret (Some LABEL_PAGE_UNDEFINED)
  else
    '(ok, valPageNum) ← ParseExpressionNoSyntaxError_lp;
    if negb ok then Error_lp "[DISP] Syntax error in <page number>" PASS3 ;; mret None
    else
      s ← gets st;
      if negb (has_device s) then
        Error_line "[DISP] <page number> is accepted only in device mode" PASS3 ;; mret None
      else
        d ← the_device;
        if (valPageNum <? 0) || (PagesCount d <=? valPageNum) then
          ErrorInt "[DISP] <page number> is out of range" valPageNum PASS3 ;; mret None
        else mret (Some valPageNum).

Definition start_disp (valAdr : Z) (s : St) : St :=
  set_PseudoORG (if negb (rel_type (rel s) =? 0) then DISP_INSIDE_RELOCATE else DISP_ACTIVE)
    (set_CurAddress valAdr (set_adrdisp (CurAddress (org s)) s)).

Definition dirDISP : M St unit :=
  s ← gets st;
  if negb (PseudoORG (org s) =? DISP_NONE) then
    Warning1 "[DISP] displacement inside another displacement block, ignoring it." ;;
    SkipToEol_lp
  else
    modify (set_isResultAffected false) ;;
    '(ok, valAdr) ← ParseExpressionNoSyntaxError_lp;
    if negb ok then Error_lp "[DISP] Syntax error in <address>" SUPPRESS
    else
      affected ← checkAndWarn true;
      if affected : bool then SkipToEol_lp
      else
        page ← disp_page;
        match (page : option Z) with
        | None => mret tt
        | Some page =>
            modify (set_dispPageNum page) ;;
            valAdr ← crop_address valAdr;
            modify (start_disp valAdr)
        end.

Definition end_disp (s : St) : St :=
  set_dispPageNum LABEL_PAGE_UNDEFINED (set_PseudoORG DISP_NONE (set_CurAddress (adrdisp (org s)) s)).

Definition dirENT : M St unit :=
  s ← gets st;
  let mode := PseudoORG (org s) in
  let inside := negb (rel_type (rel s) =? 0) in
  if mode =? DISP_NONE then Error1 "ENT should be after DISP"
  else if (DISP_ACTIVE =? mode) && inside then
    Error1 "The DISP block did start outside of relocation block, can't end inside it"
  else if (DISP_INSIDE_RELOCATE =? mode) && negb inside then
    Error1 "The DISP block did start inside of relocation block, can't end outside of it"
  else modify end_disp.

(** ** Numeric arguments ([getIntArguments], parser.h) *)

(** [args] holds the default of each argument and whether it is optional. *)
Fixpoint getIntArguments (first : bool) (args : list (Z * bool)) : M St (bool * list Z) :=
  match args with
  | [] => more ← comma_lp; mret (negb more, [])
  | (default, optional) :: rest =>
      more ← (if first then mret true else comma_lp);
      if negb more then mret (optional, default :: (fst <$> rest))
      else
        '(ok, val) ← ParseExpression_lp;
        if negb ok then mret (first && optional, default :: (fst <$> rest))
        else
          '(ok, l) ← getIntArguments false rest;
          mret (ok, val :: l)
  end.

(** ** SLOT and MMU *)

Definition dirSLOT : M St unit :=
  s ← gets st;
  if negb (has_device s) then
    Warning1 "SLOT only allowed in real device emulation mode (See DEVICE)" ;; SkipParam_lp
  else
    '(ok, val) ← ParseExpressionNoSyntaxError_lp;
    if negb ok then Error_lp "[SLOT] Syntax error in <slot_number>" SUPPRESS
    else
      d ← the_device;
      val ← SlotNumberFromPreciseAddress d val;
      if fst (SetSlot d val) then modify (upd_device (fun d => snd (SetSlot d val)))
      else
        Error (of_chars (str "[SLOT] Slot number must be in range 0.." ++ fmt_d (SlotsCount d - 1)
                         ++ str ", or exact starting address of slot")) None IF_FIRST.

(** The option letter behind the first slot, when there is one. *)
Definition mmu_option : M St (option ESlotOptions) :=
  p ← get_lp;
  let c := or20 (cur p) in
  if in_range "a" c "z" && (isn p 1 "," || White (pk p 1)) then
    o ← (if Ascii.eqb c "e" then mret O_ERROR
         else if Ascii.eqb c "w" then mret O_WARNING
         else if Ascii.eqb c "n" then mret O_NEXT
         else
           Warning "[MMU] Unknown slot option (legal: e, w, n)" (Some (aft p)) W_PASS3 ;;
           mret O_NONE);
    modify (fun s => set_lp (adv (lp (par s))) s) ;;
    mret (Some o)
  else mret None.

(** What follows the first slot: the last slot and the option. *)
Definition mmu_slots (slot1 : Z) : M St (option (Z * ESlotOptions)) :=
  more ← comma_lp;
  if more : bool then mret (Some (slot1, O_NONE))
  else
    o ← mmu_option;
    r ← match (o : option ESlotOptions) with
        | Some o => mret (M := M St) (Some (slot1, o))
        | None =>
            '(ok, slot2) ← ParseExpression_lp;
            if ok : bool then mret (Some (slot2, O_NONE))
            else Error_bp "[MMU] Second slot number parsing failed" SUPPRESS ;; mret None
        end;
    match (r : option (Z * ESlotOptions)) with
    | None => mret None
    | Some r =>
        more ← comma_lp;
        if more : bool then mret (Some r)
        else
          Error_bp "[MMU] Comma and page number expected after slot info" SUPPRESS ;; mret None
    end.

(** The optional address, -1 without it. *)
Definition mmu_address : M St (option Z) :=
  more ← comma_lp;
  if negb more then mret (Some (-1))
  else
    '(ok, address) ← ParseExpressionNoSyntaxError_lp;
    if negb ok then Error_bp "[MMU] address parsing failed" SUPPRESS ;; mret None
    else _ ← check16 address; mret (Some (Z.land address 0xFFFF)).

Fixpoint mmu_map (n : nat) (slotN pageN : Z) (slotOpt : ESlotOptions) : M St unit :=
  match n with
  | O => mret tt
  | S n =>
      d ← the_device;
      pg ← GetPage d pageN;
      _ ← GetSlot d slotN;
      modify (upd_device (upd_slot slotN (fun sl =>
        set_sl_Option slotOpt (set_sl_Page (Some (pg_Number pg)) sl)))) ;;
      mmu_map n (slotN + 1) (pageN + 1) slotOpt
  end.

Definition wrap_output_address (s : St) : St :=
  if negb (PseudoORG (org s) =? DISP_NONE) then set_adrdisp (Z.land (adrdisp (org s)) 0xFFFF) s
  else set_CurAddress (Z.land (CurAddress (org s)) 0xFFFF) s.

Definition mmu_org (slot1 slot2 address : Z) : M St unit :=
  SizeBoundary BOUNDARY_ALL ;;
  modify (set_CurAddress address) ;;
  displaced_org ;;
  d ← the_device;
  check_s1 ← GetSlot d slot1;
  check_s2 ← GetSlot d slot2;
  mwhen ((address <? sl_Address check_s1) || (sl_Address check_s2 + sl_Size check_s2 <=? address))
    (Warning1 (of_chars (str "[MMU] Requested ORG address 0x" ++ fmt_0X 4 address
       ++ str " is out of range 0x" ++ fmt_0X 4 (sl_Address check_s1) ++ str "..0x"
       ++ fmt_0X 4 (sl_Address check_s2 + sl_Size check_s2 - 1)))).

(** With valid numbers: the pages in, the address back below 64 KiB. *)
Definition mmu_apply (slot1 slot2 pageN address : Z) (slotOpt : ESlotOptions) : M St unit :=
  mmu_map (Z.to_nat (slot2 - slot1 + 1)) slot1 pageN slotOpt ;;
  modify wrap_output_address ;;
  mwhen (0 <=? address) (mmu_org slot1 slot2 address) ;;
  CheckPage CHECK_RESET.

Definition mmu_arguments (slot1 slot2 : Z) (slotOpt : ESlotOptions) : M St unit :=
  '(ok, pageN) ← ParseExpression_lp;
  if negb ok then Error_bp "[MMU] Page number parsing failed" SUPPRESS
  else
    address ← mmu_address;
    match (address : option Z) with
    | None => mret tt
    | Some address =>
        d ← the_device;
        slot1 ← SlotNumberFromPreciseAddress d slot1;
        slot2 ← SlotNumberFromPreciseAddress d slot2;
        if (slot1 <? 0) || (slot2 <? slot1) || (SlotsCount d <=? slot2) then
          Error (of_chars (str "[MMU] Slot number(s) must be in range 0.." ++ fmt_d (SlotsCount d - 1)
                           ++ str " (or exact starting address of slot) and form a range")) None SUPPRESS
        else if (pageN <? 0) || (PagesCount d <=? wrap32 (pageN + (slot2 - slot1))) then
          Error (of_chars (str "[MMU] Requested page(s) must be in range 0.."
                           ++ fmt_d (PagesCount d - 1))) None SUPPRESS
        else mmu_apply slot1 slot2 pageN address slotOpt
    end.

Definition dirMMU : M St unit :=
  s ← gets st;
  if negb (has_device s) then
    Warning1 "MMU is allowed only in real device emulation mode (See DEVICE)" ;; SkipToEol_lp
  else
    '(ok, slot1) ← ParseExpression_lp;
    if negb ok then Error_bp "[MMU] First slot number parsing failed" SUPPRESS
    else
      r ← mmu_slots slot1;
      match (r : option (Z * ESlotOptions)) with
      | None => mret tt
      | Some (slot2, slotOpt) => mmu_arguments slot1 slot2 slotOpt
      end.

(** ** DEVICE and DEFDEVICE *)

Definition dirDEVICE : M St unit :=
  modify (fun s => set_deviceDirectivesCount (deviceDirectivesCount (lin s) + 1) s) ;;
  s ← gets st;
  mwhen (deviceDirectivesCount (lin s) =? 1)
    (pos ← back_pos; modify (set_globalDeviceSourcePos pos)) ;;
  id ← GetID_lp;
  match (id : option (list ascii)) with
  | None => Error_lp "[DEVICE] Syntax error in <deviceid>" SUPPRESS
  | Some id =>
      more ← anyComma_lp;
      '(ok, ramtop) ← (if more : bool then ParseExpressionNoSyntaxError_lp else mret (true, 0));
      if negb ok then Error_bp "[DEVICE] Syntax error" PASS3
      else if more && ((ramtop <? 0x5D00) || (0xFFFF <? ramtop)) && negb (ramtop =? -1) then
        ErrorInt "[DEVICE] valid range for RAMTOP is $5D00..$FFFF" ramtop PASS3
      else
        s ← gets st;
        mwhen ((1 <? deviceDirectivesCount (lin s)) || bool_decide (Devices (dev s) = []))
          (ok ← SetDevice id ramtop;
           mwhen (negb ok) (Error "[DEVICE] Invalid parameter" (Some id) IF_FIRST))
  end.

(** The arguments of DEFDEVICE with their defaults: the loop that presets the
    initial pages stops two entries before the end of the array. *)
Definition defdevice_arguments : list (Z * bool) :=
  [(0, false); (0, false)] ++ repeat (-1, true) (Z.to_nat (MAX_SLOT_N - 2)) ++ [(0, false); (0, false)].

(** The initial page of each slot, from the requested ones. *)
Fixpoint initial_pages (PagesCount previous_page : Z) (requested : list Z) : M St (list Z) :=
  match requested with
  | [] => mret []
  | r :: requested =>
      page ← (if (0 <=? r) && (r <? PagesCount) then mret r
              else
                mwhen (negb (r =? -1)) (ErrorInt "[DEFDEVICE] invalid initial page" r EARLY) ;;
                mret (if previous_page <? PagesCount - 1 then previous_page + 1 else previous_page));
      rest ← initial_pages PagesCount page requested;
      mret (page :: rest)
  end.

Definition DEFDEVICE_SYNTAX_ERR : string :=
  "[DEFDEVICE] expected syntax is <deviceid>, <slot_size>, <page_count>[, <slot_0_initial_page>[, ...]]".

(** The definition from the values of all the arguments. *)
Definition define_device (id : list ascii) (args : list Z) : M St unit :=
  match args with
  | slot_size :: page_count :: requested =>
      if (slot_size <? 256) || (0x10000 <? slot_size) || (page_count <=? 0)
         || (LABEL_PAGE_MAX_RAM <? page_count)
      then Error_bp "[DEFDEVICE] valid slot_size: 256..64ki, page_count: 1..30000" EARLY
      else
        let def := new_CDeviceDef id slot_size page_count [] in
        pages ← initial_pages page_count (-1) (take (Z.to_nat (dd_SlotsCount def)) requested);
        modify (fun s => set_DefDevices
          (DefDevices (dev s) ++ [new_CDeviceDef id slot_size page_count pages]) s)
  | _ => undef
  end.

Definition dirDEFDEVICE : M St unit :=
  id ← GetID_lp;
  match (id : option (list ascii)) with
  | None => Error_bp DEFDEVICE_SYNTAX_ERR SUPPRESS
  | Some id =>
      s ← gets st;
      let is_defined := existsb (fun el => same_ignoring_case id (dd_ID el)) (DefDevices (dev s)) in
      if is_defined || (1 <? pass (src s)) then
        mwhen (pass (src s) <=? 1)
          (Error "[DEFDEVICE] device with such ID is already defined" (Some id) EARLY) ;;
        SkipToEol_lp
      else
        more ← anyComma_lp;
        '(ok, args) ← (if more : bool then getIntArguments true defdevice_arguments
                       else mret (false, []));
        if negb ok then Error_bp DEFDEVICE_SYNTAX_ERR EARLY else define_device id args
  end.

(** ** MODULE, ENDMODULE *)

(** [STRCAT(dest, LINEMAX-1-strlen(dest), src)] *)
Definition line_cat (dest src : list ascii) : list ascii :=
  dest ++ take (Z.to_nat (LINEMAX - 1) - length dest) src.

Definition enter_module (n : list ascii) (s : St) : St :=
  let m := ModuleName (tab s) in
  let m := if bool_decide (m = []) then m else line_cat m (str ".") in
  set_ModuleName (line_cat m n) (set_sourceBlockLevel (sourceBlockLevel (src s) + 2) s).

Definition trace_module (endModule : bool) : M St unit :=
  s ← gets st;
  mwhen (IsSldExportActive s)
    (text ← ExportModuleToSld endModule; WriteToSldFile (-1) (CurAddress (org s)) "L" text).

Definition dirMODULE : M St unit :=
  SizeBoundary BOUNDARY_ALL ;;
  n ← GetID_lp;
  match (n : option (list ascii)) with
  | None => Error_bp "[MODULE] Syntax error in <name>" SUPPRESS
  | Some n =>
      if bool_decide ("."%char ∈ n)
      then Error "[MODULE] Dots not allowed in <module_name>" (Some n) SUPPRESS
      else modify (enter_module n) ;; InitVorlab ;; trace_module false
  end.

(** What stands before the last dot ([strrchr]), nothing without one. *)
Definition outer_module (m : list ascii) : list ascii :=
  if bool_decide ("."%char ∈ m)
  then rev (tail (drop_while (fun c => negb (Ascii.eqb c ".")) (rev m)))
  else [].

Definition dirENDMODULE : M St unit :=
  s ← gets st;
  if bool_decide (ModuleName (tab s) = []) then Error1 "ENDMODULE without MODULE"
  else
    SizeBoundary BOUNDARY_MAIN ;;
    modify (fun s => set_sourceBlockLevel (sourceBlockLevel (src s) - 2) s) ;;
    trace_module true ;;
    modify (fun s => set_ModuleName (outer_module (ModuleName (tab s))) s) ;;
    InitVorlab.

(** ** END and SIZE *)

(** The bad value of the message is the number of [IF_FIRST]. *)
Definition IF_FIRST_value : Z := 4.

Definition dirEND : M St unit :=
  p ← get_lp;
  '(ok, val) ← ParseExpression_lp;
  (if negb ok then modify (set_lp p)
   else if (65535 <? val) || (val <? 0) then ErrorInt "[END] Invalid address" IF_FIRST_value PASS3
   else modify (set_StartAddress val)) ;;
  modify (set_IsRunning false).

Definition dirSIZE : M St unit :=
  '(ok, val) ← ParseExpressionNoSyntaxError_lp;
  if negb ok then Error_bp "[SIZE] Syntax error in <filesize>" SUPPRESS
  else
    s ← gets st;
    if negb (LASTPASS =? pass (src s)) then mret tt
    else if out_size (out s) =? -1 then modify (set_out_size val)
    else mwhen (negb (out_size (out s) =? val))
           (ErrorInt "[SIZE] Different size than previous" (out_size (out s)) PASS3).
