(* ===== verification/Files.v ===== *)
(** * Files (sjio.cpp, support.cpp)

    Names of input and output files, the main output, tape and HEX files, binary
    includes and the binary savers.  The file system the program runs in is a
    parameter, the class [FileSystem]; what the run writes is kept in
    [saved_files], newest first. *)

From S2P Require Export DirSpace.

Class FileSystem := {
  (** the content of a file that can be opened for reading, before the run *)
  file_bytes : list ascii → option (list Z);
  (** a file of that name can be opened for writing *)
  writable : list ascii → bool;
  (** the directory of a file (the launch directory for the empty name), as
      [fs::canonical] and [lexically_proximate] give it *)
  directory_of : list ascii → list ascii;
  (** the name shown for a path ([SInputFile::InitStr], by --fullpath) *)
  shown_name : list ascii → string;
  (** what a memory block of that size holds before it is written *)
  fresh_memory : nat → list Z;
  (** the options --outprefix and --inc *)
  OutPrefix : list ascii;
  IncludeDirsList : list (list ascii)
}.

(** ** Paths *)

Definition is_slash (c : ascii) : bool := Ascii.eqb c "/".
Definition is_absolute (p : list ascii) : bool :=
  match p with c :: _ => is_slash c | [] => false end.
Definition has_filename (p : list ascii) : bool :=
  match last p with Some c => negb (is_slash c) | None => false end.
(** [p / q] of [std::filesystem] *)
Definition path_append (p q : list ascii) : list ascii :=
  if is_absolute q then q
  else if has_filename p then p ++ "/"%char :: q else p ++ q.

Definition force_slash (l : list ascii) : list ascii :=
  (fun c => if Ascii.eqb c "\" then "/"%char else c) <$> l.
Definition SJ_FixSlashes (l : list ascii) : M St (list ascii) :=
  mwhen (bool_decide ("\"%char ∈ l)) (WarningById "backslash" (Some l) W_PASS3) ;;
  mret (force_slash l).

Definition isAnySlash (c : ascii) : bool := is_slash c || Ascii.eqb c "\".

Definition isWindowsDrivePathStart (filePath : list ascii) : M St bool :=
  match filePath with
  | d :: ":"%char :: rest =>
      if in_range "A" (toupper d) "Z" then
        mwhen (negb (isAnySlash (match rest with c :: _ => c | [] => NUL end)))
          (Warning "Relative file path with drive letter detected (not supported)"
             (Some filePath) W_EARLY) ;;
        mret true
      else mret false
  | _ => mret false
  end.

Section files.
Context `{FileSystem}.

(** The content of a file now: what the run wrote last, or what was there. *)
Definition content_of (name : list ascii) (s : St) : option (list Z) :=
  match List.find (fun f => bool_decide (fst f = name)) (saved_files (lin s)) with
  | Some (_, c) => Some c
  | None => file_bytes name
  end.
Definition FileExists (name : list ascii) (s : St) : bool :=
  bool_decide (is_Some (content_of name s)).

Definition GetOutputFileName (p : text) : M St (list ascii * text) :=
  '(name, _, p) ← GetDelimitedStringEx p;
  name ← SJ_FixSlashes name;
  mret (force_slash (path_append OutPrefix name), p).
Definition GetOutputFileName_lp : M St (list ascii) := lpm GetOutputFileName.

Definition SInputFile_of (full : list ascii) : SInputFile :=
  {| in_full := full; in_str := shown_name full |}.
Definition INPUT_FILE_STDIN : SInputFile := {| in_full := []; in_str := "<stdin>" |}.

(** The search of a name: absolute names as they are, then the current directory
    except for <name>, then the include paths from the last one. *)
Definition search_input (directory name : list ascii) (delimiter : EDelimiterType) : M St (list ascii) :=
  if negb (has_filename name) then mret name
  else
    drive ← (if is_absolute name then mret true else isWindowsDrivePathStart name);
    if drive : bool then mret name
    else
      s ← gets st;
      let current := force_slash (path_append directory name) in
      if negb (bool_decide (delimiter = DT_ANGLE))
         && (bool_decide (delimiter = DT_COUNT) || FileExists current s)
      then mret current
      else
        let candidates := (fun d => force_slash (path_append d name)) <$> rev IncludeDirsList in
        mret (default current (List.find (fun f => FileExists f s) candidates)).

(** A name is searched once per directory and the result archived. *)
Definition GetInputFile (name : list ascii) (delimiter : EDelimiterType) : M St SInputFile :=
  if bool_decide (name = []) && bool_decide (delimiter = DT_COUNT) then mret INPUT_FILE_STDIN
  else
    s ← gets st;
    let directory := directory_of (match fileNameFull (lin s) with Some f => in_full f | None => [] end) in
    name ← SJ_FixSlashes name;
    let key := (directory, (name, delimiter)) in
    match List.find (fun e => bool_decide (fst e = key)) (archivedInputFiles (lin s)) with
    | Some (_, f) => mret f
    | None =>
        full ← search_input directory name delimiter;
        let f := SInputFile_of full in
        modify (fun s => set_archivedInputFiles ((key, f) :: archivedInputFiles (lin s)) s) ;;
        mret f
    end.
Definition GetInputFile_lp : M St SInputFile :=
  '(name, delimiter) ← lpm GetDelimitedStringEx;
  GetInputFile name delimiter.

(** ** The main output *)

Inductive EOutputMode := OUTPUT_TRUNCATE | OUTPUT_REWIND | OUTPUT_APPEND.
#[export] Instance EOutputMode_eq_dec : EqDecision EOutputMode.
Proof. solve_decision. Defined.

Definition fopen_error (name : list ascii) (type : EStatus) : M St unit :=
  Error "opening file for write" (Some name) type.

(** The opened file and the position in it. *)
Definition output_opened (mode : EOutputMode) (content : list Z) (s : St) : St :=
  match mode with
  | OUTPUT_TRUNCATE => set_out_gap 0 (set_out_tail [] (set_FP_Output (Some [])
                         (put_file (DestinationFName (out s)) [] s)))
  | OUTPUT_REWIND => set_out_gap 0 (set_out_tail content (set_FP_Output (Some []) s))
  | OUTPUT_APPEND => set_out_gap 0 (set_out_tail [] (set_FP_Output (Some content) s))
  end.

Definition open_raw : M St unit :=
  s ← gets st;
  let name := RAWFName (out s) in
  mwhen (bool_decide (FP_RAW (out s) = None) && has_filename name)
    (if writable name then modify (fun s => set_FP_RAW (Some []) (put_file name [] s))
     else fopen_error name PASS3).

Definition OpenDest (mode : EOutputMode) : M St unit :=
  modify (set_destlen 0) ;;
  s ← gets st;
  let name := DestinationFName (out s) in
  let content := content_of name s in
  let mode := if bool_decide (content = None) then OUTPUT_TRUNCATE else mode in
  mwhen (negb (NoDestinationFile (out s)))
    (if writable name then modify (output_opened mode (default [] content))
     else fopen_error name FATAL) ;;
  modify (set_NoDestinationFile false) ;;
  open_raw.

Definition NewDest (newfilename : list ascii) (mode : EOutputMode) : M St unit :=
  CloseDest ;;
  mwhen (negb (bool_decide (newfilename = []))) (modify (set_DestinationFName newfilename)) ;;
  OpenDest mode.

(** [fseek] to a position of the output file. *)
Definition seek_output (position : Z) (s : St) : St :=
  let c := output_content s in
  let n := Z.to_nat position in
  set_out_gap (Z.max 0 (position - Z.of_nat (length c)))
    (set_out_tail (drop n c)
      (set_FP_Output (Some (take n c ++ pad_zeros (position - Z.of_nat (length c)))) s)).

Definition SeekDest (offset : Z) (from_current : bool) : M St unit :=
  WriteDest ;;
  s ← gets st;
  match FP_Output (out s) with
  | None => mret tt
  | Some c =>
      let position := if from_current then Z.of_nat (length c) + offset else offset in
      if position <? 0 then Error "File seek error (FPOS)" None FATAL
      else modify (seek_output position)
  end.

(** ** Tape and HEX files *)

Definition OpenTapFile_name (tapename : list ascii) (flagbyte : Z) : M St unit :=
  CloseTapFile ;;
  s ← gets st;
  match content_of tapename s with
  | Some f =>
      if writable tapename
      then modify (set_tapName tapename) ;; OpenTapFile f flagbyte
      else fopen_error tapename PASS3
  | None => fopen_error tapename PASS3
  end.

Definition OpenHex (fname : list ascii) : M St bool :=
  s ← gets st;
  if negb (has_filename fname) then mret false
  else if bool_decide (is_Some (FP_HEX (out s))) then
    Error "HEX output is already active, can't open for file" (Some fname) SUPPRESS ;; mret false
  else if bool_decide (fname = str "-") && bool_decide (is_Some (FP_RAW (out s)))
          && bool_decide (RAWFName (out s) = str "-") then
    Error "Directing both --raw and --hex to stdout will produce mixed/corrupted output" None ALL ;;
    mret false
  else if negb (writable fname) then
    Error "opening HEX file for write" (Some fname) PASS3 ;; mret false
  else
    modify (fun s => set_hexName fname (set_FP_HEX (Some []) (set_hexBytes [] s))) ;;
    mret true.

(** ** Binary includes *)

(** Offset and length, in the file of [totlen] bytes, that the arguments ask
    for: negative ones count from the end. *)
Definition include_range (totlen offset length : Z) : Z * Z :=
  let offset := if offset <? 0 then offset + totlen else offset in
  let length := if length <? 0 then length + (totlen - offset) else length in
  (offset, if length =? INT_MAX then totlen - offset else length).

(** Early passes: only the address moves, up to a page of the device at a time. *)
Fixpoint skip_included (fuel : nat) (length : Z) : M St unit :=
  match fuel with
  | O => nofuel
  | S fuel =>
      if length =? 0 then mret tt
      else
        s ← gets st;
        advance ←
          (if has_device s then
             CheckPage CHECK_EMIT ;;
             s ← gets st;
             match MemoryPointer (dev s) with
             | None => mret length
             | Some ofs =>
                 let pg := Page (dev s) in
                 let advance := Z.min length (RAM pg + pg_Size pg - ofs) in
                 modify (set_MemoryPointer (Some (ofs + advance))) ;; mret advance
             end
           else mret length);
        let rest := length - advance in
        mwhen ((rest <=? 0) && (advance =? 0)) (Error "BinIncFile internal error" None FATAL) ;;
        modify (fun s => set_CurAddress (wrap32 (CurAddress (org s) + advance)) s) ;;
        modify (fun s => if negb (PseudoORG (org s) =? DISP_NONE)
                         then set_adrdisp (wrap32 (adrdisp (org s) + advance)) s else s) ;;
        skip_included fuel rest
  end.

Definition clamp (v lo hi : Z) : Z := if v <? lo then lo else if hi <? v then hi else v.

Definition BinIncFile (file : SInputFile) (offset length : Z) : M St unit :=
  s ← gets st;
  let shown := str (in_str file) in
  let content := content_of (in_full file) s in
  mwhen (bool_decide (content = None)) (Error "opening file" (Some shown) PASS3) ;;
  let data := default [] content in
  let totlen := Z.of_nat (List.length data) in
  let '(offset, length) := include_range totlen offset length in
  let short := (offset <? 0) || (length <? 0) || (totlen <? wrap32 (offset + length)) in
  mwhen short (Error "file too short" (Some shown) PASS3) ;;
  let offset' := if short then clamp offset 0 totlen else offset in
  let length' := if short then clamp length 0 (totlen - offset') else length in
  if length' =? 0 then Warning1 "include data: requested to include no data (length=0)"
  else
    s ← gets st;
    if negb (pass (src s) =? LASTPASS) then skip_included (S (Z.to_nat length')) length'
    else
      for_each (take (Z.to_nat length') (drop (Z.to_nat offset') data))
        (fun b => EmitByteNoListing b false).

(** ** Binary savers *)

(** What [SaveRAM] writes behind [header], and its result. *)
Definition SaveRAM_file (fname : list ascii) (header : list Z) (start length : Z) : M St bool :=
  s ← gets st;
  match SaveRAM (cur_device s) start length with
  | None => undef
  | Some (result, bytes) =>
      modify (put_file fname (header ++ bytes)) ;;
      mret (negb (result =? 0))
  end.

(** [FOPEN_ISOK(ff, fname, "wb")], a failure being FATAL. *)
Definition open_for_write (fname : list ascii) : M St unit :=
  if writable fname then mret tt else fopen_error fname FATAL.

Definition SaveBinary (fname : list ascii) (start length : Z) : M St bool :=
  open_for_write fname ;; SaveRAM_file fname [] start length.

Definition lo8 (v : Z) : Z := u8 v.
Definition hi8 (v : Z) : Z := u8 (Z.shiftr v 8).
Definition sum_bytes (l : list Z) : Z := fold_left Z.add l 0.

Definition p3dos_header (length type w2 w3 : Z) : list Z :=
  let full_length := 128 + length in
  let h := (code <$> str "PLUS3DOS") ++ [26; 1; 0]
           ++ [u8 full_length; u8 (Z.shiftr full_length 8); u8 (Z.shiftr full_length 16);
               u8 (Z.shiftr full_length 24)]
           ++ [u8 type; lo8 length; hi8 length; lo8 w2; hi8 w2; lo8 w3; hi8 w3] ++ repeat 0 105 in
  h ++ [u8 (sum_bytes h)].

Definition SaveBinary3dos (fname : list ascii) (start length type w2 w3 : Z) : M St bool :=
  open_for_write fname ;;
  SaveRAM_file fname (p3dos_header length type (u16 w2) (u16 w3)) start length.

Definition amsdos_header (start length start_adr type : Z) : list Z :=
  let h := repeat 0 18 ++ [u8 type; 0; 0; lo8 start; hi8 start; 0; lo8 length; hi8 length;
             lo8 start_adr; hi8 start_adr] ++ repeat 0 36 ++ [lo8 length; hi8 length; 0] in
  let sum := u16 (sum_bytes h) in
  h ++ [lo8 sum; hi8 sum] ++ repeat 0 59.

Definition SaveBinaryAmsdos (fname : list ascii) (start length start_adr type : Z) : M St bool :=
  if negb (writable fname) then fopen_error fname SUPPRESS ;; mret false
  else SaveRAM_file fname (amsdos_header start length (u16 start_adr) type) start length.

Definition SaveDeviceMemory (fname : list ascii) (start length : Z) : M St bool :=
  open_for_write fname ;;
  d ← the_device;
  modify (put_file fname (mem_bytes d start length)) ;;
  mret true.

(** *** Hobeta *)

(** The name split at its last dot, when something follows it. *)
Definition split_extension (name : list ascii) : list ascii * option ascii :=
  if bool_decide ("."%char ∈ name) then
    let ext := rev (snd (fold_left (fun '(found, acc) c =>
      if found : bool then (true, acc)
      else if Ascii.eqb c "." then (true, acc) else (false, acc ++ [c])) (rev name) (false, []))) in
    match ext with
    | e :: _ => (take (length name - length ext - 1) name, Some e)
    | [] => (name, None)
    end
  else (name, None).

(** The nine bytes of name and extension. *)
Definition hobeta_name (fhobname : list ascii) : list Z :=
  let '(base, ext) := if Nat.ltb 1 (length fhobname) then split_extension fhobname
                      else (fhobname, None) in
  let n := take 8 base in
  (code <$> n) ++ repeat 32 (8 - length n) ++ [match ext with Some e => code e | None => 32 end].

Definition hobeta_checksum (h : list Z) : Z :=
  sum_bytes (imap (fun i v => v * 257 + Z.of_nat i) h).

(** The header of 17 bytes and the number of bytes saved behind it. *)
Definition hobeta_header (fhobname : list ascii) (start length : Z) : list Z * Z :=
  let name := hobeta_name fhobname in
  let is_basic := bool_decide (last name = Some (code "B")) in
  let param := if is_basic then length else start in
  let sectors := u8 (hi8 length + (if lo8 length =? 0 then 0 else 1)) in
  let h := name ++ [lo8 param; hi8 param; lo8 length; hi8 length; 0; sectors] in
  let chk := hobeta_checksum h in
  (h ++ [lo8 chk; hi8 chk], sectors * 0x100).

Definition SaveHobeta (fname fhobname : list ascii) (start length : Z) : M St bool :=
  let length := if 0x10000 <? wrap32 (start + length) then 0 else length in
  let length := if length <=? 0 then (0x10000 + length) - start else length in
  if length <=? 0 then ErrorInt "invalid length" length PASS3 ;; mret false
  else
    open_for_write fname ;;
    let '(header, length) := hobeta_header fhobname start length in
    SaveRAM_file fname header start length.

(** *** Intel HEX of a memory region *)

Fixpoint hex_records (fuel : nat) (data : list Z) (start : Z) : M St unit :=
  match fuel, data with
  | _, [] => mret tt
  | O, _ => nofuel
  | S fuel, _ =>
      let part := take 16 data in
      WriteHexRecord 0 start part ;;
      hex_records fuel (drop 16 data) (start + Z.of_nat (length part))
  end.

Fixpoint hex_slots (d : CDevice) (slots : list CDeviceSlot) (start length start_adr : Z) : M St bool :=
  match slots with
  | [] => mret false
  | slot :: slots =>
      if start <? sl_Address slot then mret false
      else if start <? sl_Address slot + sl_Size slot then
        let save := Z.min length (sl_Size slot - (start - sl_Address slot)) in
        match slot_page d slot with
        | None => undef
        | Some pg =>
            let data := mem_bytes d (RAM pg + (start - sl_Address slot)) save in
            hex_records (List.length data) data start ;;
            if length - save <=? 0 then
              s ← gets st;
              massert (hexCnt s =? 0) ;;
              CloseHex start_adr
            else hex_slots d slots (start + save) (length - save) start_adr
        end
      else hex_slots d slots start length start_adr
  end.

Definition SaveHex (fname : list ascii) (start length start_adr : Z) : M St bool :=
  s ← gets st;
  match cur_device s with
  | None => mret false
  | Some d =>
      opened ← OpenHex fname;
      if negb (opened : bool) then mret false
      else
        massert ((0 <=? start) && (start <=? 0xFFFF) && (1 <=? length) && (start + length <=? 0x10000)) ;;
        hex_slots d (Slots d) start length start_adr
  end.

(** A file that was written is read back. *)
Lemma content_of_put name c s : content_of name (put_file name c s) = Some c.
Proof. unfold content_of. simpl. by rewrite bool_decide_eq_true_2. Qed.
End files.
