(* ===== verification/DirDefs.v ===== *)
(** * Defines, output and option directives (directives.cpp, sjasm.cpp)

    DEFINE, UNDEFINE, DEFARRAY, EXPORT, DISPLAY, ASSERT, ENCODING, SLDOPT and
    their kin. *)

From S2P Require Export Files DefTable.

(** ** DEFINE and UNDEFINE *)

(** A leading "+" and whether it was there. *)
Definition plus_lp : M St bool :=
  lpf (fun p => if isc p "+" then (true, adv p) else (false, p)).

Definition rtrim_spaces (l : list ascii) : list ascii := rev (drop_while (Ascii.eqb " ") (rev l)).

(** The value: one blank is skipped, and spaces in front of an end-of-line
    comment are cut off (in the line itself). *)
Definition define_value : M St (list ascii) :=
  modify (fun s => let p := lp (par s) in if White (cur p) then set_lp (adv p) s else s) ;;
  s ← gets st;
  let p := lp (par s) in
  mwhen (bool_decide (is_Some (eolComment (src s))))
    (modify (set_lp (mk_text (bef p) (rtrim_spaces (aft p))))) ;;
  gets (fun s => aft (lp (par s))).

Definition dirDEFINE : M St unit :=
  replaceEnabled ← plus_lp;
  id ← GetID_lp;
  match (id : option (list ascii)) with
  | None => Error_lp "[DEFINE] Illegal <id>" SUPPRESS
  | Some id =>
      value ← define_value;
      (if replaceEnabled : bool then _ ← CDefineTable_Replace_str id value; mret tt
       else CDefineTable_Add id value []) ;;
      SkipToEol_lp ;;
      modify (set_substitutedLine None)
  end.

Definition dirUNDEFINE : M St unit :=
  id ← GetID_lp;
  p ← get_lp;
  if isc p "*" then modify (set_lp (adv p)) ;; CDefineTable_RemoveAll
  else
    match (id : option (list ascii)) with
    | None => Error_lp "[UNDEFINE] Illegal <id>" SUPPRESS
    | Some id =>
        s ← gets st;
        if CDefineTable_FindDuplicate (defs (tab s)) id
        then _ ← CDefineTable_Remove_str id; mret tt
        else Warning "[UNDEFINE] Identifier not found" (Some id) W_PASS3
    end.

(** ** DEFARRAY *)

(** The items parsed, and whether nothing is left of the line. *)
Fixpoint array_items (fuel : nat) (items : list (list ascii)) : M St (bool * list (list ascii)) :=
  match fuel with
  | O => nofuel
  | S fuel =>
      itemLp ← get_lp;
      '(ok, item) ← lpm (fun p => '(ok, l, p) ← GetMacroArgumentValue p; mret ((ok, l), p));
      if negb ok then
        Error "[DEFARRAY] Syntax error" (Some (aft itemLp)) SUPPRESS ;; mret (false, items)
      else
        more ← anyComma_lp;
        if more : bool then array_items fuel (items ++ [item])
        else eol ← SkipBlanks_lp; mret (eol, items ++ [item])
  end.
Definition dirDEFARRAY_parseItems : M St (bool * list (list ascii)) :=
  p ← get_lp; array_items (S (room p)) [].

Definition with_items (nss : list (list ascii)) (e : CDefineTableEntry) : CDefineTableEntry :=
  {| def_name := def_name e; def_value := def_value e; def_nss := nss |}.

(** The array of the first definition of that name. *)
Fixpoint extend_first (name : list ascii) (items : list (list ascii)) (l : list CDefineTableEntry) :
    list CDefineTableEntry :=
  match l with
  | [] => []
  | e :: l => if is_named name e then with_items (def_nss e ++ items) e :: l
              else e :: extend_first name items l
  end.

Definition dirDEFARRAY_add (id : list ascii) : M St unit :=
  _ ← CDefineTable_Get id;
  s ← gets st;
  match last (DefArrayList (tab s)) with
  | None => Error "[DEFARRAY+] unknown array <id>" (Some id) PASS3 ;; SkipToEol_lp
  | Some x =>
      '(_, items) ← dirDEFARRAY_parseItems;
      modify (fun s => set_DefArrayList (x :: items)
        (set_defs (<[bucket id := extend_first id items (chain (defs (tab s)) id)]> (defs (tab s))) s))
  end.

Definition dirDEFARRAY : M St unit :=
  plus ← plus_lp;
  p ← get_lp;
  id ← (if White (cur p) then GetID_lp else mret None);
  match (id : option (list ascii)) with
  | None => Error_lp "[DEFARRAY] Syntax error in <id>" PASS3 ;; SkipToEol_lp
  | Some id =>
      p ← get_lp;
      eol ← (if White (cur p) then SkipBlanks_lp else mret true);
      if eol : bool then
        eol ← SkipBlanks_lp;
        (if eol : bool then Error1 "[DEFARRAY] must have at least one entry"
         else Error_lp "[DEFARRAY] missing space between <id> and first <item>" PASS3) ;;
        SkipToEol_lp
      else if plus : bool then dirDEFARRAY_add id
      else
        '(ok, items) ← dirDEFARRAY_parseItems;
        if negb ok then mret tt else CDefineTable_Add id [] items
  end.

(** ** EXPORT *)

(** [replace_extension(".exp")] of a path. *)
Definition replace_extension (ext name : list ascii) : list ascii :=
  let n := (length name - count_while (fun c => negb (is_slash c)) (rev name))%nat in
  let file := drop n name in
  let stem := match drop_while (fun c => negb (Ascii.eqb c ".")) (rev file) with
              | _ :: ((_ :: _) as before) => if bool_decide (file = str "..") then file else rev before
              | _ => file
              end in
  take n name ++ stem ++ ext.

Definition WriteExp (n : list ascii) (v : Z) : M St unit :=
  s ← gets st;
  mwhen (FP_ExportFile (lin s)) (modify (set_exports (exports (lin s) ++ [(n, v)]))).

Definition export_name : M St unit :=
  s ← gets st;
  mwhen (bool_decide (ExportFName (out s) = []))
    (pos ← back_pos;
     let name := replace_extension (str ".exp") (str (filename pos)) in
     modify (set_ExportFName name) ;;
     Warning "[EXPORT] Filename for exportfile was not indicated. Output will be in" (Some name) W_EARLY).

Definition dirEXPORT : M St unit :=
  export_name ;;
  n ← GetID_lp;
  match (n : option (list ascii)) with
  | None => Error_lp "[EXPORT] Syntax error" SUPPRESS
  | Some n =>
      s ← gets st;
      if negb (LASTPASS =? pass (src s)) then mret tt
      else
        modify (set_IsLabelNotFound false) ;;
        '(_, val, _) ← GetLabelValue (mk_text [] n);
        nf ← gets (fun s => IsLabelNotFound (par s));
        mwhen (negb nf) (WriteExp n val)
  end.

(** ** DISPLAY *)

(** A value in the format chosen by the options of the argument. *)
Definition display_value (decprint : ascii) (val : Z) : M St (list ascii) :=
  if Ascii.eqb decprint "B" then
    let bit i := if Z.testbit val i then "1"%char else "0"%char in
    mret ("%"%char :: (bit <$> [7; 6; 5; 4]) ++ "'"%char :: (bit <$> [3; 2; 1; 0]))
  else if Ascii.eqb decprint "C" then
    let val := Z.land val 255 in
    if (32 <=? val) && (val <? 127) then mret ["'"%char; char_of val; "'"%char]
    else h ← PrintHex val 2; mret (str "'\x" ++ h ++ ["'"%char])
  else if Ascii.eqb decprint "H" then mret (str "0x" ++ PrintHexAlt val)
  else if Ascii.eqb decprint "D" then mret (digits 10 (u32 val))
  else mret (str "0x" ++ PrintHexAlt val ++ str ", " ++ digits 10 (u32 val)).

(** The decimal number has to fit the buffer of the line. *)
Definition display_overflows (decprint : ascii) (val remaining : Z) : bool :=
  (Ascii.eqb decprint "D" || Ascii.eqb decprint "A")
  && (remaining <=? Z.of_nat (length (digits 10 (u32 val)))).

Definition display_too_long : M St unit :=
  Error_line "[DISPLAY] internal buffer overflow, resulting text is too long" PASS3.

(** One argument: [None] ends the directive, otherwise the text, the format of
    the next value and whether the loop goes on. *)
Definition display_item (e : list ascii) (decprint : ascii) :
    M St (option (bool * list ascii * ascii)) :=
  eol ← SkipBlanks_lp;
  if eol : bool then Error1 "[DISPLAY] Expression expected" ;; mret (Some (false, e, decprint))
  else
    p ← get_lp;
    if isc p "/" then
      let o := toupper (pk p 1) in
      let known := existsb (Ascii.eqb o) (str "ADHBC") in
      if negb known && negb (Ascii.eqb o "L") && negb (Ascii.eqb o "T") then
        Error "[DISPLAY] Syntax error, unknown option" (Some (aft p)) SUPPRESS ;; mret None
      else
        modify (set_lp (advn 2 p)) ;;
        mret (Some (true, e, if known then o else decprint))
    else
      let remaining := LINEMAX - Z.of_nat (length e) in
      if remaining <=? 0 then display_too_long ;; mret None
      else
        '(val, l) ← lpm (fun p =>
           '(r, l, p) ← GetCharConstAsString p [] remaining 0; mret ((r, l), p));
        if val =? -1 then Error_line "[DISPLAY] Syntax error" PASS3 ;; mret None
        else if negb (val =? 0) then mret (Some (true, e ++ (char_of <$> l), decprint))
        else
          '(ok, val) ← ParseExpressionNoSyntaxError_lp;
          if negb ok then Error_line "[DISPLAY] Syntax error" SUPPRESS ;; mret None
          else if display_overflows decprint val remaining then display_too_long ;; mret None
          else l ← display_value decprint val; mret (Some (true, e ++ l, "H"%char)).

Fixpoint display_loop (fuel : nat) (e : list ascii) (decprint : ascii) : M St (option (list ascii)) :=
  match fuel with
  | O => nofuel
  | S fuel =>
      r ← display_item e decprint;
      match (r : option (bool * list ascii * ascii)) with
      | None => mret None
      | Some (go, e, decprint) =>
          more ← (if go then comma_lp else mret false);
          if more : bool then display_loop fuel e decprint else mret (Some e)
      end
  end.

(** What goes to the standard error, which is the listing with --msg=lst. *)
Definition print_stderr (l : list ascii) (s : St) : St :=
  if IsListingStderr (tex s) then set_listing ((fun ls => ls ++ [l]) <$> listing (lin s)) s
  else set_cerr (cerr (tex s) ++ [l]) s.
(** The text up to the first NUL. *)
Definition dirDISPLAY : M St unit :=
  p ← get_lp;
  r ← display_loop (S (room p)) [] "H";
  match (r : option (list ascii)) with
  | None => mret tt
  | Some e =>
      s ← gets st;
      let shown := until_NUL e in
      mwhen ((LASTPASS =? pass (src s)) && negb (bool_decide (shown = [])))
        (modify (print_stderr (str "> " ++ shown ++ [LF])))
  end.

(** ** ASSERT, ENCODING, SLDOPT *)

Definition dirASSERT : M St unit :=
  p ← get_lp;
  '(ok, val) ← ParseExpressionNoSyntaxError_lp;
  if negb ok then Error "[ASSERT] Syntax error" (Some (aft p)) SUPPRESS
  else
    s ← gets st;
    mwhen ((pass (src s) =? LASTPASS) && (val =? 0))
      (Error "[ASSERT] Assertion failed" (Some (aft p)) PASS3) ;;
    more ← comma_lp;
    mwhen more SkipToEol_lp.

Definition dirENCODING : M St unit :=
  arg ← lpm GetDelimitedString;
  let a := mk_text [] arg in
  if fst (cmphstr a "dos" false) then modify (set_ConvertEncoding ENCDOS)
  else if fst (cmphstr a "win" false) then modify (set_ConvertEncoding ENCWIN)
  else
    Error (("[ENCODING] Invalid argument (valid values: " ++ dq ++ "dos" ++ dq ++ " and "
            ++ dq ++ "win" ++ dq ++ ")")%string) (Some arg) IF_FIRST.

Fixpoint sld_keywords (fuel : nat) : M St unit :=
  match fuel with
  | O => nofuel
  | S fuel =>
      id ← GetID_lp;
      SldAddCommentKeyword id ;;
      eol ← SkipBlanks_lp;
      more ← (if eol : bool then mret false else anyComma_lp);
      if more : bool then sld_keywords fuel else mret tt
  end.

(** [cmphstr(lp, keyword)] *)
Definition cmphstr_lp (keyword : string) : M St bool := lpf (fun p => cmphstr p keyword false).

Definition add_sldSwap (n : Z) : M St unit :=
  modify (fun s => set_sldSwapSrcPos (sldSwapSrcPos (lin s) + n) s).

Definition dirSLDOPT : M St unit :=
  _ ← SkipBlanks_lp;
  comment ← cmphstr_lp "comment";
  if comment : bool then p ← get_lp; sld_keywords (S (room p))
  else
    swapon ← cmphstr_lp "swapon";
    if swapon : bool then add_sldSwap 1
    else
      swapoff ← cmphstr_lp "swapoff";
      if swapoff : bool then add_sldSwap (-1)
      else Error_lp "[SLDOPT] Syntax error in <type> (valid: COMMENT, SWAPON, SWAPOFF)" SUPPRESS.
