(* ===== verification/DirOpt.v ===== *)
(** * Syntax options (sjasm.cpp, io_err.cpp, directives.cpp)

    The options the OPT directive and the command line change, the stack of
    saved syntax states, -W and OPT itself. *)

From S2P Require Export DirDefs.

(** ** Updates of the options *)

Definition with_IsPseudoOpBOF (v : bool) (o : SSyntax) : SSyntax :=
  {| IsPseudoOpBOF := v; IsReversePOP := IsReversePOP o; FakeEnabled := FakeEnabled o; FakeWarning := FakeWarning o; IsListingSuspended := IsListingSuspended o; ListingType := ListingType o; CaseInsensitiveInstructions := CaseInsensitiveInstructions o; WarningsAsErrors := WarningsAsErrors o; Is_M_Memory := Is_M_Memory o; IsSubwordSubstitution := IsSubwordSubstitution o; MemoryBrackets := MemoryBrackets o; IsNextEnabled := IsNextEnabled o; MultiArg := MultiArg o |}.
Definition with_IsReversePOP (v : bool) (o : SSyntax) : SSyntax :=
  {| IsPseudoOpBOF := IsPseudoOpBOF o; IsReversePOP := v; FakeEnabled := FakeEnabled o; FakeWarning := FakeWarning o; IsListingSuspended := IsListingSuspended o; ListingType := ListingType o; CaseInsensitiveInstructions := CaseInsensitiveInstructions o; WarningsAsErrors := WarningsAsErrors o; Is_M_Memory := Is_M_Memory o; IsSubwordSubstitution := IsSubwordSubstitution o; MemoryBrackets := MemoryBrackets o; IsNextEnabled := IsNextEnabled o; MultiArg := MultiArg o |}.
Definition with_FakeEnabled (v : bool) (o : SSyntax) : SSyntax :=
  {| IsPseudoOpBOF := IsPseudoOpBOF o; IsReversePOP := IsReversePOP o; FakeEnabled := v; FakeWarning := FakeWarning o; IsListingSuspended := IsListingSuspended o; ListingType := ListingType o; CaseInsensitiveInstructions := CaseInsensitiveInstructions o; WarningsAsErrors := WarningsAsErrors o; Is_M_Memory := Is_M_Memory o; IsSubwordSubstitution := IsSubwordSubstitution o; MemoryBrackets := MemoryBrackets o; IsNextEnabled := IsNextEnabled o; MultiArg := MultiArg o |}.
Definition with_FakeWarning (v : bool) (o : SSyntax) : SSyntax :=
  {| IsPseudoOpBOF := IsPseudoOpBOF o; IsReversePOP := IsReversePOP o; FakeEnabled := FakeEnabled o; FakeWarning := v; IsListingSuspended := IsListingSuspended o; ListingType := ListingType o; CaseInsensitiveInstructions := CaseInsensitiveInstructions o; WarningsAsErrors := WarningsAsErrors o; Is_M_Memory := Is_M_Memory o; IsSubwordSubstitution := IsSubwordSubstitution o; MemoryBrackets := MemoryBrackets o; IsNextEnabled := IsNextEnabled o; MultiArg := MultiArg o |}.
Definition with_IsListingSuspended (v : bool) (o : SSyntax) : SSyntax :=
  {| IsPseudoOpBOF := IsPseudoOpBOF o; IsReversePOP := IsReversePOP o; FakeEnabled := FakeEnabled o; FakeWarning := FakeWarning o; IsListingSuspended := v; ListingType := ListingType o; CaseInsensitiveInstructions := CaseInsensitiveInstructions o; WarningsAsErrors := WarningsAsErrors o; Is_M_Memory := Is_M_Memory o; IsSubwordSubstitution := IsSubwordSubstitution o; MemoryBrackets := MemoryBrackets o; IsNextEnabled := IsNextEnabled o; MultiArg := MultiArg o |}.
Definition with_ListingType (v : ELstType) (o : SSyntax) : SSyntax :=
  {| IsPseudoOpBOF := IsPseudoOpBOF o; IsReversePOP := IsReversePOP o; FakeEnabled := FakeEnabled o; FakeWarning := FakeWarning o; IsListingSuspended := IsListingSuspended o; ListingType := v; CaseInsensitiveInstructions := CaseInsensitiveInstructions o; WarningsAsErrors := WarningsAsErrors o; Is_M_Memory := Is_M_Memory o; IsSubwordSubstitution := IsSubwordSubstitution o; MemoryBrackets := MemoryBrackets o; IsNextEnabled := IsNextEnabled o; MultiArg := MultiArg o |}.
Definition with_CaseInsensitiveInstructions (v : bool) (o : SSyntax) : SSyntax :=
  {| IsPseudoOpBOF := IsPseudoOpBOF o; IsReversePOP := IsReversePOP o; FakeEnabled := FakeEnabled o; FakeWarning := FakeWarning o; IsListingSuspended := IsListingSuspended o; ListingType := ListingType o; CaseInsensitiveInstructions := v; WarningsAsErrors := WarningsAsErrors o; Is_M_Memory := Is_M_Memory o; IsSubwordSubstitution := IsSubwordSubstitution o; MemoryBrackets := MemoryBrackets o; IsNextEnabled := IsNextEnabled o; MultiArg := MultiArg o |}.
Definition with_WarningsAsErrors (v : bool) (o : SSyntax) : SSyntax :=
  {| IsPseudoOpBOF := IsPseudoOpBOF o; IsReversePOP := IsReversePOP o; FakeEnabled := FakeEnabled o; FakeWarning := FakeWarning o; IsListingSuspended := IsListingSuspended o; ListingType := ListingType o; CaseInsensitiveInstructions := CaseInsensitiveInstructions o; WarningsAsErrors := v; Is_M_Memory := Is_M_Memory o; IsSubwordSubstitution := IsSubwordSubstitution o; MemoryBrackets := MemoryBrackets o; IsNextEnabled := IsNextEnabled o; MultiArg := MultiArg o |}.
Definition with_Is_M_Memory (v : bool) (o : SSyntax) : SSyntax :=
  {| IsPseudoOpBOF := IsPseudoOpBOF o; IsReversePOP := IsReversePOP o; FakeEnabled := FakeEnabled o; FakeWarning := FakeWarning o; IsListingSuspended := IsListingSuspended o; ListingType := ListingType o; CaseInsensitiveInstructions := CaseInsensitiveInstructions o; WarningsAsErrors := WarningsAsErrors o; Is_M_Memory := v; IsSubwordSubstitution := IsSubwordSubstitution o; MemoryBrackets := MemoryBrackets o; IsNextEnabled := IsNextEnabled o; MultiArg := MultiArg o |}.
Definition with_IsSubwordSubstitution (v : bool) (o : SSyntax) : SSyntax :=
  {| IsPseudoOpBOF := IsPseudoOpBOF o; IsReversePOP := IsReversePOP o; FakeEnabled := FakeEnabled o; FakeWarning := FakeWarning o; IsListingSuspended := IsListingSuspended o; ListingType := ListingType o; CaseInsensitiveInstructions := CaseInsensitiveInstructions o; WarningsAsErrors := WarningsAsErrors o; Is_M_Memory := Is_M_Memory o; IsSubwordSubstitution := v; MemoryBrackets := MemoryBrackets o; IsNextEnabled := IsNextEnabled o; MultiArg := MultiArg o |}.
Definition with_MemoryBrackets (v : Z) (o : SSyntax) : SSyntax :=
  {| IsPseudoOpBOF := IsPseudoOpBOF o; IsReversePOP := IsReversePOP o; FakeEnabled := FakeEnabled o; FakeWarning := FakeWarning o; IsListingSuspended := IsListingSuspended o; ListingType := ListingType o; CaseInsensitiveInstructions := CaseInsensitiveInstructions o; WarningsAsErrors := WarningsAsErrors o; Is_M_Memory := Is_M_Memory o; IsSubwordSubstitution := IsSubwordSubstitution o; MemoryBrackets := v; IsNextEnabled := IsNextEnabled o; MultiArg := MultiArg o |}.
Definition with_IsNextEnabled (v : Z) (o : SSyntax) : SSyntax :=
  {| IsPseudoOpBOF := IsPseudoOpBOF o; IsReversePOP := IsReversePOP o; FakeEnabled := FakeEnabled o; FakeWarning := FakeWarning o; IsListingSuspended := IsListingSuspended o; ListingType := ListingType o; CaseInsensitiveInstructions := CaseInsensitiveInstructions o; WarningsAsErrors := WarningsAsErrors o; Is_M_Memory := Is_M_Memory o; IsSubwordSubstitution := IsSubwordSubstitution o; MemoryBrackets := MemoryBrackets o; IsNextEnabled := v; MultiArg := MultiArg o |}.
Definition with_MultiArg (v : multi_arg) (o : SSyntax) : SSyntax :=
  {| IsPseudoOpBOF := IsPseudoOpBOF o; IsReversePOP := IsReversePOP o; FakeEnabled := FakeEnabled o; FakeWarning := FakeWarning o; IsListingSuspended := IsListingSuspended o; ListingType := ListingType o; CaseInsensitiveInstructions := CaseInsensitiveInstructions o; WarningsAsErrors := WarningsAsErrors o; Is_M_Memory := Is_M_Memory o; IsSubwordSubstitution := IsSubwordSubstitution o; MemoryBrackets := MemoryBrackets o; IsNextEnabled := IsNextEnabled o; MultiArg := v |}.

Definition with_syx (f : SSyntax → SSyntax) : St → St :=
  on_opt (fun o => {| syx := f (syx o); IsI8080 := IsI8080 o; IsLR35902 := IsLR35902 o;
                      IsLongPtr := IsLongPtr o; warn_enabled := warn_enabled o |}).
Definition with_warning (id : string) (enable : bool) : St → St :=
  on_opt (fun o => {| syx := syx o; IsI8080 := IsI8080 o; IsLR35902 := IsLR35902 o;
                      IsLongPtr := IsLongPtr o;
                      warn_enabled := fun i => if bool_decide (i = id) then enable
                                               else warn_enabled o i |}).
Definition update_syx (f : SSyntax → SSyntax) : M St unit := modify (with_syx f).

(** ** The stack of syntax states *)

Definition resetCurrentSyntax : M St unit := update_syx (fun _ => SSyntax_default).
Definition pushCurrentSyntax : M St unit :=
  modify (fun s => set_syxStack (syx (opt s) :: syxStack (lin s)) s).
Definition popSyntax : M St bool :=
  s ← gets st;
  match syxStack (lin s) with
  | [] => mret false
  | o :: rest => modify (fun s => set_syxStack rest (with_syx (fun _ => o) s)) ;; mret true
  end.
Definition restoreSystemSyntax (systemSyntax : SSyntax) : M St unit :=
  modify (fun s => set_syxStack [] (with_syx (fun _ => systemSyntax) s)).

(** ** -W *)

(** [warning_state]: "fake" is a part of the syntax state. *)
Definition set_warning_state (id : string) (enable : bool) : St → St :=
  if bool_decide (id = "fake"%string) then with_syx (with_FakeWarning enable)
  else with_warning id enable.

Definition CliWoption (option : list ascii) : M St unit :=
  s ← gets st;
  if bool_decide (option = []) then
    Error "no argument after -W" (if pass (src s) =? 0 then None else Some (aft (bp (par s)))) PASS03
  else
    let enable := negb (is_prefix (str "no-") option) in
    let id := of_chars (if enable then option else drop 3 option) in
    if bool_decide (id = "all"%string)
    then modify (fun s => fold_left (fun s e => set_warning_state (fst e) enable s) w_texts s)
    else match assoc id w_texts with
         | None => Warning "unknown warning id in -W option" (Some (str id)) W_PASS03
         | Some _ => modify (set_warning_state id enable)
         end.

(** ** Options *)

Fixpoint parseSyntaxValue (val : list ascii) : M St unit :=
  match val with
  | [] => mret tt
  | c :: val =>
      (if Ascii.eqb c "f" then update_syx (fun o => with_FakeEnabled true (with_FakeWarning true o))
       else if Ascii.eqb c "F" then update_syx (with_FakeEnabled false)
       else if Ascii.eqb c "a" then update_syx (with_MultiArg MA_doubleComma)
       else if Ascii.eqb c "b" then update_syx (with_MemoryBrackets 1)
       else if Ascii.eqb c "B" then update_syx (with_MemoryBrackets 2)
       else if Ascii.eqb c "l" || Ascii.eqb c "L" then
         Error "Syntax option not implemented yet" (Some [c]) PASS03
       else if Ascii.eqb c "i" then update_syx (with_CaseInsensitiveInstructions true)
       else if Ascii.eqb c "w" then update_syx (with_WarningsAsErrors true)
       else if Ascii.eqb c "M" then update_syx (with_Is_M_Memory true)
       else if Ascii.eqb c "s" then update_syx (with_IsSubwordSubstitution false)
       else Error "Unrecognized syntax option" (Some [c]) PASS03) ;;
      parseSyntaxValue val
  end.

(** [splitByChar] at the first "=". *)
Definition split_option (s : list ascii) : list ascii * list ascii :=
  let n := count_while (fun c => negb (Ascii.eqb c "=")) s in (take n s, drop (S n) s).

Definition zxnext_option (val : list ascii) : M St unit :=
  s ← gets st;
  mwhen (IsI8080 (opt s)) (Error "Can't enable Next extensions while in i8080 mode" None FATAL) ;;
  mwhen (IsLR35902 (opt s))
    (Error "Can't enable Next extensions while in Sharp LR35902 mode" None FATAL) ;;
  update_syx (with_IsNextEnabled (if bool_decide (val = str "cspect") then 2 else 1)).

(** One syntax option; [false] when it is none of them.  --cleanonerror only
    matters when the program has ended. *)
Definition syntax_option (arg : list ascii) : M St bool :=
  let doubleDash := bool_decide (nth 1 arg NUL = "-"%char) in
  let '(o, val) := if doubleDash then split_option (drop 2 arg)
                   else (take 1 (tail arg), drop 2 arg) in
  let is_opt name := bool_decide (o = str name) in
  if is_opt "zxnext"%string then zxnext_option val ;; mret true
  else if is_opt "reversepop"%string then update_syx (with_IsReversePOP true) ;; mret true
  else if is_opt "dirbol"%string then update_syx (with_IsPseudoOpBOF true) ;; mret true
  else if is_opt "nofakes"%string then update_syx (with_FakeEnabled false) ;; mret true
  else if is_opt "syntax"%string then parseSyntaxValue val ;; mret true
  else if negb doubleDash && is_opt "W"%string then CliWoption val ;; mret true
  else if is_opt "cleanonerror"%string then mret true
  else mret false.

(** [parseSyntaxOptions]: the options left, the first of them having failed. *)
Fixpoint parseSyntaxOptions (options : list (list ascii)) : M St (list (list ascii)) :=
  match options with
  | (("-"%char :: _) as arg) :: rest =>
      ok ← syntax_option arg;
      if ok : bool then parseSyntaxOptions rest else mret options
  | _ => mret options
  end.

(** ** OPT *)

(** Words separated by white space. *)
Fixpoint words (fuel : nat) (l : list ascii) : list (list ascii) :=
  match fuel with
  | O => []
  | S fuel =>
      match drop_while White l with
      | [] => []
      | l => let n := count_while (fun c => negb (White c)) l in
             take n l :: words fuel (drop n l)
      end
  end.

(** The command that changes what is listed: the line itself is still listed,
    once. *)
Definition opt_listing (didList : bool) (suspended : bool) (f : SSyntax → SSyntax) : M St unit :=
  mwhen (negb didList)
    (ListFile false ;;
     s ← gets st;
     mwhen (suspended && (LASTPASS =? pass (src s)))
       (modify (fun s => set_listing
          ((fun l => l ++ [str "# listing file suspended..." ++ [LF]]) <$> listing (lin s)) s))) ;;
  modify (set_donotlist true) ;;
  update_syx f.

(** The commands in front of the options; [false] ends the directive. *)
Fixpoint opt_commands (fuel : nat) (didReset didList : bool) : M St bool :=
  match fuel with
  | O => nofuel
  | S fuel =>
      eol ← SkipBlanks_lp;
      p ← get_lp;
      if eol || isc p "-" then mret true
      else
        let at_ name := fst (cmphstr p name false) in
        let consume name := modify (set_lp (snd (cmphstr p name false))) in
        if at_ "pop"%string then
          consume "pop"%string ;;
          ok ← popSyntax;
          mwhen (negb ok) (Warning1 "[OPT] no previous syntax found") ;; mret false
        else if at_ "push"%string then
          consume "push"%string ;;
          mwhen didReset (Warning1 "[OPT] pushing syntax status after reset") ;;
          pushCurrentSyntax ;; opt_commands fuel didReset didList
        else if at_ "reset"%string then
          consume "reset"%string ;; resetCurrentSyntax ;; opt_commands fuel true didList
        else if at_ "listoff"%string then
          consume "listoff"%string ;;
          opt_listing didList true (with_IsListingSuspended true) ;; opt_commands fuel didReset true
        else if at_ "liston"%string then
          consume "liston"%string ;;
          update_syx (with_IsListingSuspended false) ;; opt_commands fuel didReset didList
        else if at_ "listall"%string then
          consume "listall"%string ;;
          opt_listing didList false (with_ListingType LST_T_ALL) ;; opt_commands fuel didReset true
        else if at_ "listact"%string then
          consume "listact"%string ;;
          opt_listing didList false (with_ListingType LST_T_ACTIVE) ;; opt_commands fuel didReset true
        else if at_ "listmc"%string then
          consume "listmc"%string ;;
          opt_listing didList false (with_ListingType LST_T_MC_ONLY) ;; opt_commands fuel didReset true
        else
          Error_lp "[OPT] invalid command (valid commands: push, pop, reset, liston, listoff, listall, listact, listmc)" PASS3 ;;
          SkipToEol_lp ;; mret false
  end.

Definition dirOPT : M St unit :=
  p ← get_lp;
  s ← gets st;
  go ← opt_commands (S (room p)) false (IsListingSuspended (syx (opt s)));
  if negb go then mret tt
  else
    p ← get_lp;
    modify (set_lp (SkipToEol p)) ;;
    failed ← parseSyntaxOptions (words (S (room p)) (aft p));
    mwhen (negb (bool_decide (failed = [])))
      (Error "[OPT] invalid/failed option" (head failed) PASS3) ;;
    s ← gets st;
    mwhen (negb (IsNextEnabled (syx (opt s)) =? 0)) InitNextExtensions.
