(* ===== verification/DirOutput.v ===== *)
(** * Directives of the output files and of binary files (directives.cpp)

    FPOS, OUTPUT, OUTEND, TAPOUT, TAPEND, HEXOUT, HEXEND; SAVEBIN, SAVEDEV,
    SAVE3DOS, SAVEAMSDOS, SAVEHEX, SAVEHOB; INCBIN and INCHOB. *)

From S2P Require Export DirOpt.

Definition in_last_pass (s : St) : bool := LASTPASS =? pass (src s).

Section files.
Context `{FileSystem}.

(** ** Output, tape and HEX files *)

Definition dirFPOS : M St unit :=
  _ ← SkipBlanks_lp;
  p ← get_lp;
  let from_current := isc p "+" || isc p "-" in
  '(ok, val) ← ParseExpressionNoSyntaxError_lp;
  if negb ok then Error_lp "[FPOS] Syntax error" SUPPRESS
  else s ← gets st; mwhen (in_last_pass s) (SeekDest val from_current).

(** The letter behind the comma; [None] when it is not a mode. *)
Definition output_mode : M St (option EOutputMode) :=
  more ← comma_lp;
  if negb more then mret (Some OUTPUT_TRUNCATE)
  else
    eol ← SkipBlanks_lp;
    p ← get_lp;
    mwhen (negb eol) (modify (set_lp (adv p))) ;;
    let c := if (eol : bool) then NUL else or20 (cur p) in
    if Ascii.eqb c "t" then mret (Some OUTPUT_TRUNCATE)
    else if Ascii.eqb c "r" then mret (Some OUTPUT_REWIND)
    else if Ascii.eqb c "a" then mret (Some OUTPUT_APPEND)
    else Error_bp "[OUTPUT] Invalid <mode> (valid modes: t, a, r)" PASS3 ;; mret None.

Definition dirOUTPUT : M St unit :=
  s ← gets st;
  if negb (in_last_pass s) then SkipToEol_lp
  else
    fnaam ← GetOutputFileName_lp;
    mode ← output_mode;
    match (mode : option EOutputMode) with
    | None => mret tt
    | Some mode => NewDest fnaam mode
    end.

Definition dirOUTEND : M St unit := s ← gets st; mwhen (in_last_pass s) CloseDest.

Definition dirTAPOUT : M St unit :=
  fnaam ← GetOutputFileName_lp;
  more ← comma_lp;
  '(ok, tape_flag) ← (if more : bool then ParseExpression_lp else mret (M := M St) (true, 255));
  if negb ok then Error_bp "[TAPOUT] Missing flagbyte value" PASS3
  else s ← gets st; mwhen (in_last_pass s) (OpenTapFile_name fnaam tape_flag).

Definition dirTAPEND : M St unit := s ← gets st; mwhen (in_last_pass s) CloseTapFile.

Definition dirHEXOUT : M St unit :=
  s ← gets st;
  if negb (in_last_pass s) then SkipToEol_lp
  else
    fnaam ← GetOutputFileName_lp;
    if has_filename fnaam then _ ← OpenHex fnaam; mret tt
    else Error "[HEXOUT] invalid filename" (Some fnaam) PASS3.

(** The start address starts as [StartAddress], but the parser sets its result
    to 0 when there is no expression. *)
Definition dirHEXEND : M St unit :=
  s ← gets st;
  if negb (in_last_pass s) then SkipToEol_lp
  else
    p ← get_lp;
    '(ok, start) ← ParseExpression_lp;
    start ←
      (if negb ok then modify (set_lp p) ;; mret start
       else if (start <? -1) || (0xFFFF <? start) then
         ErrorInt "[HEXEND] Invalid address" start IF_FIRST ;; mret (StartAddress (lin s))
       else mret start);
    closed ← CloseHex start;
    mwhen (negb closed) (Error1 "[HEXEND] HEX output was not active").

(** ** Saving memory *)

(** The arguments behind the file name. *)
Definition arguments_after (sep : M St bool) (args : list (Z * bool)) : M St (bool * list Z) :=
  more ← sep;
  if negb more then mret (false, []) else getIntArguments true args.

Definition needs_device (message : string) (m : M St unit) : M St unit :=
  s ← gets st;
  if negb (has_device s) then Error1 message ;; SkipToEol_lp else m.

Definition SAVEBIN_args (fnaam : list ascii) (start length : Z) : M St unit :=
  if (start <? -0x10000) || (0xFFFF <? start) then
    Error_bp "[SAVEBIN] Start value must be in -0x1'0000..0xFFFF range" PASS3
  else if (length <? -0xFFFF) || (0x10000 <? length) then
    Error_bp "[SAVEBIN] Length value must be in -0xFFFF..0x1'0000 range" PASS3
  else
    s ← gets st;
    mwhen (in_last_pass s)
      (ok ← SaveBinary fnaam start length;
       mwhen (negb ok) (Error_bp "[SAVEBIN] Error writing file (Disk full or zero length?)" IF_FIRST)).

Definition dirSAVEBIN : M St unit :=
  needs_device "[SAVEBIN] only allowed in real device emulation mode (See DEVICE)"
    (fnaam ← GetOutputFileName_lp;
     '(ok, args) ← arguments_after comma_lp [(0, false); (0, true)];
     match ok, args with
     | true, [start; length] => SAVEBIN_args fnaam start length
     | _, _ =>
         Error_bp "[SAVEBIN] expected syntax is SAVEBIN <filename>, <startaddr>[, <length>]" SUPPRESS
     end).

(** The checks of the page, of the start in the memory and of the length. *)
Definition SAVEDEV_args (fnaam : list ascii) (page offset length : Z) : M St unit :=
  d ← the_device;
  let bad_page := (page <? 0) || (PagesCount d <=? page) in
  mwhen bad_page (ErrorInt "[SAVEDEV] page number is out of range" page PASS3) ;;
  let start := wrap32 (GetMemoryOffset d page offset) in
  let totalRam := GetMemoryOffset d (PagesCount d) 0 in
  let bad_start := negb bad_page && ((start <? 0) || (totalRam <=? start)) in
  mwhen bad_start (ErrorInt "[SAVEDEV] calculated start address is out of range" start PASS3) ;;
  let fine := negb bad_page && negb bad_start in
  let bad_end := fine && ((length <=? 0) || (totalRam <? wrap32 (start + length))) in
  mwhen bad_end
    (if length =? 0 then Warning1 "[SAVEDEV] zero length requested"
     else ErrorInt "[SAVEDEV] invalid end address (bad length?)" (wrap32 (start + length)) PASS3) ;;
  mwhen (fine && negb bad_end)
    (ok ← SaveDeviceMemory fnaam start length;
     mwhen (negb ok) (Error_bp "[SAVEDEV] Error writing file (Disk full?)" IF_FIRST)).

Definition dirSAVEDEV : M St unit :=
  s ← gets st;
  let exec := has_device s && in_last_pass s in
  mwhen (negb exec && in_last_pass s)
    (Error1 "SAVEDEV only allowed in real device emulation mode (See DEVICE)") ;;
  fnaam ← GetOutputFileName_lp;
  '(ok, args) ← arguments_after comma_lp [(-1, false); (-1, false); (-1, false)];
  match ok, args with
  | true, [page; offset; length] => mwhen exec (SAVEDEV_args fnaam page offset length)
  | _, _ => Error_bp "Expected syntax SAVEDEV <filename>,<startPage>,<startOffset>,<length>" SUPPRESS
  end.

(** The [address, size] region is inside the 64 KiB. *)
Definition bad_region (address size : Z) : bool :=
  (address <? 0) || (size <? 1) || (0x10000 <? wrap32 (address + size)).

Definition SAVE3DOS_args (fnaam : list ascii) (address size type w2_line w3 : Z) : M St unit :=
  if bad_region address size then Error_bp "[SAVE3DOS] [address, size] region outside of 64ki" PASS3
  else if (type <? 0) || (3 <? type) then Error_bp "[SAVE3DOS] expected type 0..3" PASS3
  else
    let w3 := if w3 =? -1 then size else w3 in
    let w2 := if w2_line =? -1
              then (if type =? 0 then 0x8000 else if type =? 3 then address else w2_line)
              else w2_line in
    s ← gets st;
    mwhen (in_last_pass s)
      (ok ← SaveBinary3dos fnaam address size type w2 w3;
       mwhen (negb ok) (Error_bp "[SAVE3DOS] Error writing file (Disk full?)" IF_FIRST)).

Definition dirSAVE3DOS : M St unit :=
  needs_device "SAVE3DOS works in real device emulation mode (See DEVICE)"
    (fnaam ← GetOutputFileName_lp;
     '(ok, args) ← arguments_after anyComma_lp
                     [(-1, false); (-1, false); (3, true); (-1, true); (-1, true)];
     match ok, args with
     | true, [address; size; type; w2_line; w3] => SAVE3DOS_args fnaam address size type w2_line w3
     | _, _ =>
         Error_bp "[SAVE3DOS] expected syntax is <filename>,<address>,<size>[,<type>[,<w2_line>[,<w3>]]]" SUPPRESS
     end).

Definition SAVEAMSDOS_args (fnaam : list ascii) (address size start type : Z) : M St unit :=
  if bad_region address size then Error_bp "[SAVEAMSDOS] [address, size] region outside of 64ki" PASS3
  else
    _ ← check16u start;
    let type := if type <? 0 then -0x1000 else type in
    _ ← check8 type;
    s ← gets st;
    mwhen (in_last_pass s)
      (ok ← SaveBinaryAmsdos fnaam address size start type;
       mwhen (negb ok) (Error_bp "[SAVEAMSDOS] Error writing file (Disk full?)" IF_FIRST)).

Definition dirSAVEAMSDOS : M St unit :=
  needs_device "SAVEAMSDOS works in real device emulation mode (See DEVICE)"
    (fnaam ← GetOutputFileName_lp;
     '(ok, args) ← arguments_after anyComma_lp [(-1, false); (-1, false); (0, true); (2, true)];
     match ok, args with
     | true, [address; size; start; type] => SAVEAMSDOS_args fnaam address size start type
     | _, _ =>
         Error_bp "[SAVEAMSDOS] expected syntax is <filename>,<address>,<size>[,<start = 0>[,<type = 2>]" SUPPRESS
     end).

Definition SAVEHEX_args (fnaam : list ascii) (address size start : Z) : M St unit :=
  if bad_region address size then Error_bp "[SAVEHEX] [address, size] region outside of 64ki" PASS3
  else
    let bad := (start <? -1) || (0xFFFF <? start) in
    mwhen bad (ErrorInt "[SAVEHEX] start should be -1 as OFF or uint16" start PASS3) ;;
    let start := if bad then -1 else start in
    s ← gets st;
    mwhen (in_last_pass s)
      (ok ← SaveHex fnaam address size start;
       mwhen (negb ok) (Error_bp "[SAVEHEX] Error writing file (Disk full?)" IF_FIRST)).

Definition dirSAVEHEX : M St unit :=
  needs_device "SAVEHEX works in real device emulation mode (See DEVICE)"
    (fnaam ← GetOutputFileName_lp;
     '(ok, args) ← arguments_after anyComma_lp [(-1, false); (-1, false); (-1, true)];
     match ok && has_filename fnaam, args with
     | true, [address; size; start] => SAVEHEX_args fnaam address size start
     | _, _ =>
         Error_bp "[SAVEHEX] expected syntax is <filename>,<address>,<size>[,<start = -1>]" SUPPRESS
     end).

(** The name in the header, the arguments, and whether the line ends there. *)
Definition SAVEHOB_parse (fnaam : list ascii) : M St (option (list ascii * Z * Z)) :=
  more ← comma_lp;
  fnaamh ← (if more : bool then lpm GetDelimitedString else mret (M := M St) []);
  if negb (has_filename fnaam) || bool_decide (fnaamh = []) then mret None
  else
    '(ok, args) ← arguments_after comma_lp [(0, false); (0, true)];
    match ok, args with
    | true, [start; length] =>
        eol ← SkipBlanks_lp;
        mret (if eol : bool then Some (fnaamh, start, length) else None)
    | _, _ => mret None
    end.

Definition SAVEHOB_args (fnaam fnaamh : list ascii) (start length : Z) : M St unit :=
  if (start <? 0x4000) || (0xFFFF <? start) then
    ErrorInt "[SAVEHOB] startadress must be 16384..65535" start PASS3
  else
    ok ← SaveHobeta fnaam fnaamh start length;
    mwhen (negb ok) (Error_bp "[SAVEHOB] Error writing file (Disk full?)" IF_FIRST).

Definition dirSAVEHOB : M St unit :=
  s ← gets st;
  if negb (has_device s) || negb (in_last_pass s) then
    mwhen (negb (has_device s))
      (Error1 "[SAVEHOB] only allowed in real device emulation mode (See DEVICE)") ;;
    SkipToEol_lp
  else
    fnaam ← GetOutputFileName_lp;
    r ← SAVEHOB_parse fnaam;
    match (r : option (list ascii * Z * Z)) with
    | Some (fnaamh, start, length) => SAVEHOB_args fnaam fnaamh start length
    | None =>
        Error_bp "[SAVEHOB] expected syntax is <filename>, <filename_in_trdos>, <startaddress>[, <length>]" SUPPRESS
    end.

(** ** Including binary files *)

(** The optional offset and length: [check] looks at a value, [None] ends the
    directive. *)
Definition optional_value (dflt : Z) (parse : M St (option Z)) : M St (option Z) :=
  more ← anyComma_lp;
  if negb more then mret (Some dflt) else parse.

(** An empty offset: the second comma is read again. *)
Definition optional_offset (parse : M St (option Z)) : M St (option Z) :=
  more ← anyComma_lp;
  if more : bool then modify (fun s => set_lp (back (lp (par s))) s) ;; mret (Some 0)
  else parse.

Definition offset_and_length (length : Z) (parse_offset parse_length : M St (option Z)) :
    M St (option (Z * Z)) :=
  more ← anyComma_lp;
  if negb more then mret (Some (0, length))
  else
    offset ← optional_offset parse_offset;
    match (offset : option Z) with
    | None => mret None
    | Some offset =>
        l ← optional_value length parse_length;
        match (l : option Z) with None => mret None | Some l => mret (Some (offset, l)) end
    end.

Definition INCBIN_value (message : string) : M St (option Z) :=
  '(ok, val) ← ParseExpressionNoSyntaxError_lp;
  if ok : bool then mret (Some val) else Error_bp message SUPPRESS ;; mret None.

Definition dirINCBIN : M St unit :=
  fnaam ← GetInputFile_lp;
  r ← offset_and_length INT_MAX (INCBIN_value "[INCBIN] Syntax error in <offset>")
        (INCBIN_value "[INCBIN] Syntax error in <length>");
  match (r : option (Z * Z)) with
  | None => mret tt
  | Some (offset, length) => BinIncFile fnaam offset length
  end.

Definition INCHOB_value : M St (option Z) :=
  '(ok, val) ← ParseExpression_lp;
  if negb ok then Error_bp "[INCHOB] Syntax error" IF_FIRST ;; mret None
  else if val <? 0 then
    Error_bp "[INCHOB] Negative values are not allowed" PASS3 ;; mret None
  else mret (Some val).

Definition dirINCHOB : M St unit :=
  fnaam ← GetInputFile_lp;
  r ← offset_and_length (-1) INCHOB_value INCHOB_value;
  match (r : option (Z * Z)) with
  | None => mret tt
  | Some (offset, length) =>
      s ← gets st;
      let shown := str (in_str fnaam) in
      match content_of (in_full fnaam) s with
      | None => Error "[INCHOB] Error opening file" (Some shown) FATAL
      | Some data =>
          match take 2 (drop 0x0b data) with
          | [len0; len1] =>
              let length := if length =? -1 then wrap32 (len0 + Z.shiftl len1 8 - offset) else length in
              BinIncFile fnaam (wrap32 (offset + 17)) length
          | _ => Error "[INCHOB] Hobeta file has wrong format" (Some shown) FATAL
          end
      end
  end.
End files.
