(* ===== verification/Trd.v ===== *)
(** * TR-DOS disk images (io_trd.cpp, directives.cpp)

    The catalog and the information sector of an image, EMPTYTRD, SAVETRD in its
    three modes (a new file, replacing a file, adding to a file) and INCTRD. *)

From S2P Require Export DirOutput.

(** ** The structures in the image *)

Record STrdFile := mk_STrdFile {
  trd_filename : list Z;
  trd_ext : Z;
  trd_addressLo : Z;
  trd_addressHi : Z;
  trd_length : Z;
  sectorLength : Z;
  startSector : Z;
  startTrack : Z
}.

Record STrdDisc := mk_STrdDisc {
  endOfRootDirectory : Z;
  trd_unused : list Z;
  freeSector : Z;
  freeTrack : Z;
  diskType : Z;
  numOfFiles : Z;
  numOfFreeSectors : Z;
  trDosId : Z;
  trd_unused2 : list Z;
  trd_password : list Z;
  trd_unused3 : list Z;
  numOfDeleted : Z;
  trd_label : list Z
}.

Record STrdHead := mk_STrdHead { catalog : list STrdFile; trd_info : STrdDisc }.

Definition NAME_BASE_SZ : Z := 8.
Definition NAME_FULL_SZ : Z := 9.
Definition NAME_ALT_FULL_SZ : Z := 11.
Definition TRDOS_DISC_ID : Z := 0x10.
Definition SECTOR_SZ : Z := 256.
Definition SECTORS_PER_TRACK : Z := 16.
Definition DISK_TYPE_T80_S2 : Z := 0x16.
Definition TRD_LABEL_SZ : nat := 11.
Definition NUM_OF_FILES_MAX : Z := 128.

(** The bytes a name is compared with ([entry.filename] read past its end). *)
Definition full_name (e : STrdFile) : list Z :=
  trd_filename e ++ [trd_ext e; trd_addressLo e; trd_addressHi e].

Definition word_bytes (v : Z) : list Z := [lo8 v; hi8 v].
Definition word_at (l : list Z) : Z := nth 0 l 0 + Z.shiftl (nth 1 l 0) 8.

Definition file_record (e : STrdFile) : list Z :=
  full_name e ++ word_bytes (trd_length e) ++ [sectorLength e; startSector e; startTrack e].

Definition disc_record (d : STrdDisc) : list Z :=
  endOfRootDirectory d :: trd_unused d
    ++ [freeSector d; freeTrack d; diskType d; numOfFiles d] ++ word_bytes (numOfFreeSectors d)
    ++ [trDosId d] ++ trd_unused2 d ++ trd_password d ++ trd_unused3 d ++ [numOfDeleted d] ++ trd_label d.

Definition head_record (h : STrdHead) : list Z :=
  flat_map file_record (catalog h) ++ disc_record (trd_info h).

(** Reading them back. *)
Definition slice (o n : nat) (l : list Z) : list Z := take n (drop o l).
Definition byte_of (l : list Z) (o : nat) : Z := nth o l 0.

Definition read_file_record (l : list Z) : STrdFile :=
  {| trd_filename := slice 0 8 l; trd_ext := byte_of l 8; trd_addressLo := byte_of l 9;
     trd_addressHi := byte_of l 10; trd_length := word_at (drop 11 l);
     sectorLength := byte_of l 13; startSector := byte_of l 14; startTrack := byte_of l 15 |}.

Definition read_disc_record (l : list Z) : STrdDisc :=
  {| endOfRootDirectory := byte_of l 0; trd_unused := slice 1 224 l; freeSector := byte_of l 225;
     freeTrack := byte_of l 226; diskType := byte_of l 227; numOfFiles := byte_of l 228;
     numOfFreeSectors := word_at (drop 229 l); trDosId := byte_of l 231;
     trd_unused2 := slice 232 2 l; trd_password := slice 234 9 l; trd_unused3 := slice 243 1 l;
     numOfDeleted := byte_of l 244; trd_label := slice 245 11 l |}.

Fixpoint read_catalog (n : nat) (l : list Z) : list STrdFile :=
  match n with
  | O => []
  | S n => read_file_record (take 16 l) :: read_catalog n (drop 16 l)
  end.

Definition isTrdInfo (d : STrdDisc) : bool := TRDOS_DISC_ID =? trDosId d.

(** [STrdHead::readFromFile]: [None] when it answers false. *)
Definition readFromFile (file : list Z) : option STrdHead :=
  if Z.of_nat (length file) <? 9 * SECTOR_SZ then None
  else
    let info := read_disc_record (slice 2048 256 file) in
    if isTrdInfo info
    then Some {| catalog := read_catalog (Z.to_nat NUM_OF_FILES_MAX) file; trd_info := info |}
    else None.

Definition fileOffset (track sector : Z) : Z :=
  track * SECTOR_SZ * SECTORS_PER_TRACK + sector * SECTOR_SZ.

(** ** EMPTYTRD *)

(** The information sector of an empty disk, the label over the default one. *)
Definition discInfo (label : list Z) : STrdDisc :=
  let kept := take TRD_LABEL_SZ label in
  {| endOfRootDirectory := 0; trd_unused := repeat 0 224; freeSector := 0; freeTrack := 1;
     diskType := DISK_TYPE_T80_S2; numOfFiles := 0;
     numOfFreeSectors := (79 + 80) * SECTORS_PER_TRACK; trDosId := TRDOS_DISC_ID;
     trd_unused2 := repeat 0 2; trd_password := repeat 32 9; trd_unused3 := [0]; numOfDeleted := 0;
     trd_label := kept ++ drop (length kept) (repeat 32 8 ++ repeat 0 3) |}.

Definition saveEmptyWrite (label : list Z) : list Z :=
  repeat 0 (Z.to_nat (8 * SECTOR_SZ)) ++ disc_record (discInfo label)
    ++ repeat 0 (Z.to_nat (7 * SECTOR_SZ))
    ++ repeat 0 (Z.to_nat ((79 + 80) * SECTORS_PER_TRACK * SECTOR_SZ)).

(** ** Names *)

Inductive ETrdFileName := OK | INVALID_EXTENSION | THREE_LETTER_EXTENSION.
#[export] Instance ETrdFileName_eq_dec : EqDecision ETrdFileName.
Proof. solve_decision. Defined.

(** [strrchr]: the position of the last occurrence. *)
Fixpoint strrchr (c : ascii) (l : list ascii) : option nat :=
  match l with
  | [] => None
  | d :: l => match strrchr c l with
              | Some n => Some (S n)
              | None => if Ascii.eqb d c then Some O else None
              end
  end.

Definition pad_to (n : nat) (v : Z) (l : list Z) : list Z := l ++ repeat v (n - length l).

(** The name of 8+1 or 8+3 bytes, padded to 12, and its length. *)
Definition TRD_FileNameToBytes (inputName : list ascii) : ETrdFileName * list Z * Z :=
  let dot := strrchr "." inputName in
  let ext := match dot with Some n => take 3 (drop (S n) inputName) | None => [] end in
  let maxL := match dot with Some n => Nat.min 8 n | None => 8%nat end in
  let base := pad_to 8 32 (code <$> take maxL inputName) in
  let name := base ++ (code <$> ext) in
  let name := pad_to (if Nat.leb (length name) 9 then 9 else 11) 32 name in
  let nameL := Z.of_nat (length name) in
  let status :=
    if NAME_FULL_SZ <? nameL then THREE_LETTER_EXTENSION
    else if bool_decide (nth 8 name 0 ∈ code <$> str "BCD#") then OK else INVALID_EXTENSION in
  (status, pad_to 12 0 name, nameL).

Definition ReturnWithError (errorText : string) (fname : list ascii) : M St bool :=
  Error errorText (Some fname) IF_FIRST ;; mret false.

(** ** The catalog record of a new file *)

Definition prefix_ext (s : string) : string := ("zx.trdimage_add_file: " ++ s)%string.

Definition warn_name (nameWarning : ETrdFileName) (isExtensionB : bool) (fhobname : list ascii) : M St unit :=
  mwhen (bool_decide (nameWarning = INVALID_EXTENSION)) (WarningById "trdext" (Some fhobname) W_PASS3) ;;
  mwhen (bool_decide (nameWarning = THREE_LETTER_EXTENSION))
    (WarningById "trdext3" (Some fhobname) W_PASS3 ;;
     mwhen isExtensionB (WarningById "trdextb" (Some fhobname) W_PASS3)).

(** What is wrong with the region or the lengths, reported and [false]. *)
Definition check_region (isExtensionB : bool) (start length lengthMinusVars : Z) : M St bool :=
  s ← gets st;
  if negb (lengthMinusVars =? -1) && negb isExtensionB then
    Error1 (prefix_ext "length without variables is for BASIC files only.") ;; mret false
  else if negb (lengthMinusVars =? -1) && ((lengthMinusVars <? 0) || (length <? lengthMinusVars)) then
    Error1 (prefix_ext "length without variables is not in <0..length> range.") ;; mret false
  else if negb (has_device s) then
    Error1 (prefix_ext "this function available only in real device emulation mode.") ;; mret false
  else if (start <? 0) || (0xFFFF <? start) then
    Error_bp (prefix_ext "start address must be in 0000..FFFF range") PASS3 ;; mret false
  else if (length <=? 0) || (0xFF00 <? length) then
    Error_bp (prefix_ext "length must be in 0001..FF00 range") PASS3 ;; mret false
  else if 0x10000 <? start + length then
    Error_bp (prefix_ext "provided start+length will run out of device memory") PASS3 ;; mret false
  else mret true.

(** The record without its place on the disk. *)
Definition new_record (binName : list Z) (Lname start length autostart lengthMinusVars : Z) : STrdFile :=
  let isExtensionB := byte_of binName 8 =? code "B" in
  let sectors := u8 (Z.shiftr (length + 255 + (if 0 <=? autostart then 4 else 0)) 8) in
  let '(lo, hi) :=
    if isExtensionB then (u8 length, u8 (Z.shiftr length 8))
    else if Lname <=? NAME_FULL_SZ then (u8 start, u8 (Z.shiftr start 8))
    else (byte_of binName 9, byte_of binName 10) in
  {| trd_filename := take 8 binName; trd_ext := byte_of binName 8; trd_addressLo := lo;
     trd_addressHi := hi;
     trd_length := if isExtensionB && negb (lengthMinusVars =? -1) then u16 lengthMinusVars else u16 length;
     sectorLength := sectors; startSector := 0; startTrack := 0 |}.

(** The record, the length of its name and the autostart line that is left. *)
Definition prepare_record (fhobname : list ascii) (start length autostart : Z) (addplace : bool)
    (lengthMinusVars : Z) : M St (option (STrdFile * Z * Z)) :=
  let '(nameWarning, binName, Lname) := TRD_FileNameToBytes fhobname in
  let isExtensionB := byte_of binName 8 =? code "B" in
  mwhen (negb addplace) (warn_name nameWarning isExtensionB fhobname) ;;
  let Lname := if negb addplace && bool_decide (nameWarning = THREE_LETTER_EXTENSION) && isExtensionB
               then NAME_FULL_SZ else Lname in
  let bad_line := (0 <=? autostart) && (negb isExtensionB || (9999 <? autostart)) in
  mwhen bad_line
    (Warning1 (prefix_ext "autostart value is BASIC program line number (0..9999) (in lua use -1 otherwise).")) ;;
  let autostart := if bad_line then -1 else autostart in
  fine ← check_region isExtensionB start length lengthMinusVars;
  if negb fine then mret None
  else
    let trdf := new_record binName Lname start length autostart lengthMinusVars in
    if sectorLength trdf =? 0 then
      Error_bp (prefix_ext "sector length over 0xFF max") PASS3 ;; mret None
    else mret (Some (trdf, Lname, autostart)).

(** ** The catalog *)

Definition first_byte (e : STrdFile) : Z := hd 0 (trd_filename e).
Definition with_first_byte (v : Z) (e : STrdFile) : STrdFile :=
  {| trd_filename := v :: tail (trd_filename e); trd_ext := trd_ext e;
     trd_addressLo := trd_addressLo e; trd_addressHi := trd_addressHi e; trd_length := trd_length e;
     sectorLength := sectorLength e; startSector := startSector e; startTrack := startTrack e |}.
Definition with_place (sectors sector track : Z) (e : STrdFile) : STrdFile :=
  {| trd_filename := trd_filename e; trd_ext := trd_ext e;
     trd_addressLo := trd_addressLo e; trd_addressHi := trd_addressHi e; trd_length := trd_length e;
     sectorLength := sectors; startSector := sector; startTrack := track |}.

Definition with_free (sector track sectors : Z) (d : STrdDisc) : STrdDisc :=
  {| endOfRootDirectory := endOfRootDirectory d; trd_unused := trd_unused d; freeSector := sector;
     freeTrack := track; diskType := diskType d; numOfFiles := numOfFiles d;
     numOfFreeSectors := sectors; trDosId := trDosId d; trd_unused2 := trd_unused2 d;
     trd_password := trd_password d; trd_unused3 := trd_unused3 d; numOfDeleted := numOfDeleted d;
     trd_label := trd_label d |}.
Definition with_counts (files deleted : Z) (d : STrdDisc) : STrdDisc :=
  {| endOfRootDirectory := endOfRootDirectory d; trd_unused := trd_unused d;
     freeSector := freeSector d; freeTrack := freeTrack d; diskType := diskType d;
     numOfFiles := files; numOfFreeSectors := numOfFreeSectors d; trDosId := trDosId d;
     trd_unused2 := trd_unused2 d; trd_password := trd_password d; trd_unused3 := trd_unused3 d;
     numOfDeleted := deleted; trd_label := trd_label d |}.

Definition update_entry (i : Z) (f : STrdFile → STrdFile) (h : STrdHead) : STrdHead :=
  {| catalog := alter f (Z.to_nat i) (catalog h); trd_info := trd_info h |}.
Definition update_info (f : STrdDisc → STrdDisc) (h : STrdHead) : STrdHead :=
  {| catalog := catalog h; trd_info := f (trd_info h) |}.

(** The entries in front of the first unused one. *)
Fixpoint used_entries (l : list STrdFile) : list STrdFile :=
  match l with
  | [] => []
  | e :: l => if first_byte e =? 0 then [] else e :: used_entries l
  end.

(** An entry marked as deleted. *)
Definition delete_entry (i : Z) (h : STrdHead) : STrdHead :=
  update_info (fun d => with_counts (numOfFiles d) (u8 (numOfDeleted d + 1)) d)
    (update_entry i (with_first_byte 1) h).

Definition same_name (Lname : Z) (a b : STrdFile) : bool :=
  bool_decide (take (Z.to_nat Lname) (full_name a) = take (Z.to_nat Lname) (full_name b)).

(** The last entry of that name; the loop stops at the first unused entry.  With
    [delete] the earlier ones of the name are deleted on the way. *)
Fixpoint find_file (fuel : nat) (delete : bool) (Lname : Z) (trdf : STrdFile) (fatIndex fileIndex : Z)
    (h : STrdHead) : STrdHead * Z :=
  match fuel with
  | O => (h, fileIndex)
  | S fuel =>
      match catalog h !! Z.to_nat fatIndex with
      | None => (h, fileIndex)
      | Some entry =>
          if first_byte entry =? 0 then (h, fileIndex)
          else if negb (same_name Lname entry trdf) then
            find_file fuel delete Lname trdf (fatIndex + 1) fileIndex h
          else
            let h := if delete && negb (fileIndex =? NUM_OF_FILES_MAX) then delete_entry fileIndex h else h in
            find_file fuel delete Lname trdf (fatIndex + 1) fatIndex h
      end
  end.

(** "replace": the last file gives its sectors back, another one stays as a
    deleted entry. *)
Definition replace_file (fileIndex : Z) (h : STrdHead) : string + STrdHead :=
  match catalog h !! Z.to_nat fileIndex with
  | None => inr h
  | Some entry =>
      let d := trd_info h in
      if fileIndex + 1 =? numOfFiles d then
        let nextTrack := u8 (Z.shiftr (sectorLength entry + startSector entry) 4 + startTrack entry) in
        let nextSector := Z.land (sectorLength entry + startSector entry) 0x0F in
        if negb (nextSector =? freeSector d) || negb (nextTrack =? freeTrack d)
        then inl "TRD free sector was not connected to last file"%string
        else inr (update_entry fileIndex (with_first_byte 0)
               (update_info (fun d =>
                  with_counts (u8 (numOfFiles d - 1)) (numOfDeleted d)
                    (with_free (startSector entry) (startTrack entry)
                       (u16 (numOfFreeSectors d + sectorLength entry)) d)) h))
      else inr (delete_entry fileIndex h)
  end.

(** The entry to write, by mode; [None] after an error. *)
Definition select_entry (fname : list ascii) (replace addplace : bool) (fileIndex : Z) (h : STrdHead) :
    M St (option (STrdHead * Z)) :=
  let found := negb (fileIndex =? NUM_OF_FILES_MAX) in
  if addplace then
    if found then mret (Some (h, fileIndex))
    else _ ← ReturnWithError "TRD image does not have a specified file to add data" fname; mret None
  else if replace then
    match (if found then replace_file fileIndex h else inr h) with
    | inl message => _ ← ReturnWithError message fname; mret None
    | inr h => mret (Some (h, numOfFiles (trd_info h)))
    end
  else
    mwhen found (WarningById "trddup" (Some fname) W_PASS3) ;;
    mret (Some (h, numOfFiles (trd_info h))).

(** ** The content *)

(** [fseek] and [fwrite]. *)
Definition write_at (position : Z) (data file : list Z) : list Z :=
  let n := Z.to_nat position in
  take n file ++ repeat 0 (n - length file) ++ data ++ drop (n + length data) file.
(** [fseek] and [fread] of [size] bytes. *)
Definition read_at (position size : Z) (file : list Z) : option (list Z) :=
  let l := slice (Z.to_nat position) (Z.to_nat size) file in
  if Z.of_nat (length l) =? size then Some l else None.

(** The entries of the files behind the extended one; [None] when their order
    on the disk is not the one of the catalog. *)
Fixpoint shift_entries (entries : list STrdFile) (entryIndex fileIndex targetPos added : Z) :
    option (list STrdFile) :=
  match entries with
  | [] => Some []
  | entry :: entries =>
      if first_byte entry =? 0 then Some (entry :: entries)
      else
        let entryPos := fileOffset (startTrack entry) (startSector entry) in
        let rest := shift_entries entries (entryIndex + 1) fileIndex targetPos added in
        if entryIndex =? fileIndex then cons entry <$> rest
        else if negb (Bool.eqb (entryIndex <? fileIndex) (entryPos <? targetPos)) then None
        else if entryPos <? targetPos then cons entry <$> rest
        else
          let moved := added + startSector entry in
          cons (with_place (sectorLength entry) (Z.land moved 0x0F)
                  (u8 (startTrack entry + Z.shiftr moved 4)) entry) <$> rest
  end.

(** "add": room for the new sectors behind the old ones; the file with the data
    moved, the new catalog, or the error. *)
Definition make_room (h : STrdHead) (target : STrdFile) (fileIndex keepSectors added : Z) (file : list Z) :
    list Z * (string + STrdHead) :=
  let targetPos := fileOffset (startTrack target) (startSector target) in
  let oldTargetEndPos := targetPos + keepSectors * SECTOR_SZ in
  let newTargetEndPos := targetPos + sectorLength target * SECTOR_SZ in
  let freePos := fileOffset (freeTrack (trd_info h)) (freeSector (trd_info h)) in
  if negb (oldTargetEndPos <? freePos) then (file, inr h)
  else
    match read_at oldTargetEndPos (freePos - oldTargetEndPos) file with
    | None => (file, inl "TRD read error"%string)
    | Some data =>
        let file := write_at newTargetEndPos data file in
        match shift_entries (catalog h) 0 fileIndex targetPos added with
        | None => (file, inl "TRD inconsistent catalog data"%string)
        | Some entries => (file, inr {| catalog := entries; trd_info := trd_info h |})
        end
    end.

Section trd.
Context `{FileSystem}.

(** The free space and the number of files once [sectors] more are used. *)
Definition use_sectors (sectors : Z) (isNewTarget : bool) (d : STrdDisc) : STrdDisc :=
  let moved := sectors + freeSector d in
  with_counts (if isNewTarget then u8 (numOfFiles d + 1) else numOfFiles d) (numOfDeleted d)
    (with_free (Z.land moved 0x0F) (u8 (freeTrack d + Z.shiftr moved 4))
       (u16 (numOfFreeSectors d - sectors)) d).

(** The content behind the sectors kept, then the autostart line, then the first
    nine sectors. *)
Definition write_content (fname : list ascii) (file : list Z) (h : STrdHead) (target : STrdFile)
    (keepSectors start length autostart : Z) (isNewTarget : bool) (added : Z) (addplace : bool) : M St bool :=
  let writePos := fileOffset (startTrack target) (startSector target) + keepSectors * SECTOR_SZ in
  s ← gets st;
  match SaveRAM (cur_device s) start length with
  | None => undef
  | Some (result, bytes) =>
      if result =? 0 then
        modify (put_file fname (write_at writePos bytes file)) ;;
        ReturnWithError "TRD write device RAM error" fname
      else
        let line := if negb addplace && (0 <=? autostart)
                    then [0x80; 0xAA; u8 autostart; u8 (Z.shiftr autostart 8)] else [] in
        let file := write_at writePos (bytes ++ line) file in
        let h := update_info (use_sectors added isNewTarget) h in
        modify (put_file fname (write_at 0 (head_record h) file)) ;;
        mret true
  end.

(** The checks of the entry, then the data and the catalog. *)
Definition store_file (fname : list ascii) (file : list Z) (h : STrdHead) (fileIndex : Z) (trdf : STrdFile)
    (Lname start length autostart : Z) (addplace : bool) : M St bool :=
  if fileIndex =? NUM_OF_FILES_MAX then ReturnWithError "TRD image is full of files" fname
  else
    match catalog h !! Z.to_nat fileIndex with
    | None => undef
    | Some target =>
        let isNewTarget := negb (same_name Lname target trdf) in
        let d := trd_info h in
        let keepSectors := if addplace then sectorLength target else 0 in
        if negb (first_byte target =? 0) && isNewTarget then
          ReturnWithError "TRD inconsistent catalog data" fname
        else if numOfFreeSectors d <? sectorLength trdf then
          ReturnWithError "TRD image has not enough free space" fname
        else if 0xFF <? keepSectors + sectorLength trdf then
          ReturnWithError (prefix_ext "new sector length over 0xFF max") fname
        else
          let added := sectorLength trdf in
          let target :=
            if addplace then with_place (u8 (sectorLength target + added)) (startSector target)
                               (startTrack target) target
            else if isNewTarget then with_place added (freeSector d) (freeTrack d) trdf
            else with_place added (startSector target) (startTrack target) trdf in
          let h := update_entry fileIndex (fun _ => target) h in
          let '(file', r) := if addplace then make_room h target fileIndex keepSectors added file
                             else (file, inr h) in
          match r with
          | inl message =>
              modify (put_file fname file') ;; ReturnWithError message fname
          | inr h =>
              write_content fname file' h target keepSectors start length autostart isNewTarget added addplace
          end
    end.

(** The entry by mode for the file found, then the file is stored. *)
Definition select_and_store (fname : list ascii) (file : list Z) (start length autostart : Z)
    (replace addplace : bool) (trdf : STrdFile) (Lname : Z) (found : STrdHead * Z) : M St bool :=
  let '(h, fileIndex) := found in
  r ← select_entry fname replace addplace fileIndex h;
  match (r : option (STrdHead * Z)) with
  | None => mret false
  | Some (h, fileIndex) =>
      store_file fname file h fileIndex trdf Lname start length autostart addplace
  end.

Definition TRD_AddFile (fname fhobname : list ascii) (start length autostart : Z)
    (replace addplace : bool) (lengthMinusVars : Z) : M St bool :=
  r ← prepare_record fhobname start length autostart addplace lengthMinusVars;
  match (r : option (STrdFile * Z * Z)) with
  | None => mret false
  | Some (trdf, Lname, autostart) =>
      s ← gets st;
      match content_of fname s with
      | None => ReturnWithError "Error opening file" fname
      | Some file =>
          if negb (writable fname) then ReturnWithError "Error opening file" fname
          else
            match readFromFile file with
            | None => ReturnWithError "TRD image read error" fname
            | Some h =>
                select_and_store fname file start length autostart replace addplace trdf Lname
                  (find_file 128 (addplace || replace) Lname trdf 0 NUM_OF_FILES_MAX h)
            end
      end
  end.

Definition TRD_SaveEmpty (fname : list ascii) (label : list Z) : M St bool :=
  if negb (has_filename fname) || negb (writable fname) then
    ReturnWithError "opening file for write" fname
  else modify (put_file fname (saveEmptyWrite label)) ;; mret true.

(** The absolute offset and length of a part of a file in the image. *)
Definition TRD_PrepareIncFile (trd : SInputFile) (filename : list ascii) (offset length : Z) :
    M St (option (Z * Z)) :=
  let '(_, trdFormName, Lname) := TRD_FileNameToBytes filename in
  let fail message path := _ ← ReturnWithError message path; mret (M := M St) None in
  s ← gets st;
  match content_of (in_full trd) s with
  | None => fail "[INCTRD] Error opening file"%string (str (in_str trd))
  | Some file =>
      match readFromFile file with
      | None => fail "TRD image read error"%string (str (in_str trd))
      | Some h =>
          match List.find (fun e => bool_decide (take (Z.to_nat Lname) (full_name e)
                                                 = take (Z.to_nat Lname) trdFormName))
                  (used_entries (catalog h)) with
          | None => fail "[INCTRD] File not found in TRD image"%string filename
          | Some entry =>
              let length := if length =? INT_MAX then wrap32 (trd_length entry - offset) else length in
              let begin := fileOffset (startTrack entry) (startSector entry) in
              let fileEnd := begin + trd_length entry in
              let offset := wrap32 (offset + begin) in
              if (begin <=? offset) && (wrap32 (offset + length) <=? fileEnd) && (0 <? length)
              then mret (Some (offset, length))
              else
                p ← gets (fun s => bp (par s));
                fail "[INCTRD] File too short to cover requested offset and length"%string (aft p)
          end
      end
  end.

(** ** The directives *)

Definition dirEMPTYTRD : M St unit :=
  s ← gets st;
  if negb (in_last_pass s) then SkipToEol_lp
  else
    fnaam ← GetOutputFileName_lp;
    if negb (has_filename fnaam) then Error_bp "[EMPTYTRD] Syntax error" IF_FIRST
    else
      more ← anyComma_lp;
      diskLabel ← (if more : bool then lpm GetDelimitedString else mret (M := M St) []);
      mwhen more
        (if bool_decide (diskLabel = []) then Error_bp "[EMPTYTRD] Syntax error, empty label" IF_FIRST
         else mwhen (Nat.ltb TRD_LABEL_SZ (length diskLabel))
                (Warning "[EMPTYTRD] label will be truncated to 11 characters"
                   (Some (take TRD_LABEL_SZ diskLabel)) W_PASS3)) ;;
      _ ← TRD_SaveEmpty fnaam (code <$> diskLabel); mret tt.

(** The name behind the comma with the mode in front of it. *)
Definition SAVETRD_name : M St (bool * bool * list ascii) :=
  more ← anyComma_lp;
  if more : bool then mret (false, false, [])
  else
    p ← get_lp;
    let replace := isc p "|" in
    let addplace := negb replace && isc p "&" in
    mwhen (replace || addplace) (modify (set_lp (adv p)) ;; _ ← SkipBlanks_lp; mret tt) ;;
    fnaamh ← lpm GetDelimitedString;
    mret (replace, addplace, fnaamh).

(** The autostart line and the length without variables; [None] after an error. *)
Definition SAVETRD_autostart (addplace : bool) : M St (option (Z * Z)) :=
  more ← anyComma_lp;
  if negb more then mret (Some (-1, -1))
  else if addplace then Error_bp "[SAVETRD] Autostart is not used here" PASS3 ;; mret None
  else
    '(ok, autostart) ← ParseExpression_lp;
    if negb ok then Error_bp "[SAVETRD] Syntax error" PASS3 ;; mret None
    else if autostart <? -1 then
      Error_bp "[SAVETRD] Negative values are not allowed" SUPPRESS ;; mret None
    else
      more ← anyComma_lp;
      if negb more then mret (Some (autostart, -1))
      else
        '(ok, val) ← ParseExpression_lp;
        if negb ok then Error_bp "[SAVETRD] Syntax error" PASS3 ;; mret None
        else mret (Some (autostart, val)).

Definition SAVETRD_region (fnaam fnaamh : list ascii) (replace addplace : bool) : M St unit :=
  more ← anyComma_lp;
  if negb more then Error_bp "[SAVETRD] Syntax error. No address" SUPPRESS
  else
    '(ok, val) ← ParseExpressionNoSyntaxError_lp;
    let start := if ok && (0 <=? val) && (val <=? 0xFFFF) then val else -1 in
    more ← anyComma_lp;
    if negb more then Error_bp "[SAVETRD] Syntax error. No length" SUPPRESS
    else
      '(_, length) ← ParseExpressionNoSyntaxError_lp;
      r ← SAVETRD_autostart addplace;
      match (r : option (Z * Z)) with
      | None => mret tt
      | Some (autostart, lengthMinusVars) =>
          _ ← TRD_AddFile fnaam fnaamh start length autostart replace addplace lengthMinusVars; mret tt
      end.

Definition dirSAVETRD : M St unit :=
  s ← gets st;
  if negb (has_device s) || negb (in_last_pass s) then
    mwhen (negb (has_device s))
      (Error1 "SAVETRD only allowed in real device emulation mode (See DEVICE)") ;;
    SkipToEol_lp
  else
    fnaam ← GetOutputFileName_lp;
    more ← anyComma_lp;
    if negb more then Error_bp "[SAVETRD] Syntax error. No parameters" SUPPRESS
    else
      '(replace, addplace, fnaamh) ← SAVETRD_name;
      if bool_decide (fnaamh = []) then Error_bp "[SAVETRD] No filename" SUPPRESS
      else SAVETRD_region fnaam fnaamh replace addplace.

(** A value that must not be negative; [None] after an error. *)
Definition INCTRD_value (what : string) : M St (option Z) :=
  '(ok, val) ← ParseExpressionNoSyntaxError_lp;
  if negb ok then Error_bp "[INCTRD] Syntax error" IF_FIRST ;; SkipToEol_lp ;; mret None
  else if val <? 0 then
    ErrorInt ("[INCTRD] Negative " ++ what ++ " value is not allowed")%string val PASS3 ;;
    SkipToEol_lp ;; mret None
  else mret (Some val).

Definition dirINCTRD : M St unit :=
  trdfile ← GetInputFile_lp;
  more ← anyComma_lp;
  twice ← (if more : bool then anyComma_lp else mret true);
  filename ← (if twice : bool then mret (M := M St) [] else lpm GetDelimitedString);
  if bool_decide (filename = []) then Error_bp "[INCTRD] Syntax error" IF_FIRST ;; SkipToEol_lp
  else
    r ← offset_and_length INT_MAX (INCTRD_value "offset") (INCTRD_value "length");
    match (r : option (Z * Z)) with
    | None => mret tt
    | Some (offset, length) =>
        r ← TRD_PrepareIncFile trdfile filename offset length;
        match (r : option (Z * Z)) with
        | None => mret tt
        | Some (offset, length) => BinIncFile trdfile offset length
        end
    end.
End trd.
