(* ===== verification/Tape.v ===== *)
(** * Tape files (io_tape.cpp, io_tzx.cpp, directives.cpp)

    EMPTYTAP and SAVETAP: blocks of a TAP file with their parity, the loader and the
    memory blocks of a snapshot; the blocks of TZX files. *)

From S2P Require Export DirOutput.

(** ** Blocks *)

(** [parity] after the bytes written. *)
Definition parity_of (l : list Z) : Z := fold_left Z.lxor l 0.

(** [writeword] *)
Definition writeword (v : Z) : list Z := [u8 v; u8 (Z.shiftr v 8)].

(** [writenumber]: five decimal digits. *)
Definition writenumber (i : Z) : list Z :=
  [u8 (i / 10000 + 48); u8 (i mod 10000 / 1000 + 48); u8 (i mod 1000 / 100 + 48);
   u8 (i mod 100 / 10 + 48); u8 (i mod 10 + 48)].

(** A flag byte and data between the length and the parity. *)
Definition tap_block (flag : Z) (data : list Z) : list Z :=
  writeword (Z.of_nat (length data) + 2) ++ flag :: data ++ [parity_of (flag :: data)].

(** [writeheader]: the name is padded to ten characters. *)
Definition writeheader (flag : Z) (fname : list ascii) (param1 param2 param3 : Z) : list Z :=
  let name := code <$> take 10 fname in
  tap_block 0 (flag :: name ++ repeat 32 (10 - length name)
                 ++ writeword (u16 param1) ++ writeword (u16 param2) ++ writeword (u16 param3)).

Definition writecode (block : list Z) (loadaddr : Z) (header : bool) : list Z :=
  (if header then writeheader 3 (str "loader") (Z.of_nat (length block)) loadaddr 0 else [])
  ++ tap_block 255 block.

(** [ETapeHeaderType] *)
Inductive ETapeHeaderType := BASIC | NUMBERS | CHARS | CODE | HEADLESS.
Definition tape_flag (t : ETapeHeaderType) : Z :=
  match t with BASIC => 0 | NUMBERS => 1 | CHARS => 2 | CODE => 3 | HEADLESS => 255 end.

(** ** SAVETAP of a memory region *)

(** The bytes mapped from [start] on; [None] when a slot starts behind it. *)
Fixpoint tap_memory (d : CDevice) (slots : list CDeviceSlot) (start len : Z) : option (list Z) :=
  match slots with
  | [] => Some []
  | sl :: slots =>
      if sl_Address sl + sl_Size sl <=? start then tap_memory d slots start len
      else if len <=? 0 then Some []
      else if start <? sl_Address sl then None
      else
        match slot_page d sl with
        | None => None
        | Some pg =>
            let n := Z.min len (sl_Size sl - (start - sl_Address sl)) in
            app (mem_bytes d (RAM pg + (start - sl_Address sl)) n)
              <$> tap_memory d slots (start + n) (len - n)
        end
  end.

(** The second and third parameter of the header. *)
Definition tap_variable (varBase param2 : Z) : M St Z :=
  let param2 := Z.land (if param2 <=? 0 then 1 else param2) 0x1F in
  mwhen ((param2 <? 1) || (26 <? param2)) (Error1 "[SAVETAP] Variable name out of range") ;;
  mret (Z.shiftl (Z.lor param2 varBase) 8).

Definition tap_params (t : ETapeHeaderType) (start len param2 param3 : Z) : M St (Z * Z) :=
  let defaultValue := 0x8000 in
  match t with
  | BASIC =>
      mwhen ((16384 <=? param2) && negb (param2 =? defaultValue))
        (ErrorInt "[SAVETAP] Autostart LINE out of range" param2 PASS3) ;;
      mret (if param2 <? 0 then defaultValue else param2, if param3 <? 0 then len else param3)
  | NUMBERS => p ← tap_variable 0x80 param2; mret (p, defaultValue)
  | CHARS => p ← tap_variable 0xC0 param2; mret (p, defaultValue)
  | CODE =>
      mret (if param2 <? 0 then start else param2, if param3 <? 0 then defaultValue else param3)
  | HEADLESS => mret (param2, param3)
  end.

Section tape.
Context `{FileSystem}.

(** [fopen(fname, "ab")] and what is written to it. *)
Definition append_file (fname : list ascii) (bytes : list Z) (s : St) : St :=
  put_file fname (default [] (content_of fname s) ++ bytes) s.

Definition TAP_SaveEmpty (fname : list ascii) : M St bool :=
  if writable fname then modify (put_file fname []) ;; mret true
  else fopen_error fname PASS3 ;; mret false.

Definition TAP_SaveBlock (fname : list ascii) (t : ETapeHeaderType) (ftapname : list ascii)
    (start len param2 param3 : Z) : M St bool :=
  mwhen (negb (writable fname)) (Error "opening file for append" (Some fname) FATAL) ;;
  let len := if 0x10000 <? len + start then -1 else len in
  let len := if len <=? 0 then 0x10000 - start else len in
  '(param2, param3) ← tap_params t start len param2 param3;
  d ← the_device;
  let headless := Z.eqb (tape_flag t) 255 in
  let flag := if headless then Z.land param3 0xFF else 0xFF in
  match tap_memory d (Slots d) start len with
  | None => undef
  | Some data =>
      let header := if headless then [] else writeheader (tape_flag t) ftapname len param2 param3 in
      modify (append_file fname
        (header ++ writeword (len + 2) ++ flag :: data ++ [parity_of (flag :: data)])) ;;
      mret true
  end.

(** ** Snapshots *)

Definition SaveTAP_ZX_Spectrum_48K : list Z := [
  62; 56; 50; 141; 92; 205; 107; 13; 58; 45; 94; 183; 40; 13; 221; 33; 0; 64; 17; 0; 27; 62; 255; 55;
  205; 86; 5; 42; 46; 94; 229; 221; 42; 48; 94; 237; 91; 50; 94; 62; 255; 55; 195; 86; 5; 0; 0; 0;
  0; 0; 0; 0 ].

Definition SaveTAP_ZX_Spectrum_128K : list Z := [
  62; 56; 50; 141; 92; 205; 107; 13; 58; 107; 94; 183; 40; 13; 221; 33; 0; 64; 17; 0; 27; 62; 255; 55;
  205; 86; 5; 33; 116; 94; 58; 115; 94; 183; 40; 15; 245; 229; 205; 75; 94; 225; 241; 35; 35; 35; 35; 35;
  61; 32; 241; 58; 114; 94; 205; 99; 94; 42; 108; 94; 229; 221; 42; 110; 94; 237; 91; 112; 94; 62; 255; 55;
  195; 86; 5; 243; 126; 205; 99; 94; 251; 35; 126; 221; 111; 35; 126; 221; 103; 35; 94; 35; 86; 62; 255; 55;
  195; 86; 5; 246; 16; 1; 253; 127; 237; 121; 201; 0; 0; 0; 0; 0; 0; 0; 0; 0 ].

Definition SaveTAP_ZX_Spectrum_256K : list Z := [
  243; 205; 242; 94; 251; 62; 56; 50; 141; 92; 205; 107; 13; 58; 236; 96; 183; 40; 13; 221; 33; 0; 64; 17;
  0; 27; 62; 255; 55; 205; 86; 5; 33; 245; 96; 58; 244; 96; 183; 40; 15; 245; 229; 205; 80; 94; 225; 241;
  35; 35; 35; 35; 35; 61; 32; 241; 58; 243; 96; 205; 118; 94; 42; 237; 96; 229; 221; 42; 239; 96; 237; 91;
  241; 96; 62; 255; 55; 195; 86; 5; 243; 126; 229; 205; 118; 94; 225; 251; 35; 126; 221; 111; 35; 126; 221; 103;
  35; 94; 35; 86; 62; 255; 55; 195; 86; 5; 197; 229; 79; 6; 0; 33; 171; 96; 9; 126; 225; 193; 243; 229;
  245; 197; 33; 234; 96; 203; 78; 32; 62; 203; 86; 32; 47; 203; 94; 32; 14; 203; 102; 32; 28; 203; 70; 32;
  65; 203; 126; 32; 61; 24; 78; 245; 221; 229; 230; 24; 47; 1; 247; 255; 205; 233; 94; 221; 225; 241; 195; 210;
  94; 1; 253; 253; 245; 15; 15; 15; 230; 3; 24; 26; 1; 253; 223; 245; 15; 15; 15; 230; 7; 24; 15; 245;
  71; 230; 8; 7; 79; 120; 230; 48; 7; 7; 129; 1; 253; 31; 237; 121; 0; 241; 71; 230; 24; 7; 7; 7;
  79; 120; 230; 7; 129; 246; 16; 1; 253; 127; 237; 121; 0; 193; 241; 225; 201; 221; 33; 83; 42; 221; 229; 195;
  47; 61; 205; 0; 95; 58; 8; 0; 254; 42; 200; 14; 8; 195; 99; 96; 205; 129; 96; 175; 50; 234; 96; 60;
  50; 235; 96; 243; 58; 8; 0; 254; 195; 32; 5; 33; 234; 96; 203; 254; 42; 87; 4; 1; 247; 255; 62; 31;
  205; 233; 94; 237; 91; 87; 196; 167; 237; 82; 1; 247; 255; 62; 255; 205; 233; 94; 32; 10; 33; 234; 96; 203;
  222; 24; 121; 219; 31; 201; 33; 128; 0; 17; 0; 16; 1; 253; 223; 237; 81; 0; 126; 52; 190; 119; 237; 89;
  0; 40; 20; 33; 234; 96; 203; 214; 237; 81; 0; 6; 127; 237; 81; 0; 6; 223; 237; 89; 0; 24; 77; 17;
  16; 17; 6; 31; 237; 81; 0; 126; 52; 190; 119; 237; 89; 0; 40; 11; 175; 237; 121; 33; 234; 96; 203; 206;
  195; 180; 95; 65; 33; 255; 255; 237; 81; 0; 6; 127; 237; 81; 0; 126; 50; 235; 95; 114; 65; 237; 89; 0;
  6; 127; 237; 81; 0; 126; 50; 224; 95; 115; 65; 237; 81; 0; 6; 127; 237; 81; 0; 126; 186; 32; 5; 33;
  234; 96; 203; 230; 33; 255; 255; 6; 127; 237; 89; 0; 126; 50; 213; 95; 115; 237; 81; 0; 114; 237; 89; 0;
  122; 190; 40; 5; 33; 234; 96; 203; 198; 33; 255; 255; 54; 0; 65; 237; 89; 0; 6; 127; 237; 81; 0; 54;
  0; 65; 237; 81; 0; 6; 127; 237; 81; 0; 54; 0; 205; 8; 96; 58; 235; 96; 254; 8; 56; 12; 58; 234;
  96; 254; 1; 32; 5; 33; 234; 96; 203; 238; 175; 205; 118; 94; 251; 201; 221; 33; 0; 192; 33; 63; 187; 6;
  64; 120; 61; 205; 118; 94; 221; 78; 0; 113; 221; 119; 0; 43; 16; 241; 245; 62; 61; 50; 235; 96; 241; 17;
  171; 96; 26; 254; 255; 40; 33; 205; 118; 94; 221; 190; 0; 40; 22; 213; 33; 233; 96; 167; 237; 82; 229; 193;
  213; 225; 35; 237; 176; 229; 33; 235; 96; 53; 225; 209; 27; 19; 24; 218; 6; 64; 33; 0; 187; 62; 64; 144;
  205; 118; 94; 126; 221; 119; 0; 35; 16; 243; 201; 213; 225; 27; 26; 254; 255; 40; 20; 185; 32; 247; 237; 82;
  229; 193; 213; 225; 35; 237; 176; 229; 33; 235; 96; 53; 225; 43; 43; 235; 201; 33; 170; 96; 54; 255; 35; 175;
  119; 60; 254; 2; 40; 6; 254; 5; 40; 2; 24; 1; 60; 35; 254; 63; 32; 238; 54; 255; 33; 0; 187; 229;
  209; 19; 1; 63; 0; 54; 0; 237; 176; 201; 0; 0; 0; 0; 0; 0; 0; 0; 0; 0; 0; 0; 0; 0;
  0; 0; 0; 0; 0; 0; 0; 0; 0; 0; 0; 0; 0; 0; 0; 0; 0; 0; 0; 0; 0; 0; 0; 0;
  0; 0; 0; 0; 0; 0; 0; 0; 0; 0; 0; 0; 0; 0; 0; 0; 0; 0; 0; 0; 0; 0; 0; 0;
  0; 0; 0; 0; 0; 0; 0; 0; 0; 0; 0; 0; 0 ].

(** The zeroes at the start of a block. *)
Fixpoint detect_ram_start (ram : list Z) : nat :=
  match ram with
  | v :: ram => if v =? 0 then S (detect_ram_start ram) else O
  | [] => O
  end.
(** The length without the zeroes at the end. *)
Definition remove_unused_space (ram : list Z) : nat := length ram - detect_ram_start (rev ram).
(** What is saved of a block, and where it starts. *)
Definition used_ram (ram : list Z) : nat * list Z :=
  let ram := take (remove_unused_space ram) ram in
  let start := detect_ram_start ram in
  (start, drop start ram).

(** The stack the machine starts with is cleared when it is untouched. *)
Definition remove_basic_sp (ram : list Z) : list Z :=
  let n := (length ram - length ZX_STACK_DATA)%nat in
  if bool_decide (drop n ram = ZX_STACK_DATA) then take n ram ++ repeat 0 (length ZX_STACK_DATA) else ram.

(** The page mapped in a slot. *)
Definition page_in_slot (d : CDevice) (slotNum : Z) : M St CDevicePage :=
  sl ← GetSlot d slotNum;
  match slot_page d sl with None => undef | Some pg => mret pg end.

Definition ram_of (d : CDevice) (pg : CDevicePage) (ofs n : Z) : list Z := mem_bytes d (RAM pg + ofs) n.

Definition detect_vars_changes (d : CDevice) : M St unit :=
  pg ← page_in_slot d 1;
  let psys := ram_of d pg 0x1C00 (Z.of_nat (length ZX_SYSVARS_DATA)) in
  mwhen (negb (bool_decide (psys = ZX_SYSVARS_DATA)))
    (Warning1 "[SAVETAP] Tape file will not contain data from 0x5B00 to 0x5E00").

Definition has_screen_changes (d : CDevice) (pg : CDevicePage) : bool :=
  negb (forallb (Z.eqb 0) (ram_of d pg 0 0x1800)) || negb (forallb (Z.eqb 0x38) (ram_of d pg 0x1800 0x300)).

(** The BASIC loader: CLEAR VAL "24063": CLS : LOAD <two quotes> CODE :
    RANDOMIZE USR VAL "24064". *)
Definition basic_loader : list Z :=
  let datastart := 0x5E00 in
  let exeat := 0x5E00 in
  let blocklen := 0x1e + 2 in
  let q := 34 in
  writeheader 0 (str "LOADER") blocklen 10 blocklen
  ++ tap_block 255
       ([0; 10; blocklen - 4; 0; 0xfd; 0xb0; q] ++ writenumber (datastart - 1) ++ [q; code ":"; 0xfb;
         code ":"; 0xef; q; q; 0xaf; code ":"; 0xf9; 0xc0; 0xb0; q] ++ writenumber exeat ++ [q; 0x0d]).

(** The last bytes of the loader hold its parameters. *)
Definition patch_tail (loader params : list Z) : list Z :=
  take (length loader - length params) loader ++ params.

Definition bool_byte (b : bool) : Z := if b then 1 else 0.

(** The screen is saved when it is not the empty one. *)
Definition screen_block (d : CDevice) (pg : CDevicePage) : list Z :=
  if has_screen_changes d pg then writecode (ram_of d pg 0 6912) 16384 false else [].

Definition snapshot_48K (d : CDevice) (start : Z) : M St (list Z) :=
  p1 ← page_in_slot d 1;
  p2 ← page_in_slot d 2;
  p3 ← page_in_slot d 3;
  let ram := remove_basic_sp (ram_of d p1 0x1E00 0x2200 ++ ram_of d p2 0 0x4000 ++ ram_of d p3 0 0x4000) in
  detect_vars_changes d ;;
  let '(ram_start, block) := used_ram ram in
  let loader := patch_tail SaveTAP_ZX_Spectrum_48K
    (bool_byte (has_screen_changes d p1) :: writeword start ++ writeword (Z.of_nat ram_start + 0x5E00)
       ++ writeword (Z.of_nat (length block))) in
  mret (writecode loader 0x5E00 true ++ screen_block d p1
        ++ writecode block (0x5E00 + Z.of_nat ram_start) false).

(** The pages saved on their own: number, start and bytes of each. *)
Fixpoint saved_pages (d : CDevice) (p1 p2 : CDevicePage) (pages : list CDevicePage) : list (Z * Z * list Z) :=
  match pages with
  | [] => []
  | pg :: pages =>
      let '(start, block) := used_ram (ram_of d pg 0 0x4000) in
      if negb (pg_Number p2 =? pg_Number pg) && negb (pg_Number p1 =? pg_Number pg)
         && negb (bool_decide (block = []))
      then (pg_Number pg, Z.of_nat start, block) :: saved_pages d p1 p2 pages
      else saved_pages d p1 p2 pages
  end.

Definition page_row (e : Z * Z * list Z) : list Z :=
  let '(n, start, block) := e in
  u8 n :: writeword (start + 0xC000) ++ writeword (Z.of_nat (length block)).

(** The table of pages has [PagesCount - 2] rows; the ones not used stay as they
    were allocated. *)
Definition snapshot_paged (d : CDevice) (start : Z) : M St (list Z) :=
  detect_vars_changes d ;;
  p1 ← page_in_slot d 1;
  p2 ← page_in_slot d 2;
  p3 ← page_in_slot d 3;
  let '(ram_start, block) := used_ram (ram_of d p1 0x1E00 0x2200 ++ ram_of d p2 0 0x4000) in
  let loader_code := if bool_decide (dev_ID d = str "ZXSPECTRUM128")
              then SaveTAP_ZX_Spectrum_128K else SaveTAP_ZX_Spectrum_256K in
  let pages := saved_pages d p1 p2 (Pages d) in
  let table := flat_map page_row pages in
  let room := Z.to_nat ((PagesCount d - 2) * 5) in
  massert (Nat.leb (length table) room) ;;
  let rest := drop (length table) (take room (fresh_memory room)) in
  let loader := patch_tail loader_code
    (bool_byte (has_screen_changes d p1) :: writeword start ++ writeword (Z.of_nat ram_start + 0x5E00)
       ++ writeword (Z.of_nat (length block)) ++ [u8 (pg_Number p3); u8 (Z.of_nat (length pages))]) in
  mret (writecode (loader ++ table ++ rest) 0x5E00 true ++ screen_block d p1
        ++ flat_map (fun '(_, start, block) => writecode block (0xC000 + start) false) pages
        ++ writecode block (0x5E00 + Z.of_nat ram_start) false).

Definition TAP_SaveSnapshot (fname : list ascii) (start : Z) : M St bool :=
  open_for_write fname ;;
  d ← the_device;
  blocks ← (if bool_decide (dev_ID d = str "ZXSPECTRUM48") then snapshot_48K d start else snapshot_paged d start);
  modify (put_file fname (basic_loader ++ blocks)) ;;
  mret true.

(** ** The directives *)

Definition dirEMPTYTAP : M St unit :=
  s ← gets st;
  if negb (in_last_pass s) then SkipParam_lp
  else
    fnaam ← GetOutputFileName_lp;
    if negb (has_filename fnaam) then Error_bp "[EMPTYTAP] Syntax error" IF_FIRST
    else _ ← TAP_SaveEmpty fnaam; mret tt.

(** A failure with a message at the instruction. *)
Definition tap_error {A} (message : string) (type : EStatus) : M St (option A) :=
  Error_bp message type ;; mret None.

Definition tap_range (more : string) (val : Z) : M St (option Z) :=
  if val <? 0 then tap_error "[SAVETAP] Negative values are not allowed" PASS3
  else if 0xFFFF <? val then tap_error ("[SAVETAP] Values " ++ more ++ " than FFFFh are not allowed")%string PASS3
  else mret (Some val).

(** An argument that has to be an expression in 0..0xFFFF. *)
Definition tap_value (more : string) (type : EStatus) : M St (option Z) :=
  '(ok, val) ← ParseExpression_lp;
  if negb ok then tap_error "[SAVETAP] Syntax error" type else tap_range more val.

(** The value or -1 without the comma. *)
Definition tap_optional (parse : M St (option Z)) : M St (option Z) :=
  more ← anyComma_lp; if more : bool then parse else mret (Some (-1)).

(** ", expression" with a single comma in front, or the error. *)
Definition tap_required (missing : string) : M St (option Z) :=
  more ← anyComma_lp;
  twice ← (if more : bool then anyComma_lp else mret true);
  '(ok, val) ← (if twice : bool then mret (M := M St) (false, 0) else ParseExpression_lp);
  if negb ok then tap_error ("[SAVETAP] Syntax error. Missing " ++ missing)%string PASS3
  else tap_range "higher" val.

(** [x] unless a step failed. *)
Definition on_some {A B} (m : M St (option A)) (k : A → M St (option B)) : M St (option B) :=
  r ← m; match (r : option A) with None => mret None | Some x => k x end.

(** Start, length and flag byte of a block without a header. *)
Definition tap_headless : M St (option (Z * Z * Z)) :=
  twice ← anyComma_lp;
  on_some (if twice : bool then tap_error "[SAVETAP] Syntax error. Missing start address" PASS3
           else tap_value "higher" PASS3) (fun start =>
  on_some (tap_optional (tap_value "higher" PASS3)) (fun len =>
  on_some (tap_optional
    ('(ok, val) ← ParseExpression_lp;
     if negb ok then tap_error "[SAVETAP] Syntax error" PASS3
     else if (val <? 0) || (255 <? val) then tap_error "[SAVETAP] Invalid flag byte" PASS3
     else mret (Some val))) (fun param3 =>
  mret (Some (start, len, param3))))).

(** Name, start, length and the two parameters of a block with a header. *)
Definition tap_named : M St (option (list ascii * Z * Z * Z * Z)) :=
  twice ← anyComma_lp;
  if twice : bool then tap_error "[SAVETAP] Syntax error. Missing tape block file name" PASS3
  else
    fnaamh ← lpm GetDelimitedString;
    if bool_decide (fnaamh = []) then tap_error "[SAVETAP] Syntax error in tape file name" PASS3
    else
      on_some (tap_required "start address") (fun start =>
      on_some (tap_required "block length") (fun len =>
      on_some (tap_optional (tap_value "more" IF_FIRST)) (fun param2 =>
      on_some (tap_optional (tap_value "more" IF_FIRST)) (fun param3 =>
      mret (Some (fnaamh, start, len, param2, param3)))))).

(** What the directive asks for. *)
Inductive tap_request :=
| TR_block (t : ETapeHeaderType) (fnaamh : list ascii) (start len param2 param3 : Z)
| TR_snapshot (start : Z).

Definition tape_keyword (id : list ascii) : option ETapeHeaderType :=
  let is_word w := fst (cmphstr (mk_text [] id) w false) in
  if is_word "basic"%string then Some BASIC
  else if is_word "numbers"%string then Some NUMBERS
  else if is_word "chars"%string then Some CHARS
  else if is_word "code"%string then Some CODE
  else if is_word "headless"%string then Some HEADLESS
  else None.

Definition tap_snapshot_start : M St (option tap_request) :=
  modify (set_IsLabelNotFound false) ;;
  '(ok, val) ← ParseExpression_lp;
  s ← gets st;
  if negb ok || IsLabelNotFound (par s) then tap_error "[SAVETAP] Syntax error" PASS3
  else if val <? 0 then tap_error "[SAVETAP] Negative values are not allowed" PASS3
  else mret (Some (TR_snapshot val)).

Definition tap_arguments : M St (option tap_request) :=
  tlp ← get_lp;
  id ← GetID_lp;
  match (id : option (list ascii)) ≫= tape_keyword with
  | None => modify (set_lp tlp) ;; tap_snapshot_start
  | Some t =>
      more ← anyComma_lp;
      if negb more then modify (set_lp tlp) ;; tap_snapshot_start
      else
        match t with
        | HEADLESS =>
            on_some tap_headless (fun '(start, len, param3) =>
              mret (Some (TR_block HEADLESS [] start len (-1) param3)))
        | t =>
            on_some tap_named (fun '(fnaamh, start, len, param2, param3) =>
              mret (Some (TR_block t fnaamh start len param2 param3)))
        end
  end.

Definition tap_parse : M St (option tap_request) :=
  more ← anyComma_lp;
  if more : bool then
    twice ← anyComma_lp;
    if twice : bool then tap_error "[SAVETAP] Syntax error. No parameters" PASS3 else tap_arguments
  else
    s ← gets st;
    if StartAddress (lin s) <? 0 then tap_error "[SAVETAP] Syntax error. No parameters" PASS3
    else mret (Some (TR_snapshot (StartAddress (lin s)))).

Definition tap_save (fnaam : list ascii) (r : tap_request) : M St unit :=
  done ← match r with
         | TR_block t fnaamh start len param2 param3 =>
             TAP_SaveBlock fnaam t fnaamh start len param2 param3
         | TR_snapshot start =>
             d ← the_device;
             if negb (IsZXSpectrumDevice (dev_ID d)) then
               Error "[SAVETAP snapshot] Device is not of ZX Spectrum type." (Some (dev_ID d)) SUPPRESS ;;
               mret false
             else TAP_SaveSnapshot fnaam (u16 start)
         end;
  mwhen (negb done) (Error_bp "[SAVETAP] Error writing file" IF_FIRST).

Definition dirSAVETAP : M St unit :=
  s ← gets st;
  if negb (in_last_pass s) then SkipParam_lp
  else
    let exec := has_device s in
    mwhen (negb exec) (Error1 "SAVETAP only allowed in real device emulation mode (See DEVICE)") ;;
    fnaam ← GetOutputFileName_lp;
    r ← tap_parse;
    match (r : option tap_request) with
    | None => mret tt
    | Some r => mwhen exec (tap_save fnaam r)
    end.

(** ** TZX files *)

Definition tzx_open_append (fname : list ascii) : M St unit :=
  mwhen (negb (writable fname)) (Error "[TZX] Error opening file for append" (Some fname) FATAL).

Definition TZX_CreateEmpty (fname : list ascii) : M St unit :=
  mwhen (negb (writable fname)) (Error "[TZX] Error opening file for write" (Some fname) FATAL) ;;
  modify (put_file fname ((code <$> str "ZXTape!") ++ [0x1A; 1; 10])).

Definition TZX_AppendPauseBlock (fname : list ascii) (pauseAfterMs : Z) : M St unit :=
  tzx_open_append fname ;;
  modify (append_file fname (0x20 :: writeword pauseAfterMs)).

Definition TZX_AppendStandardBlock (fname : list ascii) (buf : list Z) (pauseAfterMs sync : Z) : M St unit :=
  tzx_open_append fname ;;
  modify (append_file fname (0x10 :: writeword pauseAfterMs ++ writeword (Z.of_nat (length buf) + 2)
            ++ sync :: buf ++ [parity_of (sync :: buf)])).

Record STZXTurboBlock := mk_turbo {
  PilotPulseLen : Z; FirstSyncLen : Z; SecondSyncLen : Z; ZeroBitLen : Z; OneBitLen : Z;
  PilotToneLen : Z; LastByteUsedBits : Z; PauseAfterMs : Z
}.

Definition TZX_AppendTurboBlock (fname : list ascii) (buf : list Z) (turbo : STZXTurboBlock) : M St unit :=
  tzx_open_append fname ;;
  let n := Z.of_nat (length buf) in
  modify (append_file fname (0x11
    :: flat_map writeword [PilotPulseLen turbo; FirstSyncLen turbo; SecondSyncLen turbo; ZeroBitLen turbo;
                           OneBitLen turbo; PilotToneLen turbo]
    ++ LastByteUsedBits turbo :: writeword (PauseAfterMs turbo)
    ++ [u8 n; u8 (Z.shiftr n 8); u8 (Z.shiftr n 16)] ++ buf)).
End tape.
