(* ===== verification/Snapshot.v ===== *)
(** * ZX Spectrum snapshots (io_snapshots.cpp, directives.cpp)

    SAVESNA: the 48K and 128K snapshot of the device memory, with the start address
    put where the loader of the snapshot takes it from. *)

From S2P Require Export DirOutput.

(** The header with BC and SP; the rest are the registers of a machine just
    started. *)
Definition sna_header (start sp : Z) : list Z :=
  [0x3F; 0x58; 0x27; 0x9B; 0x36; 0x00; 0x00; 0x44; 0x00; 0x2B; 0x2D; 0xDC; 0x5C;
   u8 start; u8 (Z.shiftr start 8);
   0x3A; 0x5C; 0x3C; 0xFF; 0x00; 0x00; 0x54; 0x00; u8 sp; u8 (Z.shiftr sp 8); 0x01; 0x07].

(** The four bytes behind the first 48 KiB: PC, port 7FFD and TR-DOS. *)
Definition sna_header_128 (start bank : Z) : list Z :=
  [u8 start; u8 (Z.shiftr start 8); u8 (0x10 + bank); 0].

(** Where the initial page of the slot at an address has that address in the
    memory of the device. *)
Definition initial_offset (d : CDevice) (address : Z) : M St Z :=
  sl ← GetSlot d (GetSlotOfA16 d address);
  pg ← GetPage d (InitialPage sl);
  mret (RAM pg + Z.land address (pg_Size pg - 1)).

Definition poke_initial (d : CDevice) (address value : Z) : M St CDevice :=
  ofs ← initial_offset d address;
  mret (set_Memory (<[ofs := value]> (Memory d)) d).

(** The bytes from [address] on are the [expected] ones. *)
Fixpoint initial_bytes_are (d : CDevice) (address : Z) (expected : list Z) : M St bool :=
  match expected with
  | [] => mret true
  | v :: expected =>
      ofs ← initial_offset d address;
      rest ← initial_bytes_are d (address + 1) expected;
      mret ((v =? mem_byte d ofs) && rest)
  end.

Definition page_bytes (d : CDevice) (num : Z) : M St (list Z) :=
  pg ← GetPage d num; mret (mem_bytes d (RAM pg) (pg_Size pg)).

Definition pages_bytes (d : CDevice) (nums : list Z) : M St (list Z) :=
  fold_M (fun acc num => b ← page_bytes d num; mret (acc ++ b)) nums [].

(** The address of the stack a machine just started has. *)
Definition stack_address (d : CDevice) : Z :=
  Z.max 0x4002 (ZxRamTop d + 1 - Z.of_nat (length ZX_STACK_DATA)).

(** The device with the start address in its memory, and SP: in a 48K snapshot
    PC is on the stack. *)
Definition sna_stack (d : CDevice) (is48kSnap : bool) (start : Z) : M St (CDevice * Z) :=
  let stackAdr := stack_address d in
  defaultStack ← (if is48kSnap then initial_bytes_are d (stackAdr - 2) (0 :: 0 :: ZX_STACK_DATA)
                  else initial_bytes_are d stackAdr ZX_STACK_DATA);
  if defaultStack : bool then
    if is48kSnap then
      d ← poke_initial d (stackAdr - 1) (u8 (Z.shiftr start 8));
      d ← poke_initial d (stackAdr - 2) (u8 start);
      mret (d, stackAdr - 2)
    else mret (d, stackAdr)
  else if is48kSnap then
    WarningById1 "sna48" ;;
    pg ← GetPage d 1;
    mret (set_Memory (<[RAM pg + 1 := Z.shiftr start 8]> (<[RAM pg := u8 start]> (Memory d))) d, 0x4000)
  else mret (d, 0x6000).

Section snapshot.
Context `{FileSystem}.

(** The number of the page mapped in slot 3. *)
Definition page_of_slot3 (d : CDevice) : M St Z :=
  sl ← GetSlot d 3;
  match slot_page d sl with None => undef | Some pg => mret (pg_Number pg) end.

(** What the snapshot has behind the header of 27 bytes. *)
Definition sna_memory (d : CDevice) (is48kSnap : bool) (start : Z) : M St (list Z) :=
  if is48kSnap then pages_bytes d [1; 2; 3]
  else
    bank ← page_of_slot3 d;
    first ← pages_bytes d [5; 2; bank];
    others ← pages_bytes d
      (List.filter (fun i => negb (i =? bank) && negb (i =? 2) && negb (i =? 5)) (upto 8));
    mret (first ++ sna_header_128 start bank ++ others).

(** [start] is a [word]. *)
Definition SaveSNA_ZX (fname : list ascii) (start : Z) : M St bool :=
  s ← gets st;
  match cur_device s with
  | None => Error1 "[SAVESNA] Only for real device emulation mode." ;; mret false
  | Some d =>
      if negb (IsZXSpectrumDevice (dev_ID d)) then
        Error1 "[SAVESNA] Device must be ZXSPECTRUM48 or ZXSPECTRUM128." ;; mret false
      else if negb (writable fname) then fopen_error fname PASS3 ;; mret false
      else
        let is48kSnap := name_is (dev_ID d) "ZXSPECTRUM48" in
        '(d, sp) ← sna_stack d is48kSnap start;
        modify (upd_device (fun _ => d)) ;;
        memory ← sna_memory d is48kSnap start;
        modify (put_file fname (sna_header start sp ++ memory)) ;;
        pg ← GetPage d 0;
        mwhen (128 * 1024 <? PagesCount d * pg_Size pg) (WarningById "sna128" (Some fname) W_PASS3) ;;
        mret true
  end.

(** The start address: the argument, or the one END or a SAVESNA before gave. *)
Definition SAVESNA_start (start : Z) : M St (option Z) :=
  more ← anyComma_lp;
  if negb more then
    if start <? 0 then Error_bp "[SAVESNA] No start address defined" SUPPRESS ;; mret None
    else mret (Some start)
  else
    '(ok, val) ← ParseExpression_lp;
    if negb ok then mret None
    else
      mwhen (0 <=? start)
        (Warning1 "[SAVESNA] Start address was also defined by END, SAVESNA argument used instead") ;;
      if 0 <=? val then mret (Some val)
      else Error_bp "[SAVESNA] Negative values are not allowed" SUPPRESS ;; mret None.

Definition dirSAVESNA : M St unit :=
  s ← gets st;
  if negb (in_last_pass s) then mret tt
  else
    match cur_device s with
    | None => Error "SAVESNA only allowed in real device emulation mode (See DEVICE)" None SUPPRESS
    | Some d =>
        if negb (IsZXSpectrumDevice (dev_ID d)) then
          Error "[SAVESNA] Device must be ZXSPECTRUM48 or ZXSPECTRUM128." None SUPPRESS
        else
          fnaam ← GetOutputFileName_lp;
          start ← SAVESNA_start (StartAddress (lin s));
          match (start : option Z) with
          | None => mret tt
          | Some start =>
              done ← SaveSNA_ZX fnaam (u16 start);
              mwhen (negb done) (Error_bp "[SAVESNA] Error writing file (Disk full?)" IF_FIRST)
          end
    end.
End snapshot.
