(* ===== verification/Cpc.v ===== *)
(** * Amstrad CPC files (io_cpc.cpp, io_cpc_ldrs.h)

    SAVECPCSNA: snapshots; SAVECDT: tapes with the blocks of the firmware, their
    checksums and the loaders of a memory dump; SAVECPR: cartridges. *)

From S2P Require Export Tape.

(** [memcpy] of [data] to an offset of a buffer. *)
Definition overwrite (ofs : nat) (data buf : list Z) : list Z :=
  take ofs buf ++ data ++ drop (ofs + length data) buf.

(** ** Snapshots *)

Definition isCPC6128 (d : CDevice) : bool := negb (name_is (dev_ID d) "AMSTRADCPC464").
Definition getCPCMemoryDepth (d : CDevice) : Z := u16 (PagesCount d * 0x10).

Definition ga_pens : list Z :=
  [0x04; 0x0A; 0x13; 0x0C; 0x0B; 0x14; 0x15; 0x0D; 0x06; 0x1E; 0x1F; 0x07; 0x12; 0x19; 0x04; 0x17; 0x04].
Definition crtc_defaults : list Z :=
  [0x3F; 0x28; 0x2E; 0x8E; 0x26; 0x00; 0x19; 0x1E; 0x00; 0x07; 0x00; 0x00; 0x30; 0x00; 0x00; 0x00; 0x00; 0x00].
Definition psg_defaults : list Z :=
  [0x0E; 0x00; 0x00; 0x00; 0x00; 0x00; 0x00; 0x00; 0x3F; 0x00; 0x00; 0x00; 0x00; 0x00; 0x00; 0x00].

Definition SNA_CPC_header (d : CDevice) (start : Z) : list Z :=
  fold_left (fun buf e => overwrite (fst e) (snd e) buf)
    [(0x00%nat, code <$> str "MV - SNA"); (0x10%nat, [2]); (0x1B%nat, [0; 0]); (0x21%nat, [0xF0; 0xBF]);
     (0x23%nat, writeword start); (0x25%nat, [1]); (0x2F%nat, ga_pens); (0x40%nat, [0x85]); (0x41%nat, [0]);
     (0x42%nat, [0x0D]); (0x43%nat, crtc_defaults); (0x59%nat, [0x82]); (0x5B%nat, psg_defaults);
     (0x6B%nat, writeword (getCPCMemoryDepth d)); (0x6D%nat, [if isCPC6128 d then 2 else 0])]
    (repeat 0 256).

Section cpc.
Context `{FileSystem}.

Definition cpc_page (d : CDevice) (num : Z) : M St (list Z) :=
  pg ← GetPage d num; mret (mem_bytes d (RAM pg) (pg_Size pg)).
Definition cpc_pages (d : CDevice) (nums : list Z) : M St (list Z) :=
  fold_M (fun acc num => b ← cpc_page d num; mret (acc ++ b)) nums [].

Definition SaveSNA_CPC (fname : list ascii) (start : Z) : M St bool :=
  s ← gets st;
  match cur_device s with
  | None => Error1 "SAVECPCSNA only allowed in real device emulation mode (See DEVICE)" ;; mret false
  | Some d =>
      if negb (IsAmstradCPCDevice (dev_ID d)) then
        Error1 "[SAVECPCSNA] Device must be AMSTRADCPC464 or AMSTRADCPC6128." ;; mret false
      else if negb (writable fname) then
        Error "[SAVECPCSNA] Error opening file for write" (Some fname) PASS3 ;; mret false
      else
        memory ← cpc_pages d (upto (PagesCount d));
        modify (put_file fname (SNA_CPC_header d start ++ memory)) ;;
        mret true
  end.

(** The start address: the argument, or the one of END. *)
Definition SAVECPCSNA_start (start : Z) : M St (option Z) :=
  more ← anyComma_lp;
  if negb more then
    if start <? 0 then Error_bp "[SAVECPCSNA] No start address defined" SUPPRESS ;; mret None
    else mret (Some start)
  else
    '(ok, val) ← ParseExpression_lp;
    if negb ok then mret None
    else
      mwhen (0 <=? start)
        (Warning1 "[SAVECPCSNA] Start address was also defined by END, SAVECPCSNA argument used instead") ;;
      if 0 <=? val then mret (Some val)
      else Error_bp "[SAVECPCSNA] Negative values are not allowed" SUPPRESS ;; mret None.

Definition dirSAVECPCSNA : M St unit :=
  s ← gets st;
  if negb (in_last_pass s) then SkipToEol_lp
  else
    fnaam ← GetOutputFileName_lp;
    start ← SAVECPCSNA_start (StartAddress (lin s));
    match (start : option Z) with
    | None => mret tt
    | Some start =>
        done ← SaveSNA_CPC fnaam (u16 start);
        mwhen (negb done) (Error_bp "[SAVECPCSNA] Error writing file (Disk full?)" IF_FIRST)
    end.

(** ** Tape blocks *)

Definition DefaultPause : Z := 1000.
Definition BlockTypeHeader : Z := 0x2C.
Definition BlockTypeData : Z := 0x16.
Definition FileTypeBASIC : Z := 0.
Definition FileTypeBINARY : Z := 2.

(** One of the eight rounds of [crcupdate]. *)
Definition crc_round (aux : Z) : Z :=
  if Z.land aux 0x8000 =? 0 then Z.shiftl aux 1 else Z.lxor (Z.shiftl aux 1) 4129.
(** The argument [c] is a [word]. *)
Definition crcupdate (c b : Z) : Z :=
  Nat.iter 8 crc_round (Z.lxor (u16 c) (Z.shiftl b 8)).

(** The two bytes behind a chunk, the complement of its CRC. *)
Definition chunk_crc (chunk : list Z) : list Z :=
  let check := Z.lxor (fold_left crcupdate chunk 0xFFFF) 0xFFFF in
  [u8 (Z.shiftr check 8); u8 check].

(** Chunks of 256 bytes, the last one padded, each with its checksum. *)
Fixpoint data_chunks (count : nat) (buf : list Z) : list Z :=
  match count with
  | O => []
  | S count =>
      let chunk := take 256 buf ++ repeat 0 (256 - length buf) in
      chunk ++ chunk_crc chunk ++ data_chunks count (drop 256 buf)
  end.

Definition chunked (buf : list Z) (sync : Z) : list Z :=
  sync :: data_chunks ((length buf + 255) / 256) buf ++ repeat 0xFF 4.

Definition cdt_turbo (pauseAfter : Z) : STZXTurboBlock :=
  {| PilotPulseLen := 0x091A; FirstSyncLen := 0x048D; SecondSyncLen := 0x048D; ZeroBitLen := 0x048D;
     OneBitLen := 0x091A; PilotToneLen := 0x1000; LastByteUsedBits := 0x08; PauseAfterMs := pauseAfter |}.

Definition writeChunkedData (fname : list ascii) (buf : list Z) (pauseAfter sync : Z) : M St unit :=
  TZX_AppendTurboBlock fname (chunked buf sync) (cdt_turbo pauseAfter).

(** The 64 bytes ahead of a block of a file. *)
Definition tape_header (tfname : list ascii) (fileType buflen startaddr block memloc dlen : Z)
    (last_block : bool) : list Z :=
  fold_left (fun buf e => overwrite (fst e) (snd e) buf)
    [(0%nat, code <$> take 16 tfname); (16%nat, [u8 block]); (17%nat, [if last_block then 0xFF else 0]);
     (18%nat, [fileType]); (19%nat, writeword dlen); (21%nat, writeword memloc);
     (23%nat, [if u8 block =? 1 then 0xFF else 0]); (24%nat, writeword buflen); (26%nat, writeword startaddr)]
    (repeat 0 64).

(** Blocks of up to 2048 bytes until nothing remains. *)
Fixpoint tape_blocks (fuel : nat) (fname tfname : list ascii) (fileType buflen startaddr pause : Z)
    (buf : list Z) (block memloc : Z) : M St unit :=
  match fuel, buf with
  | _, [] => mret tt
  | O, _ => nofuel
  | S fuel, _ =>
      let data := take 2048 buf in
      let dlen := Z.of_nat (length data) in
      writeChunkedData fname
        (tape_header tfname fileType buflen startaddr block memloc dlen (Nat.leb (length buf) 2048))
        10 BlockTypeHeader ;;
      writeChunkedData fname data pause BlockTypeData ;;
      tape_blocks fuel fname tfname fileType buflen startaddr pause
        (drop 2048 buf) (u8 (block + 1)) (u16 (memloc + dlen))
  end.

Definition writeTapeFile (fname tfname : list ascii) (fileType : Z) (buf : list Z)
    (memaddr startaddr pause : Z) : M St unit :=
  tape_blocks (length buf) fname tfname fileType (Z.of_nat (length buf)) (u16 startaddr) pause
    buf 1 (u16 memaddr).

(** ** Memory dumps with a loader *)

Definition SaveCDT_AmstradCPC464 : list Z := [
  0x3E; 0xFF; 0xCD; 0x6B; 0xBC; 0x3A; 0x26; 0x80; 0xB7; 0x28; 0x0B; 0x21; 0x00; 0xC0; 0x11; 0x00;
  0x40; 0x3E; 0x16; 0xCD; 0xA1; 0xBC; 0x2A; 0x27; 0x80; 0xE5; 0x2A; 0x29; 0x80; 0xED; 0x5B; 0x2B;
  0x80; 0x3E; 0x16; 0xC3; 0xA1; 0xBC; 0x00; 0x00; 0x00; 0x00; 0x00; 0x00; 0x00 ].
Definition SaveCDT_AmstradCPC464_ORG : Z := 0x8000.
Definition SaveCDT_AmstradCPC464_Settings : nat := 0x26.

Definition SaveCDT_AmstradCPC6128 : list Z := [
  0x3E; 0xFF; 0xCD; 0x6B; 0xBC; 0x3A; 0x56; 0x80; 0xB7; 0x28; 0x0B; 0x21; 0x00; 0xC0; 0x11; 0x00;
  0x40; 0x3E; 0x16; 0xCD; 0xA1; 0xBC; 0x21; 0x5D; 0x80; 0x7E; 0x23; 0xB7; 0x28; 0x28; 0xF5; 0x7E;
  0x23; 0xF6; 0xC0; 0x06; 0x74; 0x4F; 0xF3; 0xED; 0x49; 0x4E; 0x23; 0x46; 0x23; 0x5E; 0x23; 0x56;
  0x23; 0xE5; 0x21; 0x00; 0x40; 0x09; 0x3E; 0x16; 0xCD; 0xA1; 0xBC; 0x01; 0xC0; 0x74; 0xED; 0x49;
  0xE1; 0xFB; 0xF1; 0x3D; 0x20; 0xD8; 0x2A; 0x57; 0x80; 0xE5; 0x2A; 0x59; 0x80; 0xED; 0x5B; 0x5B;
  0x80; 0x3E; 0x16; 0xC3; 0xA1; 0xBC; 0x00; 0x00; 0x00; 0x00; 0x00; 0x00; 0x00; 0x00 ].
Definition SaveCDT_AmstradCPC6128_ORG : Z := 0x8000.
Definition SaveCDT_AmstradCPC6128_Settings : nat := 0x56.
Definition SaveCDT_AmstradCPC6128_Pages : nat := 0x5D.

(** Two decimal digits of a palette entry. *)
Definition ink_digits (v : Z) : list Z := [u8 (v / 10 + 48); u8 (v mod 10 + 48)].

(** Entries with commas between them. *)
Fixpoint ink_list (l : list Z) : list Z :=
  match l with
  | [] => []
  | [v] => ink_digits v
  | v :: l => ink_digits v ++ code "," :: ink_list l
  end.

(** The BASIC program that sets mode, border and inks, loads "!code" and calls it. *)
Definition cdt_basic (mode border : Z) (inks : list Z) : list Z :=
  let callad := SaveCDT_AmstradCPC464_ORG in
  let himem := callad - 1 in
  [15; 0; 10; 0; 0xAD; 0x20; mode; 0x01; 0x8A; 0x01; 0x82; 0x20; 0x19; border; 0x00]
  ++ [54; 0; 20; 0; 0x8C; 0x20] ++ ink_list inks ++ [0x00]
  ++ [18; 0; 30; 0; 0x9E; 0x20; 0x0D; 0x00; 0x00; 0xE9; 0xEF; 0x0E; 0x20; 0xEC; 0x20; 0x19; 0x0F; 0x00]
  ++ [30; 0; 40; 0; 0xC3; 0x20; 0x0D; 0x00; 0x00; 0xF6; 0x01; 0xA2; 0x20; 0x0D; 0x00; 0x00; 0xE9; 0x2C;
      0x20; 0x0D; 0x00; 0x00; 0xF6; 0x2C; 0x20; 0x0D; 0x00; 0x00; 0xF6; 0x00]
  ++ [11; 0; 50; 0; 0xB0; 0x20; 0x0D; 0x00; 0x00; 0xE9; 0x00]
  ++ [20; 0; 60; 0; 0xAA; 0x20; 0x1C] ++ writeword himem ++ [0x01; 0xA8; 0x20; 0x22] ++ (code <$> str "!code")
  ++ [0x22; 0x00]
  ++ [10; 0; 70; 0; 0x83; 0x20; 0x1C] ++ writeword callad ++ [0x00]
  ++ [0; 0].

(** [mode_values] has three entries. *)
Definition writeBASICLoader (fname : list ascii) (screenMode : Z) (palette : list Z) : M St unit :=
  match [0x0E; 0x0F; 0x10] !! Z.to_nat screenMode, palette with
  | Some mode, border :: inks =>
      writeTapeFile fname (str "LOADER") FileTypeBASIC (cdt_basic mode border inks) 0x0170 0 DefaultPause
  | _, _ => undef
  end.

Definition writeUserProgram (fname tapefname : list ascii) (buf : list Z) (baseAddr startAddr : Z) : M St unit :=
  writeTapeFile fname tapefname FileTypeBINARY buf baseAddr startAddr DefaultPause.

Definition hasScreen (d : CDevice) : M St bool :=
  screen ← cpc_page d 3; mret (negb (forallb (Z.eqb 0) screen)).

(** The first byte that is not zero, and the length up to the last one. *)
Definition calcRAMStart (ram : list Z) : Z :=
  let n := detect_ram_start ram in if Nat.eqb n (length ram) then 0x10000 else Z.of_nat n.
Definition calcRAMLength (ram : list Z) : Z := Z.of_nat (remove_unused_space ram).

(** The settings in the loader: screen, start address, base and length of the
    program. *)
Definition loader_settings (screen : bool) (startAddr ramBase ramUsed : Z) : list Z :=
  bool_byte screen :: writeword startAddr ++ writeword ramBase ++ writeword ramUsed.

(** A page of the upper 64 KiB that is not empty: its row in the loader and what is
    written for it, [length] bytes from [base] on. *)
Definition upper_page (d : CDevice) (i : Z) : M St (option (list Z * list Z)) :=
  pg ← GetPage d i;
  let ram := mem_bytes d (RAM pg) 0x4000 in
  let base := calcRAMStart ram in
  let length := calcRAMLength ram in
  if (base =? 0x10000) || (length =? 0) then mret None
  else
    massert (RAM pg + base + length <=? PagesCount d * 0x4000) ;;
    mret (Some (u8 i :: writeword base ++ writeword length, mem_bytes d (RAM pg + base) length)).

Definition upper_pages (d : CDevice) : M St (list (list Z * list Z)) :=
  fold_M (fun acc i => p ← upper_page d i; mret (acc ++ match p with Some p => [p] | None => [] end))
    (drop 4 (upto (PagesCount d))) [].

(** The loader of a device and the upper pages it has to load. *)
Definition cdt_loader (d : CDevice) (settings : list Z) : M St (list Z * list (list Z)) :=
  if isCPC6128 d then
    pages ← upper_pages d;
    let entries := Z.of_nat (length pages) :: concat (fst <$> pages) in
    mret (take SaveCDT_AmstradCPC6128_Pages
            (overwrite SaveCDT_AmstradCPC6128_Settings settings SaveCDT_AmstradCPC6128) ++ entries,
          snd <$> pages)
  else mret (overwrite SaveCDT_AmstradCPC464_Settings settings SaveCDT_AmstradCPC464, []).

(** [createCDTDump464] and [createCDTDump6128] *)
Definition createCDTDump (fname : list ascii) (d : CDevice) (startAddr screenMode : Z) (palette : list Z) :
    M St unit :=
  p0 ← GetPage d 0;
  p1 ← GetPage d 1;
  p2 ← GetPage d 2;
  let ram := mem_bytes d (RAM p0) 0x4000 ++ mem_bytes d (RAM p1) 0x4000 ++ mem_bytes d (RAM p2) 0x4000 in
  let screenMode := if 2 <? screenMode then 0xFF else screenMode in
  screen ← hasScreen d;
  let ramBase := calcRAMStart ram in
  let ramEnd := calcRAMLength ram in
  if (ramBase =? 0x10000) || (ramEnd =? 0) then
    Error "[SAVECDT] Could not determine the start and end of the program" None SUPPRESS
  else
    let ramUsed := ramEnd - ramBase in
    let startAddr := if startAddr <? 0 then ramBase else startAddr in
    '(loader, pages) ← cdt_loader d (loader_settings screen startAddr ramBase ramUsed);
    TZX_CreateEmpty fname ;;
    TZX_AppendPauseBlock fname 2000 ;;
    writeBASICLoader fname screenMode palette ;;
    writeUserProgram fname (str "CODE") loader SaveCDT_AmstradCPC464_ORG SaveCDT_AmstradCPC464_ORG ;;
    mwhen screen (bytes ← cpc_page d 3; writeChunkedData fname bytes DefaultPause BlockTypeData) ;;
    for_each pages (fun bytes => writeChunkedData fname bytes DefaultPause BlockTypeData) ;;
    writeChunkedData fname (take (Z.to_nat ramUsed) (drop (Z.to_nat ramBase) ram)) DefaultPause BlockTypeData.

Definition default_palette : list Z := [1; 1; 24; 20; 6; 26; 0; 2; 8; 10; 12; 14; 16; 18; 22; 24; 16].

Definition SaveCDT_Snapshot (fname : list ascii) (startAddr : Z) : M St unit :=
  d ← the_device; createCDTDump fname d startAddr 1 default_palette.
Definition SaveCDT_SnapshotWithPalette (fname : list ascii) (startAddr screenMode : Z) (palette : list Z) :
    M St unit :=
  d ← the_device; createCDTDump fname d startAddr screenMode palette.

(** The mapped memory: a slot at a time. *)
Fixpoint contig_ram (fuel : nat) (d : CDevice) (startAddr length : Z) : M St (list Z) :=
  if length <=? 0 then mret []
  else
    match fuel with
    | O => nofuel
    | S fuel =>
        let slotId := GetSlotOfA16 d startAddr in
        massert (negb (slotId =? -1)) ;;
        sl ← GetSlot d slotId;
        match slot_page d sl with
        | None => undef
        | Some pg =>
            let offset := startAddr - sl_Address sl in
            let slotLength := Z.min (sl_Size sl - offset) length in
            rest ← contig_ram fuel d (startAddr + slotLength) (length - slotLength);
            mret (mem_bytes d (RAM pg + offset) slotLength ++ rest)
        end
    end.
Definition getContigRAM (startAddr length : Z) : M St (list Z) :=
  massert ((0 <=? startAddr) && (1 <=? length) && (startAddr + length <=? 0x10000)) ;;
  d ← the_device; contig_ram (Z.to_nat length) d startAddr length.

Definition SaveCDT_BASIC (fname tfname : list ascii) (startAddr length : Z) : M St unit :=
  data ← getContigRAM startAddr length;
  writeTapeFile fname tfname FileTypeBASIC data startAddr 0 DefaultPause.

Definition SaveCDT_Code (fname tfname : list ascii) (startAddr length entryAddr : Z) : M St unit :=
  data ← getContigRAM startAddr length;
  writeTapeFile fname tfname FileTypeBINARY data startAddr
    (if entryAddr <? 0 then startAddr else entryAddr) DefaultPause.

Inductive ECDTHeadlessFormat := AMSTRAD | SPECTRUM.

Definition SaveCDT_Headless (fname : list ascii) (startAddr length sync : Z) (format : ECDTHeadlessFormat) :
    M St unit :=
  data ← getContigRAM startAddr length;
  match format with
  | AMSTRAD => writeChunkedData fname data DefaultPause sync
  | SPECTRUM => TZX_AppendStandardBlock fname data DefaultPause sync
  end.

(** ** SAVECDT *)

Definition cdt_args_full : string :=
  "[SAVECDT] Invalid args. SAVECDT FULL <cdtname>[,<startaddr>[,<screenmode>[,<border>[,<ink0>...<ink15>]]]]".
Definition cdt_args_basic : string :=
  "[SAVECDT] Invalid args. SAVECDT BASIC <cdtname>,<name>,<start>,<length>".
Definition cdt_args_code : string :=
  "[SAVECDT] Invalid args. SAVECDT CODE <cdtname>,<name>,<start>,<length>[,<customstartaddress>]".
Definition cdt_args_headless : string :=
  "[SAVECDT] Invalid args. SAVECDT HEADLESS <cdtname>,<start>,<length>[,<sync>[,<format>]]".

Definition dirSAVECDTFull (cdtname : list ascii) : M St unit :=
  s ← gets st;
  let defaults := [StartAddress (lin s); 0xFF; 0] ++ repeat 0 16 in
  more ← anyComma_lp;
  '(ok, args) ← (if more : bool
                 then getIntArguments true (zip defaults (false :: repeat true 18))
                 else mret (M := M St) (true, defaults));
  if negb ok then Error_lp cdt_args_full SUPPRESS
  else
    match args with
    | start :: mode :: palette =>
        if negb (mode =? 0xFF) then SaveCDT_SnapshotWithPalette cdtname start (u8 mode) (u8 <$> palette)
        else SaveCDT_Snapshot cdtname start
    | _ => undef
    end.

Definition dirSAVECDTEmpty (cdtname : list ascii) : M St unit := TZX_CreateEmpty cdtname.

(** The region lies in the address space. *)
Definition cdt_region (start length : Z) : bool :=
  (0 <=? start) && (1 <=? length) && (length <? 0x10000) && (wrap32 (start + length) <=? 0x10000).

(** A comma, the name on the tape, another comma. *)
Definition cdt_name : M St (option (list ascii)) :=
  more ← anyComma_lp;
  if negb more then mret None
  else
    tfname ← lpm GetDelimitedString;
    more ← anyComma_lp;
    mret (if more : bool then Some tfname else None).

Definition dirSAVECDTBasic (cdtname : list ascii) : M St unit :=
  tfname ← cdt_name;
  match (tfname : option (list ascii)) with
  | None => Error_lp cdt_args_basic SUPPRESS
  | Some tfname =>
      '(ok, args) ← getIntArguments true [(0, false); (0, false)];
      match ok, args with
      | true, [start; length] =>
          if cdt_region start length then SaveCDT_BASIC cdtname tfname start length
          else Error_lp cdt_args_basic SUPPRESS
      | _, _ => Error_lp cdt_args_basic SUPPRESS
      end
  end.

Definition dirSAVECDTCode (cdtname : list ascii) : M St unit :=
  tfname ← cdt_name;
  match (tfname : option (list ascii)) with
  | None => Error_lp cdt_args_code SUPPRESS
  | Some tfname =>
      '(ok, args) ← getIntArguments true [(0, false); (0, false); (-1, true)];
      match ok, args with
      | true, [start; length; customStart] =>
          if cdt_region start length then SaveCDT_Code cdtname tfname start length customStart
          else Error_lp cdt_args_code SUPPRESS
      | _, _ => Error_lp cdt_args_code SUPPRESS
      end
  end.

Definition dirSAVECDTHeadless (cdtname : list ascii) : M St unit :=
  more ← anyComma_lp;
  if negb more then Error_lp cdt_args_headless SUPPRESS
  else
    '(ok, args) ← getIntArguments true [(0, false); (0, false); (BlockTypeData, true); (0, true)];
    match ok, args with
    | true, [start; length; sync; format] =>
        if negb (cdt_region start length) then Error_lp cdt_args_headless SUPPRESS
        else if format =? 0 then SaveCDT_Headless cdtname start length (u8 sync) AMSTRAD
        else if format =? 1 then SaveCDT_Headless cdtname start length (u8 sync) SPECTRUM
        else Error "[SAVECDT HEADLESS] invalid format flag. Expected 0 (AMSTRAD) or 1 (SPECTRUM)." None SUPPRESS
    | _, _ => Error_lp cdt_args_headless SUPPRESS
    end.

Definition cdtParseFnameAndExecuteCmd (command_fn : list ascii → M St unit) : M St unit :=
  cdtname ← GetOutputFileName_lp;
  if has_filename cdtname then command_fn cdtname
  else Error_bp "[SAVECDT] CDT file name is empty" SUPPRESS.

(** The first keyword found at the pointer selects the command. *)
Fixpoint select_command (commands : list (string * M St unit)) (otherwise : M St unit) : M St unit :=
  match commands with
  | [] => otherwise
  | (keyword, command) :: commands =>
      found ← cmphstr_lp keyword;
      if found : bool then command else select_command commands otherwise
  end.

Definition is_cpc (s : St) : bool :=
  match cur_device s with Some d => IsAmstradCPCDevice (dev_ID d) | None => false end.
Definition is_cpc_plus (s : St) : bool :=
  match cur_device s with Some d => IsAmstradPLUSDevice (dev_ID d) | None => false end.

Definition dirSAVECDT : M St unit :=
  s ← gets st;
  if negb (in_last_pass s) then SkipToEol_lp
  else if negb (is_cpc s) then
    Error "[SAVECDT] is allowed only in AMSTRADCPC464 or AMSTRADCPC6128 device mode" None SUPPRESS
  else
    _ ← SkipBlanks_lp;
    select_command
      [("full"%string, cdtParseFnameAndExecuteCmd dirSAVECDTFull);
       ("empty"%string, cdtParseFnameAndExecuteCmd dirSAVECDTEmpty);
       ("basic"%string, cdtParseFnameAndExecuteCmd dirSAVECDTBasic);
       ("code"%string, cdtParseFnameAndExecuteCmd dirSAVECDTCode);
       ("headless"%string, cdtParseFnameAndExecuteCmd dirSAVECDTHeadless)]
      (Error_lp "[SAVECDT] unknown command (commands: FULL, EMPTY, BASIC, CODE, HEADLESS)" SUPPRESS).

(** ** Cartridges *)

Definition dword_bytes (v : Z) : list Z :=
  [u8 v; u8 (Z.shiftr v 8); u8 (Z.shiftr v 16); u8 (Z.shiftr v 24)].

Definition cpr_page (d : CDevice) (page : Z) : M St (list Z) :=
  pg ← GetPage d page;
  mret ([code "c"; code "b"; code "0" + page / 10 mod 10; code "0" + page mod 10]
        ++ dword_bytes (pg_Size pg) ++ mem_bytes d (RAM pg) (pg_Size pg)).

Definition cpr_header (cprSize : Z) : list Z :=
  (code <$> str "RIFF") ++ dword_bytes ((4 + 4 + 0x4000) * cprSize + 4) ++ (code <$> str "AMS!").

Definition SaveCPR (fname : list ascii) (cprSize : Z) : M St bool :=
  if negb (writable fname) then
    Error "[SAVECPR] Error opening file for write" (Some fname) PASS3 ;; mret false
  else
    d ← the_device;
    pages ← fold_M (fun acc page => b ← cpr_page d page; mret (acc ++ b)) (upto cprSize) [];
    modify (put_file fname (cpr_header cprSize ++ pages)) ;;
    mret true.

Definition err_txt_size : string := "[SAVECPR] only a size from 1 (16KiB) to 32 (512KiB) is allowed".

(** The number of pages, all 32 by default. *)
Definition SAVECPR_size : M St (option Z) :=
  more ← anyComma_lp;
  if negb more then mret (Some 32)
  else
    eol ← SkipBlanks_lp;
    mwhen eol (Error err_txt_size None SUPPRESS) ;;
    '(ok, val) ← ParseExpression_lp;
    if negb ok then mret None
    else if (val <? 1) || (32 <? val) then Error err_txt_size None SUPPRESS ;; mret None
    else mret (Some val).

Definition dirSAVECPR : M St unit :=
  s ← gets st;
  if negb (in_last_pass s) then SkipToEol_lp
  else if negb (is_cpc_plus s) then
    Error "[SAVECPR] is allowed only in AMSTRADCPCPLUS device mode" None SUPPRESS
  else
    fnaam ← GetOutputFileName_lp;
    if negb (has_filename fnaam) then Error "[SAVECPR] CPR file name is empty" None SUPPRESS
    else
      size ← SAVECPR_size;
      match (size : option Z) with
      | None => mret tt
      | Some cprSize =>
          done ← SaveCPR fnaam cprSize;
          mwhen (negb done) (Error "[SAVECPR] Error writing file (Disk full?)" None IF_FIRST)
      end.
End cpc.
