(* ===== verification/Crc32c.v ===== *)
(** * CRC-32C (src/crc32c/crc32c.cpp)

    The checksum of the NEX files: the tables and the routine that takes twelve bytes
    at a time.  It computes the checksum that the polynomial defines bit by bit, and
    the checksum of the parts in turn is that of the whole. *)

From S2P Require Export Prelude.
From AAC_tactics Require Import AAC.

(** ** The code *)

Definition POLY : Z := 0x82f63b78.

(** [res = (res & 1) == 1 ? POLY ^ (res >> 1) : (res >> 1)] *)
Definition poly_round (res : Z) : Z :=
  if Z.land res 1 =? 1 then Z.lxor POLY (Z.shiftr res 1) else Z.shiftr res 1.

(** Eight rounds for each of [t] tables, from [res] on. *)
Fixpoint table_column (t : nat) (res : Z) : list Z :=
  match t with
  | O => []
  | S t => let res := Nat.iter 8 poly_round res in res :: table_column t res
  end.

(** [crc32_init]: the column of each byte. *)
Definition crc32_init : list (list Z) :=
  (fun i => table_column 16 (Z.of_nat i)) <$> seq 0 256.

Definition table (t : nat) (i : Z) : Z := nth t (nth (Z.to_nat i) crc32_init []) 0.

Definition crc_step (crc b : Z) : Z :=
  Z.lxor (table 0 (Z.land (Z.lxor crc b) 0xff)) (Z.shiftr crc 8).

(** A little endian 32-bit word. *)
Definition uint32_of (b0 b1 b2 b3 : Z) : Z :=
  Z.lor b0 (Z.lor (Z.shiftl b1 8) (Z.lor (Z.shiftl b2 16) (Z.shiftl b3 24))).

Definition crc_words (crc w0 high high2 : Z) : Z :=
  let crc := Z.lxor crc w0 in
  Z.lxor (table 11 (Z.land crc 0xff))
  (Z.lxor (table 10 (Z.land (Z.shiftr crc 8) 0xff))
  (Z.lxor (table 9 (Z.land (Z.shiftr crc 16) 0xff))
  (Z.lxor (table 8 (Z.shiftr crc 24))
  (Z.lxor (table 7 (Z.land high 0xff))
  (Z.lxor (table 6 (Z.land (Z.shiftr high 8) 0xff))
  (Z.lxor (table 5 (Z.land (Z.shiftr high 16) 0xff))
  (Z.lxor (table 4 (Z.shiftr high 24))
  (Z.lxor (table 3 (Z.land high2 0xff))
  (Z.lxor (table 2 (Z.land (Z.shiftr high2 8) 0xff))
  (Z.lxor (table 1 (Z.land (Z.shiftr high2 16) 0xff))
          (table 0 (Z.shiftr high2 24)))))))))))).

(** The bytes up to an address that is a multiple of four. *)
Fixpoint crc_align (next crc : Z) (input : list Z) : Z * list Z :=
  match input with
  | [] => (crc, [])
  | b :: rest =>
      if Z.land next 3 =? 0 then (crc, input) else crc_align (next + 1) (crc_step crc b) rest
  end.

(** Twelve bytes at a time. *)
Fixpoint crc_blocks (crc : Z) (input : list Z) : Z * list Z :=
  match input with
  | b0 :: b1 :: b2 :: b3 :: b4 :: b5 :: b6 :: b7 :: b8 :: b9 :: b10 :: b11 :: rest =>
      crc_blocks (crc_words crc (uint32_of b0 b1 b2 b3) (uint32_of b4 b5 b6 b7)
                    (uint32_of b8 b9 b10 b11)) rest
  | _ => (crc, input)
  end.

(** [next] is the address of the input. *)
Definition crc32c_append_sw (next crci : Z) (input : list Z) : Z :=
  let '(crc, input) := crc_align next (Z.lxor crci 0xffffffff) input in
  let '(crc, input) := crc_blocks crc input in
  Z.lxor (fold_left crc_step input crc) 0xffffffff.

(** ** The definition of the checksum *)

(** The register takes a byte in its low bits and is divided by the polynomial. *)
Definition crc_bits (crc b : Z) : Z := Nat.iter 8 poly_round (Z.lxor crc b).
Definition crc32c (crci : Z) (input : list Z) : Z :=
  Z.lxor (fold_left crc_bits input (Z.lxor crci 0xffffffff)) 0xffffffff.

(** ** Rounds are linear *)

#[local] Instance lxor_aac_assoc : Associative eq Z.lxor.
Proof. intros x y z. symmetry. apply Z.lxor_assoc. Qed.
#[local] Instance lxor_aac_comm : Commutative eq Z.lxor.
Proof. intros x y. apply Z.lxor_comm. Qed.
#[local] Instance lxor_aac_unit : Unit eq Z.lxor 0.
Proof. split; intros x; [apply Z.lxor_0_l | apply Z.lxor_0_r]. Qed.

#[local] Instance eq_aac_lift : @AAC_lift Z eq eq.
Proof. constructor. - apply _. - by intros ? ? -> ? ? ->. Qed.
#[local] Instance lxor_aac_proper : Proper (eq ==> eq ==> eq) Z.lxor.
Proof. by intros ? ? -> ? ? ->. Qed.

Lemma poly_round_eq x : poly_round x = Z.lxor (if Z.odd x then POLY else 0) (Z.shiftr x 1).
Proof.
  unfold poly_round. rewrite <- (Z.bit0_odd x).
  assert (E : Z.land x 1 = Z.b2z (Z.testbit x 0)).
  { change 1 with (Z.ones 1). rewrite Z.land_ones by done. rewrite Z.bit0_mod. done. }
  rewrite E. destruct (Z.testbit x 0); done.
Qed.

Lemma poly_round_lxor x y : poly_round (Z.lxor x y) = Z.lxor (poly_round x) (poly_round y).
Proof.
  rewrite !poly_round_eq, Z.shiftr_lxor, <- !Z.bit0_odd, Z.lxor_spec.
  destruct (Z.testbit x 0), (Z.testbit y 0); cbn [xorb]; try aac_reflexivity.
  transitivity (Z.lxor (Z.lxor POLY POLY) (Z.lxor (Z.shiftr x 1) (Z.shiftr y 1))); [|aac_reflexivity].
  by rewrite Z.lxor_nilpotent.
Qed.

Lemma poly_round_double x : poly_round (Z.shiftl x 1) = x.
Proof.
  rewrite poly_round_eq, Z.shiftr_shiftl_l by done.
  replace (Z.odd (Z.shiftl x 1)) with false.
  - by rewrite Z.lxor_0_l, Z.shiftl_0_r.
  - by rewrite Z.shiftl_mul_pow2, Z.mul_comm, Z.odd_mul.
Qed.

(** [n] bytes through the register. *)
Definition rounds (n : nat) (x : Z) : Z := Nat.iter (n * 8) poly_round x.

Lemma rounds_lxor n x y : rounds n (Z.lxor x y) = Z.lxor (rounds n x) (rounds n y).
Proof.
  unfold rounds. induction (n * 8)%nat as [|k IH]; [done|]. by rewrite !Nat.iter_succ, IH, poly_round_lxor.
Qed.

Lemma rounds_S n x : rounds (S n) x = rounds n (rounds 1 x).
Proof. unfold rounds. rewrite <- Nat.iter_add. f_equal. lia. Qed.

Lemma rounds_shift n x : rounds (S n) (Z.shiftl x 8) = rounds n x.
Proof.
  rewrite rounds_S. f_equal. unfold rounds. cbn [Nat.iter Nat.mul Nat.add nat_rect].
  replace (Z.shiftl x 8) with (Nat.iter 8 (fun y => Z.shiftl y 1) x)
    by (cbn [Nat.iter nat_rect]; rewrite !Z.shiftl_shiftl by done; done).
  cbn [Nat.iter nat_rect]. by rewrite !poly_round_double.
Qed.

Lemma rounds_add m n x : rounds (m + n) x = rounds m (rounds n x).
Proof. unfold rounds. rewrite <- Nat.iter_add. f_equal. lia. Qed.

(** ** The tables hold the rounds of the bytes *)

Lemma table_column_nth n t res : (t < n)%nat → nth t (table_column n res) 0 = rounds (S t) res.
Proof.
  revert t res. induction n as [|n IH]; intros t res Ht; [lia|].
  destruct t as [|t]; [done|].
  change (nth t (table_column n (rounds 1 res)) 0 = rounds (S (S t)) res).
  rewrite IH by lia. by rewrite (rounds_S (S t)).
Qed.

Lemma table_rounds t i : (t < 16)%nat → is_byte i → table t i = rounds (S t) i.
Proof.
  intros Ht [Hi1 Hi2]. unfold table, crc32_init.
  rewrite (nth_lookup_Some _ _ _ (table_column 16 i)); [by apply table_column_nth|].
  rewrite list_lookup_fmap, lookup_seq_lt by lia. cbn [fmap option_fmap option_map]. f_equal. f_equal. lia.
Qed.

(** ** Words and bytes *)

Lemma byte_shift_disjoint b x : is_byte b → Z.land b (Z.shiftl x 8) = 0.
Proof.
  intros [H1 H2]. apply Z.bits_inj'. intros n Hn. rewrite Z.land_spec, Z.bits_0, Z.shiftl_spec by done.
  destruct (Z.ltb_spec n 8) as [L|L]; [by rewrite (Z.testbit_neg_r x) by lia; rewrite andb_false_r|].
  rewrite <- (Z.mod_small b (2 ^ 8)) by (change (2 ^ 8) with 256; lia).
  by rewrite Z.mod_pow2_bits_high by lia.
Qed.

Lemma split_byte x : x = Z.lxor (Z.land x 0xff) (Z.shiftl (Z.shiftr x 8) 8).
Proof.
  rewrite Z.lxor_lor by apply byte_shift_disjoint, land255_byte.
  change 0xff with (Z.ones 8).
  rewrite Z.land_ones, <- Z.ldiff_ones_r, <- Z.land_ones by done.
  apply Z.bits_inj'. intros n Hn. rewrite Z.lor_spec, Z.ldiff_spec, Z.land_spec.
  by destruct (Z.testbit x n), (Z.testbit (Z.ones 8) n).
Qed.

Lemma rounds_split n x :
  rounds (S n) x = Z.lxor (rounds (S n) (Z.land x 0xff)) (rounds n (Z.shiftr x 8)).
Proof. rewrite (split_byte x) at 1. by rewrite rounds_lxor, rounds_shift. Qed.

(** A 32-bit word through the register, by the tables. *)
Lemma rounds_word n w : 0 <= w < 2 ^ 32 → (S (S (S (S n))) <= 16)%nat →
  rounds (S (S (S (S n)))) w =
  Z.lxor (table (S (S (S n))) (Z.land w 0xff))
  (Z.lxor (table (S (S n)) (Z.land (Z.shiftr w 8) 0xff))
  (Z.lxor (table (S n) (Z.land (Z.shiftr w 16) 0xff)) (table n (Z.shiftr w 24)))).
Proof.
  intros Hw Hn.
  assert (H24 : is_byte (Z.shiftr w 24)).
  { split; [apply Z.shiftr_nonneg; lia|]. rewrite Z.shiftr_div_pow2 by done. apply Z.div_lt_upper_bound; lia. }
  rewrite rounds_split, (rounds_split _ (Z.shiftr w 8)), (rounds_split _ (Z.shiftr (Z.shiftr w 8) 8)).
  rewrite !Z.shiftr_shiftr by done.
  by rewrite !table_rounds by (first [lia | apply land255_byte | done]).
Qed.

Lemma uint32_of_nested b0 b1 b2 b3 : is_byte b0 → is_byte b1 → is_byte b2 → is_byte b3 →
  uint32_of b0 b1 b2 b3 = Z.lxor b0 (Z.shiftl (Z.lxor b1 (Z.shiftl (Z.lxor b2 (Z.shiftl b3 8)) 8)) 8).
Proof.
  intros. rewrite !Z.lxor_lor by (by apply byte_shift_disjoint).
  unfold uint32_of. by rewrite !Z.shiftl_lor, !Z.shiftl_shiftl by done.
Qed.

Lemma u32_masked a : 0 <= a < 2 ^ 32 ↔ Z.land a (Z.ones 32) = a.
Proof.
  rewrite Z.land_ones by done. split; [apply Z.mod_small|].
  intros <-. by apply Z.mod_pos_bound.
Qed.

Lemma u32_lxor a b : 0 <= a < 2 ^ 32 → 0 <= b < 2 ^ 32 → 0 <= Z.lxor a b < 2 ^ 32.
Proof.
  rewrite !u32_masked. intros Ha Hb. rewrite <- Ha at 2. rewrite <- Hb at 2.
  apply Z.bits_inj'. intros n Hn. rewrite !Z.land_spec, !Z.lxor_spec, !Z.land_spec.
  by destruct (Z.testbit a n), (Z.testbit b n), (Z.testbit (Z.ones 32) n).
Qed.

Lemma u32_shifted b k : is_byte b → 0 <= k <= 24 → 0 <= Z.shiftl b k < 2 ^ 32.
Proof.
  intros [Hb1 Hb2] Hk. rewrite Z.shiftl_mul_pow2 by lia.
  pose proof (Z.pow_le_mono_r 2 k 24 ltac:(lia) ltac:(lia)). pose proof (Z.pow_pos_nonneg 2 k). nia.
Qed.

Lemma uint32_of_range b0 b1 b2 b3 : is_byte b0 → is_byte b1 → is_byte b2 → is_byte b3 →
  0 <= uint32_of b0 b1 b2 b3 < 2 ^ 32.
Proof.
  intros. rewrite uint32_of_nested by done.
  rewrite !Z.shiftl_lxor, !Z.shiftl_shiftl by done.
  repeat apply u32_lxor; try (by apply u32_shifted). unfold is_byte in *. lia.
Qed.

(** ** Four and twelve bytes *)

Lemma crc_bits_rounds c b : crc_bits c b = rounds 1 (Z.lxor c b).
Proof. done. Qed.

#[local] Opaque crc_bits rounds.

Lemma rounds_byte c b n x :
  rounds (S n) (Z.lxor c (Z.lxor b (Z.shiftl x 8))) = rounds n (Z.lxor (crc_bits c b) x).
Proof.
  rewrite crc_bits_rounds, <- Z.lxor_assoc, rounds_S, (rounds_lxor 1 _ (Z.shiftl x 8)), rounds_shift.
  done.
Qed.

Lemma fold_word c b0 b1 b2 b3 : is_byte b0 → is_byte b1 → is_byte b2 → is_byte b3 →
  fold_left crc_bits [b0; b1; b2; b3] c = rounds 4 (Z.lxor c (uint32_of b0 b1 b2 b3)).
Proof. intros. rewrite uint32_of_nested by done. rewrite !rounds_byte. cbn [fold_left]. by rewrite <- crc_bits_rounds. Qed.

Lemma crc_words_bits c b0 b1 b2 b3 b4 b5 b6 b7 b8 b9 b10 b11 :
  0 <= c < 2 ^ 32 → Forall is_byte [b0; b1; b2; b3; b4; b5; b6; b7; b8; b9; b10; b11] →
  crc_words c (uint32_of b0 b1 b2 b3) (uint32_of b4 b5 b6 b7) (uint32_of b8 b9 b10 b11)
  = fold_left crc_bits [b0; b1; b2; b3; b4; b5; b6; b7; b8; b9; b10; b11] c.
Proof.
  intros Hc H. rewrite !Forall_cons in H.
  destruct H as (?&?&?&?&?&?&?&?&?&?&?&?&_).
  change [b0; b1; b2; b3; b4; b5; b6; b7; b8; b9; b10; b11]
    with ([b0; b1; b2; b3] ++ [b4; b5; b6; b7] ++ [b8; b9; b10; b11]).
  rewrite !fold_left_app.
  rewrite !fold_word by done. rewrite !rounds_lxor, <- !rounds_add, <- rounds_lxor.
  pose proof (u32_lxor c (uint32_of b0 b1 b2 b3) Hc ltac:(by apply uint32_of_range)).
  unfold crc_words.
  rewrite (rounds_word 8), (rounds_word 4), (rounds_word 0) by first [done | lia | by apply uint32_of_range].
  by rewrite !Z.lxor_assoc.
Qed.

(** ** The three loops *)

Lemma poly_round_range c : 0 <= c < 2 ^ 32 → 0 <= poly_round c < 2 ^ 32.
Proof.
  intros Hc. rewrite poly_round_eq. apply u32_lxor; [by destruct (Z.odd c)|].
  rewrite Z.shiftr_div_pow2 by done. change (2 ^ 1) with 2.
  split; [apply Z.div_pos | apply Z.div_lt_upper_bound]; lia.
Qed.

Lemma crc_bits_range c b : 0 <= c < 2 ^ 32 → is_byte b → 0 <= crc_bits c b < 2 ^ 32.
Proof.
  intros Hc Hb. with_strategy transparent [crc_bits] unfold crc_bits.
  apply Nat.iter_invariant; [apply poly_round_range|].
  apply u32_lxor; [done|]. unfold is_byte in Hb. lia.
Qed.

Lemma fold_crc_range l c : 0 <= c < 2 ^ 32 → Forall is_byte l → 0 <= fold_left crc_bits l c < 2 ^ 32.
Proof.
  intros Hc Hl. revert c Hc. induction Hl as [|b l Hb _ IH]; intros c Hc; [done|].
  by apply IH, crc_bits_range.
Qed.

Lemma crc_step_bits c b : is_byte b → crc_step c b = crc_bits c b.
Proof.
  intros Hb. unfold crc_step. rewrite crc_bits_rounds, rounds_split, Z.shiftr_lxor.
  rewrite table_rounds by first [lia | apply land255_byte].
  f_equal. rewrite (Z.shiftr_div_pow2 b) by done. unfold is_byte in Hb.
  by rewrite (Z.div_small b), Z.lxor_0_r by (change (2 ^ 8) with 256; lia).
Qed.

Lemma crc_align_bits input : ∀ next c c' rest, Forall is_byte input →
  crc_align next c input = (c', rest) →
  fold_left crc_bits input c = fold_left crc_bits rest c' ∧ Forall is_byte rest ∧
  (0 <= c < 2 ^ 32 → 0 <= c' < 2 ^ 32).
Proof.
  induction input as [|b l IH]; intros next c c' rest Hl E; cbn [crc_align] in E; [by simplify_eq|].
  case_match; [by simplify_eq|]. apply Forall_cons in Hl as [Hb Hl].
  rewrite crc_step_bits in E by done. cbn [fold_left].
  destruct (IH _ _ _ _ Hl E) as (-> & ? & Hr).
  split; [done|]. split; [done|]. intros. by apply Hr, crc_bits_range.
Qed.

Lemma crc_blocks_bits n : ∀ input c c' rest, (length input <= n)%nat → Forall is_byte input →
  0 <= c < 2 ^ 32 → crc_blocks c input = (c', rest) →
  fold_left crc_bits input c = fold_left crc_bits rest c' ∧ Forall is_byte rest.
Proof.
  induction n as [|n IH]; intros l c c' rest Hn Hl Hc E; [by destruct l; [simplify_eq/=|cbn in Hn; lia]|].
  destruct l as [|b0[|b1[|b2[|b3[|b4[|b5[|b6[|b7[|b8[|b9[|b10[|b11 l]]]]]]]]]]]];
    cbn [crc_blocks] in E; try by simplify_eq.
  set (block := [b0; b1; b2; b3; b4; b5; b6; b7; b8; b9; b10; b11]) in *.
  change (Forall is_byte (block ++ l)) in Hl. apply Forall_app in Hl as [Hb Hl].
  rewrite crc_words_bits in E by done.
  apply IH in E; [|cbn in Hn; lia|done|by apply fold_crc_range].
  destruct E as [E ?]. split; [|done].
  rewrite <- E. change (fold_left crc_bits (block ++ l) c = fold_left crc_bits l (fold_left crc_bits block c)).
  apply fold_left_app.
Qed.

Lemma fold_crc_step l c : Forall is_byte l → fold_left crc_step l c = fold_left crc_bits l c.
Proof.
  intros Hl. revert c. induction Hl as [|b l Hb _ IH]; intros c; [done|].
  cbn [fold_left]. by rewrite crc_step_bits, IH.
Qed.

Lemma crc32c_append_sw_eq next crci input : 0 <= crci < 2 ^ 32 → Forall is_byte input →
  crc32c_append_sw next crci input = crc32c crci input.
Proof.
  intros Hc Hi. unfold crc32c_append_sw, crc32c.
  pose proof (u32_lxor crci 0xffffffff Hc ltac:(done)) as Hc1.
  destruct (crc_align next _ input) as [c1 l1] eqn:E1.
  destruct (crc_align_bits _ _ _ _ _ Hi E1) as (-> & Hl1 & Hr1).
  destruct (crc_blocks c1 l1) as [c2 l2] eqn:E2.
  destruct (crc_blocks_bits _ _ _ _ _ (le_n _) Hl1 (Hr1 Hc1) E2) as (-> & Hl2).
  by rewrite fold_crc_step.
Qed.

(** C21: The routine that takes twelve bytes at a time through sixteen tables, from
    any alignment of the buffer, computes the CRC-32C that the polynomial defines bit
    by bit. *)
Theorem crc32c_append_sw_bitwise next crci input :
  0 <= crci < 2 ^ 32 → Forall is_byte input →
  crc32c_append_sw next crci input = crc32c crci input.
Proof. apply crc32c_append_sw_eq. Qed.

Lemma crc32c_range crci l : 0 <= crci < 2 ^ 32 → Forall is_byte l → 0 <= crc32c crci l < 2 ^ 32.
Proof. intros Hc Hl. apply u32_lxor; [|done]. apply fold_crc_range; [|done]. by apply u32_lxor. Qed.
Lemma crc32c_parts crci a b : crc32c (crc32c crci a) b = crc32c crci (a ++ b).
Proof.
  unfold crc32c. rewrite fold_left_app. by rewrite Z.lxor_assoc, Z.lxor_nilpotent, Z.lxor_0_r.
Qed.

(** C22: The checksum of a file read in parts, each with the result of the one
    before, is that of the whole, wherever the buffers are. *)
Theorem crc32c_append_sw_parts n1 n2 n3 crci a b :
  0 <= crci < 2 ^ 32 → Forall is_byte a → Forall is_byte b →
  crc32c_append_sw n2 (crc32c_append_sw n1 crci a) b = crc32c_append_sw n3 crci (a ++ b).
Proof.
  intros Hc Ha Hb. rewrite (crc32c_append_sw_eq n1) by done.
  rewrite !crc32c_append_sw_eq by (done || by (apply Forall_app || apply crc32c_range)).
  apply crc32c_parts.
Qed.

Definition check_string : list Z := code <$> str "The quick brown fox jumps over the lazy dog".

(** The check values of the published algorithm. *)
Example crc32c_123456789 : crc32c 0 (code <$> str "123456789") = 0xE3069283.
Proof. by vm_compute. Qed.

Lemma crc32c_append_sw_bitwise_witness :
  crc32c_append_sw 2 0 check_string = crc32c 0 check_string ∧ crc32c 0 check_string = 0x22620404.
Proof.
  split; [|by vm_compute].
  apply crc32c_append_sw_bitwise; [done|]. apply (bool_decide_unpack _). by vm_compute.
Defined.

Lemma crc32c_append_sw_parts_witness :
  crc32c_append_sw 1 (crc32c_append_sw 3 0 check_string) check_string
  = crc32c_append_sw 0 0 (check_string ++ check_string).
Proof.
  apply crc32c_append_sw_parts; [done|..]; apply (bool_decide_unpack _); by vm_compute.
Defined.
