(* ===== verification/NexFile.v ===== *)
(** * NEX files: the header and the file being written (io_nex.cpp)

    The one NEX file that is open at a time: its header, the palette and the copper
    code kept for it, the banks in their order, the end of the file with the version
    and the checksum. *)

From S2P Require Export Cpc Crc32c.

(** ** Field updates *)

Definition set_nh_version (v : Z) (h : SNexHeader) : SNexHeader :=
  {| nh_version := v; nh_ramReq := nh_ramReq h; nh_numBanks := nh_numBanks h; nh_screen := nh_screen h; nh_border := nh_border h; nh_sp := nh_sp h; nh_pc := nh_pc h; nh_banks := nh_banks h; nh_loadbar := nh_loadbar h; nh_loadbarColour := nh_loadbarColour h; nh_loadDelay := nh_loadDelay h; nh_startDelay := nh_startDelay h; nh_preserveNextRegs := nh_preserveNextRegs h; nh_coreVersion := nh_coreVersion h; nh_hiResColour := nh_hiResColour h; nh_entryBank := nh_entryBank h; nh_fileHandleCfg := nh_fileHandleCfg h; nh_expBusDisable := nh_expBusDisable h; nh_hasChecksum := nh_hasChecksum h; nh_banksOffset := nh_banksOffset h; nh_cliBuffer := nh_cliBuffer h; nh_cliBufferSize := nh_cliBufferSize h; nh_screen2 := nh_screen2 h; nh_hasCopperCode := nh_hasCopperCode h; nh_tilesScrConfig := nh_tilesScrConfig h; nh_bigL2barPosY := nh_bigL2barPosY h; nh_crc32c := nh_crc32c h |}.
Definition set_nh_ramReq (v : Z) (h : SNexHeader) : SNexHeader :=
  {| nh_version := nh_version h; nh_ramReq := v; nh_numBanks := nh_numBanks h; nh_screen := nh_screen h; nh_border := nh_border h; nh_sp := nh_sp h; nh_pc := nh_pc h; nh_banks := nh_banks h; nh_loadbar := nh_loadbar h; nh_loadbarColour := nh_loadbarColour h; nh_loadDelay := nh_loadDelay h; nh_startDelay := nh_startDelay h; nh_preserveNextRegs := nh_preserveNextRegs h; nh_coreVersion := nh_coreVersion h; nh_hiResColour := nh_hiResColour h; nh_entryBank := nh_entryBank h; nh_fileHandleCfg := nh_fileHandleCfg h; nh_expBusDisable := nh_expBusDisable h; nh_hasChecksum := nh_hasChecksum h; nh_banksOffset := nh_banksOffset h; nh_cliBuffer := nh_cliBuffer h; nh_cliBufferSize := nh_cliBufferSize h; nh_screen2 := nh_screen2 h; nh_hasCopperCode := nh_hasCopperCode h; nh_tilesScrConfig := nh_tilesScrConfig h; nh_bigL2barPosY := nh_bigL2barPosY h; nh_crc32c := nh_crc32c h |}.
Definition set_nh_numBanks (v : Z) (h : SNexHeader) : SNexHeader :=
  {| nh_version := nh_version h; nh_ramReq := nh_ramReq h; nh_numBanks := v; nh_screen := nh_screen h; nh_border := nh_border h; nh_sp := nh_sp h; nh_pc := nh_pc h; nh_banks := nh_banks h; nh_loadbar := nh_loadbar h; nh_loadbarColour := nh_loadbarColour h; nh_loadDelay := nh_loadDelay h; nh_startDelay := nh_startDelay h; nh_preserveNextRegs := nh_preserveNextRegs h; nh_coreVersion := nh_coreVersion h; nh_hiResColour := nh_hiResColour h; nh_entryBank := nh_entryBank h; nh_fileHandleCfg := nh_fileHandleCfg h; nh_expBusDisable := nh_expBusDisable h; nh_hasChecksum := nh_hasChecksum h; nh_banksOffset := nh_banksOffset h; nh_cliBuffer := nh_cliBuffer h; nh_cliBufferSize := nh_cliBufferSize h; nh_screen2 := nh_screen2 h; nh_hasCopperCode := nh_hasCopperCode h; nh_tilesScrConfig := nh_tilesScrConfig h; nh_bigL2barPosY := nh_bigL2barPosY h; nh_crc32c := nh_crc32c h |}.
Definition set_nh_screen (v : Z) (h : SNexHeader) : SNexHeader :=
  {| nh_version := nh_version h; nh_ramReq := nh_ramReq h; nh_numBanks := nh_numBanks h; nh_screen := v; nh_border := nh_border h; nh_sp := nh_sp h; nh_pc := nh_pc h; nh_banks := nh_banks h; nh_loadbar := nh_loadbar h; nh_loadbarColour := nh_loadbarColour h; nh_loadDelay := nh_loadDelay h; nh_startDelay := nh_startDelay h; nh_preserveNextRegs := nh_preserveNextRegs h; nh_coreVersion := nh_coreVersion h; nh_hiResColour := nh_hiResColour h; nh_entryBank := nh_entryBank h; nh_fileHandleCfg := nh_fileHandleCfg h; nh_expBusDisable := nh_expBusDisable h; nh_hasChecksum := nh_hasChecksum h; nh_banksOffset := nh_banksOffset h; nh_cliBuffer := nh_cliBuffer h; nh_cliBufferSize := nh_cliBufferSize h; nh_screen2 := nh_screen2 h; nh_hasCopperCode := nh_hasCopperCode h; nh_tilesScrConfig := nh_tilesScrConfig h; nh_bigL2barPosY := nh_bigL2barPosY h; nh_crc32c := nh_crc32c h |}.
Definition set_nh_border (v : Z) (h : SNexHeader) : SNexHeader :=
  {| nh_version := nh_version h; nh_ramReq := nh_ramReq h; nh_numBanks := nh_numBanks h; nh_screen := nh_screen h; nh_border := v; nh_sp := nh_sp h; nh_pc := nh_pc h; nh_banks := nh_banks h; nh_loadbar := nh_loadbar h; nh_loadbarColour := nh_loadbarColour h; nh_loadDelay := nh_loadDelay h; nh_startDelay := nh_startDelay h; nh_preserveNextRegs := nh_preserveNextRegs h; nh_coreVersion := nh_coreVersion h; nh_hiResColour := nh_hiResColour h; nh_entryBank := nh_entryBank h; nh_fileHandleCfg := nh_fileHandleCfg h; nh_expBusDisable := nh_expBusDisable h; nh_hasChecksum := nh_hasChecksum h; nh_banksOffset := nh_banksOffset h; nh_cliBuffer := nh_cliBuffer h; nh_cliBufferSize := nh_cliBufferSize h; nh_screen2 := nh_screen2 h; nh_hasCopperCode := nh_hasCopperCode h; nh_tilesScrConfig := nh_tilesScrConfig h; nh_bigL2barPosY := nh_bigL2barPosY h; nh_crc32c := nh_crc32c h |}.
Definition set_nh_sp (v : Z) (h : SNexHeader) : SNexHeader :=
  {| nh_version := nh_version h; nh_ramReq := nh_ramReq h; nh_numBanks := nh_numBanks h; nh_screen := nh_screen h; nh_border := nh_border h; nh_sp := v; nh_pc := nh_pc h; nh_banks := nh_banks h; nh_loadbar := nh_loadbar h; nh_loadbarColour := nh_loadbarColour h; nh_loadDelay := nh_loadDelay h; nh_startDelay := nh_startDelay h; nh_preserveNextRegs := nh_preserveNextRegs h; nh_coreVersion := nh_coreVersion h; nh_hiResColour := nh_hiResColour h; nh_entryBank := nh_entryBank h; nh_fileHandleCfg := nh_fileHandleCfg h; nh_expBusDisable := nh_expBusDisable h; nh_hasChecksum := nh_hasChecksum h; nh_banksOffset := nh_banksOffset h; nh_cliBuffer := nh_cliBuffer h; nh_cliBufferSize := nh_cliBufferSize h; nh_screen2 := nh_screen2 h; nh_hasCopperCode := nh_hasCopperCode h; nh_tilesScrConfig := nh_tilesScrConfig h; nh_bigL2barPosY := nh_bigL2barPosY h; nh_crc32c := nh_crc32c h |}.
Definition set_nh_pc (v : Z) (h : SNexHeader) : SNexHeader :=
  {| nh_version := nh_version h; nh_ramReq := nh_ramReq h; nh_numBanks := nh_numBanks h; nh_screen := nh_screen h; nh_border := nh_border h; nh_sp := nh_sp h; nh_pc := v; nh_banks := nh_banks h; nh_loadbar := nh_loadbar h; nh_loadbarColour := nh_loadbarColour h; nh_loadDelay := nh_loadDelay h; nh_startDelay := nh_startDelay h; nh_preserveNextRegs := nh_preserveNextRegs h; nh_coreVersion := nh_coreVersion h; nh_hiResColour := nh_hiResColour h; nh_entryBank := nh_entryBank h; nh_fileHandleCfg := nh_fileHandleCfg h; nh_expBusDisable := nh_expBusDisable h; nh_hasChecksum := nh_hasChecksum h; nh_banksOffset := nh_banksOffset h; nh_cliBuffer := nh_cliBuffer h; nh_cliBufferSize := nh_cliBufferSize h; nh_screen2 := nh_screen2 h; nh_hasCopperCode := nh_hasCopperCode h; nh_tilesScrConfig := nh_tilesScrConfig h; nh_bigL2barPosY := nh_bigL2barPosY h; nh_crc32c := nh_crc32c h |}.
Definition set_nh_banks (v : list Z) (h : SNexHeader) : SNexHeader :=
  {| nh_version := nh_version h; nh_ramReq := nh_ramReq h; nh_numBanks := nh_numBanks h; nh_screen := nh_screen h; nh_border := nh_border h; nh_sp := nh_sp h; nh_pc := nh_pc h; nh_banks := v; nh_loadbar := nh_loadbar h; nh_loadbarColour := nh_loadbarColour h; nh_loadDelay := nh_loadDelay h; nh_startDelay := nh_startDelay h; nh_preserveNextRegs := nh_preserveNextRegs h; nh_coreVersion := nh_coreVersion h; nh_hiResColour := nh_hiResColour h; nh_entryBank := nh_entryBank h; nh_fileHandleCfg := nh_fileHandleCfg h; nh_expBusDisable := nh_expBusDisable h; nh_hasChecksum := nh_hasChecksum h; nh_banksOffset := nh_banksOffset h; nh_cliBuffer := nh_cliBuffer h; nh_cliBufferSize := nh_cliBufferSize h; nh_screen2 := nh_screen2 h; nh_hasCopperCode := nh_hasCopperCode h; nh_tilesScrConfig := nh_tilesScrConfig h; nh_bigL2barPosY := nh_bigL2barPosY h; nh_crc32c := nh_crc32c h |}.
Definition set_nh_loadbar (v : Z) (h : SNexHeader) : SNexHeader :=
  {| nh_version := nh_version h; nh_ramReq := nh_ramReq h; nh_numBanks := nh_numBanks h; nh_screen := nh_screen h; nh_border := nh_border h; nh_sp := nh_sp h; nh_pc := nh_pc h; nh_banks := nh_banks h; nh_loadbar := v; nh_loadbarColour := nh_loadbarColour h; nh_loadDelay := nh_loadDelay h; nh_startDelay := nh_startDelay h; nh_preserveNextRegs := nh_preserveNextRegs h; nh_coreVersion := nh_coreVersion h; nh_hiResColour := nh_hiResColour h; nh_entryBank := nh_entryBank h; nh_fileHandleCfg := nh_fileHandleCfg h; nh_expBusDisable := nh_expBusDisable h; nh_hasChecksum := nh_hasChecksum h; nh_banksOffset := nh_banksOffset h; nh_cliBuffer := nh_cliBuffer h; nh_cliBufferSize := nh_cliBufferSize h; nh_screen2 := nh_screen2 h; nh_hasCopperCode := nh_hasCopperCode h; nh_tilesScrConfig := nh_tilesScrConfig h; nh_bigL2barPosY := nh_bigL2barPosY h; nh_crc32c := nh_crc32c h |}.
Definition set_nh_loadbarColour (v : Z) (h : SNexHeader) : SNexHeader :=
  {| nh_version := nh_version h; nh_ramReq := nh_ramReq h; nh_numBanks := nh_numBanks h; nh_screen := nh_screen h; nh_border := nh_border h; nh_sp := nh_sp h; nh_pc := nh_pc h; nh_banks := nh_banks h; nh_loadbar := nh_loadbar h; nh_loadbarColour := v; nh_loadDelay := nh_loadDelay h; nh_startDelay := nh_startDelay h; nh_preserveNextRegs := nh_preserveNextRegs h; nh_coreVersion := nh_coreVersion h; nh_hiResColour := nh_hiResColour h; nh_entryBank := nh_entryBank h; nh_fileHandleCfg := nh_fileHandleCfg h; nh_expBusDisable := nh_expBusDisable h; nh_hasChecksum := nh_hasChecksum h; nh_banksOffset := nh_banksOffset h; nh_cliBuffer := nh_cliBuffer h; nh_cliBufferSize := nh_cliBufferSize h; nh_screen2 := nh_screen2 h; nh_hasCopperCode := nh_hasCopperCode h; nh_tilesScrConfig := nh_tilesScrConfig h; nh_bigL2barPosY := nh_bigL2barPosY h; nh_crc32c := nh_crc32c h |}.
Definition set_nh_loadDelay (v : Z) (h : SNexHeader) : SNexHeader :=
  {| nh_version := nh_version h; nh_ramReq := nh_ramReq h; nh_numBanks := nh_numBanks h; nh_screen := nh_screen h; nh_border := nh_border h; nh_sp := nh_sp h; nh_pc := nh_pc h; nh_banks := nh_banks h; nh_loadbar := nh_loadbar h; nh_loadbarColour := nh_loadbarColour h; nh_loadDelay := v; nh_startDelay := nh_startDelay h; nh_preserveNextRegs := nh_preserveNextRegs h; nh_coreVersion := nh_coreVersion h; nh_hiResColour := nh_hiResColour h; nh_entryBank := nh_entryBank h; nh_fileHandleCfg := nh_fileHandleCfg h; nh_expBusDisable := nh_expBusDisable h; nh_hasChecksum := nh_hasChecksum h; nh_banksOffset := nh_banksOffset h; nh_cliBuffer := nh_cliBuffer h; nh_cliBufferSize := nh_cliBufferSize h; nh_screen2 := nh_screen2 h; nh_hasCopperCode := nh_hasCopperCode h; nh_tilesScrConfig := nh_tilesScrConfig h; nh_bigL2barPosY := nh_bigL2barPosY h; nh_crc32c := nh_crc32c h |}.
Definition set_nh_startDelay (v : Z) (h : SNexHeader) : SNexHeader :=
  {| nh_version := nh_version h; nh_ramReq := nh_ramReq h; nh_numBanks := nh_numBanks h; nh_screen := nh_screen h; nh_border := nh_border h; nh_sp := nh_sp h; nh_pc := nh_pc h; nh_banks := nh_banks h; nh_loadbar := nh_loadbar h; nh_loadbarColour := nh_loadbarColour h; nh_loadDelay := nh_loadDelay h; nh_startDelay := v; nh_preserveNextRegs := nh_preserveNextRegs h; nh_coreVersion := nh_coreVersion h; nh_hiResColour := nh_hiResColour h; nh_entryBank := nh_entryBank h; nh_fileHandleCfg := nh_fileHandleCfg h; nh_expBusDisable := nh_expBusDisable h; nh_hasChecksum := nh_hasChecksum h; nh_banksOffset := nh_banksOffset h; nh_cliBuffer := nh_cliBuffer h; nh_cliBufferSize := nh_cliBufferSize h; nh_screen2 := nh_screen2 h; nh_hasCopperCode := nh_hasCopperCode h; nh_tilesScrConfig := nh_tilesScrConfig h; nh_bigL2barPosY := nh_bigL2barPosY h; nh_crc32c := nh_crc32c h |}.
Definition set_nh_preserveNextRegs (v : Z) (h : SNexHeader) : SNexHeader :=
  {| nh_version := nh_version h; nh_ramReq := nh_ramReq h; nh_numBanks := nh_numBanks h; nh_screen := nh_screen h; nh_border := nh_border h; nh_sp := nh_sp h; nh_pc := nh_pc h; nh_banks := nh_banks h; nh_loadbar := nh_loadbar h; nh_loadbarColour := nh_loadbarColour h; nh_loadDelay := nh_loadDelay h; nh_startDelay := nh_startDelay h; nh_preserveNextRegs := v; nh_coreVersion := nh_coreVersion h; nh_hiResColour := nh_hiResColour h; nh_entryBank := nh_entryBank h; nh_fileHandleCfg := nh_fileHandleCfg h; nh_expBusDisable := nh_expBusDisable h; nh_hasChecksum := nh_hasChecksum h; nh_banksOffset := nh_banksOffset h; nh_cliBuffer := nh_cliBuffer h; nh_cliBufferSize := nh_cliBufferSize h; nh_screen2 := nh_screen2 h; nh_hasCopperCode := nh_hasCopperCode h; nh_tilesScrConfig := nh_tilesScrConfig h; nh_bigL2barPosY := nh_bigL2barPosY h; nh_crc32c := nh_crc32c h |}.
Definition set_nh_coreVersion (v : list Z) (h : SNexHeader) : SNexHeader :=
  {| nh_version := nh_version h; nh_ramReq := nh_ramReq h; nh_numBanks := nh_numBanks h; nh_screen := nh_screen h; nh_border := nh_border h; nh_sp := nh_sp h; nh_pc := nh_pc h; nh_banks := nh_banks h; nh_loadbar := nh_loadbar h; nh_loadbarColour := nh_loadbarColour h; nh_loadDelay := nh_loadDelay h; nh_startDelay := nh_startDelay h; nh_preserveNextRegs := nh_preserveNextRegs h; nh_coreVersion := v; nh_hiResColour := nh_hiResColour h; nh_entryBank := nh_entryBank h; nh_fileHandleCfg := nh_fileHandleCfg h; nh_expBusDisable := nh_expBusDisable h; nh_hasChecksum := nh_hasChecksum h; nh_banksOffset := nh_banksOffset h; nh_cliBuffer := nh_cliBuffer h; nh_cliBufferSize := nh_cliBufferSize h; nh_screen2 := nh_screen2 h; nh_hasCopperCode := nh_hasCopperCode h; nh_tilesScrConfig := nh_tilesScrConfig h; nh_bigL2barPosY := nh_bigL2barPosY h; nh_crc32c := nh_crc32c h |}.
Definition set_nh_hiResColour (v : Z) (h : SNexHeader) : SNexHeader :=
  {| nh_version := nh_version h; nh_ramReq := nh_ramReq h; nh_numBanks := nh_numBanks h; nh_screen := nh_screen h; nh_border := nh_border h; nh_sp := nh_sp h; nh_pc := nh_pc h; nh_banks := nh_banks h; nh_loadbar := nh_loadbar h; nh_loadbarColour := nh_loadbarColour h; nh_loadDelay := nh_loadDelay h; nh_startDelay := nh_startDelay h; nh_preserveNextRegs := nh_preserveNextRegs h; nh_coreVersion := nh_coreVersion h; nh_hiResColour := v; nh_entryBank := nh_entryBank h; nh_fileHandleCfg := nh_fileHandleCfg h; nh_expBusDisable := nh_expBusDisable h; nh_hasChecksum := nh_hasChecksum h; nh_banksOffset := nh_banksOffset h; nh_cliBuffer := nh_cliBuffer h; nh_cliBufferSize := nh_cliBufferSize h; nh_screen2 := nh_screen2 h; nh_hasCopperCode := nh_hasCopperCode h; nh_tilesScrConfig := nh_tilesScrConfig h; nh_bigL2barPosY := nh_bigL2barPosY h; nh_crc32c := nh_crc32c h |}.
Definition set_nh_entryBank (v : Z) (h : SNexHeader) : SNexHeader :=
  {| nh_version := nh_version h; nh_ramReq := nh_ramReq h; nh_numBanks := nh_numBanks h; nh_screen := nh_screen h; nh_border := nh_border h; nh_sp := nh_sp h; nh_pc := nh_pc h; nh_banks := nh_banks h; nh_loadbar := nh_loadbar h; nh_loadbarColour := nh_loadbarColour h; nh_loadDelay := nh_loadDelay h; nh_startDelay := nh_startDelay h; nh_preserveNextRegs := nh_preserveNextRegs h; nh_coreVersion := nh_coreVersion h; nh_hiResColour := nh_hiResColour h; nh_entryBank := v; nh_fileHandleCfg := nh_fileHandleCfg h; nh_expBusDisable := nh_expBusDisable h; nh_hasChecksum := nh_hasChecksum h; nh_banksOffset := nh_banksOffset h; nh_cliBuffer := nh_cliBuffer h; nh_cliBufferSize := nh_cliBufferSize h; nh_screen2 := nh_screen2 h; nh_hasCopperCode := nh_hasCopperCode h; nh_tilesScrConfig := nh_tilesScrConfig h; nh_bigL2barPosY := nh_bigL2barPosY h; nh_crc32c := nh_crc32c h |}.
Definition set_nh_fileHandleCfg (v : Z) (h : SNexHeader) : SNexHeader :=
  {| nh_version := nh_version h; nh_ramReq := nh_ramReq h; nh_numBanks := nh_numBanks h; nh_screen := nh_screen h; nh_border := nh_border h; nh_sp := nh_sp h; nh_pc := nh_pc h; nh_banks := nh_banks h; nh_loadbar := nh_loadbar h; nh_loadbarColour := nh_loadbarColour h; nh_loadDelay := nh_loadDelay h; nh_startDelay := nh_startDelay h; nh_preserveNextRegs := nh_preserveNextRegs h; nh_coreVersion := nh_coreVersion h; nh_hiResColour := nh_hiResColour h; nh_entryBank := nh_entryBank h; nh_fileHandleCfg := v; nh_expBusDisable := nh_expBusDisable h; nh_hasChecksum := nh_hasChecksum h; nh_banksOffset := nh_banksOffset h; nh_cliBuffer := nh_cliBuffer h; nh_cliBufferSize := nh_cliBufferSize h; nh_screen2 := nh_screen2 h; nh_hasCopperCode := nh_hasCopperCode h; nh_tilesScrConfig := nh_tilesScrConfig h; nh_bigL2barPosY := nh_bigL2barPosY h; nh_crc32c := nh_crc32c h |}.
Definition set_nh_expBusDisable (v : Z) (h : SNexHeader) : SNexHeader :=
  {| nh_version := nh_version h; nh_ramReq := nh_ramReq h; nh_numBanks := nh_numBanks h; nh_screen := nh_screen h; nh_border := nh_border h; nh_sp := nh_sp h; nh_pc := nh_pc h; nh_banks := nh_banks h; nh_loadbar := nh_loadbar h; nh_loadbarColour := nh_loadbarColour h; nh_loadDelay := nh_loadDelay h; nh_startDelay := nh_startDelay h; nh_preserveNextRegs := nh_preserveNextRegs h; nh_coreVersion := nh_coreVersion h; nh_hiResColour := nh_hiResColour h; nh_entryBank := nh_entryBank h; nh_fileHandleCfg := nh_fileHandleCfg h; nh_expBusDisable := v; nh_hasChecksum := nh_hasChecksum h; nh_banksOffset := nh_banksOffset h; nh_cliBuffer := nh_cliBuffer h; nh_cliBufferSize := nh_cliBufferSize h; nh_screen2 := nh_screen2 h; nh_hasCopperCode := nh_hasCopperCode h; nh_tilesScrConfig := nh_tilesScrConfig h; nh_bigL2barPosY := nh_bigL2barPosY h; nh_crc32c := nh_crc32c h |}.
Definition set_nh_hasChecksum (v : bool) (h : SNexHeader) : SNexHeader :=
  {| nh_version := nh_version h; nh_ramReq := nh_ramReq h; nh_numBanks := nh_numBanks h; nh_screen := nh_screen h; nh_border := nh_border h; nh_sp := nh_sp h; nh_pc := nh_pc h; nh_banks := nh_banks h; nh_loadbar := nh_loadbar h; nh_loadbarColour := nh_loadbarColour h; nh_loadDelay := nh_loadDelay h; nh_startDelay := nh_startDelay h; nh_preserveNextRegs := nh_preserveNextRegs h; nh_coreVersion := nh_coreVersion h; nh_hiResColour := nh_hiResColour h; nh_entryBank := nh_entryBank h; nh_fileHandleCfg := nh_fileHandleCfg h; nh_expBusDisable := nh_expBusDisable h; nh_hasChecksum := v; nh_banksOffset := nh_banksOffset h; nh_cliBuffer := nh_cliBuffer h; nh_cliBufferSize := nh_cliBufferSize h; nh_screen2 := nh_screen2 h; nh_hasCopperCode := nh_hasCopperCode h; nh_tilesScrConfig := nh_tilesScrConfig h; nh_bigL2barPosY := nh_bigL2barPosY h; nh_crc32c := nh_crc32c h |}.
Definition set_nh_banksOffset (v : Z) (h : SNexHeader) : SNexHeader :=
  {| nh_version := nh_version h; nh_ramReq := nh_ramReq h; nh_numBanks := nh_numBanks h; nh_screen := nh_screen h; nh_border := nh_border h; nh_sp := nh_sp h; nh_pc := nh_pc h; nh_banks := nh_banks h; nh_loadbar := nh_loadbar h; nh_loadbarColour := nh_loadbarColour h; nh_loadDelay := nh_loadDelay h; nh_startDelay := nh_startDelay h; nh_preserveNextRegs := nh_preserveNextRegs h; nh_coreVersion := nh_coreVersion h; nh_hiResColour := nh_hiResColour h; nh_entryBank := nh_entryBank h; nh_fileHandleCfg := nh_fileHandleCfg h; nh_expBusDisable := nh_expBusDisable h; nh_hasChecksum := nh_hasChecksum h; nh_banksOffset := v; nh_cliBuffer := nh_cliBuffer h; nh_cliBufferSize := nh_cliBufferSize h; nh_screen2 := nh_screen2 h; nh_hasCopperCode := nh_hasCopperCode h; nh_tilesScrConfig := nh_tilesScrConfig h; nh_bigL2barPosY := nh_bigL2barPosY h; nh_crc32c := nh_crc32c h |}.
Definition set_nh_cliBuffer (v : Z) (h : SNexHeader) : SNexHeader :=
  {| nh_version := nh_version h; nh_ramReq := nh_ramReq h; nh_numBanks := nh_numBanks h; nh_screen := nh_screen h; nh_border := nh_border h; nh_sp := nh_sp h; nh_pc := nh_pc h; nh_banks := nh_banks h; nh_loadbar := nh_loadbar h; nh_loadbarColour := nh_loadbarColour h; nh_loadDelay := nh_loadDelay h; nh_startDelay := nh_startDelay h; nh_preserveNextRegs := nh_preserveNextRegs h; nh_coreVersion := nh_coreVersion h; nh_hiResColour := nh_hiResColour h; nh_entryBank := nh_entryBank h; nh_fileHandleCfg := nh_fileHandleCfg h; nh_expBusDisable := nh_expBusDisable h; nh_hasChecksum := nh_hasChecksum h; nh_banksOffset := nh_banksOffset h; nh_cliBuffer := v; nh_cliBufferSize := nh_cliBufferSize h; nh_screen2 := nh_screen2 h; nh_hasCopperCode := nh_hasCopperCode h; nh_tilesScrConfig := nh_tilesScrConfig h; nh_bigL2barPosY := nh_bigL2barPosY h; nh_crc32c := nh_crc32c h |}.
Definition set_nh_cliBufferSize (v : Z) (h : SNexHeader) : SNexHeader :=
  {| nh_version := nh_version h; nh_ramReq := nh_ramReq h; nh_numBanks := nh_numBanks h; nh_screen := nh_screen h; nh_border := nh_border h; nh_sp := nh_sp h; nh_pc := nh_pc h; nh_banks := nh_banks h; nh_loadbar := nh_loadbar h; nh_loadbarColour := nh_loadbarColour h; nh_loadDelay := nh_loadDelay h; nh_startDelay := nh_startDelay h; nh_preserveNextRegs := nh_preserveNextRegs h; nh_coreVersion := nh_coreVersion h; nh_hiResColour := nh_hiResColour h; nh_entryBank := nh_entryBank h; nh_fileHandleCfg := nh_fileHandleCfg h; nh_expBusDisable := nh_expBusDisable h; nh_hasChecksum := nh_hasChecksum h; nh_banksOffset := nh_banksOffset h; nh_cliBuffer := nh_cliBuffer h; nh_cliBufferSize := v; nh_screen2 := nh_screen2 h; nh_hasCopperCode := nh_hasCopperCode h; nh_tilesScrConfig := nh_tilesScrConfig h; nh_bigL2barPosY := nh_bigL2barPosY h; nh_crc32c := nh_crc32c h |}.
Definition set_nh_screen2 (v : Z) (h : SNexHeader) : SNexHeader :=
  {| nh_version := nh_version h; nh_ramReq := nh_ramReq h; nh_numBanks := nh_numBanks h; nh_screen := nh_screen h; nh_border := nh_border h; nh_sp := nh_sp h; nh_pc := nh_pc h; nh_banks := nh_banks h; nh_loadbar := nh_loadbar h; nh_loadbarColour := nh_loadbarColour h; nh_loadDelay := nh_loadDelay h; nh_startDelay := nh_startDelay h; nh_preserveNextRegs := nh_preserveNextRegs h; nh_coreVersion := nh_coreVersion h; nh_hiResColour := nh_hiResColour h; nh_entryBank := nh_entryBank h; nh_fileHandleCfg := nh_fileHandleCfg h; nh_expBusDisable := nh_expBusDisable h; nh_hasChecksum := nh_hasChecksum h; nh_banksOffset := nh_banksOffset h; nh_cliBuffer := nh_cliBuffer h; nh_cliBufferSize := nh_cliBufferSize h; nh_screen2 := v; nh_hasCopperCode := nh_hasCopperCode h; nh_tilesScrConfig := nh_tilesScrConfig h; nh_bigL2barPosY := nh_bigL2barPosY h; nh_crc32c := nh_crc32c h |}.
Definition set_nh_hasCopperCode (v : Z) (h : SNexHeader) : SNexHeader :=
  {| nh_version := nh_version h; nh_ramReq := nh_ramReq h; nh_numBanks := nh_numBanks h; nh_screen := nh_screen h; nh_border := nh_border h; nh_sp := nh_sp h; nh_pc := nh_pc h; nh_banks := nh_banks h; nh_loadbar := nh_loadbar h; nh_loadbarColour := nh_loadbarColour h; nh_loadDelay := nh_loadDelay h; nh_startDelay := nh_startDelay h; nh_preserveNextRegs := nh_preserveNextRegs h; nh_coreVersion := nh_coreVersion h; nh_hiResColour := nh_hiResColour h; nh_entryBank := nh_entryBank h; nh_fileHandleCfg := nh_fileHandleCfg h; nh_expBusDisable := nh_expBusDisable h; nh_hasChecksum := nh_hasChecksum h; nh_banksOffset := nh_banksOffset h; nh_cliBuffer := nh_cliBuffer h; nh_cliBufferSize := nh_cliBufferSize h; nh_screen2 := nh_screen2 h; nh_hasCopperCode := v; nh_tilesScrConfig := nh_tilesScrConfig h; nh_bigL2barPosY := nh_bigL2barPosY h; nh_crc32c := nh_crc32c h |}.
Definition set_nh_tilesScrConfig (v : list Z) (h : SNexHeader) : SNexHeader :=
  {| nh_version := nh_version h; nh_ramReq := nh_ramReq h; nh_numBanks := nh_numBanks h; nh_screen := nh_screen h; nh_border := nh_border h; nh_sp := nh_sp h; nh_pc := nh_pc h; nh_banks := nh_banks h; nh_loadbar := nh_loadbar h; nh_loadbarColour := nh_loadbarColour h; nh_loadDelay := nh_loadDelay h; nh_startDelay := nh_startDelay h; nh_preserveNextRegs := nh_preserveNextRegs h; nh_coreVersion := nh_coreVersion h; nh_hiResColour := nh_hiResColour h; nh_entryBank := nh_entryBank h; nh_fileHandleCfg := nh_fileHandleCfg h; nh_expBusDisable := nh_expBusDisable h; nh_hasChecksum := nh_hasChecksum h; nh_banksOffset := nh_banksOffset h; nh_cliBuffer := nh_cliBuffer h; nh_cliBufferSize := nh_cliBufferSize h; nh_screen2 := nh_screen2 h; nh_hasCopperCode := nh_hasCopperCode h; nh_tilesScrConfig := v; nh_bigL2barPosY := nh_bigL2barPosY h; nh_crc32c := nh_crc32c h |}.
Definition set_nh_bigL2barPosY (v : Z) (h : SNexHeader) : SNexHeader :=
  {| nh_version := nh_version h; nh_ramReq := nh_ramReq h; nh_numBanks := nh_numBanks h; nh_screen := nh_screen h; nh_border := nh_border h; nh_sp := nh_sp h; nh_pc := nh_pc h; nh_banks := nh_banks h; nh_loadbar := nh_loadbar h; nh_loadbarColour := nh_loadbarColour h; nh_loadDelay := nh_loadDelay h; nh_startDelay := nh_startDelay h; nh_preserveNextRegs := nh_preserveNextRegs h; nh_coreVersion := nh_coreVersion h; nh_hiResColour := nh_hiResColour h; nh_entryBank := nh_entryBank h; nh_fileHandleCfg := nh_fileHandleCfg h; nh_expBusDisable := nh_expBusDisable h; nh_hasChecksum := nh_hasChecksum h; nh_banksOffset := nh_banksOffset h; nh_cliBuffer := nh_cliBuffer h; nh_cliBufferSize := nh_cliBufferSize h; nh_screen2 := nh_screen2 h; nh_hasCopperCode := nh_hasCopperCode h; nh_tilesScrConfig := nh_tilesScrConfig h; nh_bigL2barPosY := v; nh_crc32c := nh_crc32c h |}.
Definition set_nh_crc32c (v : Z) (h : SNexHeader) : SNexHeader :=
  {| nh_version := nh_version h; nh_ramReq := nh_ramReq h; nh_numBanks := nh_numBanks h; nh_screen := nh_screen h; nh_border := nh_border h; nh_sp := nh_sp h; nh_pc := nh_pc h; nh_banks := nh_banks h; nh_loadbar := nh_loadbar h; nh_loadbarColour := nh_loadbarColour h; nh_loadDelay := nh_loadDelay h; nh_startDelay := nh_startDelay h; nh_preserveNextRegs := nh_preserveNextRegs h; nh_coreVersion := nh_coreVersion h; nh_hiResColour := nh_hiResColour h; nh_entryBank := nh_entryBank h; nh_fileHandleCfg := nh_fileHandleCfg h; nh_expBusDisable := nh_expBusDisable h; nh_hasChecksum := nh_hasChecksum h; nh_banksOffset := nh_banksOffset h; nh_cliBuffer := nh_cliBuffer h; nh_cliBufferSize := nh_cliBufferSize h; nh_screen2 := nh_screen2 h; nh_hasCopperCode := nh_hasCopperCode h; nh_tilesScrConfig := nh_tilesScrConfig h; nh_bigL2barPosY := nh_bigL2barPosY h; nh_crc32c := v |}.
Definition set_nx_h (v : SNexHeader) (n : SNexFile) : SNexFile :=
  {| nx_h := v; reqFileVersion := reqFileVersion n; minFileVersion := minFileVersion n; nx_f := nx_f n; lastBankIndex := lastBankIndex n; nx_copper := nx_copper n; nx_palette := nx_palette n; palDefined := palDefined n; canAppend := canAppend n |}.
Definition set_reqFileVersion (v : Z) (n : SNexFile) : SNexFile :=
  {| nx_h := nx_h n; reqFileVersion := v; minFileVersion := minFileVersion n; nx_f := nx_f n; lastBankIndex := lastBankIndex n; nx_copper := nx_copper n; nx_palette := nx_palette n; palDefined := palDefined n; canAppend := canAppend n |}.
Definition set_minFileVersion (v : Z) (n : SNexFile) : SNexFile :=
  {| nx_h := nx_h n; reqFileVersion := reqFileVersion n; minFileVersion := v; nx_f := nx_f n; lastBankIndex := lastBankIndex n; nx_copper := nx_copper n; nx_palette := nx_palette n; palDefined := palDefined n; canAppend := canAppend n |}.
Definition set_nx_f (v : option (list ascii * list Z)) (n : SNexFile) : SNexFile :=
  {| nx_h := nx_h n; reqFileVersion := reqFileVersion n; minFileVersion := minFileVersion n; nx_f := v; lastBankIndex := lastBankIndex n; nx_copper := nx_copper n; nx_palette := nx_palette n; palDefined := palDefined n; canAppend := canAppend n |}.
Definition set_lastBankIndex (v : Z) (n : SNexFile) : SNexFile :=
  {| nx_h := nx_h n; reqFileVersion := reqFileVersion n; minFileVersion := minFileVersion n; nx_f := nx_f n; lastBankIndex := v; nx_copper := nx_copper n; nx_palette := nx_palette n; palDefined := palDefined n; canAppend := canAppend n |}.
Definition set_nx_copper (v : option (list Z)) (n : SNexFile) : SNexFile :=
  {| nx_h := nx_h n; reqFileVersion := reqFileVersion n; minFileVersion := minFileVersion n; nx_f := nx_f n; lastBankIndex := lastBankIndex n; nx_copper := v; nx_palette := nx_palette n; palDefined := palDefined n; canAppend := canAppend n |}.
Definition set_nx_palette (v : option (list Z)) (n : SNexFile) : SNexFile :=
  {| nx_h := nx_h n; reqFileVersion := reqFileVersion n; minFileVersion := minFileVersion n; nx_f := nx_f n; lastBankIndex := lastBankIndex n; nx_copper := nx_copper n; nx_palette := v; palDefined := palDefined n; canAppend := canAppend n |}.
Definition set_palDefined (v : bool) (n : SNexFile) : SNexFile :=
  {| nx_h := nx_h n; reqFileVersion := reqFileVersion n; minFileVersion := minFileVersion n; nx_f := nx_f n; lastBankIndex := lastBankIndex n; nx_copper := nx_copper n; nx_palette := nx_palette n; palDefined := v; canAppend := canAppend n |}.
Definition set_canAppend (v : bool) (n : SNexFile) : SNexFile :=
  {| nx_h := nx_h n; reqFileVersion := reqFileVersion n; minFileVersion := minFileVersion n; nx_f := nx_f n; lastBankIndex := lastBankIndex n; nx_copper := nx_copper n; nx_palette := nx_palette n; palDefined := palDefined n; canAppend := v |}.

(** The one instance, [nex]. *)
Definition get_nex : M St SNexFile := gets (fun s => nex (lin s)).
Definition on_nex (f : SNexFile → SNexFile) : M St unit := modify (fun s => set_nex (f (nex (lin s))) s).
Definition on_header (f : SNexHeader → SNexHeader) : M St unit := on_nex (fun n => set_nx_h (f (nx_h n)) n).

(** ** The header *)

Definition nexBankOrder : list Z := [5; 2; 0; 1; 3; 4; 6; 7].
Definition COPPER_SIZE : Z := 0x0800.
Definition PAL_SIZE : Z := 0x200.
Definition MAX_BANK : Z := 112.
Definition MAX_PAGE : Z := MAX_BANK * 2.
Definition SCR_LAYER2 : Z := 0x01.
Definition SCR_ULA : Z := 0x02.
Definition SCR_LORES : Z := 0x04.
Definition SCR_HIRES : Z := 0x08.
Definition SCR_HICOL : Z := 0x10.
Definition SCR_EXT2 : Z := 0x40.
Definition SCR_NOPAL : Z := 0x80.
Definition SCR2_320x256 : Z := 1.
Definition SCR2_640x256 : Z := 2.
Definition SCR2_tilemap : Z := 3.

(** [SNexHeader::init] *)
Definition nex_header_init : SNexHeader := {|
  nh_version := code "2"; nh_ramReq := 0; nh_numBanks := 0; nh_screen := 0; nh_border := 0; nh_sp := 0;
  nh_pc := 0; nh_banks := repeat 0 (Z.to_nat MAX_BANK); nh_loadbar := 0; nh_loadbarColour := 0;
  nh_loadDelay := 0; nh_startDelay := 0; nh_preserveNextRegs := 0; nh_coreVersion := [2; 0; 28];
  nh_hiResColour := 0; nh_entryBank := 0; nh_fileHandleCfg := 0; nh_expBusDisable := 0;
  nh_hasChecksum := false; nh_banksOffset := 0; nh_cliBuffer := 0; nh_cliBufferSize := 0;
  nh_screen2 := 0; nh_hasCopperCode := 0; nh_tilesScrConfig := [0; 0; 0; 0]; nh_bigL2barPosY := 0;
  nh_crc32c := 0 |}.

(** The 512 bytes of the structure on a little endian machine. *)
Definition nex_header_bytes (h : SNexHeader) : list Z :=
  (code <$> str "NextV1.") ++ [nh_version h; nh_ramReq h; nh_numBanks h; nh_screen h; nh_border h]
  ++ writeword (nh_sp h) ++ writeword (nh_pc h) ++ [0; 0] ++ nh_banks h
  ++ [nh_loadbar h; nh_loadbarColour h; nh_loadDelay h; nh_startDelay h; nh_preserveNextRegs h]
  ++ nh_coreVersion h ++ [nh_hiResColour h; nh_entryBank h] ++ writeword (nh_fileHandleCfg h)
  ++ [nh_expBusDisable h; bool_byte (nh_hasChecksum h)] ++ dword_bytes (nh_banksOffset h)
  ++ writeword (nh_cliBuffer h) ++ writeword (nh_cliBufferSize h)
  ++ [nh_screen2 h; nh_hasCopperCode h] ++ nh_tilesScrConfig h ++ [nh_bigL2barPosY h]
  ++ repeat 0 349 ++ dword_bytes (nh_crc32c h).

(** [SNexFile::init]: the members it resets. *)
Definition nex_init (n : SNexFile) : SNexFile :=
  set_minFileVersion 2 (set_reqFileVersion 0 (set_palDefined false
    (set_lastBankIndex (-1) (set_nx_h nex_header_init n)))).

(** ** Writing *)

(** [fwrite] at the end of the file. *)
Definition nex_append (bytes : list Z) (n : SNexFile) : SNexFile :=
  match nx_f n with
  | Some (name, content) => set_nx_f (Some (name, content ++ bytes)) n
  | None => n
  end.
Definition nex_write (bytes : list Z) : M St unit := on_nex (nex_append bytes).

Definition nex_content (n : SNexFile) : list Z :=
  match nx_f n with Some (_, content) => content | None => [] end.

(** [SNexFile::updateIfAheadFirstBankSave] *)
Definition updateIfAheadFirstBankSave : M St unit :=
  n ← get_nex;
  if negb (nh_banksOffset (nx_h n) =? 0) || negb (canAppend n) then mret tt
  else
    mwhen (negb (lastBankIndex n =? -1)) (Error "[SAVENEX] V1.3?!" None FATAL) ;;
    mwhen (palDefined n && (nh_screen (nx_h n) =? 0))
      (Warning1 "[SAVENEX] some palette was defined, but without screen it is ignored.") ;;
    mwhen (negb (nh_hasCopperCode (nx_h n) =? 0))
      (match nx_copper n with None => undef | Some copper => nex_write copper end) ;;
    n ← get_nex;
    on_header (set_nh_banksOffset (Z.of_nat (length (nex_content n)))).

(** [SNexFile::writeHeader]: over the first 512 bytes. *)
Definition write_nex_header (n : SNexFile) : SNexFile :=
  match nx_f n with
  | None => n
  | Some (name, content) =>
      set_canAppend false (set_nx_f (Some (name, nex_header_bytes (nx_h n) ++ drop 512 content)) n)
  end.

(** [SNexFile::writePalette] *)
Definition writePalette : M St unit :=
  n ← get_nex;
  if negb (canAppend n) then mret tt
  else match palDefined n, nx_palette n with
  | true, Some palette => nex_write palette
  | _, _ => on_header (set_nh_screen SCR_NOPAL)
  end.

(** ** The end of the file *)

(** The file is read in buffers of 128 KiB, which are aligned. *)
Definition BUFFER_SIZE : nat := Z.to_nat (128 * 1024).
Fixpoint crc_buffers (size fuel : nat) (crc : Z) (content : list Z) : Z :=
  match fuel, content with
  | S fuel, _ :: _ =>
      crc_buffers size fuel (crc32c_append_sw 0 crc (take size content)) (drop size content)
  | _, _ => crc
  end.

(** [SNexFile::calculateCrc32C]: the header is the one that is in the file. *)
Definition calculateCrc32C (n : SNexFile) : SNexFile :=
  match nx_f n with
  | Some (_, content) =>
      if nh_hasChecksum (nx_h n) then
        let data := drop 512 content in
        let crc := crc_buffers BUFFER_SIZE (length data) 0 data in
        set_canAppend false (set_nx_h (set_nh_crc32c (crc32c_append_sw 0 crc (take 508 content)) (nx_h n)) n)
      else n
  | None => n
  end.

(** The header as the version asks for. *)
Definition finalize_version (n : SNexFile) : SNexFile :=
  if minFileVersion n =? 2
  then set_nx_h (set_nh_bigL2barPosY 0 (set_nh_banksOffset 0 (nx_h n))) n
  else calculateCrc32C (set_nx_h (set_nh_version (code "3") (nx_h n)) n).

Definition hasExtendedBank (h : SNexHeader) : bool := existsb (fun b => negb (b =? 0)) (drop 48 (nh_banks h)).

(** [fclose] and the members that are reset. *)
Definition close_nex (s : St) : St :=
  let n := nex (lin s) in
  match nx_f n with
  | None => s
  | Some (name, content) =>
      set_nex (set_nx_palette None (set_nx_copper None (set_canAppend false (set_nx_f None n))))
        (put_file name content s)
  end.

Definition finalizeFile : M St unit :=
  n ← get_nex;
  match nx_f n with
  | None => mret tt
  | Some _ =>
      mwhen ((minFileVersion n =? 3) && (reqFileVersion n =? 2)) (Error "[SAVENEX] V1.3?!" None FATAL) ;;
      updateIfAheadFirstBankSave ;;
      on_nex (fun n => write_nex_header (finalize_version n)) ;;
      modify close_nex ;;
      n ← get_nex;
      mwhen ((nh_ramReq (nx_h n) =? 0) && hasExtendedBank (nx_h n))
        (Error1 "[SAVENEX] 2MB bank (48..111) stored without 2MbRamReq set in CFG")
  end.

(** ** Banks *)

Fixpoint index_of (v : Z) (l : list Z) (i : Z) : option Z :=
  match l with
  | [] => None
  | x :: l => if x =? v then Some i else index_of v l (i + 1)
  end.

Definition getNexBankIndex (bank16kNum : Z) : Z :=
  if (8 <=? bank16kNum) && (bank16kNum <? MAX_BANK) then bank16kNum
  else default (-2) (index_of bank16kNum nexBankOrder 0).

Definition getNexBankNum (bankIndex : Z) : Z :=
  if (0 <=? bankIndex) && (bankIndex <? 8) then nth (Z.to_nat bankIndex) nexBankOrder (-1)
  else if (8 <=? bankIndex) && (bankIndex <? MAX_BANK) then bankIndex
  else -1.

(** The bank is marked in the header and counted. *)
Definition count_bank (bankNum : Z) (h : SNexHeader) : SNexHeader :=
  set_nh_numBanks (u8 (nh_numBanks h + 1)) (set_nh_banks (<[Z.to_nat bankNum := 1]> (nh_banks h)) h).

Definition saveBank (bankIndex bankNum : Z) (onlyNonZero : bool) : M St bool :=
  if (bankNum <? 0) || (MAX_BANK <=? bankNum) then mret false
  else
    n ← get_nex;
    if bankIndex <=? lastBankIndex n then
      ErrorInt "[SAVENEX] it's too late to save this bank (correct order: 5, 2, 0, 1, 3, 4, 6, ...)"
        bankNum SUPPRESS ;;
      mret false
    else
      updateIfAheadFirstBankSave ;;
      d ← the_device;
      let memory := mem_bytes d (GetMemoryOffset d (bankNum * 2) 0) 0x4000 in
      on_nex (set_lastBankIndex bankIndex) ;;
      if onlyNonZero && forallb (Z.eqb 0) memory then mret true
      else
        on_header (count_bank bankNum) ;;
        nex_write memory ;;
        mret true.
