(* ===== verification/Nex.v ===== *)
(** * SAVENEX (io_nex.cpp)

    The commands of the directive: opening, the settings of the header, palettes,
    loading screens (from memory or from BMP files), copper code, banks and the end. *)

From S2P Require Export NexFile.

Section nex.
Context `{FileSystem}.

(** [Error(message, nullptr, SUPPRESS)] *)
Definition nex_error (message : string) : M St unit := Error message None SUPPRESS.

(** ** OPEN *)

(** The page each 8 KiB slot has when the file is loaded. *)
Definition nex_mapping (entryBank : Z) : list Z := [0; 0; 5 * 2; 5 * 2 + 1; 2 * 2; 2 * 2 + 1; entryBank * 2; entryBank * 2 + 1].

(** The byte at a 16-bit address in that mapping. *)
Definition nex_mapped_byte (d : CDevice) (entryBank adrMask address : Z) : Z :=
  let pageNum := nth (Z.to_nat (GetSlotOfA16 d address)) (nex_mapping entryBank) 0 in
  mem_byte d (GetMemoryOffset d pageNum (Z.land address adrMask)).

Definition checkStackPointer : M St unit :=
  d ← the_device;
  sl ← GetCurrentSlot d;
  n ← get_nex;
  let sp := nh_sp (nx_h n) in
  let adrMask := u16 (sl_Size sl - 1) in
  massert (SlotsCount d =? 8) ;;
  if (0 <? sp) && (sp <? 0x4000 + 10) then Warning1 "[SAVENEX] stackAddress is too close to ROM area"
  else
    let below := (fun i => u16 (sp - 10 + i)) <$> upto 10 in
    mwhen (negb (forallb (fun a => nex_mapped_byte d (nh_entryBank (nx_h n)) adrMask a =? 0) below))
      (WarningById1 "nexstack").

(** The checks of the arguments; [false] after an error. *)
Definition nex_open_checks (startAddress pc sp entryBank version : Z) : M St bool :=
  mwhen (negb (startAddress =? -1) && negb (startAddress =? pc))
    (Warning1 "[SAVENEX] Start address was also defined by END, OPEN argument used instead") ;;
  _ ← check16 pc;
  _ ← check16 sp;
  if (entryBank <? 0) || (MAX_BANK <=? entryBank) then
    ErrorInt "[SAVENEX] entry bank can be 0..111 value only" entryBank SUPPRESS ;; mret false
  else if negb (version =? 0) && ((version <? 2) || (3 <? version)) then
    ErrorInt "[SAVENEX] only file version 2 (V1.2) or 3 (V1.3) can be enforced" version SUPPRESS ;; mret false
  else mret true.

(** The new file with its first header. *)
Definition nex_opened (fname : list ascii) (pc sp entryBank version : Z) (n : SNexFile) : SNexFile :=
  let h := set_nh_entryBank (u8 entryBank) (set_nh_sp (Z.land sp 0xFFFF) (set_nh_pc (Z.land pc 0xFFFF) (nx_h n))) in
  let n := set_minFileVersion (if version =? 3 then 3 else 2) (set_reqFileVersion version (set_nx_h h n)) in
  set_canAppend true (write_nex_header (set_nx_f (Some (fname, [])) n)).

Definition dirNexOpen : M St unit :=
  n ← get_nex;
  if bool_decide (is_Some (nx_f n)) then Error_bp "[SAVENEX] NEX file is already open" SUPPRESS
  else
    on_nex nex_init ;;
    fname ← GetOutputFileName_lp;
    s ← gets st;
    let startAddress := StartAddress (lin s) in
    let defaults := [if startAddress =? -1 then 0 else startAddress; 0xFFFE; 0; 0] in
    more ← comma_lp;
    '(ok, args) ← (if more : bool then getIntArguments true (zip defaults [false; true; true; true])
                   else mret (M := M St) (true, defaults));
    match ok, args with
    | true, [pc; sp; entryBank; version] =>
        fine ← nex_open_checks startAddress pc sp entryBank version;
        if negb (fine : bool) then mret tt
        else if negb (writable fname) then
          Error "[SAVENEX] Error opening file for write" (Some fname) SUPPRESS
        else
          modify (put_file fname []) ;;
          on_nex (nex_opened fname pc sp entryBank version) ;;
          checkStackPointer
    | _, _ =>
        Error_bp "[SAVENEX] expected syntax is OPEN <filename>[,<startAddress>[,<stackAddress>[,<entryBank 0..111>[,<fileVersion 2..3>]]]]" SUPPRESS
    end.

(** ** Settings of the header *)

(** [m] when a file is open. *)
Definition when_open (m : M St unit) : M St unit :=
  n ← get_nex;
  if bool_decide (nx_f n = None) then nex_error "[SAVENEX] NEX file is not open" else m.
Definition when_appending (m : M St unit) : M St unit :=
  n ← get_nex;
  if negb (canAppend n) then nex_error "[SAVENEX] NEX file is not open" else m.

Definition outside (lo hi v : Z) : bool := (v <? lo) || (hi <? v).

Definition dirNexCore : M St unit :=
  when_open
    ('(ok, args) ← getIntArguments true [(0, false); (0, false); (0, false)];
     match ok, args with
     | true, [major; minor; subminor] =>
         mwhen (outside 0 15 major || outside 0 15 minor || outside 0 255 subminor)
           (Warning1 "[SAVENEX] values are not within 0..15,0..15,0..255 ranges") ;;
         on_header (set_nh_coreVersion [u8 major; u8 minor; u8 subminor])
     | _, _ => Error_bp "[SAVENEX] expected syntax is CORE <major 0..15>,<minor 0..15>,<subminor 0..255>" SUPPRESS
     end).

(** A V1.3 feature: refused when V1.2 was asked for. *)
Definition when_v13 (what : string) (m : M St unit) : M St unit :=
  n ← get_nex;
  if reqFileVersion n =? 2 then nex_error ("[SAVENEX] V1.2 was requested with OPEN, " ++ what)%string
  else m.

Definition nex_cfg3 (checksum preserve adr size : Z) (h : SNexHeader) : SNexHeader :=
  set_nh_cliBufferSize (u16 size) (set_nh_cliBuffer (u16 adr)
    (set_nh_expBusDisable (bool_byte (negb (preserve =? 0)))
      (set_nh_hasChecksum (negb (checksum =? 0)) h))).

Definition dirNexCfg3 : M St unit :=
  when_open
    (when_v13 "but CFG3 is V1.3 feature."
      (on_nex (set_minFileVersion 3) ;;
       '(ok, args) ← getIntArguments true [(1, false); (0, true); (0, true); (0, false)];
       match ok, args with
       | true, [checksum; preserve; adr; size] =>
           let someCliBuffer := negb (adr =? 0) || negb (size =? 0) in
           mwhen (outside 0 1 checksum || outside 0 1 preserve
                  || (someCliBuffer && ((adr <? 0x4000) || (0x10000 <? wrap32 (adr + size)) || outside 1 0x0800 size)))
             (Warning1 "[SAVENEX] crc/preserve values are not 0/1 or CLI buffer doesn't fit into $4000..$FFFF range (size can be 2048 max)") ;;
           on_header (nex_cfg3 checksum preserve adr size)
       | _, _ =>
           Error_bp "[SAVENEX] expected syntax is CFG3 <DoCRC 0/1>[,<PreserveExpansionBus 0/1>[,<CLIbufferAdr>,<CLIbufferSize>]]" SUPPRESS
       end)).

Definition nex_cfg (border fileHandle preserve ramReq : Z) (h : SNexHeader) : SNexHeader :=
  set_nh_ramReq (u8 ramReq) (set_nh_preserveNextRegs (u8 preserve)
    (set_nh_fileHandleCfg (u16 fileHandle) (set_nh_border (Z.land border 7) h))).

Definition dirNexCfg : M St unit :=
  when_open
    ('(ok, args) ← getIntArguments true [(0, false); (0, true); (0, true); (0, true)];
     match ok, args with
     | true, [border; fileHandle; preserve; ramReq] =>
         mwhen (outside 0 7 border || outside 0 0xFFFE fileHandle || outside 0 1 preserve || outside 0 1 ramReq)
           (Warning1 "[SAVENEX] values are not within 0..7,0..65534,0/1,0/1 ranges") ;;
         on_header (nex_cfg border fileHandle preserve ramReq)
     | _, _ =>
         Error_bp "[SAVENEX] expected syntax is CFG <border 0..7>[,<fileHandle 0/1/$4000+>[,<PreserveNextRegs 0/1>[,<2MbRamReq 0/1>]]]" SUPPRESS
     end).

Definition nex_bar (loadbar colour start delay posY : Z) (h : SNexHeader) : SNexHeader :=
  set_nh_bigL2barPosY (u8 posY) (set_nh_loadDelay (u8 delay) (set_nh_startDelay (u8 start)
    (set_nh_loadbarColour (u8 colour) (set_nh_loadbar (u8 loadbar) h)))).

Definition dirNexBar : M St unit :=
  when_open
    ('(ok, args) ← getIntArguments true [(0, false); (0, false); (0, true); (0, true); (254, true)];
     match ok, args with
     | true, [loadbar; colour; start; delay; posY] =>
         mwhen (outside 0 1 loadbar || existsb (outside 0 255) [colour; start; delay; posY])
           (Warning1 "[SAVENEX] values are not within 0/1 or 0..255 ranges") ;;
         on_header (nex_bar loadbar colour start delay posY)
     | _, _ =>
         Error_bp "[SAVENEX] expected syntax is BAR <loadBar 0/1>,<barColour 0..255>[,<startDelay 0..255>[,<bankDelay 0..255>[,<posY 0..255>]]]" SUPPRESS
     end).

(** ** BMP files *)

Inductive EBmpType := other_type | Layer2 | LoRes | L2_320x256 | L2_640x256.
#[export] Instance EBmpType_eq_dec : EqDecision EBmpType.
Proof. solve_decision. Defined.

Record SBmpFile := mk_BmpFile {
  bmp_data : list Z;
  bmp_type : EBmpType;
  bmp_width : Z;
  bmp_height : Z;
  upsideDown : bool
}.

(** Little endian numbers of the header. *)
Definition u16_at (l : list Z) (o : nat) : Z := nth o l 0 + Z.shiftl (nth (o + 1) l 0) 8.
Definition u32_at (l : list Z) (o : nat) : Z := u16_at l o + Z.shiftl (u16_at l (o + 2)) 16.
Definition i32_at (l : list Z) (o : nat) : Z := wrap32 (u32_at l o).

Definition bmp_type_of (width height : Z) : EBmpType :=
  if (height =? 256) && (width =? 640) then L2_640x256
  else if (height =? 256) && (width =? 320) then L2_320x256
  else if (width =? 128) && (height =? 96) then LoRes
  else if (width =? 256) && (height =? 192) then Layer2
  else other_type.

(** Header and palette can be read, and the format is the expected one. *)
Definition bmp_format_ok (data : list Z) : bool :=
  Nat.leb (0x36 + 4 * 0x100) (length data) && (u16_at data 0 =? code "B" + 256 * code "M")
  && (u32_at data 14 =? 40) && (u16_at data 26 =? 1) && (u16_at data 28 =? 8) && (u32_at data 30 =? 0).

Definition bmp_open (bmpIn : SInputFile) : M St (option SBmpFile) :=
  s ← gets st;
  match content_of (in_full bmpIn) s with
  | None => Error "[SAVENEX] Error opening file" (Some (str (in_str bmpIn))) SUPPRESS ;; mret None
  | Some data =>
      if negb (bmp_format_ok data) then
        Error "[SAVENEX] BMP file is not in expected format (uncompressed, 8bpp, 40B BITMAPINFOHEADER header)"
          (Some (str (in_str bmpIn))) SUPPRESS ;;
        mret None
      else
        let width := i32_at data 18 in
        let height := i32_at data 22 in
        let rows := if height <? 0 then wrap32 (- height) else height in
        mret (Some {| bmp_data := data; bmp_type := bmp_type_of width rows; bmp_width := width;
                      bmp_height := rows; upsideDown := 0 <? height |})
  end.

(** A 9-bit colour of the machine from a palette entry. *)
Definition getColor (bmp : SBmpFile) (index : nat) : Z :=
  let p := drop (0x36 + 4 * index) (bmp_data bmp) in
  let B := Z.shiftr (nth 0 p 0) 5 in
  let G := Z.shiftr (nth 1 p 0) 5 in
  let R := Z.shiftr (nth 2 p 0) 5 in
  Z.lor (Z.shiftl (Z.land B 1) 8) (Z.lor (Z.shiftr B 1) (Z.lor (Z.shiftl G 2) (Z.shiftl R 5))).

(** The rows from the top one, [None] when a row is outside of the file. *)
Definition bmp_row (bmp : SBmpFile) (y : Z) : option (list Z) :=
  let fileY := if upsideDown bmp then bmp_height bmp - y - 1 else y in
  let row := take (Z.to_nat (bmp_width bmp))
               (drop (Z.to_nat (u32_at (bmp_data bmp) 10 + bmp_width bmp * fileY)) (bmp_data bmp)) in
  if Z.of_nat (length row) =? bmp_width bmp then Some row else None.

Definition loadPixelData (bmp : SBmpFile) : option (list (list Z)) := mapM (bmp_row bmp) (upto (bmp_height bmp)).

(** The pixels column by column, two of the image in a byte in the mode 640x256. *)
Definition bmp_pixel (xMul2 : bool) (x : nat) (row : list Z) : Z :=
  if xMul2 then Z.lor (u8 (Z.shiftl (nth (2 * x) row 0) 4)) (Z.land (nth (2 * x + 1) row 0) 0x0F)
  else nth x row 0.
Definition bmp_columns (xMul2 : bool) (rows : list (list Z)) : list Z :=
  flat_map (fun x => bmp_pixel xMul2 x <$> rows) (seq 0 320).
Definition bmp_pixels (type : EBmpType) (rows : list (list Z)) : list Z :=
  match type with
  | L2_320x256 => bmp_columns false rows
  | L2_640x256 => bmp_columns true rows
  | _ => concat rows
  end.

(** ** Palettes *)

Definition define_palette (palette : list Z) (n : SNexFile) : SNexFile :=
  set_nx_palette (Some palette) (set_palDefined true n).

Definition default_nex_palette : list Z :=
  flat_map (fun i => [u8 i; if Z.land i 3 =? 0 then 0 else 1]) (upto 256).
Definition bmp_palette (bmp : SBmpFile) : list Z :=
  flat_map (fun i => writeword (getColor bmp i)) (seq 0 256).

Definition total_ram (d : CDevice) : Z := GetMemoryOffset d (PagesCount d) 0.

(** [dirNexPaletteMem(page8kNum, palOffset)] *)
Definition palette_mem (page8kNum palOffset : Z) : M St bool :=
  n ← get_nex;
  if palDefined n then mret true
  else if page8kNum =? -1 then on_nex (set_palDefined true) ;; mret true
  else
    d ← the_device;
    let adrPalData := wrap32 (GetMemoryOffset d page8kNum palOffset) in
    if (adrPalData <? 0) || (total_ram d <? adrPalData + PAL_SIZE) then
      Error_bp "[SAVENEX] palette data address range is outside of Next memory" SUPPRESS ;; mret false
    else on_nex (define_palette (mem_bytes d adrPalData PAL_SIZE)) ;; mret true.

(** [dirNexPaletteBmp(bmp)] *)
Definition palette_bmp (bmp : SBmpFile) : M St unit :=
  n ← get_nex;
  if palDefined n then mret tt else on_nex (define_palette (bmp_palette bmp)).

Definition dirNexPaletteMem : M St unit :=
  '(ok, args) ← getIntArguments true [(0, false); (0, false)];
  match ok, args with
  | true, [page8kNum; palOffset] =>
      if outside 0 (MAX_PAGE - 1) page8kNum || (palOffset <? 0)
      then Error_bp "[SAVENEX] expected syntax is MEM <palPage8kNum 0..223>,<palOffset 0+>" SUPPRESS
      else _ ← palette_mem page8kNum palOffset; mret tt
  | _, _ => Error_bp "[SAVENEX] expected syntax is MEM <palPage8kNum 0..223>,<palOffset 0+>" SUPPRESS
  end.

Definition dirNexPaletteBmp : M St unit :=
  bmpIn ← GetInputFile_lp;
  bad ← (if bool_decide (in_full bmpIn = []) then mret true else comma_lp);
  if bad : bool then Error_bp "[SAVENEX] expected syntax is BMP <filename>" SUPPRESS
  else
    bmp ← bmp_open bmpIn;
    match (bmp : option SBmpFile) with None => mret tt | Some bmp => palette_bmp bmp end.

Definition dirNexPalette : M St unit :=
  when_open
    (n ← get_nex;
     if palDefined n || negb (nh_screen (nx_h n) =? 0) then
       nex_error "[SAVENEX] some palette/screen was already defined (define palette once and ahead)"
     else if negb (lastBankIndex n =? -1) then
       nex_error "[SAVENEX] some bank was already stored (define palette ahead)"
     else
       _ ← SkipBlanks_lp;
       select_command
         [("none"%string, on_nex (set_palDefined true));
          ("default"%string, on_nex (define_palette default_nex_palette));
          ("mem"%string, dirNexPaletteMem); ("bmp"%string, dirNexPaletteBmp)]
         (Error_lp "[SAVENEX] unknown palette command (commands: NONE, DEFAULT, MEM, BMP)" SUPPRESS)).

(** ** Loading screens *)

(** The flags of a screen type, set in the header. *)
Definition screen_flags (type : EBmpType) (h : SNexHeader) : SNexHeader :=
  let on v h := set_nh_screen (Z.lor (nh_screen h) v) h in
  match type with
  | Layer2 => on SCR_LAYER2 h
  | LoRes => on SCR_LORES h
  | L2_320x256 => set_nh_screen2 SCR2_320x256 (on SCR_EXT2 h)
  | L2_640x256 => set_nh_screen2 SCR2_640x256 (on SCR_EXT2 h)
  | other_type => h
  end.

Definition is_v13_screen (type : EBmpType) : bool :=
  bool_decide (type = L2_320x256) || bool_decide (type = L2_640x256).

Definition pixel_data_size (type : EBmpType) : Z :=
  match type with Layer2 => 0xC000 | LoRes => 0x3000 | _ => 0x14000 end.

(** The pixel data: of the LoRes screen in video memory the halves are apart. *)
Definition pixel_data (d : CDevice) (type : EBmpType) (page8kNum adr : Z) : list Z :=
  if page8kNum =? -1 then
    match type with
    | LoRes => let a := GetMemoryOffset d (5 * 2) 0 in mem_bytes d a 0x1800 ++ mem_bytes d (a + 0x2000) 0x1800
    | _ => mem_bytes d (GetMemoryOffset d (9 * 2) 0) (pixel_data_size type)
    end
  else mem_bytes d adr (pixel_data_size type).

Definition screen_syntax : string :=
  "[SAVENEX] expected syntax is ... [<Page8kNum 0..223>,<offset>[,<palPage8kNum 0..223>,<palOffset>]]".

(** The screen from memory, the arguments being parsed. *)
Definition screen_mem (type : EBmpType) (page8kNum offset palPage8kNum palOffset : Z) : M St unit :=
  d ← the_device;
  let adr := if page8kNum =? -1 then 0 else wrap32 (GetMemoryOffset d page8kNum offset) in
  if total_ram d <? size_t (adr + pixel_data_size type) then
    Error_bp "[SAVENEX] pixel data address range is outside of Next memory" SUPPRESS
  else
    defined ← palette_mem palPage8kNum palOffset;
    if negb (defined : bool) then mret tt
    else
      writePalette ;;
      on_header (screen_flags type) ;;
      massert (0 <=? adr) ;;
      nex_write (pixel_data d type page8kNum adr).

Definition dirNexScreenLayer2andLowRes (type : EBmpType) : M St unit :=
  n ← get_nex;
  if is_v13_screen type && (reqFileVersion n =? 2) then
    nex_error "[SAVENEX] V1.2 was requested with OPEN, but 320x256 or 640x256 screen is V1.3 feature."
  else
    mwhen (is_v13_screen type) (on_nex (set_minFileVersion 3) ;; on_header (set_nh_hiResColour 0)) ;;
    '(ok, args) ← getIntArguments true [(-1, true); (0, false); (-1, true); (0, false)];
    match ok, args with
    | true, [page8kNum; offset; palPage8kNum; palOffset] =>
        if outside (-1) (MAX_PAGE - 1) page8kNum || outside (-1) (MAX_PAGE - 1) palPage8kNum
        then Error_bp screen_syntax SUPPRESS
        else screen_mem type page8kNum offset palPage8kNum palOffset
    | _, _ => Error_bp screen_syntax SUPPRESS
    end.

Definition bmp_syntax : string :=
  "[SAVENEX] expected syntax is BMP <filename>[,<savePalette 0/1>[,<paletteOffset 0..15>]]".

(** The picture into the file. *)
Definition write_bmp (bmp : SBmpFile) (savePalette paletteOffset : Z) : M St unit :=
  mwhen (negb (savePalette =? 0)) (palette_bmp bmp) ;;
  writePalette ;;
  on_header (screen_flags (bmp_type bmp)) ;;
  mwhen (is_v13_screen (bmp_type bmp)) (on_header (set_nh_hiResColour (u8 paletteOffset))) ;;
  match loadPixelData bmp with
  | None => Error "[SAVENEX] reading BMP pixel data failed" None FATAL
  | Some rows => nex_write (bmp_pixels (bmp_type bmp) rows)
  end.

(** The checks of the version and of the palette offset. *)
Definition screen_bmp (bmp : SBmpFile) (savePalette paletteOffset : Z) : M St unit :=
  let v12 := bool_decide (bmp_type bmp = Layer2) || bool_decide (bmp_type bmp = LoRes) in
  let misplaced := negb (paletteOffset =? -1) && v12 in
  mwhen misplaced
    (Warning1 "[SAVENEX] BMP paletteOffset is available only for new V1.3 images (320 or 640 x256)") ;;
  let paletteOffset := if misplaced then -1 else paletteOffset in
  n ← get_nex;
  if negb (bmp_height bmp =? 256) then write_bmp bmp savePalette paletteOffset
  else if reqFileVersion n =? 2 then
    nex_error "[SAVENEX] V1.2 was requested with OPEN, but 320x256 or 640x256 BMP is V1.3 feature."
  else
    on_nex (set_minFileVersion 3) ;;
    write_bmp bmp savePalette (if paletteOffset =? -1 then 0 else paletteOffset).

Definition dirNexScreenBmp : M St unit :=
  bmpIn ← GetInputFile_lp;
  more ← comma_lp;
  '(ok, args) ← (if more : bool then getIntArguments true [(1, false); (-1, true)]
                 else mret (M := M St) (true, [1; -1]));
  match ok, args with
  | true, [savePalette; paletteOffset] =>
      mwhen (outside 0 1 savePalette) (Warning1 "[SAVENEX] savePalette should be 0 or 1 (defaulting to 1)") ;;
      let savePalette := if outside 0 1 savePalette then 1 else savePalette in
      mwhen (outside (-1) 15 paletteOffset) (Warning1 "[SAVENEX] paletteOffset should be in 0..15 range") ;;
      bmp ← bmp_open bmpIn;
      match (bmp : option SBmpFile) with
      | None => mret tt
      | Some bmp =>
          if bool_decide (bmp_type bmp = other_type) then
            Error "[SAVENEX] BMP file is not 256x192, 128x96, 320x256 or 640x256"
              (Some (str (in_str bmpIn))) SUPPRESS
          else screen_bmp bmp savePalette paletteOffset
      end
  | _, _ => Error_bp bmp_syntax SUPPRESS
  end.

(** The screens of ULA and Timex modes, from the video memory. *)
Definition dirNexScreenUlaTimex (scrType : Z) : M St unit :=
  mwhen (scrType =? SCR_HIRES)
    ('(ok, hiResColor) ← ParseExpression_lp;
     mwhen ok
       (mwhen (outside 0 7 hiResColor)
          (p ← gets (fun s => bp (par s));
           Warning "[SAVENEX] value is not in 0..7 range" (Some (aft p)) W_PASS3) ;;
        on_header (set_nh_hiResColour (Z.shiftl (Z.land hiResColor 7) 3)))) ;;
  on_header (set_nh_screen scrType) ;;
  d ← the_device;
  let a := GetMemoryOffset d (5 * 2) 0 in
  if scrType =? SCR_ULA then nex_write (mem_bytes d a 0x1B00)
  else nex_write (mem_bytes d a 0x1800 ++ mem_bytes d (a + 0x2000) 0x1800).

Definition dirNexScreenTile : M St unit :=
  '(ok, args) ← getIntArguments true [(0, false); (0, false); (0, false); (0, false); (1, true)];
  match ok, args with
  | true, [r6B; r6C; r6E; r6F; store] =>
      if existsb (outside 0 255) [r6B; r6C; r6E; r6F] || outside 0 1 store then
        Error_bp "[SAVENEX] expected syntax is TILE <NextReg $6B>,<NextReg $6C>,<NextReg $6E>,<NextReg $6F>[,<AlsoStoreBank5 0/1 = 1>]" SUPPRESS
      else
        when_v13 "but tilemap screen is V1.3 feature."
          (on_nex (set_minFileVersion 3) ;;
           writePalette ;;
           on_header (fun h => set_nh_tilesScrConfig [r6B; r6C; r6E; r6F]
             (set_nh_screen2 SCR2_tilemap (set_nh_screen (Z.lor (nh_screen h) SCR_EXT2) h))) ;;
           mwhen (negb (store =? 0)) (_ ← saveBank (getNexBankIndex 5) 5 false; mret tt))
  | _, _ =>
      Error_bp "[SAVENEX] expected syntax is TILE <NextReg $6B>,<NextReg $6C>,<NextReg $6E>,<NextReg $6F>[,<AlsoStoreBank5 0/1 = 1>]" SUPPRESS
  end.

Definition dirNexScreen : M St unit :=
  when_appending
    (n ← get_nex;
     if negb (nh_screen (nx_h n) =? 0) then
       nex_error "[SAVENEX] screen for this NEX file was already stored"
     else if negb (lastBankIndex n =? -1) then
       nex_error "[SAVENEX] some bank was already stored (store screen ahead)"
     else
       _ ← SkipBlanks_lp;
       select_command
         [("l2"%string, dirNexScreenLayer2andLowRes Layer2); ("lr"%string, dirNexScreenLayer2andLowRes LoRes);
          ("l2_320"%string, dirNexScreenLayer2andLowRes L2_320x256);
          ("l2_640"%string, dirNexScreenLayer2andLowRes L2_640x256);
          ("bmp"%string, dirNexScreenBmp); ("scr"%string, dirNexScreenUlaTimex SCR_ULA);
          ("shc"%string, dirNexScreenUlaTimex SCR_HICOL); ("shr"%string, dirNexScreenUlaTimex SCR_HIRES);
          ("tile"%string, dirNexScreenTile)]
         (Error_lp "[SAVENEX] unknown screen type (types: BMP, L2, L2_320, L2_640, LR, SCR, SHC, SHR, TILE)" SUPPRESS)).

(** ** Copper code *)

Definition dirNexCopper : M St unit :=
  when_appending
    (when_v13 "but COPPER is V1.3 feature."
      (n ← get_nex;
       if negb (lastBankIndex n =? -1) then
         nex_error "[SAVENEX] some bank was already stored (store copper ahead)"
       else
         on_nex (set_minFileVersion 3) ;;
         '(ok, args) ← getIntArguments true [(0, false); (0, false)];
         match ok, args with
         | true, [page8kNum; offset] =>
             d ← the_device;
             let adrCopperData := wrap32 (GetMemoryOffset d page8kNum offset) in
             if outside 0 (MAX_PAGE - 1) page8kNum then
               Error_bp "[SAVENEX] expected syntax is COPPER <Page8kNum 0..223>,<offset>" SUPPRESS
             else if total_ram d <? size_t (adrCopperData + COPPER_SIZE) then
               Error_bp "[SAVENEX] copper data address range is outside of Next memory" SUPPRESS
             else
               massert (0 <=? adrCopperData) ;;
               on_header (set_nh_hasCopperCode 1) ;;
               on_nex (set_nx_copper (Some (mem_bytes d adrCopperData COPPER_SIZE)))
         | _, _ => Error_bp "[SAVENEX] expected syntax is COPPER <Page8kNum 0..223>,<offset>" SUPPRESS
         end)).

(** ** Banks *)

(** The body of the loop over the bank numbers: whether another one follows. *)
Definition nex_bank : M St bool :=
  nextLp ← get_lp;
  '(ok, bankNum) ← ParseExpressionNoSyntaxError_lp;
  if negb ok || (getNexBankIndex bankNum <? 0) then
    Error "[SAVENEX] expected bank number 0..111" (Some (aft nextLp)) SUPPRESS ;; mret false
  else
    saved ← saveBank (getNexBankIndex bankNum) bankNum false;
    if negb (saved : bool) then mret false else comma_lp.

Definition dirNexBank : M St unit :=
  when_appending (p ← get_lp; do_while (S (room p)) nex_bank).

(** The banks [fromI .. fromI + count - 1] in the order of the file. *)
Fixpoint save_banks (count : nat) (fromI : Z) : M St unit :=
  match count with
  | O => mret tt
  | S count =>
      saved ← saveBank fromI (getNexBankNum fromI) true;
      if negb (saved : bool) then mret tt else save_banks count (fromI + 1)
  end.

Definition dirNexAuto : M St unit :=
  when_appending
    (n ← get_nex;
     if lastBankIndex n =? MAX_BANK - 1 then nex_error "[SAVENEX] all banks are already stored"
     else
       '(ok, args) ← getIntArguments true
          [(getNexBankNum (lastBankIndex n + 1), true); (MAX_BANK - 1, true)];
       match ok, args with
       | true, [fromBank; toBank] =>
           if outside 0 (MAX_BANK - 1) fromBank || outside 0 (MAX_BANK - 1) toBank then
             Error_bp "[SAVENEX] expected syntax is AUTO [<fromBank 0..111>[,<toBank 0..111>]]" SUPPRESS
           else
             let fromI := getNexBankIndex fromBank in
             let toI := getNexBankIndex toBank in
             if toI <? fromI then Error_bp "[SAVENEX] 'toBank' is less than 'fromBank'" SUPPRESS
             else save_banks (Z.to_nat (toI - fromI + 1)) fromI
       | _, _ => Error_bp "[SAVENEX] expected syntax is AUTO [<fromBank 0..111>[,<toBank 0..111>]]" SUPPRESS
       end).

(** ** CLOSE *)

(** One file appended: whether another one follows. *)
Definition nex_append_file : M St bool :=
  eol ← SkipBlanks_lp;
  if eol : bool then mret false
  else
    appendIn ← GetInputFile_lp;
    s ← gets st;
    mwhen (has_filename (in_full appendIn))
      (match content_of (in_full appendIn) s with
       | None => Error "[SAVENEX] Error opening append file" (Some (str (in_str appendIn))) SUPPRESS
       | Some bytes => nex_write bytes
       end) ;;
    comma_lp.

Definition dirNexClose : M St unit :=
  when_appending
    (updateIfAheadFirstBankSave ;;
     p ← get_lp;
     do_while (S (room p)) nex_append_file ;;
     finalizeFile).

Definition is_next (s : St) : bool :=
  match cur_device s with Some d => name_is (dev_ID d) "ZXSPECTRUMNEXT" | None => false end.

Definition dirSAVENEX : M St unit :=
  s ← gets st;
  if negb (in_last_pass s) then mret tt
  else if negb (is_next s) then nex_error "[SAVENEX] is allowed only in ZXSPECTRUMNEXT device mode"
  else
    _ ← SkipBlanks_lp;
    select_command
      [("open"%string, dirNexOpen); ("core"%string, dirNexCore); ("cfg3"%string, dirNexCfg3);
       ("cfg"%string, dirNexCfg); ("bar"%string, dirNexBar); ("palette"%string, dirNexPalette);
       ("screen"%string, dirNexScreen); ("copper"%string, dirNexCopper); ("bank"%string, dirNexBank);
       ("auto"%string, dirNexAuto); ("close"%string, dirNexClose)]
      (Error_lp "[SAVENEX] unknown command (commands: OPEN, CORE, CFG, BAR, SCREEN, BANK, AUTO, CLOSE)" SUPPRESS).
End nex.
