(* ===== verification/TextFiles.v ===== *)
(** * Text files beside the code (sjio.cpp, tables.cpp, directives.cpp)

    The listing, the exports, the source-level-debugging data, the breakpoints and
    the tables of symbols, with the directives that ask for them: LABELSLIST,
    CSPECTMAP, BPLIST and SETBREAKPOINT. *)

From stdpp Require Import sorting.
From S2P Require Export DirOutput.

(** ** The order of the symbols *)

Fixpoint compare_bytes (a b : list ascii) : comparison :=
  match a, b with
  | [], [] => Eq
  | [], _ => Lt
  | _, [] => Gt
  | x :: a, y :: b => match (code x ?= code y)%Z with Eq => compare_bytes a b | c => c end
  end.
Definition strcasecmp (a b : list ascii) : comparison := compare_bytes (tolower <$> a) (tolower <$> b).

(** The order of [std::map], and the one of --lstlab=sort. *)
Definition map_order (a b : list ascii) : bool :=
  match compare_bytes a b with Gt => false | _ => true end.
Definition case_order (a b : list ascii) : bool :=
  match strcasecmp a b with Eq => map_order a b | Lt => true | Gt => false end.

Definition getDumpOrder (s : St) : list (list ascii) :=
  let order := merge_sort map_order (str <$> (map_to_list (symbols (tab s))).*1) in
  if SortSymbols (tex s) then merge_sort case_order order else order.

(** The symbols in that order; most of the tables leave out the undefined ones. *)
Definition dumped_symbols (s : St) : list (list ascii * SLabelTableEntry) :=
  omap (fun n => e ← symbol (of_chars n) s; Some (n, e)) (getDumpOrder s).
Definition defined_symbols (s : St) : list (list ascii * SLabelTableEntry) :=
  filter (fun e => page (snd e) ≠ LABEL_PAGE_UNDEFINED) (dumped_symbols s).

(** [WriteLabelEquValue] *)
Definition WriteLabelEquValue (name : list ascii) (value : Z) : list ascii :=
  name ++ str ": EQU 0x" ++ fmt_0X 8 value ++ [LF].

Section files.
Context `{FileSystem}.

(** A text file that is opened for writing; [fopen] fails with a fatal error. *)
Definition open_text (name : list ascii) (opened : St → St) : M St unit :=
  if writable name then modify (fun s => opened (put_file name [] s))
  else fopen_error name FATAL.
Definition save_text (name text : list ascii) : M St unit :=
  open_text name (put_file name (bytes_of text)).

(** ** The listing *)

(** The first pass overwrites the file, the others append to it; what is listed is
    kept in [listing] until the file is closed. *)
Definition OpenListImp (listFilename : list ascii) : M St unit :=
  s ← gets st;
  mwhen (negb (IsListingStderr (tex s)) && negb (bool_decide (listFilename = [])))
    (if writable listFilename then
       mwhen ((pass (src s) <=? 1) || bool_decide (content_of listFilename s = None))
         (modify (put_file listFilename [])) ;;
       modify (set_listingFile listFilename) ;;
       modify (set_listing (Some []))
     else fopen_error listFilename FATAL).

(** An explicit name; with --msg=lst the lines go to the error output. *)
Definition OpenList : M St unit :=
  s ← gets st;
  mwhen (negb (IsListingStderr (tex s)) && negb (IsDefaultListingName (tex s))
         && bool_decide (listing (lin s) = None))
    (OpenListImp (ListingFName (tex s))).

Definition OpenDefaultList (inputFile : SInputFile) : M St unit :=
  s ← gets st;
  mwhen (negb (IsListingStderr (tex s)) && IsDefaultListingName (tex s)
         && bool_decide (listing (lin s) = None) && negb (bool_decide (in_full inputFile = [])))
    (OpenListImp (replace_extension (str ".lst") (in_full inputFile))).

(** The lines are added to what the file holds. *)
Definition close_listing : M St unit :=
  s ← gets st;
  match listing (lin s) with
  | Some lines =>
      mwhen (negb (IsListingStderr (tex s)))
        (modify (put_file (listingFile (tex s))
                   (default [] (content_of (listingFile (tex s)) s) ++ bytes_of (concat lines))) ;;
         modify (set_listing None))
  | None => mret tt
  end.

Definition dump_line (name : list ascii) (e : SLabelTableEntry) : list ascii :=
  let ahead := str "0x" ++ PrintHexAlt (value e) ++ str (if used e then "   " else " X ") in
  ahead ++ take (Z.to_nat (LINEMAX - 2) - length ahead) name ++ [LF].

(** [CLabelTable::Dump] *)
Definition Dump : M St unit :=
  s ← gets st;
  let head := [[LF] ++ str "Value    Label" ++ [LF];
               str "------ - -----------------------------------------------------------" ++ [LF]] in
  let lines := (fun e => dump_line (fst e) (snd e)) <$> defined_symbols s in
  modify (set_listing ((fun l => l ++ head ++ lines) <$> listing (lin s))).

(** ** Tables of symbols *)

(** Pages 0 to 3 of ZX48 become those of ZX128. *)
Definition fakeZx128Pages : list Z := [LABEL_PAGE_ROM; 5; 2; 0].

(** The page and the address of a line of the table for Unreal; [None] when the
    code reads outside of its table or compares the name of no device. *)
Definition unreal_page (device : option CDevice) (virtual_labels : bool) (e : SLabelTableEntry) : option Z :=
  let page := if virtual_labels then LABEL_PAGE_OUT_OF_BOUNDS else page e in
  d ← device;
  if bool_decide (dev_ID d = str "ZXSPECTRUM48") && (page <? 4)
  then if page <? 0 then None else fakeZx128Pages !! Z.to_nat page
  else Some page.
(** [%02d] *)
Definition fmt_02d (n : Z) : list ascii := repeat "0"%char (2 - length (fmt_d n)) ++ fmt_d n.
Definition unreal_line (page adr_mask : Z) (name : list ascii) (value : Z) : list ascii :=
  (if page <? LABEL_PAGE_ROM then fmt_02d page else []) ++ str ":" ++ PrintHexAlt (Z.land value adr_mask)
  ++ str " " ++ name ++ [LF].

Fixpoint unreal_lines (device : option CDevice) (virtual_labels : bool) (adr_mask : Z)
    (l : list (list ascii * SLabelTableEntry)) : option (list ascii) :=
  match l with
  | [] => Some []
  | (name, e) :: l =>
      p ← unreal_page device virtual_labels e;
      rest ← unreal_lines device virtual_labels adr_mask l;
      Some (unreal_line p adr_mask name (value e) ++ rest)
  end.

Definition DumpForUnreal : M St unit :=
  s ← gets st;
  open_text (UnrealLabelListFName (tex s)) (fun s => s) ;;
  page_mask ← (match cur_device s with
               | Some d => pg ← GetPage d 0; mret (pg_Size pg - 1)
               | None => mret 0x3FFF
               end);
  let adr_mask := if EmitVirtualLabels (tex s) then 0xFFFF else page_mask in
  match unreal_lines (cur_device s) (EmitVirtualLabels (tex s)) adr_mask (defined_symbols s) with
  | Some text => modify (put_file (UnrealLabelListFName (tex s)) (bytes_of text))
  | None => undef
  end.

(** The kind of a symbol in the map of CSpect. *)
Definition cspect_type (e : SLabelTableEntry) : Z :=
  if has (traits e) LABEL_IS_STRUCT_E then 0
  else if has (traits e) LABEL_IS_STRUCT_D then 4
  else if has (traits e) LABEL_IS_EQU then 1
  else if has (traits e) LABEL_IS_DEFL then 2
  else if LABEL_PAGE_ROM <=? page e then 3 else 0.

(** The last dot, but not the first character, behind which the name is local to
    another label becomes "@". *)
Fixpoint cspect_name (n : nat) (name : list ascii) (s : St) : list ascii :=
  match n with
  | O => name
  | S m =>
      if bool_decide (name !! n = Some "."%char)
         && bool_decide (is_Some (CLabelTable_Find (of_chars (take n name)) true s))
      then take n name ++ "@"%char :: drop (S n) name
      else cspect_name m name s
  end.

Definition cspect_line (page_size : Z) (s : St) (name : list ascii) (e : SLabelTableEntry) : list ascii :=
  let labelType := cspect_type e in
  let page := if labelType =? 0 then page e else 0 in
  let longAddress := wrap32 (Z.land (page_size - 1) (value e) + page * page_size) in
  fmt_0X 8 (Z.land 0xFFFF (value e)) ++ str " " ++ fmt_0X 8 longAddress ++ str " "
  ++ fmt_0X 2 labelType ++ str " " ++ (toupper <$> cspect_name (length name) name s) ++ [LF].

Definition DumpForCSpect : M St unit :=
  s ← gets st;
  save_text (CSpectMapFName (tex s))
    (concat ((fun e => cspect_line (CSpectMapPageSize (tex s)) s (fst e) (snd e)) <$> defined_symbols s)).

Definition is_user_symbol (e : list ascii * SLabelTableEntry) : bool :=
  negb (isdigit (List.hd NUL (fst e))) && negb (has (traits (snd e)) LABEL_IS_KEYWORD).
Definition DumpSymbols : M St unit :=
  s ← gets st;
  save_text (SymbolListFName (tex s))
    (concat ((fun e => WriteLabelEquValue (fst e) (value (snd e)))
               <$> filter is_user_symbol (dumped_symbols s))).

Definition mwhen_named (name : list ascii) (m : M St unit) : M St unit := mwhen (has_filename name) m.
(** The tables [main] writes when the passes are over. *)
Definition dump_tables : M St unit :=
  s ← gets st;
  mwhen_named (UnrealLabelListFName (tex s)) DumpForUnreal ;;
  mwhen_named (CSpectMapFName (tex s)) DumpForCSpect ;;
  mwhen_named (SymbolListFName (tex s)) DumpSymbols.

(** ** Exports *)

Definition close_exports : M St unit :=
  modify (fun s =>
    if FP_ExportFile (lin s)
    then set_FP_ExportFile false
           (put_file (ExportFName (out s))
              (bytes_of (concat ((fun e => WriteLabelEquValue (fst e) (snd e)) <$> exports (lin s)))) s)
    else s).

(** ** Source-level debugging *)

(** [ConstructDefaultFilename]: the first source that has a name, or "asm". *)
Definition ConstructDefaultFilename (sources : list (list ascii)) (ext : list ascii) : list ascii :=
  replace_extension ext
    (default (str "asm") (List.find (fun n => negb (bool_decide (n = []))) sources)).

Fixpoint comma_list (l : list (list ascii)) : list ascii :=
  match l with
  | [] => []
  | [k] => k
  | k :: l => k ++ str "," ++ comma_list l
  end.
Definition sld_header (keywords : list (list ascii)) : list (list ascii) :=
  (str "|SLD.data.version|1" ++ [LF])
  :: (if bool_decide (keywords = []) then []
      else [str "||K|KEYWORDS|" ++ comma_list keywords ++ [LF]]).

Definition OpenSldImp (sldFilename : list ascii) : M St unit :=
  mwhen (has_filename sldFilename)
    (open_text sldFilename (set_sldActive true) ;;
     modify (fun s => set_sldTrace (sld_header (sldCommentKeywords (lin s))) s)).

(** Called in front of the last pass; the number of lines is that of the second one. *)
Definition OpenSld (sources : list (list ascii)) : M St unit :=
  s ← gets st;
  mwhen (negb (sldActive (out s)))
    (mwhen (negb (has_filename (SourceLevelDebugFName (tex s))) && IsDefaultSldName (tex s))
       (modify (set_SourceLevelDebugFName (ConstructDefaultFilename sources (str ".sld.txt")))) ;;
     s ← gets st;
     if CompiledCurrentLine (src s) <=? 0
     then Warning "No SLD file created because no lines assembled" (Some (SourceLevelDebugFName (tex s))) W_PASS3
     else OpenSldImp (SourceLevelDebugFName (tex s))).

Definition CloseSld : M St unit :=
  modify (fun s =>
    if sldActive (out s)
    then set_sldActive false
           (put_file (SourceLevelDebugFName (tex s)) (bytes_of (concat (sldTrace (out s)))) s)
    else s).

(** ** Breakpoints *)

Definition OpenBreakpointsFile (filename : list ascii) (type : EBreakpointsFile) : M St unit :=
  s ← gets st;
  if negb (has_filename filename) then Error "empty filename" (Some filename) EARLY
  else if bool_decide (is_Some (breakpoints (tex s))) then
    Error "breakpoints file was already opened" None EARLY
  else if writable filename then
    modify (fun s => set_breakpoints
      (Some {| bp_name := filename; breakpointsType := type; breakpointsCounter := 0;
               bp_text := if bool_decide (type = BPSF_FUSE) then str "del" ++ [LF] else [] |})
      (put_file filename [] s))
  else
    fopen_error filename EARLY ;;
    (* the code goes on without a file: the first line of a FUSE script is written to no file *)
    mwhen (bool_decide (type = BPSF_FUSE)) undef.

(** What was written is in the file, when it is closed and when the program ends. *)
Definition flush_breakpoints (last_line : list ascii) (s : St) : St :=
  match breakpoints (tex s) with
  | Some b => set_breakpoints None (put_file (bp_name b) (bytes_of (bp_text b ++ last_line)) s)
  | None => s
  end.
Definition CloseBreakpointsFile : M St unit :=
  modify (fun s =>
    let mame := match breakpoints (tex s) with
                | Some b => bool_decide (breakpointsType b = BPSF_MAME)
                | None => false
                end in
    flush_breakpoints (if mame then str "g" ++ [LF] else []) s).

(** The text of one breakpoint and whether it is only warned about. *)
Definition breakpoint_text (type : EBreakpointsFile) (n val : Z) (ifP : option (list ascii)) :
    list ascii * option string :=
  let adr := str "0x" ++ fmt_0X 4 (Z.land val 0xFFFF) in
  match type, ifP with
  | BPSF_UNREAL, None => (str "x0=" ++ adr ++ [LF], None)
  | BPSF_UNREAL, Some _ => ([], Some "Conditional breakpoints not (yet) supported for Unreal"%string)
  | BPSF_MAME, None => (str "bp " ++ adr ++ [LF], None)
  | BPSF_MAME, Some c => (str "bp " ++ adr ++ str "," ++ c ++ [LF], None)
  | BPSF_ZESARUX, _ =>
      let ahead := if n =? 1 then str " --enable-breakpoints " else [] in
      if 100 <? n then
        (ahead, Some "Maximum amount of 100 breakpoints has been already reached, this one is ignored"%string)
      else match ifP with
           | None => (ahead ++ str "--set-breakpoint " ++ fmt_d n ++ str " " ++ str dq ++ str "PC="
                      ++ fmt_d (Z.land val 0xFFFF) ++ str dq ++ str " ", None)
           | Some _ => (ahead, Some "Conditional breakpoints not (yet) supported for Zesarux"%string)
           end
  | BPSF_FUSE, None => (str "br " ++ adr ++ [LF], None)
  | BPSF_FUSE, Some c => (str "br " ++ adr ++ str " if " ++ c ++ [LF], None)
  end.

Definition WriteBreakpoint (val : Z) (ifP : option (list ascii)) : M St unit :=
  s ← gets st;
  match breakpoints (tex s) with
  | None => WarningById1 "bpfile"
  | Some b =>
      let n := breakpointsCounter b + 1 in
      _ ← check16u val;
      let '(text, warning) := breakpoint_text (breakpointsType b) n val ifP in
      modify (set_breakpoints
        (Some {| bp_name := bp_name b; breakpointsType := breakpointsType b; breakpointsCounter := n;
                 bp_text := bp_text b ++ text |})) ;;
      match warning with Some w => Warning1 w | None => mret tt end
  end.

(** ** Directives *)

Definition dirLABELSLIST : M St unit :=
  s ← gets st;
  if negb (pass (src s) =? 1) || negb (has_device s) then
    mwhen (negb (has_device s)) (Error1 "LABELSLIST only allowed in real device emulation mode (See DEVICE)") ;;
    SkipToEol_lp
  else
    fName ← GetOutputFileName_lp;
    if negb (has_filename fName) then Error_bp "[LABELSLIST] No filename" EARLY
    else
      modify (set_UnrealLabelListFName fName) ;;
      modify (set_EmitVirtualLabels false) ;;
      more ← comma_lp;
      mwhen more
        ('(ok, virtualLabelsArg) ← ParseExpressionNoSyntaxError_lp;
         if negb ok then Error_bp "[LABELSLIST] Syntax error in <virtual labels>" EARLY
         else modify (set_EmitVirtualLabels (negb (virtualLabelsArg =? 0)))).

Definition dirCSPECTMAP : M St unit :=
  s ← gets st;
  if negb (in_last_pass s) || negb (has_device s) then
    mwhen (negb (has_device s)) (Error1 "CSPECTMAP only allowed in real device emulation mode (See DEVICE)") ;;
    SkipParam_lp
  else
    fName ← GetOutputFileName_lp;
    (if has_filename fName then modify (set_CSpectMapFName fName)
     else pos ← back_pos; modify (set_CSpectMapFName (str (filename pos) ++ str ".map"))) ;;
    d ← the_device;
    pg ← GetPage d 0;
    modify (set_CSpectMapPageSize (pg_Size pg)).

Definition breakpoint_kinds : list (string * EBreakpointsFile) :=
  [("unreal", BPSF_UNREAL); ("zesarux", BPSF_ZESARUX); ("mame", BPSF_MAME); ("fuse", BPSF_FUSE)]%string.
Fixpoint breakpoints_kind (kinds : list (string * EBreakpointsFile)) : M St EBreakpointsFile :=
  match kinds with
  | [] =>
      eol ← SkipBlanks_lp;
      p ← get_lp;
      mwhen (negb eol)
        (Warning (of_chars (str "[BPLIST] invalid breakpoints file type (valid: " ++ str dq ++ str "unreal" ++ str dq
           ++ str ", " ++ str dq ++ str "zesarux" ++ str dq ++ str ", " ++ str dq ++ str "mame" ++ str dq
           ++ str ", " ++ str dq ++ str "fuse" ++ str dq ++ str ")")) (Some (aft p)) W_EARLY) ;;
      mret BPSF_UNREAL
  | (keyword, type) :: kinds =>
      found ← cmphstr_lp keyword;
      if found : bool then mret type else breakpoints_kind kinds
  end.

(** The file is opened in the second pass and filled in the last one. *)
Definition dirBPLIST : M St unit :=
  s ← gets st;
  if negb (pass (src s) =? 2) || negb (has_device s) then
    mwhen (pass (src s) =? 2)
      (Error "BPLIST only allowed in real device emulation mode (See DEVICE)" None EARLY) ;;
    SkipToEol_lp
  else
    fName ← GetOutputFileName_lp;
    type ← breakpoints_kind breakpoint_kinds;
    OpenBreakpointsFile fName type.

(** The condition with the delimiter it has. *)
Definition condition_lp : M St (list ascii * EDelimiterType) :=
  lpm (fun p => '(l, dt, p) ← GetDelimitedStringEx p; mret ((l, dt), p)).
Definition not_condition (p : text) : bool :=
  bool_decide (fst (DelimiterAnyBegins p false) = DT_NONE).

(** The address, [here] when it is left out, and the condition; [None] after a syntax error. *)
Definition breakpoint_args (here : Z) : M St (option (Z * (list ascii * EDelimiterType))) :=
  eol ← SkipBlanks_lp;
  p ← get_lp;
  if negb eol && not_condition p then
    '(ok, val) ← ParseExpressionNoSyntaxError_lp;
    if negb ok then Error_bp "[SETBREAKPOINT] Syntax error" SUPPRESS ;; mret None
    else
      more ← anyComma_lp;
      eol ← (if more : bool then SkipBlanks_lp else mret (M := M St) true);
      p ← get_lp;
      if negb eol && negb (not_condition p)
      then c ← condition_lp; mret (Some (val, c))
      else mret (Some (val, ([], DT_NONE)))
  else c ← condition_lp; mret (Some (here, c)).

Definition dirSETBREAKPOINT : M St unit :=
  s ← gets st;
  if negb (in_last_pass s) then SkipToEol_lp
  else
    r ← breakpoint_args (CurAddress (org s));
    match (r : option (Z * (list ascii * EDelimiterType))) with
    | None => mret tt
    | Some (val, (txt, dt)) =>
        eol ← SkipBlanks_lp;
        if negb eol then Error_lp "[SETBREAKPOINT] Syntax error" SUPPRESS
        else WriteBreakpoint val
               (if bool_decide (dt = DT_NONE) || bool_decide (txt = []) then None else Some txt)
    end.
End files.
