(* ===== verification/DirCond.v ===== *)
(** * Conditional blocks, structures, macros and includes (directives.cpp, sjio.cpp)

    IF and its kin read the lines of the active branch through the line parser
    and skip the others up to ELSE, ELSEIF or ENDIF; STRUCT reads its members;
    MACRO stores the lines of its body; INCLUDE opens a file in the middle of
    another one.  [ParseLine] is the line parser, closed in [LineParser]. *)

From S2P Require Export TextFiles Structures.

(** [EReturn] (sjasm.h), as far as it is used. *)
Inductive EReturn := END | ELSE | ENDIF | ELSEIF.
#[export] Instance EReturn_eq_dec : EqDecision EReturn.
Proof. solve_decision. Defined.

Definition step_line : M St unit :=
  modify (fun s => set_CompiledCurrentLine (wrap32 (CompiledCurrentLine (src s) + 1)) s).

(** The rest of the line of a keyword that ends a block. *)
Definition finish_keyword (p : text) (list_it : bool) : M St unit :=
  step_line ;;
  p ← ReplaceDefine p;
  modify (set_lp p) ;;
  modify (set_substitutedLine None) ;;
  mwhen list_it (ListFile false).

Definition skip_dot (p : text) : text := if isc p "." then adv p else p.

(** ** Reading the active branch ([ReadFile]) *)

(** The three keywords are tried one after the other, each moving the pointer. *)
Definition end_keyword (p : text) : EReturn * text :=
  let '(a, p) := cmphstr p "elseif" false in
  let '(b, p) := cmphstr p "else" false in
  let '(c, p) := cmphstr p "endif" false in
  (if c then ENDIF else if b then ELSE else if a then ELSEIF else END, p).

(** Lines left to be read; each round of the loops below reads at least one. *)
Definition lines_left (s : St) : nat := length (lijstp (lin s)) + 2 * S (unread s).

Section parsing.
Context (limit : nat) (ParseLine : M St unit).

Fixpoint read_block (fuel : nat) : M St EReturn :=
  match fuel with
  | O => nofuel
  | S fuel =>
      ok ← ReadLine true;
      if negb ok then mret END
      else
        s ← gets st;
        let '(ret, p) := if collecting s then (END, line (par s))
                         else end_keyword (skip_dot (blanks (line (par s)))) in
        if bool_decide (ret = END) then ParseLineSafe ParseLine ;; read_block fuel
        else finish_keyword p (negb (bool_decide (ret = ENDIF))) ;; mret ret
  end.
Definition ReadFile : M St EReturn := n ← gets lines_left; read_block (S n).

(** ** Skipping an inactive branch ([SkipFile]) *)

(** [line] without a label at its start. *)
Definition skip_label (o : SSyntax) (p : text) : text :=
  let p := if isLabelStart p && negb (IsPseudoOpBOF o) then
             let q := snd (take_while islabchar p) in if isc q ":" then adv q else q
           else p in
  skip_dot (blanks p).

Definition if_keywords : list string := ["if"; "ifn"; "ifused"; "ifnused"; "ifdef"; "ifndef"]%string.
Definition opens_if (p : text) : bool := existsb (fun k => fst (cmphstr p k false)) if_keywords.

(** The lines of a lua block, with no look at their keywords. *)
Fixpoint skip_lua (fuel : nat) : M St unit :=
  match fuel with
  | O => nofuel
  | S fuel =>
      ok ← ReadLine true;
      if negb ok then mret tt
      else
        p ← gets (fun s => blanks (line (par s)));
        if fst (cmphstr p "endlua" false) then mret tt else ListFile true ;; skip_lua fuel
  end.

Definition skip_lua_block (p : text) : M St unit :=
  mwhen (fst (cmphstr p "lua" false))
    (ListFile true ;; n ← gets lines_left; skip_lua (S n)).

Fixpoint skip_block (fuel : nat) (iflevel : nat) : M St EReturn :=
  match fuel with
  | O => nofuel
  | S fuel =>
      ok ← ReadLine true;
      if negb ok then mret END
      else
        s ← gets st;
        let p := skip_label (syx (opt s)) (line (par s)) in
        let endif := cmphstr p "endif" false in
        let els := cmphstr p "else" false in
        let elseif := cmphstr p "elseif" false in
        if opens_if p then ListFile true ;; skip_block fuel (S iflevel)
        else if fst endif then
          match iflevel with
          | O => finish_keyword (snd endif) false ;; mret ENDIF
          | S iflevel => ListFile true ;; skip_block fuel iflevel
          end
        else if fst els then
          if Nat.eqb iflevel 0 then finish_keyword (snd els) true ;; mret ELSE
          else ListFile true ;; skip_block fuel iflevel
        else if fst elseif then
          if Nat.eqb iflevel 0 then finish_keyword (snd elseif) true ;; mret ELSEIF
          else ListFile true ;; skip_block fuel iflevel
        else
          skip_lua_block p ;; ListFile true ;; skip_block fuel iflevel
  end.
Definition SkipFile : M St EReturn := n ← gets lines_left; skip_block (S n) 0.

(** ** IF *)

Definition dirIfIfn : M St (bool * Z) :=
  modify (set_IsLabelNotFound false) ;;
  '(ok, val) ← ParseExpression_lp;
  if negb ok then Error_lp "[IF/IFN] Syntax error" IF_FIRST ;; mret (false, val)
  else
    s ← gets st;
    mwhen (IsLabelNotFound (par s)) (WarningById "fwdref" (Some (aft (bp (par s)))) W_EARLY) ;;
    mret (true, val).

Definition dir_error (dirName text : string) : string :=
  of_chars (str "[" ++ str dirName ++ str "] " ++ str text).

(** The branches: [val] activates the next one, [orVal] tells whether one has
    been active. *)
Fixpoint if_branches (fuel : nat) (dirName : string) (val orVal : bool) (elseCounter : nat) : M St unit :=
  match fuel with
  | O => nofuel
  | S fuel =>
      let orVal := orVal || val in
      ret ← (if val then ReadFile else SkipFile);
      match (ret : EReturn) with
      | ELSE =>
          mwhen (Nat.ltb 0 elseCounter) (Error1 (dir_error dirName "one ELSE only expected")) ;;
          if_branches fuel dirName (negb val && negb orVal) orVal (S elseCounter)
      | ELSEIF =>
          if negb val && negb orVal then
            '(ok, v) ← dirIfIfn;
            if ok : bool then if_branches fuel dirName (negb (v =? 0)) orVal elseCounter
            else if_branches fuel dirName false true elseCounter
          else if_branches fuel dirName false orVal elseCounter
      | ENDIF => mret tt
      | END =>
          running ← gets (fun s => IsRunning (lin s));
          mwhen running (Error1 (dir_error dirName "No ENDIF")) ;;
          running ← gets (fun s => IsRunning (lin s));
          modify (set_donotlist (negb running))
      end
  end.
Definition dirIfInternal (dirName : string) (val : bool) : M St unit :=
  ListFile false ;;
  n ← gets lines_left;
  if_branches (S (S n)) dirName val false 0.

Definition dirIF : M St unit :=
  '(ok, val) ← dirIfIfn; mwhen ok (dirIfInternal "IF" (negb (val =? 0))).
Definition dirIFN : M St unit :=
  '(ok, val) ← dirIfIfn; mwhen ok (dirIfInternal "IFN" (val =? 0)).

(** The label of IFUSED: the last parsed one when there is no argument. *)
Definition dirIfusedIfnused : M St (option (list ascii)) :=
  eol ← SkipBlanks_lp;
  id ←
    (if eol : bool then
       s ← gets st;
       mwhen (negb (bool_decide (is_Some (LastParsedLabel (lin s)))))
         (Error1 "[IFUSED/IFNUSED] no label defined ahead") ;;
       mret (LastParsedLabel (lin s))
     else
       p ← get_lp;
       '(_, validLabel) ← ValidateLabel p false true;
       (if bool_decide (is_Some validLabel)
        then modify (fun s => set_lp (snd (take_while islabchar (lp (par s)))) s)
        else SkipToEol_lp) ;;
       mret validLabel);
  match (id : option (list ascii)) with
  | None => mret None
  | Some id => eol ← SkipBlanks_lp; mret (if eol : bool then Some id else None)
  end.

Definition if_used (dirName : string) (f : bool → bool) : M St unit :=
  id ← dirIfusedIfnused;
  match (id : option (list ascii)) with
  | None => mret tt
  | Some id => s ← gets st; dirIfInternal dirName (f (CLabelTable_IsUsed (of_chars id) s))
  end.
Definition dirIFUSED : M St unit := if_used "IFUSED" id.
Definition dirIFNUSED : M St unit := if_used "IFNUSED" negb.

Definition if_defined (dirName : string) (f : bool → bool) : M St unit :=
  id ← GetID_lp;
  match (id : option (list ascii)) with
  | Some ((_ :: _) as id) =>
      s ← gets st; dirIfInternal dirName (f (CDefineTable_FindDuplicate (defs (tab s)) id))
  | _ => Error_bp (dir_error dirName "Illegal identifier") PASS3
  end.
Definition dirIFDEF : M St unit := if_defined "IFDEF" id.
Definition dirIFNDEF : M St unit := if_defined "IFNDEF" negb.

(** An ELSE or ENDIF of a block opened outside of the repeated block that is
    being assembled ends that block. *)
Definition dirElseCheckLiveDup : M St unit :=
  s ← gets st;
  match top_dup s with
  | None => mret tt
  | Some dup =>
      mwhen (IsInWork dup)
        (Error1 "Conditional block must start and finish inside the repeat block, nested completely" ;;
         modify (set_lijstp []) ;;
         modify (upd_top (with_count 0)))
  end.
Definition dirELSE : M St unit :=
  dirElseCheckLiveDup ;; Error1 "ELSE without IF/IFN/IFUSED/IFNUSED/IFDEF/IFNDEF".
Definition dirELSEIF : M St unit := dirElseCheckLiveDup ;; Error1 "ELSEIF without IF/IFN".
Definition dirENDIF : M St unit :=
  dirElseCheckLiveDup ;; Error1 "ENDIF without IF/IFN/IFUSED/IFNUSED/IFDEF/IFNDEF".

(** ** STRUCT *)

(** The lines up to [ends]; the table follows the structure being defined. *)
Fixpoint struct_lines (fuel : nat) (st : option CStructure) : M St unit :=
  let finish := match st with Some x => deflab x | None => mret tt end in
  match fuel with
  | O => nofuel
  | S fuel =>
      ok ← ReadLine true;
      if negb ok then Error1 "[STRUCT] Unexpected end of structure" ;; finish
      else
        l ← gets (fun s => line (par s));
        let '(ends, p) := cmphstr (skip_dot (blanks l)) "ends" false in
        modify (set_lp p) ;;
        if ends : bool then
          step_line ;;
          finish ;;
          p ← get_lp;
          p ← ReplaceDefine p;
          modify (set_lp p) ;;
          modify (set_substitutedLine None)
        else
          st ← match st with
               | Some x =>
                   x ← ParseStructLine limit ParseLine x;
                   modify (update_structure x) ;; mret (Some x)
               | None => mret None
               end;
          ListFile true ;;
          struct_lines fuel st
  end.

(** The offset argument; [None] ends the directive. *)
Definition struct_offset : M St (option Z) :=
  more ← comma_lp;
  if negb more then mret (Some 0)
  else
    modify (set_IsLabelNotFound false) ;;
    '(ok, offset) ← ParseExpressionNoSyntaxError_lp;
    if negb ok then Error_lp "[STRUCT] Offset syntax error" SUPPRESS ;; mret None
    else
      nf ← gets (fun s => IsLabelNotFound (par s));
      mwhen nf (Error "[STRUCT] Forward reference" None EARLY) ;;
      mret (Some offset).

Definition dirSTRUCT : M St unit :=
  _ ← SkipBlanks_lp;
  p ← get_lp;
  '(_, validLabel) ← ValidateLabel p false true;
  match (validLabel : option (list ascii)) with
  | None => SkipToEol_lp
  | Some name =>
      modify (fun s => set_lp (snd (take_while islabchar (lp (par s)))) s) ;;
      offset ← struct_offset;
      match (offset : option Z) with
      | None => mret tt
      | Some offset =>
          eol ← SkipBlanks_lp;
          mwhen (negb eol) (Error_lp "[STRUCT] syntax error, unexpected" PASS3) ;;
          st ← CStructureTable_Add name offset;
          ListFile false ;;
          n ← gets lines_left;
          struct_lines (S n) st
      end
  end.

(** ** MACRO *)

(** The name is the label of the line, or the first argument. *)
Definition dirMACRO : M St unit :=
  s ← gets st;
  if negb (lijst (lin s) =? 0) then Error "[MACRO] No macro definitions allowed here" None SUPPRESS
  else
    let labelName := LastParsedLabelLine (lin s) =? CompiledCurrentLine (src s) in
    massert (negb labelName || bool_decide (is_Some (LastParsedLabel (lin s)))) ;;
    let source := if labelName then mk_text [] (default [] (LastParsedLabel (lin s)))
                  else lp (par s) in
    let '(n, p) := GetID source in
    match n with
    | Some n =>
        if negb (isc p NUL) && negb (White (cur p)) then
          Error "[MACRO] Illegal macroname" (Some (aft source)) PASS3 ;; SkipToEol_lp
        else mwhen (negb labelName) (modify (set_lp p)) ;; CMacroTable_Add n
    | None => Error "[MACRO] Illegal macroname" (Some (aft source)) PASS3 ;; SkipToEol_lp
    end.

(** ** INCLUDE *)

Section files.
Context `{FileSystem}.

Definition Replace_define (name : string) (value : list ascii) : M St unit :=
  _ ← CDefineTable_Replace_str (str name) value; mret tt.
Definition Replace_define_int (name : string) (value : Z) : M St unit :=
  Replace_define name (fmt_d value).

Definition list_note (text : list ascii) : M St unit :=
  s ← gets st;
  mwhen (LASTPASS =? pass (src s))
    (modify (set_listing ((fun l => l ++ [text ++ [LF]]) <$> listing (lin s)))).

(** The new source position, and the defines that depend on the file. *)
Definition enter_file (f : SInputFile) (data : list Z) : M St unit :=
  modify (set_FP_Input (char_of <$> data)) ;;
  modify (fun s => set_sourceBlockLevel (sourceBlockLevel (src s) + 2) s) ;;
  modify (set_fileNameFull (Some f)) ;;
  modify (fun s => set_sourcePosStack (sourcePosStack (src s) ++
    [{| filename := in_str f; pos_line := 0; colBegin := 0; colEnd := 0 |}]) s) ;;
  s ← gets st;
  Replace_define_int "__INCLUDE_LEVEL__" (IncludeLevel (src s)) ;;
  Replace_define "__FILE__" (str (in_str f)) ;;
  mwhen (IncludeLevel (src s) =? 0) (Replace_define "__BASE_FILE__" (str (in_str f))) ;;
  mwhen ((IncludeLevel (src s) =? 0) && IsDefaultListingName (tex s)) (OpenDefaultList f) ;;
  list_note (str "# file opened: " ++ str (in_str f)) ;;
  modify (fun s => set_blockComment 0 (set_colonSubline false (set_rlpbuf [] s))).

Definition leave_file (f : SInputFile) (oFileNameFull : option SInputFile) (osldSwapSrcPos : Z) : M St unit :=
  SizeBoundary BOUNDARY_MAIN ;;
  modify (fun s => set_sourceBlockLevel (sourceBlockLevel (src s) - 2) s) ;;
  s ← gets st;
  mwhen (negb (osldSwapSrcPos =? sldSwapSrcPos (lin s)) && negb (IncludeLevel (src s) =? 0))
    (WarningById "sldswap" (Some (str (in_str f))) W_PASS3) ;;
  list_note (str "# file closed: " ++ str (in_str f)) ;;
  mwhen ((LASTPASS =? pass (src s)) && (IncludeLevel (src s) =? 0) && IsDefaultListingName (tex s)
         && negb (IsListingStderr (tex s)) && bool_decide (is_Some (listing (lin s))))
    (mwhen (AddLabelListing (tex s)) Dump ;; close_listing) ;;
  pos ← back_pos;
  modify (fun s => set_IncludeLevel (IncludeLevel (src s) - 1)
    (set_maxlin (Z.max (maxlin (lin s)) (pos_line pos))
      (set_sourcePosStack (removelast (sourcePosStack (src s)))
        (set_fileNameFull oFileNameFull s)))) ;;
  s ← gets st;
  Replace_define_int "__INCLUDE_LEVEL__" (IncludeLevel (src s)) ;;
  Replace_define "__FILE__"
    (match fileNameFull (lin s) with Some f => str (in_str f) | None => str "<none>" end) ;;
  mwhen (IncludeLevel (src s) =? -1) (Replace_define "__BASE_FILE__" (str "<none>")).

(** At most 21 files deep; the file is read to its end (or to END). *)
Definition OpenFile (f : SInputFile) : M St unit :=
  modify (fun s => set_IncludeLevel (IncludeLevel (src s) + 1) s) ;;
  s ← gets st;
  let failed message bad :=
    Error message bad ALL ;;
    modify (fun s => set_IncludeLevel (IncludeLevel (src s) - 1) s) in
  if 20 <? IncludeLevel (src s) then failed "Over 20 files nested"%string None
  else match content_of (in_full f) s with
  | None => failed "opening file"%string (Some (str (in_str f)))
  | Some data =>
      enter_file f data ;;
      swap ← gets (fun s => sldSwapSrcPos (lin s));
      ReadBufLine_parse ParseLine ;;
      leave_file f (fileNameFull (lin s)) swap
  end.

(** The reader of the outer file goes on where it was. *)
Definition IncludeFile (f : SInputFile) : M St unit :=
  s ← gets st;
  mwhen (negb (blockComment (lin s) =? 0)) (Error "Internal error 'block comment'" None FATAL) ;;
  OpenFile f ;;
  modify (set_colonSubline (colonSubline (lin s))) ;;
  modify (set_rlpbuf (rlpbuf (lin s))) ;;
  modify (set_FP_Input (FP_Input (lin s))).

Definition dirINCLUDE : M St unit :=
  fnaam ← GetInputFile_lp;
  if has_filename (in_full fnaam) then
    ListFile false ;; IncludeFile fnaam ;; modify (set_donotlist true)
  else Error_bp "[INCLUDE] empty filename" PASS3.
End files.
End parsing.
