(* ===== verification/LineParser.v ===== *)
(** * The line parser (parser.cpp, directives.cpp)

    Labels, the [#line] directive, macros and structure instances, the table of
    directives and the dot-repeater; [ParseLine] ties the knot: directives and
    macros parse lines themselves.  The depth of that nesting is the fuel. *)

From S2P Require Export DirCond Trd Tape Snapshot Nex OpTable.

(** ** Labels *)

Definition SetLastParsedLabel (label : option (list ascii)) : M St unit :=
  s ← gets st;
  match label with
  | Some l => modify (set_LastParsedLabel (Some l)) ;;
              modify (set_LastParsedLabelLine (CompiledCurrentLine (src s)))
  | None => modify (set_LastParsedLabel None) ;; modify (set_LastParsedLabelLine 0)
  end.

(** [atoi] of a list of digits: [strtol] saturates, the result is cut to [int]. *)
Definition atoi (l : list ascii) : Z :=
  wrap32 (Z.min (fold_left (fun v c => v * 10 + (code c - 48)) l 0) (2 ^ 63 - 1)).

(** The column that marks an unresolved record. *)
Definition unresolved : Z := 2 ^ 32 - 1.
Definition with_colBegin (n : Z) (q : TextFilePos) : TextFilePos :=
  {| filename := filename q; pos_line := pos_line q; colBegin := n; colEnd := colEnd q |}.

(** The label "name+*": the offset found by the previous pass, 1 in the first
    pass and when something fails. *)
Definition smart_offset : M St Z :=
  here ← back_pos;
  s ← gets st;
  let i := Z.to_nat (smartSmcIndex (src s)) in
  offset ←
    (if pass (src s) =? 1 then
       modify (set_smartSmcLines (smartSmcLines (src s) ++ [with_colBegin unresolved here])) ;; mret 1
     else match smartSmcLines (src s) !! i with
     | Some q =>
         if negb (same_position q here) then
           Error1 "mismatch of smart-SMC positions between passes" ;; mret 1
         else if colBegin q =? unresolved then
           Error1 "unresolved smart-SMC symbol (no significant target)" ;; mret 1
         else
           modify (set_smartSmcLines (<[i := with_colBegin unresolved q]> (smartSmcLines (src s)))) ;;
           mret (wrap32 (colBegin q))
     | None => Error1 "mismatch of smart-SMC positions between passes" ;; mret 1
     end);
  modify (fun s => set_smartSmcIndex (smartSmcIndex (src s) + 1) s) ;;
  mret offset.

(** What follows the name: "+<digit>" or "+*", then an optional colon. *)
Definition label_offset : M St Z :=
  p ← get_lp;
  let digit := isc p "+" && isdigit (pk p 1) && negb (isalnum (pk p 2)) in
  let smcOffset := if digit then code (pk p 1) - 48 else 0 in
  let p := if digit then advn 2 p else p in
  modify (set_lp p) ;;
  offset ← (if isc p "+" && isn p 1 "*" && negb (isalnum (pk p 2))
            then modify (set_lp (advn 2 p)) ;; smart_offset
            else mret smcOffset);
  modify (fun s => let p := lp (par s) in if isc p ":" then set_lp (adv p) s else s) ;;
  mret offset.

Definition label_name_char (c : ascii) : bool :=
  negb (White c) && negb (Ascii.eqb c ":") && negb (Ascii.eqb c "=") && negb (Ascii.eqb c "+").

Definition temporary_label (name : list ascii) (smcOffset : Z) : M St unit :=
  if negb (smcOffset =? 0) then Error1 "Temporary label can't use SMC-offset"
  else if negb (forallb isdigit name) then
    Error "Invalid temporary label (not a number)" (Some name) PASS3
  else
    equ ← lpf NeedEQU;
    defl ← (if equ : bool then mret (M := M St) true else lpf NeedDEFL);
    if defl : bool then
      Error "Number labels are allowed as address labels only, not for DEFL/=/EQU" (Some name) SUPPRESS
    else
      ok ← InsertRefresh (atoi name);
      mwhen (negb ok)
        (Error1 "Temporary labels flow differs in last pass (missing/new temporary label since previous pass)").

(** The value of DEFL and EQU, and the page an EQU may name. *)
Definition equ_value_page (IsDEFL IsEQU : bool) : M St (Z * Z) :=
  modify (set_isResultAffected false) ;;
  '(ok, val) ← ParseExpressionNoSyntaxError_lp;
  mwhen (negb ok) (Error_lp "Expression error" PASS3) ;;
  let val := if (ok : bool) then val else 0 in
  nf ← gets (fun s => IsLabelNotFound (par s));
  mwhen (nf && IsDEFL) (Error "Forward reference" None EARLY) ;;
  more ← (if IsEQU then comma_lp else mret false);
  page ← (if more : bool then
            '(ok, page) ← ParseExpressionNoSyntaxError_lp;
            mwhen (negb ok) (Error_lp "Expression error" PASS3) ;;
            mret (if (ok : bool) then page else LABEL_PAGE_UNDEFINED)
          else mret (M := M St) LABEL_PAGE_UNDEFINED);
  eol ← SkipBlanks_lp;
  mwhen (negb eol) (Error_lp "Unexpected" PASS3 ;; SkipToEol_lp) ;;
  mret (val, page).

Definition touch (p : Z) (e : SLabelTableEntry) : SLabelTableEntry :=
  {| value := value e; ph_value := ph_value e; size := size e; page := page e;
     ph_page := ph_page e; traits := traits e; updatePass := p; used := used e;
     isRelocatable := isRelocatable e |}.

Definition trace_label (raw label : list ascii) (e : SLabelTableEntry) (val page : Z) (IsEQU : bool) : M St unit :=
  WriteToSldFile page val (if IsEQU then "D" else "F")%char label ;;
  text ← ExportLabelToSld raw e;
  WriteToSldFile page val "L" text.

(** The last pass: the label has to be there, with the same value. *)
Definition check_label (raw name : list ascii) (val traits equPageNum : Z) (IsDEFL IsEQU : bool) : M St bool :=
  let key := of_chars name in
  s ← gets st;
  mwhen (IsDEFL && negb (bool_decide (is_Some (CLabelTable_Find key true s))))
    (_ ← CLabelTable_Insert key val traits LABEL_PAGE_UNDEFINED; mret tt) ;;
  s ← gets st;
  match CLabelTable_Find key true s with
  | None => Error "Label not found" (Some name) PASS3 ;; mret false
  | Some e =>
      (if IsDEFL then _ ← CLabelTable_Insert key val traits LABEL_PAGE_UNDEFINED; mret tt
       else mwhen (IsSldExportActive s)
              (trace_label raw name e val (if IsEQU then equPageNum else page e) IsEQU)) ;;
      s ← gets st;
      match symbol key s with
      | None => undef
      | Some e =>
          (if negb (val =? value e) then
             Warning "Label has different value in pass 3"
               (Some (str "previous value " ++ digits 10 (u32 (value e)) ++ str " not equal "
                      ++ digits 10 (u32 val))) W_PASS3 ;;
             _ ← CLabelTable_Update key val; mret tt
           else modify (put_symbol key (touch (pass (src s)) e))) ;;
          mret true
      end
  end.

Definition enter_label (raw name : list ascii) (val traits equPageNum : Z) (IsDEFL IsEQU : bool) : M St bool :=
  let key := of_chars name in
  s ← gets st;
  if pass (src s) =? LASTPASS then check_label raw name val traits equPageNum IsDEFL IsEQU
  else
    inserted ← (if (pass (src s) =? 2) || (pass (src s) =? 1)
                then CLabelTable_Insert key val traits equPageNum else mret true);
    (if inserted : bool then mret tt
     else if pass (src s) =? 2 then ok ← CLabelTable_Update key val; massert ok
     else Error "Duplicate label" (Some name) EARLY) ;;
    mret true.

(** The label in the tables, the boundary of the SIZEOF tracking at it. *)
Definition define_label (raw : list ascii) (val smcOffset equPageNum : Z) (IsDEFL IsEQU : bool) : M St unit :=
  let val := wrap32 (val + smcOffset) in
  '(isLocal, name) ← ValidateLabel (mk_text [] raw) true false;
  match (name : option (list ascii)) with
  | None => mret tt
  | Some name =>
      mwhen (negb IsDEFL) (SetLastParsedLabel (Some name)) ;;
      let flag (b : bool) t := if b then t else 0 in
      let traits := Z.lor (flag isLocal LABEL_IS_LOCAL) (Z.lor (flag IsEQU LABEL_IS_EQU)
                      (Z.lor (flag IsDEFL LABEL_IS_DEFL) (flag (negb (smcOffset =? 0)) LABEL_IS_SMC))) in
      ok ← enter_label raw name val traits equPageNum IsDEFL IsEQU;
      if negb ok then mret tt
      else
        s ← gets st;
        match CLabelTable_Find (of_chars name) true s with
        | None => undef
        | Some e =>
            SizeBoundary (if isLocal : bool then BOUNDARY_LOCAL else BOUNDARY_MAIN) ;;
            mwhen (has (State.traits e) LABEL_HAS_SIZE) (TrackForSize (of_chars name))
        end
  end.

(** ** The parser of a line *)

(** The repeated line is the rest of the line behind a blank; the comment of
    the line stays for its first parse. *)
Fixpoint repeat_line (n : nat) (ParseLine : M St unit) (rest : list ascii) : M St unit :=
  match n with
  | O => mret tt
  | S n =>
      modify (set_line (mk_text [] (" "%char :: take (Z.to_nat (LINEMAX - 2)) rest))) ;;
      ParseLineSafe ParseLine ;;
      modify (set_eolComment None) ;;
      repeat_line n ParseLine rest
  end.

(** [lines n] inside a repeated line. *)
Definition dot_repeat (val : Z) (ParseLine : M St unit) : M St unit :=
  ml ← gets (fun s => line (par s));
  _ ← SkipBlanks_lp;
  pp ← get_lp;
  modify (fun s => set_listmacro (listmacro (lin s) + 1) s) ;;
  repeat_line (Z.to_nat val) ParseLine (aft pp) ;;
  modify (set_line ml) ;;
  modify (fun s => set_listmacro (listmacro (lin s) - 1) s) ;;
  modify (set_donotlist true) ;;
  modify (set_lp (mk_text [] [])).

(** The repeat count: digits behind the dot, or an expression in parentheses. *)
Definition repeat_count (n : list ascii) (isDigitDot : bool) : M St (option Z) :=
  p ← get_lp;
  if isDigitDot then
    if negb (White (cur p)) then mret None
    else
      '(ok, val, _) ← ParseExpression (mk_text [] (tail n));
      mret (if ok : bool then Some val else None)
  else
    modify (set_lp (adv p)) ;;
    '(ok, val) ← ParseExpression_lp;
    if negb ok then mret None
    else
      p ← get_lp;
      modify (set_lp (adv p)) ;;
      mret (if isc p ")" then Some val else None).

Definition dot_repeater (n : list ascii) (olp : text) (beginningOfLine : bool) (ParseLine : M St unit) :
    M St bool :=
  o ← syntax;
  p ← get_lp;
  let dot := Ascii.eqb (hd NUL n) "." in
  let isDigitDot := dot && isdigit (nth 1 n NUL) in
  let isExprDot := dot && Nat.eqb (length n) 1 && isc p "(" in
  if (beginningOfLine && negb (IsPseudoOpBOF o)) || (negb isDigitDot && negb isExprDot)
  then modify (set_lp olp) ;; mret false
  else
    val ← repeat_count n isDigitDot;
    match (val : option Z) with
    | None =>
        modify (set_lp olp) ;;
        Error "Dot-repeater must be followed by number or parentheses" (Some (aft olp)) SUPPRESS ;;
        mret false
    | Some val =>
        if val <? 1 then
          modify (set_lp olp) ;;
          ErrorInt ".N must be positive integer" val SUPPRESS ;; mret false
        else dot_repeat val ParseLine ;; mret true
    end.

Section parsing.
Context `{FileSystem} (limit : nat) (other : string → M St unit) (ParseLine : M St unit).

(** Directives whose handlers are not modelled (Lua scripts and shell commands):
    [other] stands for them. *)
Definition unmodelled : list string := [".shellexec"; ".lua"; ".endlua"; ".includelua"]%string.

(** The table of [InsertDirectives]. *)
Definition modelled_directives : list (string * M St unit) := [
  (".assert", dirASSERT); (".byte", dirBYTE); (".abyte", dirABYTE); (".abytec", dirABYTEC);
  (".abytez", dirABYTEZ); (".word", dirWORD); (".block", dirBLOCK); (".dword", dirDWORD);
  (".d24", dirD24); (".dg", dirDG); (".defg", dirDG); (".dh", dirDH); (".defh", dirDH);
  (".hex", dirDH); (".org", dirORG); (".fpos", dirFPOS); (".align", dirALIGN);
  (".module", dirMODULE); (".size", dirSIZE); (".textarea", dirDISP); (".else", dirELSE);
  (".elseif", dirELSEIF); (".export", dirEXPORT); (".display", dirDISPLAY); (".end", dirEND);
  (".include", dirINCLUDE ParseLine); (".incbin", dirINCBIN); (".binary", dirINCBIN);
  (".inchob", dirINCHOB); (".insert", dirINCBIN); (".savehob", dirSAVEHOB);
  (".savebin", dirSAVEBIN); (".savedev", dirSAVEDEV); (".save3dos", dirSAVE3DOS);
  (".saveamsdos", dirSAVEAMSDOS); (".savehex", dirSAVEHEX); (".if", dirIF ParseLine);
  (".ifn", dirIFN ParseLine); (".ifused", dirIFUSED ParseLine);
  (".ifnused", dirIFNUSED ParseLine); (".ifdef", dirIFDEF ParseLine);
  (".ifndef", dirIFNDEF ParseLine); (".hexout", dirHEXOUT); (".hexend", dirHEXEND);
  (".output", dirOUTPUT); (".outend", dirOUTEND); (".tapout", dirTAPOUT);
  (".tapend", dirTAPEND); (".define", dirDEFINE); (".undefine", dirUNDEFINE);
  (".defarray", dirDEFARRAY); (".macro", dirMACRO); (".struct", dirSTRUCT limit ParseLine);
  (".dc", dirDC); (".dz", dirDZ); (".db", dirBYTE); (".dm", dirBYTE); (".dp", dirDP);
  (".dw", dirWORD); (".ds", dirBLOCK); (".dd", dirDWORD); (".defb", dirBYTE);
  (".defp", dirDP); (".defw", dirWORD); (".defs", dirBLOCK); (".defd", dirDWORD);
  (".defm", dirBYTE); (".endmod", dirENDMODULE); (".endmodule", dirENDMODULE);
  (".rept", dirDUP); (".dup", dirDUP); (".while", dirWHILE); (".disp", dirDISP);
  (".phase", dirDISP); (".ent", dirENT); (".unphase", dirENT); (".dephase", dirENT);
  (".page", dirPAGE); (".slot", dirSLOT); (".mmu", dirMMU); (".encoding", dirENCODING);
  (".opt", dirOPT); (".endif", dirENDIF); (".endt", dirENT); (".endm", dirENDM ParseLine);
  (".edup", dirEDUP ParseLine); (".endr", dirEDUP ParseLine); (".endw", dirEDUP ParseLine);
  (".ends", Error1 "[ENDS] End structure without structure"); (".device", dirDEVICE);
  (".defdevice", dirDEFDEVICE); (".relocate_start", dirRELOCATE_START);
  (".relocate_end", dirRELOCATE_END); (".relocate_table", dirRELOCATE_TABLE);
  (".sldopt", dirSLDOPT); (".inctrd", dirINCTRD); (".emptytrd", dirEMPTYTRD);
  (".savetrd", dirSAVETRD); (".emptytap", dirEMPTYTAP); (".savetap", dirSAVETAP);
  (".savesna", dirSAVESNA);
  (".savecpcsna", dirSAVECPCSNA); (".savecdt", dirSAVECDT); (".savecpr", dirSAVECPR);
  (".savenex", dirSAVENEX); (".labelslist", dirLABELSLIST); (".cspectmap", dirCSPECTMAP);
  (".bplist", dirBPLIST); (".setbreakpoint", dirSETBREAKPOINT); (".setbp", dirSETBREAKPOINT) ]%string.
Definition directives : list (string * M St unit) :=
  modelled_directives ++ ((fun n => (n, other n)) <$> unmodelled).

Definition DirectivesTable : list (list ascii * M St unit) := insertd_all directives.

(** END at the beginning of a line is no directive. *)
Definition ParseDirective (beginningOfLine : bool) : M St bool :=
  olp ← get_lp;
  if beginningOfLine && (fst (cmphstr olp "end" false) || fst (cmphstr olp ".end" false))
  then mret false
  else
    modify (set_bp olp) ;;
    o ← syntax;
    n ← lpf (getinstr o);
    match n with
    | None => modify (set_lp olp) ;; mret false
    | Some n =>
        match CFunctionTable_zoek n DirectivesTable with
        | Some f => f ;; mret true
        | None => dot_repeater n olp beginningOfLine ParseLine
        end
    end.

(** *** #line *)

Definition newFile (name : string) : TextFilePos :=
  {| filename := name; pos_line := 0; colBegin := 0; colEnd := 0 |}.

(** The optional name of a fake file; [false] when it is empty. *)
Definition fake_file (p : text) : M St bool :=
  let '(eol, q) := SkipBlanks p in
  if negb (White (cur p)) || eol then mret true
  else
    '(name, _, _) ← GetDelimitedStringEx q;
    if bool_decide (name = []) then Error "#line: empty filename" None SUPPRESS ;; mret false
    else
      f ← GetInputFile name DT_COUNT;
      set_back (newFile (in_str f)) ;;
      Replace_define "__FILE__" (str (in_str f)) ;;
      list_note (str "# fake file name: " ++ str (in_str f)) ;;
      mret true.

Definition set_line_number (linenum : Z) : M St unit :=
  q ← back_pos;
  set_back {| filename := filename q; pos_line := linenum - 1; colBegin := 0; colEnd := 0 |}.

Definition ParseCppLineDirective (p : text) : M St bool :=
  let '(eol, p) := SkipBlanks p in
  let '(is_line, p) := cmphstr p "line" false in
  let '(eol2, p) := SkipBlanks p in
  if eol || negb is_line || eol2 then mret false
  else
    here ← back_pos;
    s ← gets st;
    if negb (lijst (lin s) =? 0) then
      Error "#line does not work inside macro/dup/lua block" None SUPPRESS ;; mret false
    else
      let '(digits, q) := take_while isdigit p in
      let linenum := if isdigit (cur p) then atoi digits else -1 in
      if linenum <=? 0 then
        Error "#line: positive integer expected" (Some (aft p)) SUPPRESS ;; mret false
      else
        modify (set_maxlin (Z.max (Z.max (maxlin (lin s)) (pos_line here)) linenum)) ;;
        ListFile true ;;
        modify (set_donotlist true) ;;
        ok ← fake_file q;
        if negb ok then mret false
        else set_line_number linenum ;; SkipToEol_lp ;; mret true.

(** *** Labels at the start of the line *)

(** "::" and ":.:" end the size tracking of main and local labels. *)
Definition sizeof_tag : M St bool :=
  p ← get_lp;
  let isLocal := isn p 1 "." in
  let n := if isLocal then 2%nat else 1%nat in
  if isc p ":" && isn p n ":" then
    SizeBoundary (if isLocal then BOUNDARY_LOCAL else BOUNDARY_MAIN) ;;
    modify (set_lp (advn (S n) p)) ;;
    mret true
  else mret false.

(** The label of a structure instance. *)
Definition structure_instance (raw : list ascii) (smcOffset : Z) : M St bool :=
  p ← get_lp;
  let p := blanks p in
  let gl := isc p "@" in
  let '(n, p) := GetID (if gl then adv p else p) in
  match n with
  | None => mret false
  | Some n =>
      '(emitted, p) ← CStructureTable_Emit limit ParseLine n (Some raw) p gl;
      if negb emitted then mret false
      else
        mwhen (negb (smcOffset =? 0)) (Error1 "Structure instance can't use SMC-offset") ;;
        modify (set_lp p) ;;
        _ ← ValidateLabel (mk_text [] raw) true false;
        mret true
  end.

Definition regular_label (raw : list ascii) (smcOffset : Z) : M St unit :=
  macro ← lpf isMacroNext;
  if macro : bool then
    if negb (smcOffset =? 0) then Error1 "Macro name can't use SMC-offset"
    else SetLastParsedLabel (Some raw)
  else
    IsDEFL ← lpf NeedDEFL;
    IsEQU ← lpf NeedEQU;
    if IsDEFL || IsEQU then
      '(val, page) ← equ_value_page IsDEFL IsEQU;
      define_label raw val smcOffset page IsDEFL IsEQU
    else
      instance ← structure_instance raw smcOffset;
      if instance : bool then mret tt
      else
        adr ← gets (fun s => CurAddress (org s));
        define_label raw adr smcOffset LABEL_PAGE_UNDEFINED false false.

(** A name starts at the pointer: temporary labels are numbers. *)
Definition parse_label_name : M St unit :=
  raw ← lpf (take_while (fun c => negb (Ascii.eqb c NUL) && label_name_char c));
  smcOffset ← label_offset;
  _ ← SkipBlanks_lp;
  modify (set_IsLabelNotFound false) ;;
  if isdigit (hd NUL raw) then temporary_label raw smcOffset else regular_label raw smcOffset.

Definition ParseLabel : M St unit :=
  p ← get_lp;
  if White (cur p) then mret tt
  else
    line_dir ← (if isc p "#" then ParseCppLineDirective (adv p) else mret false);
    if line_dir : bool then mret tt
    else
      tag ← sizeof_tag;
      if tag : bool then mret tt
      else
        o ← syntax;
        done ← (if IsPseudoOpBOF o then ParseDirective true else mret false);
        if done : bool then
          eol ← SkipBlanks_lp; mwhen (negb eol) (Error_lp "Unexpected" PASS3)
        else parse_label_name.

(** *** Macros, structures and instructions *)

(** A name with "@" in front is no macro. *)
Definition ParseMacro : M St bool :=
  p ← get_lp;
  let p := blanks p in
  let gl := isc p "@" in
  let '(n, p) := GetID (if gl then adv p else p) in
  match n with
  | None => mret false
  | Some n =>
      '(r, p) ← (if gl then mret (0, p) else CMacroTable_Emit ParseLine n p);
      if r =? 2 then mret true
      else if r =? 1 then modify (set_lp p) ;; mret false
      else
        '(emitted, p) ← CStructureTable_Emit limit ParseLine n None p gl;
        mwhen emitted (modify (set_lp p)) ;; mret emitted
  end.

Definition ParseInstruction : M St unit :=
  modify (fun s => let p := lp (par s) in if isc p "@" then set_lp (adv p) s else s) ;;
  done ← ParseDirective false;
  if done : bool then mret tt else GetOpCode.

(** A line that is empty once prepared: listed as skipped when the source line
    was not. *)
Definition list_empty_line : M St unit :=
  s ← gets st;
  let p := blanks (line (par s)) in
  let comment := isc p ";" || (isc p "/" && isn p 1 "/") in
  ListFile ((negb comment && negb (isc p NUL)) || negb (comlin (lin s) =? 0)).

Definition parse_rest (m : M St unit) : M St unit :=
  eol ← SkipBlanks_lp; mwhen (negb eol) m.

(** One line with [ParseLine] for the lines nested in it. *)
Definition ParseLine_body : M St unit :=
  done ← PrepareLine ParseLine;
  if done : bool then mret tt
  else
    s ← gets st;
    mwhen (bool_decide (is_Some (eolComment (src s))) && IsSldExportActive s) SldTrackComments ;;
    p ← get_lp;
    if isc p NUL then list_empty_line
    else
      ParseLabel ;;
      parse_rest (_ ← ParseMacro; mret tt) ;;
      parse_rest ParseInstruction ;;
      parse_rest (Error_lp "Unexpected" PASS3) ;;
      ListFile false.
End parsing.

(** [depth] bounds the nesting of lines in lines, [limit] the members of a
    structure. *)
Fixpoint ParseLine `{FileSystem} (limit : nat) (other : string → M St unit) (depth : nat) : M St unit :=
  match depth with
  | O => nofuel
  | S depth => ParseLine_body limit other (ParseLine limit other depth)
  end.
