(* ===== verification/Driver.v ===== *)
(** * Passes over the sources (sjasm.cpp)

    [InitPass], the assembly of a list of source files in one pass, the three passes of
    [main], the tables dumped behind them, and the end of the program, by [ExitASM] too. *)

From S2P Require Export LineParser.

(** ** The options fixed by the command line *)

(** --syntax and its kin as they were when the first pass started, the definitions
    of -D with __DATE__ and __TIME__, and the encoding. *)
Record CommandLine := mk_command_line {
  systemSyntax : SSyntax;
  CmdDefineTable : gmap Z (list CDefineTableEntry);
  base_encoding : EEncoding;
  HEXFName : list ascii;
  VERSION : list ascii;
  VERSION_NUM : list ascii
}.

Section driver.
Context `{FileSystem} (cmd : CommandLine).

(** [CDefineTable::operator=]: the definitions of the other table are added one
    by one, each bucket from its newest definition. *)
Definition CDefineTable_assign (t : gmap Z (list CDefineTableEntry)) : M St unit :=
  CDefineTable_RemoveAll ;;
  for_each (upto 128) (fun b =>
    for_each (default [] (t !! b)) (fun e => CDefineTable_Add (def_name e) (def_value e) (def_nss e))).

(** The number of digits of the line numbers. *)
Fixpoint line_digits (fuel : nat) (maxlin maxpow10 n : Z) : Z :=
  match fuel with
  | O => n
  | S fuel => if maxpow10 <=? maxlin then line_digits fuel maxlin (maxpow10 * 10) (n + 1) else n
  end.

(** The globals the pass starts with. *)
Definition reset_pass (s : St) : St :=
  let s := set_reglenwidth (line_digits 10 (maxlin (lin s)) 10 1) s in
  let s := set_ModuleName [] (set_LastParsedLabel None (set_LastParsedLabelLine 0 s)) in
  let s := set_vorlab (str "_") (set_macrolabp None (set_listmacro 0 s)) in
  let s := set_CurAddress 0 (set_CompiledCurrentLine 0 (set_smartSmcIndex 0 s)) in
  let s := set_PseudoORG DISP_NONE (set_adrdisp 0 (set_dispPageNum LABEL_PAGE_UNDEFINED s)) in
  let s := set_ListAddress 0 (set_macronummer 0 (set_lijst 0 (set_comlin 0 s))) in
  set_sldSwapSrcPos 0 (set_lijstp [] (set_someByteEmitted false s)).

(** The device that becomes global: the only one of the previous pass. *)
Definition global_device (s : St) : option CDevice :=
  if (1 <? pass (src s)) && (deviceDirectivesCount (lin s) =? 1) then head (Devices (dev s)) else None.

Definition close_devices : M St unit :=
  s ← gets st;
  let global := global_device s in
  modify (fun s => set_deviceDirectivesCount 0 (set_Device None (set_Devices [] s))) ;;
  match global with
  | None => mret tt
  | Some d =>
      modify (fun s => set_sourcePosStack (sourcePosStack (src s) ++ [globalDeviceSourcePos (lin s)]) s) ;;
      ok ← SetDevice (dev_ID d) (ZxRamTop d);
      mwhen (negb ok) (Error "Failed to re-initialize global device" (Some (dev_ID d)) FATAL) ;;
      modify (fun s => set_sourcePosStack (removelast (sourcePosStack (src s))) s)
  end.

Definition predefined_defines : M St unit :=
  s ← gets st;
  Replace_define "_SJASMPLUS" (str "1") ;;
  Replace_define "_RELEASE" (str "0") ;;
  Replace_define "_VERSION" (str "__VERSION__") ;;
  Replace_define "_ERRORS" (str "__ERRORS__") ;;
  Replace_define "_WARNINGS" (str "__WARNINGS__") ;;
  Replace_define "__SJASMPLUS__" (VERSION_NUM cmd) ;;
  Replace_define "__VERSION__" (str dq ++ VERSION cmd ++ str dq) ;;
  Replace_define_int "__ERRORS__" (ErrorCount (err s)) ;;
  Replace_define_int "__WARNINGS__" (WarningCount (err s)) ;;
  Replace_define_int "__PASS__" (pass (src s)) ;;
  Replace_define "__INCLUDE_LEVEL__" (str "-1") ;;
  Replace_define "__BASE_FILE__" (str "<none>") ;;
  Replace_define "__FILE__" (str "<none>") ;;
  Replace_define "__LINE__" (str "<dynamic value>") ;;
  Replace_define "__COUNTER__" (str "<dynamic value>") ;;
  modify (set_PredefinedCounter 0).

Definition OpenExpFile : M St unit :=
  s ← gets st;
  massert (negb (FP_ExportFile (lin s))) ;;
  let name := ExportFName (out s) in
  mwhen (has_filename name)
    (if writable name then modify (set_FP_ExportFile true) else fopen_error name ALL).

Definition InitPass : M St unit :=
  s ← gets st;
  massert (bool_decide (sourcePosStack (src s) = [])) ;;
  Relocation_InitPass ;;
  restoreSystemSyntax (systemSyntax cmd) ;;
  modify reset_pass ;;
  CStructureTable_ReInit ;;
  CMacroTable_ReInit ;;
  CMacroDefineTable_ReInit ;;
  CDefineTable_assign (CmdDefineTable cmd) ;;
  CTemporaryLabelTable_InitPass ;;
  close_devices ;;
  predefined_defines ;;
  s ← gets st;
  mwhen (LASTPASS =? pass (src s)) OpenExpFile.

(** ** The sources *)

(** The names of the operators, which a label is warned about. *)
Definition keyword_labels : list string := [
  "abs"; "and"; "exist"; "high"; "low"; "mod"; "norel"; "not"; "or"; "pair"; "shl"; "shr";
  "sizeof"; "u16"; "xor";
  "ABS"; "AND"; "EXIST"; "HIGH"; "LOW"; "MOD"; "NOREL"; "NOT"; "OR"; "PAIR"; "SHL"; "SHR";
  "SIZEOF"; "U16"; "XOR" ]%string.
Definition ReserveLabelKeywords : M St unit :=
  for_each keyword_labels (fun k =>
    _ ← CLabelTable_Insert k (-65536) (Z.lor LABEL_IS_UNDEFINED LABEL_IS_KEYWORD) LABEL_PAGE_UNDEFINED;
    mret tt).

Context (limit depth : nat) (other : string → M St unit).

Definition assemble_source (fname : list ascii) : M St unit :=
  modify (set_sourceBlockLevel (-2)) ;;
  SizeBoundary BOUNDARY_FLOW ;;
  modify (set_IsRunning true) ;;
  modify (set_ConvertEncoding (base_encoding cmd)) ;;
  f ← GetInputFile fname DT_COUNT;
  OpenFile (ParseLine limit other depth) f.

(** Blocks left open, from the innermost one. *)
Fixpoint unclosed_repeats (stack : list SRepeatStack) : M St unit :=
  match stack with
  | [] => mret tt
  | d :: stack =>
      modify (fun s => set_sourcePosStack (sourcePosStack (src s) ++ [dup_sourcePos d]) s) ;;
      Error1 "[DUP/REPT] missing EDUP/ENDR to end repeat-block" ;;
      modify (fun s => set_sourcePosStack (removelast (sourcePosStack (src s))) s) ;;
      modify (set_RepeatStack stack) ;;
      unclosed_repeats stack
  end.

Definition open_outputs : M St unit :=
  s ← gets st;
  mwhen (pass (src s) =? LASTPASS) (OpenDest OUTPUT_TRUNCATE ;; _ ← OpenHex (HEXFName cmd); mret tt).

(** One round of the loop of [main]. *)
Definition assemble_pass (sources : list (list ascii)) : M St unit :=
  modify (fun s => set_pass (pass (src s) + 1) s) ;;
  s ← gets st;
  mwhen (pass (src s) =? LASTPASS) (OpenSld sources) ;;
  InitPass ;;
  open_outputs ;;
  for_each sources assemble_source ;;
  s ← gets st;
  unclosed_repeats (RepeatStack (lin s)) ;;
  modify (fun s => if negb (PseudoORG (org s) =? DISP_NONE)
                   then set_PseudoORG DISP_NONE (set_CurAddress (adrdisp (org s)) s) else s).

(** [Close]: the module left open, then the files. *)
Definition Close : M St unit :=
  s ← gets st;
  mwhen (negb (bool_decide (ModuleName (tab s) = [])))
    (Warning "ENDMODULE missing for module" (Some (ModuleName (tab s))) W_ALL ;;
     modify (set_ModuleName [])) ;;
  CloseDest ;;
  CloseTapFile ;;
  close_exports ;;
  _ ← CloseHex (StartAddress (lin s));
  modify (fun s => match FP_RAW (out s) with
                   | Some c => set_FP_RAW None (put_file (RAWFName (out s)) c s)
                   | None => s
                   end) ;;
  close_listing ;;
  CloseSld ;;
  CloseBreakpointsFile.

(** The name of the main output when none was given. *)
Definition default_destination (sources : list (list ascii)) (s : St) : St :=
  if bool_decide (DestinationFName (out s) = [])
  then set_DestinationFName (ConstructDefaultFilename sources (str ".out")) s else s.

(** The value is the exit code: whether errors were reported. *)
Definition assemble (sources : list (list ascii)) : M St bool :=
  modify (default_destination sources) ;;
  InitNextExtensions ;;
  OpenList ;;
  ReserveLabelKeywords ;;
  assemble_pass sources ;;
  assemble_pass sources ;;
  assemble_pass sources ;;
  modify (set_pass 9999) ;;
  s ← gets st;
  mwhen (AddLabelListing (tex s)) Dump ;;
  Close ;;
  dump_tables ;;
  gets (fun s => negb (ErrorCount (err s) =? 0)).

(** [ExitASM] closes the files in the last pass; before that the C library writes what
    the text files hold that are open by then. *)
Definition ExitASM : M St unit :=
  s ← gets st;
  if pass (src s) =? LASTPASS then Close else close_listing ;; modify (flush_breakpoints []).

(** The end of the program, by [ExitASM] as well: the destructor of [nex] completes the
    file that is still open; the exit code is not changed any more. *)
Definition main (sources : list (list ascii)) : M St bool := fun s =>
  match assemble sources s with
  | Ret code s => (finalizeFile ;; mret code) s
  | Exit s => (ExitASM ;; finalizeFile ;; exitasm) s
  | r => r
  end.
End driver.
