(* ===== verification/CmdLine.v ===== *)
(** * The command line (sjasm.cpp)

    [COptionsParser], the environment variable SJASMPLUSOPTS, the checks [main] makes
    before the first pass, and the whole program.  What the program takes from its host
    is the class [Host]; the options that no other part reads ([UseUTC], the logo, the
    help) live in the record [Cli], the others in the state. *)

From S2P Require Export Driver.

(** [EFileVerbosity] *)
Inductive EFileVerbosity := FNAME_BASE | FNAME_LAUNCH_REL | FNAME_ABSOLUTE.
#[export] Instance EFileVerbosity_eq_dec : EqDecision EFileVerbosity.
Proof. solve_decision. Defined.

Record Cli := mk_cli {
  cli_OutPrefix : list ascii;
  cli_IncludeDirsList : list (list ascii);
  cli_HEXFName : list ascii;
  cli_defines : gmap Z (list CDefineTableEntry);
  sourceFiles : list (list ascii);
  FileVerbosity : EFileVerbosity;
  UseUTC : bool;
  HideLogo : bool;
  ShowHelp : bool;
  ShowHelpWarnings : bool;
  ShowHelpSyntax : bool;
  ShowVersion : bool
}.

Definition start_cli : Cli := {|
  cli_OutPrefix := []; cli_IncludeDirsList := [str "."]; cli_HEXFName := []; cli_defines := ∅;
  sourceFiles := []; FileVerbosity := FNAME_BASE; UseUTC := false; HideLogo := false; ShowHelp := false;
  ShowHelpWarnings := false; ShowHelpSyntax := false; ShowVersion := false |}.

(** Updates of a field. *)
Definition put_OutPrefix (v : list ascii) (c : Cli) : Cli :=
  {| cli_OutPrefix := v; cli_IncludeDirsList := cli_IncludeDirsList c; cli_HEXFName := cli_HEXFName c; cli_defines := cli_defines c; sourceFiles := sourceFiles c; FileVerbosity := FileVerbosity c; UseUTC := UseUTC c; HideLogo := HideLogo c; ShowHelp := ShowHelp c; ShowHelpWarnings := ShowHelpWarnings c; ShowHelpSyntax := ShowHelpSyntax c; ShowVersion := ShowVersion c |}.
Definition put_IncludeDirsList (v : list (list ascii)) (c : Cli) : Cli :=
  {| cli_OutPrefix := cli_OutPrefix c; cli_IncludeDirsList := v; cli_HEXFName := cli_HEXFName c; cli_defines := cli_defines c; sourceFiles := sourceFiles c; FileVerbosity := FileVerbosity c; UseUTC := UseUTC c; HideLogo := HideLogo c; ShowHelp := ShowHelp c; ShowHelpWarnings := ShowHelpWarnings c; ShowHelpSyntax := ShowHelpSyntax c; ShowVersion := ShowVersion c |}.
Definition put_HEXFName (v : list ascii) (c : Cli) : Cli :=
  {| cli_OutPrefix := cli_OutPrefix c; cli_IncludeDirsList := cli_IncludeDirsList c; cli_HEXFName := v; cli_defines := cli_defines c; sourceFiles := sourceFiles c; FileVerbosity := FileVerbosity c; UseUTC := UseUTC c; HideLogo := HideLogo c; ShowHelp := ShowHelp c; ShowHelpWarnings := ShowHelpWarnings c; ShowHelpSyntax := ShowHelpSyntax c; ShowVersion := ShowVersion c |}.
Definition put_defines (v : gmap Z (list CDefineTableEntry)) (c : Cli) : Cli :=
  {| cli_OutPrefix := cli_OutPrefix c; cli_IncludeDirsList := cli_IncludeDirsList c; cli_HEXFName := cli_HEXFName c; cli_defines := v; sourceFiles := sourceFiles c; FileVerbosity := FileVerbosity c; UseUTC := UseUTC c; HideLogo := HideLogo c; ShowHelp := ShowHelp c; ShowHelpWarnings := ShowHelpWarnings c; ShowHelpSyntax := ShowHelpSyntax c; ShowVersion := ShowVersion c |}.
Definition put_sourceFiles (v : list (list ascii)) (c : Cli) : Cli :=
  {| cli_OutPrefix := cli_OutPrefix c; cli_IncludeDirsList := cli_IncludeDirsList c; cli_HEXFName := cli_HEXFName c; cli_defines := cli_defines c; sourceFiles := v; FileVerbosity := FileVerbosity c; UseUTC := UseUTC c; HideLogo := HideLogo c; ShowHelp := ShowHelp c; ShowHelpWarnings := ShowHelpWarnings c; ShowHelpSyntax := ShowHelpSyntax c; ShowVersion := ShowVersion c |}.
Definition put_FileVerbosity (v : EFileVerbosity) (c : Cli) : Cli :=
  {| cli_OutPrefix := cli_OutPrefix c; cli_IncludeDirsList := cli_IncludeDirsList c; cli_HEXFName := cli_HEXFName c; cli_defines := cli_defines c; sourceFiles := sourceFiles c; FileVerbosity := v; UseUTC := UseUTC c; HideLogo := HideLogo c; ShowHelp := ShowHelp c; ShowHelpWarnings := ShowHelpWarnings c; ShowHelpSyntax := ShowHelpSyntax c; ShowVersion := ShowVersion c |}.
Definition put_UseUTC (v : bool) (c : Cli) : Cli :=
  {| cli_OutPrefix := cli_OutPrefix c; cli_IncludeDirsList := cli_IncludeDirsList c; cli_HEXFName := cli_HEXFName c; cli_defines := cli_defines c; sourceFiles := sourceFiles c; FileVerbosity := FileVerbosity c; UseUTC := v; HideLogo := HideLogo c; ShowHelp := ShowHelp c; ShowHelpWarnings := ShowHelpWarnings c; ShowHelpSyntax := ShowHelpSyntax c; ShowVersion := ShowVersion c |}.
Definition put_HideLogo (v : bool) (c : Cli) : Cli :=
  {| cli_OutPrefix := cli_OutPrefix c; cli_IncludeDirsList := cli_IncludeDirsList c; cli_HEXFName := cli_HEXFName c; cli_defines := cli_defines c; sourceFiles := sourceFiles c; FileVerbosity := FileVerbosity c; UseUTC := UseUTC c; HideLogo := v; ShowHelp := ShowHelp c; ShowHelpWarnings := ShowHelpWarnings c; ShowHelpSyntax := ShowHelpSyntax c; ShowVersion := ShowVersion c |}.
Definition put_ShowHelp (v : bool) (c : Cli) : Cli :=
  {| cli_OutPrefix := cli_OutPrefix c; cli_IncludeDirsList := cli_IncludeDirsList c; cli_HEXFName := cli_HEXFName c; cli_defines := cli_defines c; sourceFiles := sourceFiles c; FileVerbosity := FileVerbosity c; UseUTC := UseUTC c; HideLogo := HideLogo c; ShowHelp := v; ShowHelpWarnings := ShowHelpWarnings c; ShowHelpSyntax := ShowHelpSyntax c; ShowVersion := ShowVersion c |}.
Definition put_ShowHelpWarnings (v : bool) (c : Cli) : Cli :=
  {| cli_OutPrefix := cli_OutPrefix c; cli_IncludeDirsList := cli_IncludeDirsList c; cli_HEXFName := cli_HEXFName c; cli_defines := cli_defines c; sourceFiles := sourceFiles c; FileVerbosity := FileVerbosity c; UseUTC := UseUTC c; HideLogo := HideLogo c; ShowHelp := ShowHelp c; ShowHelpWarnings := v; ShowHelpSyntax := ShowHelpSyntax c; ShowVersion := ShowVersion c |}.
Definition put_ShowHelpSyntax (v : bool) (c : Cli) : Cli :=
  {| cli_OutPrefix := cli_OutPrefix c; cli_IncludeDirsList := cli_IncludeDirsList c; cli_HEXFName := cli_HEXFName c; cli_defines := cli_defines c; sourceFiles := sourceFiles c; FileVerbosity := FileVerbosity c; UseUTC := UseUTC c; HideLogo := HideLogo c; ShowHelp := ShowHelp c; ShowHelpWarnings := ShowHelpWarnings c; ShowHelpSyntax := v; ShowVersion := ShowVersion c |}.
Definition put_ShowVersion (v : bool) (c : Cli) : Cli :=
  {| cli_OutPrefix := cli_OutPrefix c; cli_IncludeDirsList := cli_IncludeDirsList c; cli_HEXFName := cli_HEXFName c; cli_defines := cli_defines c; sourceFiles := sourceFiles c; FileVerbosity := FileVerbosity c; UseUTC := UseUTC c; HideLogo := HideLogo c; ShowHelp := ShowHelp c; ShowHelpWarnings := ShowHelpWarnings c; ShowHelpSyntax := ShowHelpSyntax c; ShowVersion := v |}.

Definition MAX_PATH : nat := 4096.
(** [SSource]: the name is cut; the standard input has an empty name. *)
Definition push_source (fname : list ascii) (c : Cli) : Cli :=
  put_sourceFiles (sourceFiles c ++ [take (MAX_PATH - 1) fname]) c.

(** ** Options *)

(** [CmdDefineTable.Add] *)
Definition CmdDefineTable_Add (name value : list ascii) (c : Cli) : M St Cli :=
  mwhen (CDefineTable_FindDuplicate (cli_defines c) name)
    (Error "Duplicate define (replacing old value)" (Some name) PASS03) ;;
  mret (put_defines (<[bucket name := new_CDefineTableEntry name value [] :: chain (cli_defines c) name]>
                       (cli_defines c)) c).

Definition OutputVerbosity_of (val : list ascii) : option EOutputVerbosity :=
  if bool_decide (val = str "none") then Some OV_NONE
  else if bool_decide (val = str "err") then Some OV_ERROR
  else if bool_decide (val = str "war") then Some OV_WARNING
  else if bool_decide (val = str "all") then Some OV_ALL
  else if bool_decide (val = str "lst") || bool_decide (val = str "lstlab") then Some OV_LST
  else None.

(** --msg; with --msg=lst the error output is the listing from now on. *)
Definition msg_option (arg val : list ascii) (c : Cli) : M St Cli :=
  match OutputVerbosity_of val with
  | None => Error "unexpected parameter in" (Some arg) ALL ;; mret c
  | Some v =>
      modify (set_OutputVerbosity v) ;;
      modify (set_listing (if bool_decide (v = OV_LST) then Some [] else None)) ;;
      let lab := bool_decide (val = str "lstlab") in
      mwhen (bool_decide (v = OV_LST)) (modify (set_AddLabelListing lab)) ;;
      mwhen lab (modify (set_SortSymbols true)) ;;
      mret (if bool_decide (v = OV_NONE) || bool_decide (v = OV_LST) then put_HideLogo true c else c)
  end.

Definition help_option (val : list ascii) (c : Cli) : Cli :=
  let warnings := bool_decide (val = str "warnings") in
  let syntax := bool_decide (val = str "syntax") in
  put_ShowHelp (ShowHelp c || (negb warnings && negb syntax))
    (put_ShowHelpWarnings (ShowHelpWarnings c || warnings)
      (put_ShowHelpSyntax (ShowHelpSyntax c || syntax) c)).

Definition fullpath_option (val : list ascii) (c : Cli) : M St Cli :=
  if bool_decide (val = str "on") then mret (put_FileVerbosity FNAME_ABSOLUTE c)
  else if bool_decide (val = []) || bool_decide (val = str "rel") then mret (put_FileVerbosity FNAME_LAUNCH_REL c)
  else if bool_decide (val = str "off") then mret (put_FileVerbosity FNAME_BASE c)
  else Error "invalid --fullpath setting (use: on|rel|off)" (Some val) ALL ;; mret c.

(** [SetTerminalColors]: the colours of the error output are left out. *)
Definition color_option (val : list ascii) : M St unit :=
  mwhen (negb (bool_decide (val ∈ [str "on"; str "off"; str "auto"])))
    (Error "invalid --color setting (use: on|off|auto)" (Some val) ALL).

(** [CheckAssignmentOption]: the options that name a file. *)
Definition file_options : list (string * (list ascii → St → St)) :=
  [("sym", set_SymbolListFName); ("lst", set_ListingFName); ("exp", set_ExportFName);
   ("sld", set_SourceLevelDebugFName); ("raw", set_RAWFName)]%string.
Definition cli_file_options : list (string * (list ascii → Cli → Cli)) :=
  [("outprefix", put_OutPrefix); ("hex", put_HEXFName)]%string.
Definition named {A} (o : list ascii) (options : list (string * A)) : option A :=
  snd <$> List.find (fun e => bool_decide (o = str (fst e))) options.
Definition no_parameters (arg : list ascii) : M St unit := Error "no parameters found in" (Some arg) ALL.

Definition set_cpu (i8080 lr35902 : bool) : St → St :=
  on_opt (fun o => {| syx := with_IsNextEnabled 0 (syx o); IsI8080 := i8080; IsLR35902 := lr35902;
                      IsLongPtr := IsLongPtr o; warn_enabled := warn_enabled o |}).
Definition set_longptr : St → St :=
  on_opt (fun o => {| syx := syx o; IsI8080 := IsI8080 o; IsLR35902 := IsLR35902 o;
                      IsLongPtr := true; warn_enabled := warn_enabled o |}).

(** The letters behind a single dash, or the name and the value behind two. *)
Definition option_parts (arg : list ascii) : bool * list ascii * list ascii :=
  if bool_decide (nth 1 arg NUL = "-"%char)
  then let '(o, val) := split_option (drop 2 arg) in (true, o, val)
  else (false, take 1 (tail arg), drop 2 arg).
Definition include_option (doubleDash : bool) (o : list ascii) : bool :=
  if doubleDash then bool_decide (o = str "inc")
  else bool_decide (o = str "i") || bool_decide (o = str "I").

(** Options that take the next argument: --define, and an include path of its own. *)
Definition takes_next (arg : list ascii) (next : option (list ascii)) : bool :=
  let '(doubleDash, o, val) := option_parts arg in
  match next with
  | None => false
  | Some n =>
      bool_decide (o = str "define")
      || (include_option doubleDash o && bool_decide (val = [])
          && (negb doubleDash || Ascii.eqb (nth 5 arg NUL) "=") && negb (Ascii.eqb (nth 0 n NUL) "-"))
  end.

Definition include_path (arg : list ascii) (next : option (list ascii)) (c : Cli) : M St Cli :=
  let '(doubleDash, _, val) := option_parts arg in
  let add p := put_IncludeDirsList (cli_IncludeDirsList c ++ [p]) c in
  if negb (bool_decide (val = [])) then mret (add val)
  else if doubleDash && negb (Ascii.eqb (nth 5 arg NUL) "=") then mret (put_IncludeDirsList [] c)
  else match next with
       | Some n =>
           if takes_next arg next then mret (add n)
           else Error "no include path found for" (Some arg) ALL ;; mret c
       | None => Error "no include path found for" (Some arg) ALL ;; mret c
       end.

Definition define_next (next : option (list ascii)) (c : Cli) : M St Cli :=
  let '(defN, defV) := split_option (default [] next) in
  if bool_decide (defN = []) then Error "missing define value" next ALL ;; mret c
  else CmdDefineTable_Add defN defV c.
Definition define_value_option (arg val : list ascii) (c : Cli) : M St Cli :=
  if bool_decide (val = []) then no_parameters arg ;; mret c
  else let '(defN, defV) := split_option val in CmdDefineTable_Add defN defV c.

(** The options behind those of OPT, in the order of the code. *)
Definition start_option (arg : list ascii) (next : option (list ascii)) (c : Cli) : M St Cli :=
  let '(doubleDash, o, val) := option_parts arg in
  let is_opt name := bool_decide (o = str name) in
  let no_value := bool_decide (val = []) in
  if is_opt "lr35902"%string then modify (set_cpu false true) ;; mret c
  else if is_opt "i8080"%string then modify (set_cpu true false) ;; mret c
  else if (negb doubleDash && is_opt "h"%string && no_value) || (doubleDash && is_opt "help"%string)
  then mret (help_option val c)
  else if doubleDash && is_opt "version"%string then mret (put_ShowVersion true c)
  else if is_opt "lstlab"%string then
    modify (set_AddLabelListing true) ;;
    mwhen (negb no_value) (modify (set_SortSymbols (bool_decide (val = str "sort")))) ;; mret c
  else if is_opt "longptr"%string then modify set_longptr ;; mret c
  else if is_opt "utc"%string then mret (put_UseUTC true c)
  else if is_opt "msg"%string then msg_option arg val c
  else if is_opt "lst"%string && no_value then modify (set_IsDefaultListingName true) ;; mret c
  else if is_opt "sld"%string && no_value then modify (set_IsDefaultSldName true) ;; mret c
  else match named o cli_file_options, named o file_options with
  | Some set_name, _ => if no_value then no_parameters arg ;; mret c else mret (set_name val c)
  | None, Some set_name => (if no_value then no_parameters arg else modify (set_name val)) ;; mret c
  | None, None =>
  if is_opt "fullpath"%string then fullpath_option val c
  else if is_opt "color"%string then color_option val ;; mret c
  else if is_opt "nologo"%string then mret (put_HideLogo true c)
  else if is_opt "dos866"%string then modify (set_ConvertEncoding ENCDOS) ;; mret c
  else if include_option doubleDash o then include_path arg next c
  else if is_opt "define"%string then define_next next c
  else if negb doubleDash && is_opt "D"%string then define_value_option arg val c
  else if negb doubleDash && bool_decide (o = []) then mret (push_source [] c)
  else Error "unrecognized option" (Some arg) ALL ;; mret c
  end.

Definition cli_option (arg : list ascii) (next : option (list ascii)) (c : Cli) : M St Cli :=
  found ← syntax_option arg;
  if found : bool then mret c else start_option arg next c.

(** [GetOptions] and the sources between the options, over the whole argument list. *)
Fixpoint GetOptions (argv : list (list ascii)) (c : Cli) : M St Cli :=
  match argv with
  | [] => mret c
  | arg :: rest =>
      if Ascii.eqb (nth 0 arg NUL) "-" then
        c ← cli_option arg (head rest) c;
        match rest with
        | _ :: rest' => if takes_next arg (head rest) then GetOptions rest' c else GetOptions rest c
        | [] => mret c
        end
      else GetOptions rest (push_source arg c)
  end.

(** ** The environment variable *)

(** The words are copied one behind the other into [temp]; [None] when a word is ended
    behind its last byte.  [charI] is the place of the next character. *)
Fixpoint env_words (words_left : nat) (charI : nat) (env : list ascii) : option (list (list ascii) * list ascii) :=
  match words_left with
  | O => Some ([], drop_while White env)
  | S words_left =>
      match drop_while White env with
      | [] => Some ([], [])
      | env =>
          let n := Nat.min (count_while (fun c => negb (White c)) env) (Z.to_nat (LINEMAX - 1) - charI) in
          if (LINEMAX <=? Z.of_nat (charI + n)) then None
          else '(ws, rest) ← env_words words_left (charI + n + 1) (drop n env);
               Some (take n env :: ws, rest)
      end
  end.
Definition MAX_ENV_WORDS : nat := 32.

Definition GetOptions_env (env : option (list ascii)) (c : Cli) : M St Cli :=
  match env with
  | None => mret c
  | Some env =>
      match env_words MAX_ENV_WORDS 0 env with
      | None => undef
      | Some (argv, rest) =>
          mwhen (negb (bool_decide (rest = [])))
            (Error "SJASMPLUSOPTS environment variable contains too many options (max is 32)" None ALL) ;;
          GetOptions argv c
      end
  end.

(** ** The start of the program *)

(** What the program finds on its host: the files, with the names shown for them, the
    clock (local or UTC) and the version it was built as. *)
Class Host := {
  host_bytes : list ascii → option (list Z);
  host_writable : list ascii → bool;
  host_directory_of : list ascii → list ascii;
  host_shown_name : EFileVerbosity → list ascii → string;
  host_memory : nat → list Z;
  is_directory : list ascii → bool;
  date_text : bool → list ascii;
  time_text : bool → list ascii;
  host_VERSION : list ascii;
  host_VERSION_NUM : list ascii
}.

Section program.
Context `{Host}.

Definition files_of (c : Cli) : FileSystem := {|
  file_bytes := host_bytes; writable := host_writable; directory_of := host_directory_of;
  shown_name := host_shown_name (FileVerbosity c); fresh_memory := host_memory;
  OutPrefix := cli_OutPrefix c; IncludeDirsList := cli_IncludeDirsList c |}.
Definition command_line_of (c : Cli) (s : St) : CommandLine := {|
  systemSyntax := syx (opt s); CmdDefineTable := cli_defines c; base_encoding := ConvertEncoding (lin s);
  HEXFName := cli_HEXFName c; VERSION := host_VERSION; VERSION_NUM := host_VERSION_NUM |}.

Definition define_date_time (c : Cli) : M St Cli :=
  let quoted t := str dq ++ t ++ str dq in
  c ← CmdDefineTable_Add (str "__DATE__") (quoted (date_text (UseUTC c))) c;
  CmdDefineTable_Add (str "__TIME__") (quoted (time_text (UseUTC c))) c.

(** Combinations of options that are refused; the hosts are little-endian. *)
Definition check_options : M St unit :=
  s ← gets st;
  mwhen (IsDefaultListingName (tex s) && has_filename (ListingFName (tex s)))
    (Error "Using both  --lst  and  --lst=<filename>  is not possible." None FATAL) ;;
  mwhen (IsListingStderr (tex s) && (IsDefaultListingName (tex s) || has_filename (ListingFName (tex s))))
    (Error "Using  --msg=lst[lab]  and other list options is not possible." None FATAL) ;;
  mwhen (IsDefaultSldName (tex s) && has_filename (SourceLevelDebugFName (tex s)))
    (Error "Using both  --sld  and  --sld=<filename>  is not possible." None FATAL).

Fixpoint check_paths (l : list (list ascii)) : M St unit :=
  match l with
  | [] => mret tt
  | p :: l =>
      mwhen (negb (is_directory p))
        (Error (if Ascii.eqb (nth 0 p NUL) "~" then "include path starts with ~ (check docs)"
                else "include path not found")%string (Some p) ALL) ;;
      check_paths l
  end.
(** From the last path of the list. *)
Definition checkIncludePaths (c : Cli) : M St unit := check_paths (rev (cli_IncludeDirsList c)).

(** Whether the program goes on to assemble: [inl] is the exit code. *)
Definition start (argv : list (list ascii)) (env : option (list ascii)) : M St (Z + Cli) :=
  c ← GetOptions_env env start_cli;
  c ← GetOptions argv c;
  c ← define_date_time c;
  check_options ;;
  let no_arguments := bool_decide (argv = []) in
  if no_arguments || ShowHelp c || ShowHelpWarnings c || ShowHelpSyntax c
  then mret (inl (if no_arguments then 1 else 0))
  else
    s ← gets st;
    mwhen (bool_decide (FileVerbosity c = FNAME_BASE)
           && (IsDefaultSldName (tex s) || has_filename (SourceLevelDebugFName (tex s))))
      (Warning "missing  --fullpath  with  --sld  may produce incomplete file paths." None W_EARLY) ;;
    checkIncludePaths c ;;
    if bool_decide (sourceFiles c = []) then
      if ShowVersion c then mret (inl 0)
      else Error "no inputfile(s)" None ALL ;; mret (inl 1)
    else mret (inr c).

(** The whole program: the exit code.  A fatal error ends it with code 1. *)
Definition sjasmplus (limit depth : nat) (other : Cli → string → M St unit) (warnings : string → bool)
    (argv : list (list ascii)) (env : option (list ascii)) : res St Z :=
  match start argv env (start_state (default_options warnings)) with
  | Ret (inl code) s => Ret code s
  | Ret (inr c) s =>
      (errors ← @main (files_of c) (command_line_of c s) limit depth (other c) (sourceFiles c);
       mret (if errors : bool then 1 else 0)) s
  | Exit s => Exit s
  | Undef => Undef
  | NoFuel => NoFuel
  end.
End program.
