(* ===== verification/Reports.v ===== *)
(** * Routines that only report

    [says m]: [m] ends normally and has changed nothing but the messages, their
    counters and the two predefined names that hold the counters.  Errors that are
    not FATAL and warnings are of that kind. *)

From S2P Require Export DirOutput.

Definition noted (s s' : St) : Prop :=
  ∃ e d l c, s' = set_cerr c (set_listing l (set_defs d (on_err (fun _ => e) s))).

#[export] Instance noted_preorder : PreOrder noted.
Proof.
  split.
  - intros s. exists (err s), (defs (tab s)), (listing (lin s)), (cerr (tex s)).
    by destruct s as [? ? ? ? ? [] ? ? ? [] []].
  - intros ? ? ? (e & d & l & c & ->) (e' & d' & l' & c' & ->). by exists e', d', l', c'.
Qed.

Lemma noted_of s s' :
  s' = set_cerr (cerr (tex s')) (set_listing (listing (lin s'))
         (set_defs (defs (tab s')) (on_err (fun _ => err s') s))) → noted s s'.
Proof. intros H. by exists (err s'), (defs (tab s')), (listing (lin s')), (cerr (tex s')). Qed.

Definition says (m : M St unit) : Prop := ∀ s, ∃ s', m s = Ret tt s' ∧ noted s s'.

Lemma says_ret : says (mret tt).
Proof. intros s. exists s. by split. Qed.

Lemma says_seq m k : says m → says k → says (m ;; k).
Proof.
  intros Hm Hk s. destruct (Hm s) as (s1 & E1 & N1). destruct (Hk s1) as (s2 & E2 & N2).
  exists s2. unfold mbind, M_bind. rewrite E1. split; [done|]. by etransitivity.
Qed.

Lemma says_mwhen (b : bool) m : says m → says (mwhen b m).
Proof. destruct b; [done|]. intros _. apply says_ret. Qed.

Lemma says_Error m b t : t ≠ FATAL → says (Error m b t).
Proof.
  intros Ht s. unfold Error.
  destruct (Error_wrong_pass _ _); [by exists s|]. destruct (Error_skipped _ _); [by exists s|].
  cbv zeta. assert (is_type t FATAL = false) as -> by (unfold is_type; by case_bool_decide).
  eexists. split; [reflexivity|]. apply noted_of. by destruct s as [? ? ? ? ? [] ? ? ? [] []].
Qed.

Lemma says_Error1 m : says (Error1 m).
Proof. by apply says_Error. Qed.
Lemma says_ErrorInt m v t : t ≠ FATAL → says (ErrorInt m v t).
Proof. apply says_Error. Qed.
Lemma says_read {A} (f : St → A) (k : A → M St unit) : (∀ a, says (k a)) → says (a ← gets f; k a).
Proof. intros H s. apply H. Qed.
Lemma says_Error_bp m t : t ≠ FATAL → says (Error_bp m t).
Proof. intros. apply says_read. intros ?. by apply says_Error. Qed.

Lemma says_WarningImpl i m b t : says (WarningImpl i m b t).
Proof.
  apply says_read. intros s. destruct (WarningsAsErrors _).
  - apply says_Error. by destruct t.
  - intros s'. eexists. split; [reflexivity|]. apply noted_of. by destruct s' as [? ? ? ? ? [] ? ? ? [] []].
Qed.

Lemma says_Warning m b t : says (Warning m b t).
Proof. apply says_read. intros s. destruct (isInactiveTypeInCurrentPass _ _); auto using says_ret, says_WarningImpl. Qed.
Lemma says_Warning1 m : says (Warning1 m).
Proof. apply says_Warning. Qed.

Lemma says_WarningById id b t : is_Some (assoc id w_texts) → says (WarningById id b t).
Proof.
  intros [[e x] Hid]. apply says_read. intros s. unfold WarningById. rewrite Hid.
  repeat (case_match; try apply says_ret). apply says_WarningImpl.
Qed.

(** [said] replaces the run of a reporting routine by a noted state. *)
Lemma said_bind {A} m (k : M St A) s :
  says m → ∃ s', noted s s' ∧ (m ;; k) s = k s'.
Proof.
  intros Hm. destruct (Hm s) as (s' & E & N). exists s'. split; [done|].
  unfold mbind, M_bind. by rewrite E.
Qed.

Create HintDb says discriminated.
#[export] Hint Resolve says_ret says_Error1 says_Warning says_Warning1 says_mwhen says_seq : says.
#[export] Hint Extern 1 (says (WarningById _ _ _)) => apply says_WarningById; vm_compute; eauto : says.
#[export] Hint Extern 1 (says (Error _ _ _)) => apply says_Error; discriminate : says.
#[export] Hint Extern 1 (says (Error_bp _ _)) => apply says_Error_bp; discriminate : says.

(** A machine with no files of its own, for concrete runs. *)
Definition plain_files : FileSystem := {|
  file_bytes := fun _ => None; writable := fun _ => true; directory_of := fun _ => [];
  shown_name := of_chars; fresh_memory := repeat 0; OutPrefix := []; IncludeDirsList := [] |}.
