(* ===== verification/TrdSpec.v ===== *)
(** * What SAVETRD does to a disk image

    The records of the image are read back as written; an image whose catalog
    tiles the disk stays one in the three modes of SAVETRD; a saved file is found
    again by INCTRD with its bytes. *)

From S2P Require Export Trd Reports DeviceSpec.

(** ** Records *)

Definition wf_record (e : STrdFile) : Prop :=
  length (trd_filename e) = 8%nat ∧ 0 ≤ trd_length e < 65536.

Definition wf_info (d : STrdDisc) : Prop :=
  length (trd_unused d) = 224%nat ∧ length (trd_unused2 d) = 2%nat
  ∧ length (trd_password d) = 9%nat ∧ length (trd_unused3 d) = 1%nat
  ∧ length (trd_label d) = 11%nat ∧ 0 ≤ numOfFreeSectors d < 65536 ∧ trDosId d = TRDOS_DISC_ID.

Definition wf_head (h : STrdHead) : Prop :=
  length (catalog h) = 128%nat ∧ Forall wf_record (catalog h) ∧ wf_info (trd_info h).

Lemma word_round v l : 0 ≤ v < 65536 → word_at (word_bytes v ++ l) = v.
Proof.
  intros H. unfold word_at, word_bytes, lo8, hi8, u8. simpl.
  rewrite Z.shiftr_div_pow2, Z.shiftl_mul_pow2 by lia.
  change (2 ^ 8) with 256.
  rewrite (Z.mod_small (v / 256)).
  - pose proof (Z.div_mod v 256). lia.
  - split; [apply Z.div_pos|apply Z.div_lt_upper_bound]; lia.
Qed.

Lemma file_record_length e : wf_record e → length (file_record e) = 16%nat.
Proof. intros [H _]. unfold file_record, full_name, word_bytes. rewrite !length_app, H. done. Qed.

Ltac short_list l :=
  repeat (destruct l as [|? l]; simpl in *; try lia; try discriminate).

Lemma read_file_record_written e : wf_record e → read_file_record (file_record e) = e.
Proof.
  destruct e as [name ext lo hi len sl ss st]. intros [Hn Hl]; simpl in *.
  pose proof (word_round len [sl; ss; st] Hl) as Hw.
  short_list name. unfold read_file_record. f_equal. exact Hw.
Qed.

Lemma read_catalog_written l rest :
  Forall wf_record l → read_catalog (length l) (flat_map file_record l ++ rest) = l.
Proof.
  induction 1 as [|e l He Hl IH]; simpl; [done|]. rewrite <- app_assoc.
  pose proof (file_record_length e He) as Hn.
  rewrite take_app_length', drop_app_length' by done. by rewrite read_file_record_written, IH.
Qed.

Lemma catalog_length l : Forall wf_record l → length (flat_map file_record l) = (16 * length l)%nat.
Proof.
  induction 1 as [|e l He Hl IH]; simpl; [done|].
  rewrite length_app, IH, file_record_length by done. lia.
Qed.

Lemma disc_record_length d : wf_info d → length (disc_record d) = 256%nat.
Proof.
  intros (H1 & H2 & H3 & H4 & H5 & _). unfold disc_record, word_bytes.
  simpl. repeat (rewrite ?length_app; simpl). lia.
Qed.

Lemma read_disc_record_written d : wf_info d → read_disc_record (disc_record d) = d.
Proof.
  destruct d as [e u fs ft dt nf fr id u2 pw u3 nd lb]. intros (H1 & H2 & H3 & H4 & H5 & H6 & H7); simpl in *.
  short_list u2. short_list pw. short_list u3. short_list lb.
  unfold read_disc_record, disc_record, byte_of, slice, word_bytes; simpl.
  do 6 (rewrite (app_nth2 u) by (rewrite H1; lia)).
  rewrite drop_0, !drop_app_ge by (rewrite H1; lia).
  rewrite take_app_length' by done. rewrite H1. simpl. f_equal.
  exact (word_round fr _ H6).
Qed.

Lemma head_record_length h : wf_head h → length (head_record h) = 2304%nat.
Proof.
  intros (H1 & H2 & H3). unfold head_record.
  rewrite length_app, catalog_length, disc_record_length, H1 by done. done.
Qed.

(** The first nine sectors written by [STrdHead::writeToFile] are read back as the
    catalog and the disk information they were written from. *)
Lemma head_read_back h data : wf_head h → readFromFile (head_record h ++ data) = Some h.
Proof.
  intros Hh. pose proof (head_record_length h Hh) as Hn. destruct Hh as (H1 & H2 & H3).
  unfold readFromFile. rewrite length_app, Hn.
  replace (_ <? _) with false by (symmetry; apply Z.ltb_ge; unfold SECTOR_SZ; lia).
  assert (slice 2048 256 (head_record h ++ data) = disc_record (trd_info h)) as ->.
  { unfold slice, head_record. rewrite <- app_assoc.
    rewrite drop_app_length' by (rewrite catalog_length, H1 by done; done).
    by rewrite take_app_length' by (by rewrite disc_record_length). }
  rewrite read_disc_record_written by done. unfold isTrdInfo. 
  assert (trDosId (trd_info h) = TRDOS_DISC_ID) as -> by apply H3.
  rewrite Z.eqb_refl. f_equal. destruct h as [cat info]; cbn [catalog trd_info] in *. f_equal.
  change (Z.to_nat NUM_OF_FILES_MAX) with 128%nat. rewrite <- H1. unfold head_record; cbn [catalog trd_info].
  rewrite <- app_assoc. by apply read_catalog_written.
Qed.

(** ** Positions on the disk *)

Definition sector_of (e : STrdFile) : Z := startTrack e * SECTORS_PER_TRACK + startSector e.
Definition free_pos (d : STrdDisc) : Z := freeTrack d * SECTORS_PER_TRACK + freeSector d.

Definition on_disk (e : STrdFile) : Prop :=
  0 ≤ startSector e < 16 ∧ 0 ≤ startTrack e ∧ 1 ≤ sectorLength e ≤ 255.

(** The entries occupy the sectors from [p] to [q] one after the other. *)
Fixpoint tiles (p : Z) (l : list STrdFile) (q : Z) : Prop :=
  match l with
  | [] => p = q
  | e :: l => on_disk e ∧ sector_of e = p ∧ tiles (p + sectorLength e) l q
  end.

Lemma tiles_app p a b q : tiles p (a ++ b) q ↔ ∃ m, tiles p a m ∧ tiles m b q.
Proof.
  revert p. induction a as [|e a IH]; intros p; simpl.
  - split; [eauto|]. by intros (m & -> & H).
  - rewrite IH. split.
    + intros (H1 & H2 & m & H3 & H4). eauto.
    + intros (m & (H1 & H2 & H3) & H4). eauto.
Qed.

Lemma tiles_le p l q : tiles p l q → p ≤ q.
Proof.
  revert p. induction l as [|e l IH]; simpl; intros p; [lia|].
  intros (H & _ & Hl). apply IH in Hl. unfold on_disk in H. lia.
Qed.

Lemma tiles_in p l q e : tiles p l q → e ∈ l → on_disk e ∧ p ≤ sector_of e ∧ sector_of e + sectorLength e ≤ q.
Proof.
  intros H (a & b & ->)%list_elem_of_split. apply tiles_app in H as (m & Ha & Hb).
  apply tiles_le in Ha. destruct Hb as (H1 & <- & Hb). apply tiles_le in Hb. split; [done|]. lia.
Qed.

(** Moving a track and a sector [n] sectors on. *)
Lemma advance track sector n :
  0 ≤ track → 0 ≤ sector < 16 → 0 ≤ n → track * 16 + sector + n < 4096 →
  let t := u8 (track + Z.shiftr (n + sector) 4) in
  let k := Z.land (n + sector) 15 in
  0 ≤ t ∧ 0 ≤ k < 16 ∧ t * 16 + k = track * 16 + sector + n.
Proof.
  intros Ht Hs Hn Hb. cbv zeta. rewrite Z.shiftr_div_pow2 by lia.
  change 15 with (Z.ones 4). rewrite Z.land_ones by lia. change (2 ^ 4) with 16.
  pose proof (Z.div_mod (n + sector) 16). pose proof (Z.mod_pos_bound (n + sector) 16).
  assert (0 ≤ (n + sector) / 16) by (apply Z.div_pos; lia).
  unfold u8. change (2 ^ 8) with 256. rewrite Z.mod_small by lia. lia.
Qed.

(** ** Writing into the data behind the first nine sectors *)

Lemma write_at_data hd position bytes data :
  0 ≤ position →
  write_at (Z.of_nat (length hd) + position) bytes (hd ++ data) = hd ++ write_at position bytes data.
Proof.
  intros Hp. unfold write_at. rewrite Z2Nat.inj_add, Nat2Z.id by lia.
  set (k := Z.to_nat position). rewrite take_app_add, length_app, <- !app_assoc. f_equal.
  replace (length hd + k - (length hd + length data))%nat with (k - length data)%nat by lia.
  by rewrite <- Nat.add_assoc, drop_app_add.
Qed.

Lemma write_at_head hd hd' data : length hd = length hd' → write_at 0 hd' (hd ++ data) = hd' ++ data.
Proof.
  intros H. unfold write_at. change (Z.to_nat 0) with 0%nat. simpl.
  by rewrite drop_app_length' by done.
Qed.

Lemma write_at_inside k bytes data :
  (k + length bytes <= length data)%nat →
  write_at (Z.of_nat k) bytes data = take k data ++ bytes ++ drop (k + length bytes) data.
Proof.
  intros H. unfold write_at. rewrite Nat2Z.id.
  replace (k - length data)%nat with 0%nat by lia. done.
Qed.

Lemma write_at_length k bytes data :
  (k + length bytes <= length data)%nat → length (write_at (Z.of_nat k) bytes data) = length data.
Proof.
  intros H. rewrite write_at_inside by done. rewrite !length_app, length_take, length_drop. lia.
Qed.

(** What was there in front of the written bytes and behind them is kept. *)
Lemma slice_before o n k bytes data :
  (o + n <= k)%nat → (k + length bytes <= length data)%nat →
  slice o n (write_at (Z.of_nat k) bytes data) = slice o n data.
Proof.
  intros H1 H2. rewrite write_at_inside by done. unfold slice.
  rewrite drop_app_le by (rewrite length_take; lia).
  rewrite take_app_le by (rewrite length_drop, length_take; lia).
  rewrite skipn_firstn_comm, take_take. f_equal. lia.
Qed.

Lemma slice_after o n k bytes data :
  (k + length bytes <= o)%nat → (k + length bytes <= length data)%nat →
  slice o n (write_at (Z.of_nat k) bytes data) = slice o n data.
Proof.
  intros H1 H2. rewrite write_at_inside by done. unfold slice. f_equal.
  rewrite drop_app_ge by (rewrite length_take; lia).
  rewrite drop_app_ge by (rewrite length_take; lia).
  rewrite drop_drop, length_take. f_equal. lia.
Qed.

Lemma slice_written n k bytes data :
  (k + length bytes <= length data)%nat → (n <= length bytes)%nat →
  slice k n (write_at (Z.of_nat k) bytes data) = take n bytes.
Proof.
  intros H1 H2. rewrite write_at_inside by done. unfold slice.
  rewrite drop_app_length' by (rewrite length_take; lia).
  by rewrite take_app_le by lia.
Qed.

(** ** Images in order

    [disk total used d data file]: the image [file] of [total] sectors has the
    files [used] in its catalog, one behind the other on the disk from track 1 on,
    the free sectors behind them, [data] behind the first nine sectors. *)

Definition live (e : STrdFile) : Prop := first_byte e ≠ 0.

Record laid (total : Z) (used unused : list STrdFile) (d : STrdDisc) : Prop := {
  ld_length : length (used ++ unused) = 128%nat;
  ld_records : Forall wf_record (used ++ unused);
  ld_live : Forall live used;
  ld_dead : Forall (fun e => first_byte e = 0) unused;
  ld_info : wf_info d;
  ld_count : numOfFiles d = Z.of_nat (length used);
  ld_place : 0 ≤ freeSector d < 16 ∧ 0 ≤ freeTrack d;
  ld_tiles : tiles SECTORS_PER_TRACK used (free_pos d);
  ld_free : free_pos d + numOfFreeSectors d = total;
  ld_total : total < 4096
}.

Definition head_of_disk (used unused : list STrdFile) (d : STrdDisc) : STrdHead :=
  {| catalog := used ++ unused; trd_info := d |}.

Definition disk (total : Z) (used : list STrdFile) (d : STrdDisc) (data file : list Z) : Prop :=
  ∃ unused, laid total used unused d ∧ file = head_record (head_of_disk used unused d) ++ data
            ∧ (total - 9) * 256 ≤ Z.of_nat (length data).

(** The sectors of a file. *)
Definition region (data : list Z) (e : STrdFile) : list Z :=
  slice (Z.to_nat (256 * (sector_of e - 9))) (Z.to_nat (256 * sectorLength e)) data.

Lemma fileOffset_sector track sector : fileOffset track sector = 256 * (track * 16 + sector).
Proof. unfold fileOffset, SECTOR_SZ, SECTORS_PER_TRACK. lia. Qed.

Lemma laid_wf total used unused d : laid total used unused d → wf_head (head_of_disk used unused d).
Proof. intros []. done. Qed.

Lemma free_bounds total used unused d :
  laid total used unused d → 16 ≤ free_pos d ∧ 0 ≤ numOfFreeSectors d ∧ free_pos d ≤ total.
Proof.
  intros [_ _ _ _ Hi _ _ Ht Hf _]. apply tiles_le in Ht. unfold SECTORS_PER_TRACK in Ht.
  destruct Hi as (_ & _ & _ & _ & _ & H & _). lia.
Qed.

(** The information sector once [n] free sectors have been used. *)
Lemma use_sectors_spec total used unused d n isNew :
  laid total used unused d → 0 ≤ n ≤ numOfFreeSectors d →
  let d' := use_sectors n isNew d in
  wf_info d' ∧ (0 ≤ freeSector d' < 16 ∧ 0 ≤ freeTrack d') ∧ free_pos d' = free_pos d + n
  ∧ free_pos d' + numOfFreeSectors d' = total
  ∧ (isNew = false ∨ Z.of_nat (length used) < 128 →
     numOfFiles d' = numOfFiles d + if isNew then 1 else 0).
Proof.
  intros L Hn. pose proof (free_bounds _ _ _ _ L) as (Hb & _ & Hb').
  destruct L as [Hlen _ _ _ (I1 & I2 & I3 & I4 & I5 & I6 & I7) Hc [Hs Ht] _ Hf Htot].
  unfold free_pos, SECTORS_PER_TRACK in *.
  pose proof (advance (freeTrack d) (freeSector d) n) as Ha. cbv zeta in Ha.
  destruct Ha as (A1 & A2 & A3); [lia..|].
  assert (u16 (numOfFreeSectors d - n) = numOfFreeSectors d - n) as Hu
    by (unfold u16; apply Z.mod_small; lia).
  cbv zeta. unfold use_sectors, wf_info, with_counts, with_free. cbn -[Z.land Z.shiftr u8 u16].
  rewrite Hu. repeat split; try done; try lia.
  intros H. destruct isNew; [|lia]. destruct H as [H|H]; [done|].
  unfold u8. apply Z.mod_small. change (2 ^ 8) with 256. lia.
Qed.

(** A record to be stored, and the record once it has its place. *)
Definition storable (e : STrdFile) : Prop := wf_record e ∧ live e ∧ 1 ≤ sectorLength e ≤ 255.
Definition stored (d : STrdDisc) (e : STrdFile) : STrdFile :=
  with_place (sectorLength e) (freeSector d) (freeTrack d) e.

Lemma laid_new total used x unused d e :
  laid total used (x :: unused) d → storable e → sectorLength e ≤ numOfFreeSectors d →
  laid total (used ++ [stored d e]) unused (use_sectors (sectorLength e) true d).
Proof.
  intros L (We & Le & Se) Hfree.
  pose proof (use_sectors_spec _ _ _ _ (sectorLength e) true L ltac:(lia)) as (U1 & U2 & U3 & U4 & U5).
  destruct L as [Hlen Hrec Hlive Hdead _ Hc [Hs Ht] Htl _ Htot].
  rewrite length_app in Hlen; simpl in Hlen.
  apply Forall_app in Hrec as [Hr1 Hr2]. inversion_clear Hr2 as [|? ? _ Hr3]. inversion_clear Hdead.
  constructor; try done.
  - rewrite !length_app; simpl. lia.
  - apply Forall_app; split; [apply Forall_app; split; [done|by constructor]|done].
  - apply Forall_app; split; [done|by constructor].
  - rewrite U5, Hc, length_app by lia. simpl. lia.
  - rewrite U3. apply tiles_app. exists (free_pos d). split; [done|].
    split; [by repeat split; simpl; lia|]. done.
Qed.

(** Marking entries as deleted moves nothing. *)
Definition mark (f : STrdFile → bool) (l : list STrdFile) : list STrdFile :=
  (fun e => if f e then with_first_byte 1 e else e) <$> l.

Lemma mark_record e : wf_record e → wf_record (with_first_byte 1 e).
Proof. destruct e as [name]. intros [H1 H2]. split; [|done]. by destruct name. Qed.

Lemma tiles_mark f p l q : tiles p l q → tiles p (mark f l) q.
Proof.
  revert p. induction l as [|e l IH]; intros p; simpl; [done|]. intros (H1 & H2 & H3).
  destruct (f e); (split; [done|]); (split; [done|]); by apply IH.
Qed.

Lemma mark_live f l : Forall live l → Forall live (mark f l).
Proof. intros H. apply Forall_fmap. eapply Forall_impl; [exact H|]. intros e He. simpl. by destruct (f e). Qed.
Lemma mark_records f l : Forall wf_record l → Forall wf_record (mark f l).
Proof.
  intros H. apply Forall_fmap. eapply Forall_impl; [exact H|]. intros e He. simpl.
  destruct (f e); [by apply mark_record|done].
Qed.

Definition counted_deleted (n : Z) (d : STrdDisc) : STrdDisc := with_counts (numOfFiles d) n d.

Lemma laid_mark total p a b unused d f n :
  laid total (p ++ a ++ b) unused d → laid total (p ++ mark f a ++ b) unused (counted_deleted n d).
Proof.
  intros [Hlen Hrec Hlive Hdead Hi Hc Hp Htl Hf Htot].
  assert (length (p ++ mark f a ++ b) = length (p ++ a ++ b)) as Hl
    by (rewrite !length_app; unfold mark; by rewrite length_fmap).
  apply Forall_app in Hrec as [Hr1 Hr2]. apply Forall_app in Hr1 as [Hr0 [Hr1 Hr3]%Forall_app].
  apply Forall_app in Hlive as [Hl1 [Hl2 Hl3]%Forall_app].
  apply tiles_app in Htl as (m & Ht1 & (m' & Ht2 & Ht3)%tiles_app).
  constructor; try done.
  - rewrite <- Hlen, !(length_app _ unused), Hl. done.
  - repeat (apply Forall_app; split; try done). by apply mark_records.
  - repeat (apply Forall_app; split; try done). by apply mark_live.
  - cbn. by rewrite Hl.
  - apply tiles_app. exists m. split; [done|]. apply tiles_app. exists m'. split; [by apply tiles_mark|done].
Qed.

(** The last file taken off: its entry is unused again and its sectors free. *)
Definition released (e : STrdFile) (d : STrdDisc) : STrdDisc :=
  with_counts (u8 (numOfFiles d - 1)) (numOfDeleted d)
    (with_free (startSector e) (startTrack e) (u16 (numOfFreeSectors d + sectorLength e)) d).

Lemma laid_release total used e unused d :
  laid total (used ++ [e]) unused d →
  laid total used (with_first_byte 0 e :: unused) (released e d)
  ∧ Z.land (sectorLength e + startSector e) 15 = freeSector d
  ∧ u8 (Z.shiftr (sectorLength e + startSector e) 4 + startTrack e) = freeTrack d.
Proof.
  intros L. pose proof (free_bounds _ _ _ _ L) as (_ & Hb & _).
  destruct L as [Hlen Hrec Hlive Hdead Hi Hc [Hs Ht] Htl Hf Htot].
  apply tiles_app in Htl as (m & Ht1 & He & Hm & Hq). simpl in Hq.
  pose proof (tiles_le _ _ _ Ht1) as Hlo. destruct He as (E1 & E2 & E3).
  rewrite length_app in Hlen, Hc; simpl in Hlen, Hc. rewrite length_app in Hlen; simpl in Hlen.
  unfold free_pos, sector_of, SECTORS_PER_TRACK in *.
  pose proof (advance (startTrack e) (startSector e) (sectorLength e)) as A. cbv zeta in A.
  destruct A as (A1 & A2 & A3); [lia..|]. rewrite (Z.add_comm (startTrack e)) in A1, A3.
  split; [|split; lia].
  destruct Hi as (I1 & I2 & I3 & I4 & I5 & I6 & I7).
  assert (u16 (numOfFreeSectors d + sectorLength e) = numOfFreeSectors d + sectorLength e) as Hu
    by (unfold u16; apply Z.mod_small; lia).
  constructor; try done.
  - rewrite length_app; simpl. lia.
  - rewrite <- app_assoc in Hrec. apply Forall_app in Hrec as [H1 H2]. inversion_clear H2 as [|? ? H3 H4].
    apply Forall_app; split; [done|]. constructor; [|done]. destruct H3 as [H5 H6].
    split; [|done]. destruct e as [[|] ? ? ? ? ? ? ?]; done.
  - by apply Forall_app in Hlive as [? _].
  - by constructor.
  - unfold released, wf_info, with_counts, with_free; cbn -[u8 u16]. rewrite Hu. repeat split; try done; lia.
  - cbn -[u8]. unfold u8. rewrite Z.mod_small by (change (2 ^ 8) with 256; lia). lia.
  - by replace (free_pos (released e d)) with m.
  - unfold free_pos; cbn -[u8 u16 Z.mul]. rewrite Hu. unfold SECTORS_PER_TRACK. lia.
Qed.

(** ** The search in the catalog *)

Ltac flat := repeat first [rewrite <- app_assoc | rewrite length_app | progress simpl].

Lemma delete_entry_at i pre e post d :
  i = Z.of_nat (length pre) →
  delete_entry i {| catalog := pre ++ e :: post; trd_info := d |}
  = {| catalog := pre ++ with_first_byte 1 e :: post;
       trd_info := counted_deleted (u8 (numOfDeleted d + 1)) d |}.
Proof.
  intros ->. unfold delete_entry, update_info, update_entry; simpl. f_equal.
  rewrite Nat2Z.id. by rewrite <- (Nat.add_0_r (length pre)), alter_app_r.
Qed.

Lemma counted_deleted_eq d : counted_deleted (numOfDeleted d) d = d.
Proof. by destruct d. Qed.

Section search.
Context (delete : bool) (Lname : Z) (trdf : STrdFile) (unused : list STrdFile).
Context (Hunused : Forall (fun e => first_byte e = 0) unused).
Local Abbreviation search := (fun fuel => find_file fuel delete Lname trdf).
Definition deleting (e : STrdFile) : bool := delete && same_name Lname e trdf.
Definition other (e : STrdFile) : Prop := same_name Lname e trdf = false.

Lemma find_file_none fuel pre rest h fi k :
  catalog h = pre ++ rest ++ unused → k = Z.of_nat (length pre) →
  Forall live rest → Forall other rest → (length rest <= fuel)%nat →
  find_file fuel delete Lname trdf k fi h = (h, fi).
Proof.
  intros Hc -> Hl. revert fuel pre Hc.
  induction rest as [|e rest IH]; intros fuel pre Hc Hn Hf; destruct fuel as [|fuel];
    try done; try (simpl in Hf; lia); cbn [find_file]; rewrite Hc, Nat2Z.id.
  - rewrite lookup_app_r, Nat.sub_diag by lia. destruct Hunused as [|x l Hx _]; simpl; [done|].
    by rewrite Hx.
  - simpl app. rewrite list_lookup_middle by done. inversion_clear Hl as [|? ? He Hl'].
    inversion_clear Hn as [|? ? Hne Hn']. unfold other in Hne.
    rewrite (proj2 (Z.eqb_neq _ _) He), Hne. cbn [negb].
    replace (Z.of_nat (length pre) + 1) with (Z.of_nat (length (pre ++ [e]))) by (flat; lia).
    apply IH; [done| |done|simpl in Hf; lia]. by rewrite Hc, <- app_assoc.
Qed.

(** The last entry of the name, those in front of it marked; [p] is the one the
    loop found before. *)
Lemma find_file_from fuel pre p pre' a e b d k fi :
  k = Z.of_nat (length (pre ++ p :: pre')) → fi = Z.of_nat (length pre) →
  Forall live (a ++ e :: b) → same_name Lname e trdf = true → Forall other b →
  (length (a ++ e :: b) <= fuel)%nat → (length (pre ++ p :: pre' ++ a) < 128)%nat →
  ∃ n, find_file fuel delete Lname trdf k fi
         {| catalog := pre ++ p :: pre' ++ (a ++ e :: b) ++ unused; trd_info := d |}
  = ({| catalog := pre ++ (if delete then with_first_byte 1 p else p) :: pre'
                     ++ (mark deleting a ++ e :: b) ++ unused;
        trd_info := counted_deleted n d |}, Z.of_nat (length (pre ++ p :: pre' ++ a))).
Proof.
  intros -> -> Hl He Hb. revert fuel pre p pre' d Hl.
  induction a as [|x a IH]; intros [|fuel] pre p pre' d Hl Hf H128; try (simpl in Hf; lia);
    cbn [find_file catalog]; rewrite Nat2Z.id, (app_comm_cons pre' _ p), (app_assoc pre);
    simpl app; (rewrite list_lookup_middle by done); inversion_clear Hl as [|? ? Hle Hlb];
    rewrite (proj2 (Z.eqb_neq _ _) Hle).
  - rewrite He. cbn [negb].
    rewrite (proj2 (Z.eqb_neq _ NUM_OF_FILES_MAX))
      by (revert H128; unfold NUM_OF_FILES_MAX; flat; lia).
    rewrite andb_true_r. exists (if delete then u8 (numOfDeleted d + 1) else numOfDeleted d).
    rewrite (find_file_none fuel (pre ++ (if delete then with_first_byte 1 p else p) :: pre' ++ [e]) b);
      [| |flat; lia|done|done|simpl in Hf; lia].
    + rewrite app_nil_r. f_equal. destruct delete; [|by rewrite counted_deleted_eq, <- app_assoc].
      rewrite <- app_assoc; simpl app. by rewrite delete_entry_at.
    + rewrite <- app_assoc; simpl app. destruct delete; [rewrite delete_entry_at by done|]; simpl; by flat.
  - destruct (same_name Lname x trdf) eqn:Ex; cbn [negb].
    + rewrite (proj2 (Z.eqb_neq _ NUM_OF_FILES_MAX))
        by (revert H128; unfold NUM_OF_FILES_MAX; flat; lia).
      rewrite andb_true_r.
      set (d1 := if delete then counted_deleted (u8 (numOfDeleted d + 1)) d else d).
      set (p1 := if delete then with_first_byte 1 p else p).
      destruct (IH fuel (pre ++ p1 :: pre') x [] d1 Hlb) as (n & Hn);
        [simpl in Hf; lia|revert H128; flat; lia|].
      exists n. etransitivity; [|etransitivity; [exact Hn|]].
      * f_equal; [flat; lia|flat; lia|]. unfold d1, p1. rewrite <- app_assoc; simpl app.
        destruct delete; simpl andb; [rewrite delete_entry_at by done|]; f_equal; by flat.
      * simpl mark. unfold deleting at 2. rewrite Ex, andb_true_r. unfold d1, p1.
        f_equal; [|flat; lia]. destruct delete; f_equal; by flat.
    + destruct (IH fuel pre p (pre' ++ [x]) d Hlb) as (n & Hn);
        [simpl in Hf; lia|revert H128; flat; lia|].
      exists n. etransitivity; [|etransitivity; [exact Hn|]].
      * f_equal; [flat; lia|]. f_equal. by flat.
      * simpl mark. unfold deleting at 2. rewrite Ex, andb_false_r.
        f_equal; [|flat; lia]. f_equal. by flat.
Qed.

(** The whole search. *)
Lemma find_file_last fuel pre a e b d k :
  k = Z.of_nat (length pre) → Forall live (a ++ e :: b) → same_name Lname e trdf = true → Forall other b →
  (length (a ++ e :: b) <= fuel)%nat → (length (pre ++ a) < 128)%nat →
  ∃ n, find_file fuel delete Lname trdf k NUM_OF_FILES_MAX
         {| catalog := pre ++ (a ++ e :: b) ++ unused; trd_info := d |}
  = ({| catalog := pre ++ (mark deleting a ++ e :: b) ++ unused; trd_info := counted_deleted n d |},
     Z.of_nat (length (pre ++ a))).
Proof.
  intros -> Hl He Hb. revert fuel pre Hl.
  induction a as [|x a IH]; intros [|fuel] pre Hl Hf H128; try (simpl in Hf; lia);
    cbn [find_file catalog]; rewrite Nat2Z.id; simpl app; (rewrite list_lookup_middle by done);
    inversion_clear Hl as [|? ? Hle Hlb]; rewrite (proj2 (Z.eqb_neq _ _) Hle).
  - rewrite He, Z.eqb_refl, andb_false_r. cbn [negb]. exists (numOfDeleted d).
    rewrite (find_file_none fuel (pre ++ [e]) b);
      [|by flat|flat; lia|done|done|simpl in Hf; lia].
    by rewrite app_nil_r, counted_deleted_eq.
  - destruct (same_name Lname x trdf) eqn:Ex; cbn [negb].
    + rewrite Z.eqb_refl, andb_false_r.
      destruct (find_file_from fuel pre x [] a e b d (Z.of_nat (length pre) + 1) (Z.of_nat (length pre)))
        as (n & Hn); [flat; lia|done|done|done|done|simpl in Hf; lia|revert H128; flat; lia|].
      exists n. etransitivity; [exact Hn|]. simpl mark. unfold deleting at 2.
      by rewrite Ex, andb_true_r.
    + destruct (IH fuel (pre ++ [x]) Hlb) as (n & Hn); [simpl in Hf; lia|revert H128; flat; lia|].
      exists n. etransitivity; [|etransitivity; [exact Hn|]].
      * f_equal; [flat; lia|]. f_equal. by flat.
      * simpl mark. unfold deleting at 2. rewrite Ex, andb_false_r. f_equal; [|flat; lia]. f_equal. by flat.
Qed.
End search.

(** ** The abstract disk

    A list of files: the bytes of the name and extension, the length field, the
    content of the sectors. *)

Record tr_file := mk_tr { tr_name : list Z; tr_length : Z; tr_data : list Z }.

Definition view (data : list Z) (e : STrdFile) : tr_file := mk_tr (full_name e) (trd_length e) (region data e).
Definition contents (data : list Z) (used : list STrdFile) : list tr_file := view data <$> used.

Definition tr_named (key : list Z) (f : tr_file) : bool :=
  bool_decide (take (length key) (tr_name f) = key).
Definition tr_delete (f : tr_file) : tr_file := mk_tr (1 :: tail (tr_name f)) (tr_length f) (tr_data f).
Definition tr_mark (key : list Z) (l : list tr_file) : list tr_file :=
  (fun f => if tr_named key f then tr_delete f else f) <$> l.
(** "replace" deletes the files of the name; the last one on the disk goes away. *)
Definition tr_replaced (key : list Z) (l : list tr_file) : list tr_file :=
  let l' := tr_mark key l in
  match last l with
  | Some f => if tr_named key f then removelast l' else l'
  | None => l'
  end.

(** What a mode does with the files: [e] is the catalog record, [key] the bytes of
    the name that are compared, [bytes] what is saved. *)
Definition tr_saved (replace addplace : bool) (key : list Z) (e : STrdFile) (bytes : list Z)
    (l l' : list tr_file) : Prop :=
  ∃ sectors, length sectors = Z.to_nat (256 * sectorLength e) ∧ bytes `prefix_of` sectors
  ∧ if addplace then
      ∃ a f b, l = a ++ f :: b ∧ tr_named key f = true ∧ Forall (fun f => tr_named key f = false) b
        ∧ l' = tr_mark key a ++ mk_tr (tr_name f) (tr_length f) (tr_data f ++ sectors) :: b
    else l' = (if replace then tr_replaced key l else l) ++ [mk_tr (full_name e) (trd_length e) sectors].

(** The room: 16 sectors of the disk are the catalog's, 128 files and 255 sectors of a
    file are the most.  [n] sectors more for the mode. *)
Definition tr_size (l : list tr_file) : nat := sum_list_with (fun f => length (tr_data f)) l.
Definition tr_free (total : Z) (l : list tr_file) : Z := 256 * (total - 16) - Z.of_nat (tr_size l).
Definition tr_room (total n : Z) (replace addplace : bool) (key : list Z) (l : list tr_file) : Prop :=
  if addplace then
    ∃ f, last (List.filter (tr_named key) l) = Some f
      ∧ Z.of_nat (length (tr_data f)) + 256 * n ≤ 256 * 255 ∧ 256 * n ≤ tr_free total l
  else
    let l := if replace then tr_replaced key l else l in
    Z.of_nat (length l) < 128 ∧ 256 * n ≤ tr_free total l.

Lemma slice_split o n m l : slice o (n + m) l = slice o n l ++ slice (o + n) m l.
Proof. unfold slice. by rewrite <- drop_drop, take_take_drop. Qed.

Lemma slice_slice o n o' n' l : (o' + n' <= n)%nat → slice o' n' (slice o n l) = slice (o + o') n' l.
Proof.
  intros H. unfold slice. rewrite skipn_firstn_comm, take_take, drop_drop. f_equal. lia.
Qed.

Lemma slice_length o n l : (o + n <= length l)%nat → length (slice o n l) = n.
Proof. intros H. unfold slice. rewrite length_take, length_drop. lia. Qed.

(** A part of what was written. *)
(** The catalog and the files count the free sectors alike. *)
Lemma region_length data e :
  on_disk e → 9 ≤ sector_of e → 256 * (sector_of e + sectorLength e - 9) ≤ Z.of_nat (length data) →
  Z.of_nat (length (region data e)) = 256 * sectorLength e.
Proof. intros (_ & _ & H) H1 H2. unfold region. rewrite slice_length; lia. Qed.
Lemma contents_size data p l q :
  tiles p l q → 9 ≤ p → 256 * (q - 9) ≤ Z.of_nat (length data) →
  Z.of_nat (tr_size (contents data l)) = 256 * (q - p).
Proof.
  intros Ht Hp Hq. revert p Ht Hp. induction l as [|e l IH]; intros p Ht Hp; simpl in Ht.
  { subst. unfold tr_size; simpl. lia. }
  pose proof Ht as (He & Hs & Ht'). pose proof (tiles_le _ _ _ Ht') as Hle. pose proof He as (_ & _ & Hn).
  unfold tr_size, contents in *. cbn [fmap list_fmap sum_list_with]. rewrite Nat2Z.inj_add, (IH _ Ht') by lia.
  cbn [view tr_data]. rewrite region_length by (done || lia). lia.
Qed.
Lemma free_sectors total used unused d data :
  laid total used unused d → (total - 9) * 256 ≤ Z.of_nat (length data) →
  tr_free total (contents data used) = 256 * numOfFreeSectors d.
Proof.
  intros L Hd. pose proof (free_bounds _ _ _ _ L) as (H1 & H2 & H3). destruct L as [_ _ _ _ _ _ _ Ht Hf _].
  unfold tr_free. rewrite (contents_size data _ _ _ Ht) by (unfold SECTORS_PER_TRACK; lia).
  unfold SECTORS_PER_TRACK. lia.
Qed.

Lemma slice_in_written j n k bytes data :
  (k + length bytes <= length data)%nat → (j + n <= length bytes)%nat →
  slice (k + j) n (write_at (Z.of_nat k) bytes data) = slice j n bytes.
Proof.
  intros H1 H2. rewrite <- (slice_slice k (length bytes)) by done.
  rewrite slice_written by lia. by rewrite take_ge by lia.
Qed.

Lemma prefix_slice n k bytes data :
  (k + length bytes <= length data)%nat → (length bytes <= n)%nat → (k + n <= length data)%nat →
  bytes `prefix_of` slice k n (write_at (Z.of_nat k) bytes data).
Proof.
  intros H1 H2 H3. exists (slice (k + length bytes) (n - length bytes) data).
  rewrite <- (slice_after (k + length bytes) (n - length bytes) k bytes data) by lia.
  replace n with (length bytes + (n - length bytes))%nat at 1 by lia.
  by rewrite slice_split, slice_written, take_ge by lia.
Qed.

(** ** What SaveRAM gives *)

Lemma mem_bytes_length d ofs n : length (mem_bytes d ofs n) = Z.to_nat n.
Proof. unfold mem_bytes, upto. by rewrite !length_fmap, length_seq. Qed.

Lemma save_slots_length d slots start len acc bytes :
  save_slots d slots start len acc = Some (1, bytes) → 0 < len →
  Z.of_nat (length bytes) = Z.of_nat (length acc) + len.
Proof.
  revert start len acc. induction slots as [|sl slots IH]; simpl; intros start len acc H Hlen; [done|].
  destruct (in_slot sl start) eqn:Hin; [|by eapply IH].
  unfold in_slot in Hin. apply andb_true_iff in Hin as [? ?%Z.ltb_lt].
  destruct (slot_page d sl) as [pg|]; [|done].
  set (rest := sl_Size sl - (start - sl_Address sl)) in *. set (save := if len <? rest then len else rest) in *.
  assert (0 < rest) by (unfold rest; lia).
  assert (0 ≤ save ≤ len) by (unfold save; destruct (Z.ltb_spec len rest); lia).
  destruct (len - save <=? 0) eqn:Hend; [apply Z.leb_le in Hend|apply Z.leb_gt in Hend].
  - injection H as <-. rewrite length_app, mem_bytes_length. lia.
  - apply IH in H; [|lia]. rewrite length_app, mem_bytes_length in H. lia.
Qed.

Lemma SaveRAM_length d start len bytes :
  SaveRAM d start len = Some (1, bytes) → 0 ≤ start → 0 < len → start + len ≤ 65536 →
  Z.of_nat (length bytes) = len.
Proof.
  intros H Hs Hl Hend. unfold SaveRAM in H. destruct d as [d|]; [|done].
  destruct ((_ <? _) || _); [done|].
  rewrite (proj2 (Z.ltb_ge start 0)), (proj2 (Z.leb_gt len 0)), (proj2 (Z.ltb_ge 65536 _)) in H by lia.
  rewrite (proj2 (Z.leb_gt len 0)) in H by lia.
  apply save_slots_length in H; simpl in H; lia.
Qed.

(** ** The record of the arguments *)

Lemma code_zero c : code c = 0 → c = NUL.
Proof. intros H. rewrite <- (char_of_code c), H. reflexivity. Qed.

Lemma pad_to_length n v l : (length l <= n)%nat → length (pad_to n v l) = n.
Proof. intros H. unfold pad_to. rewrite length_app, repeat_length. lia. Qed.

Definition plain_name (l : list ascii) : Prop := Forall (fun c => c ≠ NUL) l.

Lemma name_bytes fhobname status binName Lname :
  plain_name fhobname → TRD_FileNameToBytes fhobname = (status, binName, Lname) →
  length binName = 12%nat ∧ hd 0 (take 8 binName) ≠ 0 ∧ (Lname = 9 ∨ Lname = 11).
Proof.
  intros Hp H. unfold TRD_FileNameToBytes in H.
  set (dot := strrchr "." fhobname) in *.
  set (maxL := match dot with Some n => Nat.min 8 n | None => 8%nat end) in *.
  set (ext := match dot with Some n => take 3 (drop (S n) fhobname) | None => [] end) in *.
  assert (length ext <= 3)%nat by (unfold ext; destruct dot; [rewrite length_take|simpl]; lia).
  assert (maxL <= 8)%nat by (unfold maxL; destruct dot; lia).
  set (base := pad_to 8 32 (code <$> take maxL fhobname)) in *.
  assert (length base = 8%nat) as Hb by (unfold base; rewrite pad_to_length; [done|]; rewrite length_fmap, length_take; lia).
  set (name := base ++ (code <$> ext)) in *.
  assert (length name = 8 + length ext)%nat as Hn by (unfold name; rewrite length_app, length_fmap; lia).
  injection H as _ <- <-.
  assert (∀ n v k w, take 8 (pad_to k w (pad_to n v name)) = base) as Ht.
  { intros. unfold pad_to, name. rewrite <- !app_assoc. by apply take_app_length'. }
  rewrite Ht. split; [|split].
  - rewrite pad_to_length; [done|]. destruct (Nat.leb_spec (length name) 9); rewrite pad_to_length by lia; lia.
  - unfold base. destruct fhobname as [|c l]; [by destruct maxL|].
    destruct maxL as [|m]; simpl; [done|]. inversion_clear Hp as [|? ? Hc _].
    by intros ?%code_zero.
  - destruct (Nat.leb_spec (length name) 9); rewrite pad_to_length by lia; [by left|by right].
Qed.

(** [answers m P s]: from [s], [m] reports at most and returns a value with [P]. *)
Definition answers {A} (m : M St A) (s : St) (P : A → Prop) : Prop :=
  ∃ a s', m s = Ret a s' ∧ noted s s' ∧ P a.

Lemma answers_ret {A} (a : A) s (P : A → Prop) : P a → answers (mret a) s P.
Proof. intros H. by exists a, s. Qed.

Lemma answers_gets {A B} (f : St → A) (k : A → M St B) s P : answers (k (f s)) s P → answers (gets f ≫= k) s P.
Proof. done. Qed.

Lemma answers_says {A} m (k : M St A) s P :
  says m → (∀ s', noted s s' → answers k s' P) → answers (m ;; k) s P.
Proof.
  intros Hm Hk. destruct (said_bind m k s Hm) as (s1 & N1 & E1).
  destruct (Hk s1 N1) as (a & s2 & E2 & N2 & HP). exists a, s2.
  split; [by rewrite E1|]. split; [by etransitivity|done].
Qed.

Lemma answers_bind {A B} (m : M St A) (k : A → M St B) s P Q :
  answers m s P → (∀ a s', noted s s' → P a → answers (k a) s' Q) → answers (m ≫= k) s Q.
Proof.
  intros (a & s1 & E1 & N1 & HP) Hk. destruct (Hk a s1 N1 HP) as (b & s2 & E2 & N2 & HQ).
  exists b, s2. unfold mbind, M_bind. rewrite E1. split; [done|]. split; [by etransitivity|done].
Qed.

(** A routine that reports and returns a fixed value in each branch. *)
Ltac reporting :=
  repeat first
    [ apply answers_ret
    | apply answers_says; [solve [auto with says] | intros ? ?]
    | match goal with |- answers (if ?b then _ else _) _ _ => destruct b eqn:? end ].

Definition region_ok (s : St) (start len : Z) : Prop :=
  has_device s = true ∧ 0 ≤ start ≤ 0xFFFF ∧ 0 < len ≤ 0xFF00 ∧ start + len ≤ 0x10000.

Lemma check_region_spec isB start len lmv s :
  answers (check_region isB start len lmv) s
    (fun b => b = true ↔ region_ok s start len ∧ (lmv = -1 ∨ isB = true ∧ 0 ≤ lmv ≤ len)).
Proof.
  apply answers_gets. cbv beta. unfold region_ok. change (st s) with s.
  destruct (has_device s), isB; cbn [negb]; reporting;
    (split; [intros E; try discriminate E; repeat split|intros ((? & ? & ? & ?) & [?|[? ?]])]);
    solve [done|exfalso; lia|lia].
Qed.

Lemma sectors_spec len k :
  0 < len ≤ 0xFF00 → k = 0 ∨ k = 4 →
  let n := u8 (Z.shiftr (len + 255 + k) 8) in
  n = 0 ∧ 0xFF00 < len + k
  ∨ (1 ≤ n ≤ 255 ∧ len + k ≤ 256 * n ∧ len + k ≤ 0xFF00 ∧ n = (len + k + 255) / 256).
Proof.
  intros Hl Hk. cbv zeta. rewrite Z.shiftr_div_pow2 by lia. unfold u8. change (2 ^ 8) with 256.
  pose proof (Z.div_mod (len + 255 + k) 256). pose proof (Z.mod_pos_bound (len + 255 + k) 256).
  set (q := (len + 255 + k) / 256) in *. assert (1 ≤ q ≤ 256) as Hq by lia.
  destruct (Z.eq_dec q 256) as [Eq|]; [left; rewrite Eq in *; split; [done|lia]|]. rewrite Z.mod_small by lia. right.
  replace (len + k + 255) with (len + 255 + k) by lia. fold q. lia.
Qed.

(** The name on the disk, and whether its extension is the one of BASIC files. *)
Definition disk_bytes (fhobname : list ascii) : list Z := snd (fst (TRD_FileNameToBytes fhobname)).
Definition is_BASIC (fhobname : list ascii) : bool := byte_of (disk_bytes fhobname) 8 =? code "B".
Definition three_letters (fhobname : list ascii) : bool := snd (TRD_FileNameToBytes fhobname) =? 11.

(** The bytes of the name that are compared: 9, or 11 when the extension has more than
    one letter; of a BASIC file behind its ninth byte is its length, so that "add" never
    finds one of three letters whose saved length is another. *)
Definition compared (addplace : bool) (fhobname : list ascii) (len : Z) : list Z :=
  if negb (three_letters fhobname) then take 9 (disk_bytes fhobname)
  else if negb (is_BASIC fhobname) then take 11 (disk_bytes fhobname)
  else if addplace then take 9 (disk_bytes fhobname) ++ [len mod 256; len / 256]
  else take 9 (disk_bytes fhobname).

(** A BASIC file may end with a line to start from, in four bytes; the sectors needed. *)
Definition line_size (fhobname : list ascii) (line : Z) : Z :=
  if is_BASIC fhobname && (0 <=? line) && (line <=? 9999) then 4 else 0.
Definition sectors_of (fhobname : list ascii) (len line : Z) : Z := (len + line_size fhobname line + 255) / 256.

(** The arguments SAVETRD takes. *)
Definition savable (fhobname : list ascii) (s : St) (start len line lmv : Z) : Prop :=
  region_ok s start len ∧ (lmv = -1 ∨ is_BASIC fhobname = true ∧ 0 ≤ lmv ≤ len)
  ∧ len + line_size fhobname line ≤ 0xFF00.

Definition prepared (fhobname : list ascii) (s : St) (start len line : Z) (addplace : bool) (lmv : Z)
    (r : option (STrdFile * Z * Z)) : Prop :=
  match r with
  | None => ¬ savable fhobname s start len line lmv
  | Some (trdf, Lname, line') =>
      savable fhobname s start len line lmv ∧ storable trdf ∧ (Lname = 9 ∨ Lname = 11)
      ∧ len + (if 0 <=? line' then 4 else 0) ≤ 256 * sectorLength trdf
      ∧ take 9 (full_name trdf) = take 9 (disk_bytes fhobname)
      ∧ trd_length trdf = (if lmv =? -1 then len else lmv)
      ∧ sectorLength trdf = sectors_of fhobname len line
      ∧ take (Z.to_nat Lname) (full_name trdf) = compared addplace fhobname len
  end.

Lemma noted_device s s' : noted s s' → has_device s' = has_device s.
Proof. by intros (e & d & l & c & ->). Qed.

(** The name in the record. *)
Lemma record_name bin L start len line lmv :
  length bin = 12%nat → 0 < len ≤ 0xFF00 →
  let isB := byte_of bin 8 =? code "B" in
  take 9 (full_name (new_record bin L start len line lmv)) = take 9 bin
  ∧ (L = 11 → take 11 (full_name (new_record bin L start len line lmv))
              = if isB then take 9 bin ++ [len mod 256; len / 256] else take 11 bin).
Proof.
  intros Hb Hl isB. unfold new_record. fold isB. short_list bin. destruct isB.
  - split; [done|]. intros ->. cbn. do 9 f_equal. unfold u8. rewrite Z.shiftr_div_pow2 by lia.
    change (2 ^ 8) with 256.
    by rewrite (Z.mod_small (len / 256)) by (split; [apply Z.div_pos|apply Z.div_lt_upper_bound]; lia).
  - destruct (Z.leb_spec L NAME_FULL_SZ); (split; [done|]); intros ->; [|done]. by exfalso.
Qed.

Lemma three_letters_status fhobname status bin L :
  TRD_FileNameToBytes fhobname = (status, bin, L) → bool_decide (status = THREE_LETTER_EXTENSION) = (NAME_FULL_SZ <? L).
Proof.
  unfold TRD_FileNameToBytes. cbv zeta. intros [= <- _ <-]. destruct (NAME_FULL_SZ <? _); [done|].
  destruct (bool_decide (_ ∈ _)); by apply bool_decide_eq_false_2.
Qed.

(** What the record is made of, once the region is accepted. *)
Lemma new_record_spec fhobname bin Lname L' start len line' lmv (addplace : bool) :
  plain_name fhobname → snd (TRD_FileNameToBytes fhobname) = Lname → disk_bytes fhobname = bin →
  length bin = 12%nat → hd 0 (take 8 bin) ≠ 0 → Lname = 9 ∨ Lname = 11 → 0 < len ≤ 0xFF00 →
  L' = (if negb addplace && (NAME_FULL_SZ <? Lname) && is_BASIC fhobname then NAME_FULL_SZ else Lname) →
  (lmv = -1 ∨ is_BASIC fhobname = true ∧ 0 ≤ lmv ≤ len) →
  let e := new_record bin L' start len line' lmv in
  wf_record e ∧ live e ∧ sectorLength e = u8 (Z.shiftr (len + 255 + (if 0 <=? line' then 4 else 0)) 8)
  ∧ (L' = 9 ∨ L' = 11) ∧ take 9 (full_name e) = take 9 bin ∧ trd_length e = (if lmv =? -1 then len else lmv)
  ∧ take (Z.to_nat L') (full_name e) = compared addplace fhobname len.
Proof.
  intros Hp HL Hbin N1 N2 N3 Hlen HL' Hlmv. cbv zeta. set (e := new_record bin L' start len line' lmv).
  assert (HB : is_BASIC fhobname = (byte_of bin 8 =? code "B")) by (unfold is_BASIC; by rewrite Hbin).
  assert (trd_filename e = take 8 bin) as Hf by (unfold e, new_record; by repeat case_match).
  assert (trd_length e = (if lmv =? -1 then len else lmv)) as Hel.
  { transitivity (if is_BASIC fhobname && negb (lmv =? -1) then u16 lmv else u16 len).
    { rewrite HB. unfold e, new_record. by repeat case_match. }
    unfold u16. change (2 ^ 16) with 65536.
    destruct (Z.eqb_spec lmv (-1)); [rewrite andb_false_r; apply Z.mod_small; lia|].
    destruct Hlmv as [|[-> H]]; [done|]. apply Z.mod_small; lia. }
  destruct (record_name bin L' start len line' lmv N1 Hlen) as [H9 H11]. fold e in H9, H11. rewrite <- HB in H11.
  split_and!; try done.
  - split; [rewrite Hf, length_take; lia|]. rewrite Hel. destruct (Z.eqb_spec lmv (-1)); lia.
  - unfold live, first_byte. by rewrite Hf.
  - unfold e, new_record. by repeat case_match.
  - subst L'. destruct (_ && _); [by left|done].
  - unfold compared, three_letters. rewrite HL, Hbin. subst L'. unfold NAME_FULL_SZ in *.
    destruct N3 as [-> | ->]; cbn [Z.eqb Z.ltb Z.compare Pos.eqb Pos.compare Pos.compare_cont negb andb];
      [by rewrite andb_false_r|]. rewrite andb_true_r.
    destruct addplace, (is_BASIC fhobname); cbn [negb andb] in *; auto.
Qed.

Lemma prepare_record_spec fhobname start len line addplace lmv s :
  plain_name fhobname →
  answers (prepare_record fhobname start len line addplace lmv) s (prepared fhobname s start len line addplace lmv).
Proof.
  intros Hp. unfold prepare_record.
  destruct (TRD_FileNameToBytes fhobname) as [[status bin] Lname] eqn:En.
  destruct (name_bytes _ _ _ _ Hp En) as (N1 & N2 & N3).
  assert (Hbin : disk_bytes fhobname = bin) by (unfold disk_bytes; by rewrite En).
  assert (HB : (byte_of bin 8 =? code "B") = is_BASIC fhobname) by (unfold is_BASIC; by rewrite Hbin).
  rewrite HB, (three_letters_status _ _ _ _ En). cbv zeta.
  apply answers_says; [unfold warn_name; auto 6 with says|]. intros s1 S1.
  apply answers_says; [auto with says|]. intros s2 S2.
  set (line' := if _ : bool then -1 else line). set (L' := if _ : bool then NAME_FULL_SZ else Lname).
  assert (Hline : (if 0 <=? line' then 4 else 0) = line_size fhobname line).
  { unfold line', line_size.
    destruct (is_BASIC fhobname), (Z.leb_spec 0 line), (Z.ltb_spec 9999 line), (Z.leb_spec line 9999); cbn [negb orb andb]; try lia.
    all: try done; destruct (Z.leb_spec 0 line); (done || lia). }
  assert (HR : region_ok s2 start len ↔ region_ok s start len)
    by (unfold region_ok; by rewrite (noted_device _ _ S2), (noted_device _ _ S1)).
  eapply answers_bind; [apply check_region_spec|]. intros fine s3 S3 Hfine. cbv beta in Hfine. rewrite HR in Hfine.
  destruct fine; cbn [negb].
  2: { apply answers_ret. intros (H1 & H2 & _). by discriminate (proj2 Hfine (conj H1 H2)). }
  destruct (proj1 Hfine eq_refl) as [Hr Hlmv]. pose proof Hr as (_ & _ & Hlen & _).
  destruct (new_record_spec fhobname bin Lname L' start len line' lmv addplace)
    as (W1 & W2 & W3 & W4 & W5 & W6 & W7); try done; [by rewrite En|].
  destruct (sectors_spec len (if 0 <=? line' then 4 else 0)) as [[Hz Hbig]|(Hz1 & Hz2 & Hz3 & Hz4)]; [done|destruct (0 <=? line'); auto| |];
    rewrite W3, Hline in *.
  - rewrite Hz. simpl. reporting. unfold prepared, savable. lia.
  - rewrite (proj2 (Z.eqb_neq _ 0)) by lia. apply answers_ret. unfold prepared, savable, storable, sectors_of.
    rewrite W3, Hline, Hbin. split_and!; (done || lia).
Qed.

(** ** Storing the record and the bytes *)

(** ** Making room behind a file *)

(** An entry whose sectors moved [n] sectors on. *)
Definition shifted (n : Z) (e : STrdFile) : STrdFile :=
  with_place (sectorLength e) (Z.land (n + startSector e) 0x0F)
    (u8 (startTrack e + Z.shiftr (n + startSector e) 4)) e.

Lemma shifted_place n p l q :
  0 ≤ n → q + n < 4096 → tiles p l q → tiles (p + n) (shifted n <$> l) (q + n).
Proof.
  intros Hn. revert p. induction l as [|e l IH]; simpl; intros p Hq; [lia|].
  intros ((E1 & E2 & E3) & Hp & Ht). pose proof (tiles_le _ _ _ Ht).
  unfold sector_of, SECTORS_PER_TRACK in *. pose proof (advance (startTrack e) (startSector e) n) as A.
  cbv zeta in A. destruct A as (A1 & A2 & A3); [lia..|].
  unfold on_disk, sector_of, shifted; cbn -[Z.land Z.shiftr u8 Z.mul].
  split; [by split; [|split; [|lia]]|]. split; [unfold SECTORS_PER_TRACK; lia|].
  replace (p + n + sectorLength e) with (p + sectorLength e + n) by lia. by apply IH.
Qed.

Lemma shift_entries_before a rest i fileIndex targetPos p q n :
  Forall live a → tiles p a q → targetPos = 256 * q → i + Z.of_nat (length a) ≤ fileIndex →
  shift_entries (a ++ rest) i fileIndex targetPos n
  = app a <$> shift_entries rest (i + Z.of_nat (length a)) fileIndex targetPos n.
Proof.
  revert i p. induction a as [|e a IH]; simpl; intros i p Hl Ht Htp Hi.
  - rewrite Z.add_0_r. by destruct (shift_entries _ _ _ _ _).
  - inversion_clear Hl as [|? ? He Hl']. destruct Ht as ((E1 & E2 & E3) & Hp & Ht).
    pose proof (tiles_le _ _ _ Ht). unfold live in He. rewrite (proj2 (Z.eqb_neq _ _) He).
    rewrite (proj2 (Z.eqb_neq i _)) by lia. rewrite fileOffset_sector.
    change (startTrack e * 16 + startSector e) with (sector_of e).
    rewrite (proj2 (Z.ltb_lt i _)) by lia. rewrite (proj2 (Z.ltb_lt _ targetPos)) by lia. cbn [Bool.eqb negb].
    rewrite (IH (i + 1) _ Hl' Ht Htp) by lia.
    replace (i + 1 + Z.of_nat (length a)) with (i + Z.of_nat (S (length a))) by lia.
    by destruct (shift_entries _ _ _ _ _).
Qed.

Lemma shift_entries_after b unused i fileIndex targetPos p q n :
  Forall live b → Forall (fun e => first_byte e = 0) unused → tiles p b q → targetPos ≤ 256 * p →
  fileIndex < i →
  shift_entries (b ++ unused) i fileIndex targetPos n = Some ((shifted n <$> b) ++ unused).
Proof.
  intros Hl Hd. revert i p Hl. induction b as [|e b IH]; simpl; intros i p Hl Ht Hp Hi.
  - destruct Hd as [|x l Hx _]; simpl; [done|]. by rewrite Hx.
  - inversion_clear Hl as [|? ? He Hl']. destruct Ht as ((E1 & E2 & E3) & <- & Ht).
    unfold live in He. rewrite (proj2 (Z.eqb_neq _ _) He).
    rewrite (proj2 (Z.eqb_neq i _)) by lia. rewrite fileOffset_sector.
    change (startTrack e * 16 + startSector e) with (sector_of e).
    rewrite (proj2 (Z.ltb_ge i _)) by lia. rewrite (proj2 (Z.ltb_ge _ targetPos)) by lia. cbn [Bool.eqb negb].
    by rewrite (IH (i + 1) _ Hl' Ht) by lia.
Qed.

(** The target with [n] more sectors. *)
Definition grown_file (n : Z) (t : STrdFile) : STrdFile :=
  with_place (u8 (sectorLength t + n)) (startSector t) (startTrack t) t.

Lemma shift_entries_all a t b unused p q n :
  Forall live (a ++ t :: b) → Forall (fun e => first_byte e = 0) unused → tiles p (a ++ t :: b) q →
  shift_entries (a ++ grown_file n t :: b ++ unused) 0 (Z.of_nat (length a)) (256 * sector_of t) n
  = Some (a ++ grown_file n t :: (shifted n <$> b) ++ unused).
Proof.
  intros Hl Hd Ht. apply Forall_app in Hl as [Hla Hl]. inversion_clear Hl as [|? ? Hlt Hlb].
  apply tiles_app in Ht as (m & Hta & T1 & T2 & Htb). subst m.
  rewrite (shift_entries_before a _ _ _ _ p (sector_of t)) by (done || lia). simpl shift_entries.
  replace (first_byte (grown_file n t)) with (first_byte t) by done.
  unfold live in Hlt. rewrite (proj2 (Z.eqb_neq _ _) Hlt), Z.eqb_refl.
  destruct T1 as (_ & _ & T1).
  by rewrite (shift_entries_after b unused _ _ _ (sector_of t + sectorLength t) q) by (done || lia).
Qed.

Lemma laid_add total a t b unused d n :
  laid total (a ++ t :: b) unused d → 1 ≤ n ≤ numOfFreeSectors d → sectorLength t + n ≤ 255 →
  laid total (a ++ grown_file n t :: (shifted n <$> b)) unused (use_sectors n false d).
Proof.
  intros L Hn H255. pose proof (free_bounds _ _ _ _ L) as (_ & _ & B).
  pose proof (use_sectors_spec _ _ _ _ n false L ltac:(lia)) as (U1 & U2 & U3 & U4 & U5).
  destruct L as [Hlen Hrec Hlive Hdead _ Hc _ Htl Hf Htot].
  apply Forall_app in Hrec as [Hrec Hru]. apply Forall_app in Hrec as [Hra Hrb].
  apply Forall_app in Hlive as [Hla Hlb]. inversion_clear Hrb as [|? ? Hrt Hrb'].
  inversion_clear Hlb as [|? ? Hlt Hlb']. apply tiles_app in Htl as (m & Hta & (T1 & T2 & T3) & Hpos & Htb).
  assert (u8 (sectorLength t + n) = sectorLength t + n) as Hu
    by (unfold u8; change (2 ^ 8) with 256; apply Z.mod_small; lia).
  constructor; try done.
  - revert Hlen. rewrite !length_app. simpl. by rewrite length_fmap.
  - apply Forall_app; split; [apply Forall_app; split; [done|]|done]. constructor; [exact Hrt|].
    apply Forall_fmap. eapply Forall_impl; [exact Hrb'|]. intros e He. exact He.
  - apply Forall_app; split; [done|]. constructor; [exact Hlt|].
    apply Forall_fmap. eapply Forall_impl; [exact Hlb'|]. intros e He. exact He.
  - rewrite U5 by auto. rewrite Hc, !length_app. simpl. rewrite length_fmap. lia.
  - rewrite U3. apply tiles_app. exists m. split; [done|]. unfold grown_file; cbn -[u8]. rewrite Hu.
    split; [repeat split; cbn; lia|]. split; [exact Hpos|].
    replace (m + (sectorLength t + n)) with (m + sectorLength t + n) by lia.
    apply shifted_place; try done; lia.
Qed.

Lemma write_at_nothing k data : (k <= length data)%nat → write_at (Z.of_nat k) [] data = data.
Proof. intros H. rewrite write_at_inside by (simpl; lia). simpl. by rewrite Nat.add_0_r, take_drop. Qed.

Lemma read_at_data hd k m data :
  0 ≤ k → 0 ≤ m → k + m ≤ Z.of_nat (length data) →
  read_at (Z.of_nat (length hd) + k) m (hd ++ data) = Some (slice (Z.to_nat k) (Z.to_nat m) data).
Proof.
  intros Hk Hm Hb. unfold read_at. rewrite Z2Nat.inj_add, Nat2Z.id by lia.
  assert (slice (length hd + Z.to_nat k) (Z.to_nat m) (hd ++ data) = slice (Z.to_nat k) (Z.to_nat m) data) as ->
    by (unfold slice; by rewrite drop_app_add).
  rewrite slice_length, Z2Nat.id, Z.eqb_refl by lia. done.
Qed.

(** The data once the sectors behind the file are moved. *)
Definition moved_data (data : list Z) (from to free : Z) : list Z :=
  write_at (256 * (to - 9)) (slice (Z.to_nat (256 * (from - 9))) (Z.to_nat (256 * (free - from))) data) data.

Lemma make_room_spec total a t b unused d n hd data :
  laid total (a ++ t :: b) unused d → 1 ≤ n ≤ numOfFreeSectors d → sectorLength t + n ≤ 255 →
  length hd = 2304%nat → (total - 9) * 256 ≤ Z.of_nat (length data) →
  make_room (head_of_disk (a ++ grown_file n t :: b) unused d) (grown_file n t) (Z.of_nat (length a))
    (sectorLength t) n (hd ++ data)
  = (hd ++ moved_data data (sector_of t + sectorLength t) (sector_of t + sectorLength t + n) (free_pos d),
     inr (head_of_disk (a ++ grown_file n t :: (shifted n <$> b)) unused d)).
Proof.
  intros L Hn H255 Hhd Hdata. pose proof (free_bounds _ _ _ _ L) as (_ & _ & B).
  destruct L as [_ _ Hlive Hdead _ _ _ Htl Hf _].
  assert (on_disk t ∧ 16 ≤ sector_of t ∧ sector_of t + sectorLength t ≤ free_pos d) as ((_ & _ & T1) & T2 & T3)
    by (eapply tiles_in; [exact Htl|apply elem_of_app; right; by left]).
  pose proof (shift_entries_all a t b unused _ _ n Hlive Hdead Htl) as Hsh.
  apply tiles_app in Htl as (m & _ & _ & Hm & Htb). subst m.
  assert (u8 (sectorLength t + n) = sectorLength t + n) as Hu
    by (unfold u8; change (2 ^ 8) with 256; apply Z.mod_small; lia).
  unfold make_room, head_of_disk; cbn [catalog trd_info].
  change (startTrack (grown_file n t)) with (startTrack t).
  change (startSector (grown_file n t)) with (startSector t).
  change (sectorLength (grown_file n t)) with (u8 (sectorLength t + n)). rewrite Hu, !fileOffset_sector.
  change (startTrack t * 16 + startSector t) with (sector_of t).
  change (freeTrack d * 16 + freeSector d) with (free_pos d).
  unfold moved_data, SECTOR_SZ.
  destruct (Z.ltb_spec (256 * sector_of t + sectorLength t * 256) (256 * free_pos d)) as [Hlt|Hge]; cbn [negb].
  - replace (256 * sector_of t + sectorLength t * 256)
      with (Z.of_nat (length hd) + 256 * (sector_of t + sectorLength t - 9)) by (rewrite Hhd; lia).
    rewrite read_at_data by (rewrite ?Hhd; lia). rewrite <- app_assoc. simpl app. rewrite Hsh. do 2 f_equal.
    + replace (256 * sector_of t + (sectorLength t + n) * 256)
        with (Z.of_nat (length hd) + 256 * (sector_of t + sectorLength t + n - 9)) by (rewrite Hhd; lia).
      rewrite write_at_data by lia. do 4 f_equal. rewrite Hhd. lia.
    + f_equal. by rewrite <- app_assoc.
  - replace (256 * (free_pos d - (sector_of t + sectorLength t))) with 0 by lia.
    replace (slice _ (Z.to_nat 0) data) with (@nil Z) by done.
    assert (b = []) as ->.
    { destruct b as [|e b]; [done|]. destruct Htb as ((_ & _ & E) & _ & Htb). apply tiles_le in Htb. lia. }
    rewrite <- (Z2Nat.id (256 * _)) by lia. by rewrite write_at_nothing by lia.
Qed.

(** *** The data when a file grows *)

Section growth.
Context (data bytes : list Z) (from n free : Z).
Context (Hfrom : 9 ≤ from) (Hn : 1 ≤ n) (Hfree : from ≤ free).
Context (Hroom : 256 * (free + n - 9) ≤ Z.of_nat (length data)).
Context (Hbytes : Z.of_nat (length bytes) ≤ 256 * n).

Definition grown_data : list Z := write_at (256 * (from - 9)) bytes (moved_data data from (from + n) free).

Let k := Z.to_nat (256 * (from - 9)).
Let m := Z.to_nat (256 * (free - from)).
Let w := Z.to_nat (256 * n).

Lemma moved_is : moved_data data from (from + n) free = write_at (Z.of_nat (k + w)) (slice k m data) data.
Proof. unfold moved_data. fold k m. f_equal. unfold k, w. lia. Qed.

Lemma moved_room : (k + w + length (slice k m data) <= length data)%nat.
Proof. rewrite slice_length by (unfold k, m; lia). unfold k, m, w. lia. Qed.

Lemma moved_length : length (moved_data data from (from + n) free) = length data.
Proof. rewrite moved_is. apply write_at_length, moved_room. Qed.

Lemma grown_is : grown_data = write_at (Z.of_nat k) bytes (moved_data data from (from + n) free).
Proof. unfold grown_data. f_equal. unfold k. lia. Qed.

Lemma grown_room : (k + length bytes <= length (moved_data data from (from + n) free))%nat.
Proof. rewrite moved_length. unfold k. lia. Qed.

Lemma grown_length : length grown_data = length data.
Proof. rewrite grown_is, write_at_length by apply grown_room. apply moved_length. Qed.

(** In front of the file's end nothing changes. *)
Lemma grown_front o l : (o + l <= k)%nat → slice o l grown_data = slice o l data.
Proof.
  intros H. rewrite grown_is, slice_before by (done || apply grown_room).
  rewrite moved_is. apply slice_before; [unfold w in *; lia|apply moved_room].
Qed.

Lemma grown_new : bytes `prefix_of` slice k w grown_data ∧ length (slice k w grown_data) = w.
Proof.
  split.
  - rewrite grown_is. apply prefix_slice; [apply grown_room|unfold w; lia|].
    rewrite moved_length. unfold k, w. lia.
  - apply slice_length. rewrite grown_length. unfold k, w. lia.
Qed.

(** What was behind it is [n] sectors further. *)
Lemma grown_behind o l : (k <= o)%nat → (o + l <= k + m)%nat → slice (o + w) l grown_data = slice o l data.
Proof.
  intros H1 H2. rewrite grown_is, slice_after; [|unfold w; lia|apply grown_room].
  rewrite moved_is. replace (o + w)%nat with (k + w + (o - k))%nat by lia.
  pose proof moved_room as Hr. assert (length (slice k m data) = m) as Hm
    by (apply slice_length; unfold k, m; lia).
  rewrite slice_in_written by (lia || exact Hr). rewrite slice_slice by lia. f_equal. lia.
Qed.
End growth.

Lemma contents_grown data bytes p a t b q n :
  tiles p (a ++ t :: b) q → 9 ≤ p → 1 ≤ n → sectorLength t + n ≤ 255 → q + n < 4096 →
  256 * (q + n - 9) ≤ Z.of_nat (length data) → Z.of_nat (length bytes) ≤ 256 * n →
  ∃ sectors, length sectors = Z.to_nat (256 * n) ∧ bytes `prefix_of` sectors
    ∧ contents (grown_data data bytes (sector_of t + sectorLength t) n q) (a ++ grown_file n t :: (shifted n <$> b))
      = contents data a ++ mk_tr (full_name t) (trd_length t) (region data t ++ sectors) :: contents data b.
Proof.
  intros Ht Hp Hn H255 Hq Hdata Hbytes. apply tiles_app in Ht as (m & Hta & (T1 & T2 & T3) & Hm & Htb).
  pose proof (tiles_le _ _ _ Hta). pose proof (tiles_le _ _ _ Htb). subst m.
  set (from := sector_of t + sectorLength t) in *.
  destruct (grown_new data bytes from n q) as [G1 G2]; [lia..|].
  set (new := slice (Z.to_nat (256 * (from - 9))) (Z.to_nat (256 * n)) (grown_data data bytes from n q)) in *.
  exists new. split; [done|]. split; [done|].
  unfold contents. rewrite fmap_app. f_equal; [|simpl; f_equal].
  - apply list_fmap_ext. intros i e He%list_elem_of_lookup_2. unfold view. f_equal.
    destruct (tiles_in _ _ _ _ Hta He) as ((E1 & E2 & E3) & E4 & E5). unfold region. apply grown_front; lia.
  - unfold view. f_equal. unfold region at 1. unfold grown_file at 2; cbn [with_place sectorLength].
    change (sector_of (grown_file n t)) with (sector_of t).
    assert (u8 (sectorLength t + n) = sectorLength t + n) as ->
      by (unfold u8; change (2 ^ 8) with 256; apply Z.mod_small; lia).
    replace (Z.to_nat (256 * (sectorLength t + n)))
      with (Z.to_nat (256 * sectorLength t) + Z.to_nat (256 * n))%nat by lia.
    rewrite slice_split. f_equal; [apply grown_front; lia|]. unfold new. f_equal. lia.
  - rewrite <- list_fmap_compose. apply list_fmap_ext. intros i e He%list_elem_of_lookup_2. unfold view, compose. f_equal.
    destruct (tiles_in _ _ _ _ Htb He) as ((E1 & E2 & E3) & E4 & E5). unfold region.
    unfold sector_of, SECTORS_PER_TRACK in E4, E5.
    destruct (advance (startTrack e) (startSector e) n) as (A1 & A2 & A3); [lia..|].
    assert (sector_of (shifted n e) = sector_of e + n) as -> by exact A3.
    change (sectorLength (shifted n e)) with (sectorLength e).
    replace (Z.to_nat (256 * (sector_of e + n - 9)))
      with (Z.to_nat (256 * (sector_of e - 9)) + Z.to_nat (256 * n))%nat
      by (unfold sector_of, SECTORS_PER_TRACK; lia).
    apply grown_behind; unfold sector_of, SECTORS_PER_TRACK; lia.
Qed.

Section store.
Context `{FileSystem}.

(** [writes ok m s fname P]: when [ok], [m] stores a file with [P] under the name and
    answers true, and else it answers false and has only reported. *)
Definition writes (ok : Prop) (m : M St bool) (s : St) (fname : list ascii) (P : list Z → Prop) : Prop :=
  ∃ b s', m s = Ret b s' ∧ (b = true ↔ ok)
          ∧ if b : bool then ∃ file, content_of fname s' = Some file ∧ P file else noted s s'.

Lemma writes_bind {A} ok (m : M St A) (k : A → M St bool) s fname P Q :
  answers m s Q → (∀ a s', noted s s' → Q a → writes ok (k a) s' fname P) → writes ok (m ≫= k) s fname P.
Proof.
  intros (a & s1 & E1 & N1 & HQ) Hk. destruct (Hk a s1 N1 HQ) as (b & s2 & E2 & Hok & HP).
  exists b, s2. unfold mbind, M_bind. rewrite E1. split; [done|]. split; [done|].
  destruct b; [done|]. by etransitivity.
Qed.

Lemma writes_gets {A} ok (f : St → A) (k : A → M St bool) s fname P :
  writes ok (k (f s)) s fname P → writes ok (gets f ≫= k) s fname P.
Proof. done. Qed.

Lemma writes_fails (ok : Prop) message path s fname P : ¬ ok → writes ok (ReturnWithError message path) s fname P.
Proof.
  intros Hok.
  destruct (answers_says (Error message (Some path) IF_FIRST) (mret false) s (fun b => b = false))
    as (b & s' & E & N & ->); [auto with says|by intros; apply answers_ret|]. by exists false, s'.
Qed.

Definition line_bytes (addplace : bool) (line : Z) : list Z :=
  if negb addplace && (0 <=? line) then [0x80; 0xAA; u8 line; u8 (Z.shiftr line 8)] else [].

Lemma write_content_spec fname hd data h target keep start len line isNew added addplace bytes s :
  SaveRAM (cur_device s) start len = Some (1, bytes) →
  length hd = 2304%nat → wf_head (update_info (use_sectors added isNew) h) → 9 ≤ sector_of target + keep →
  write_content fname (hd ++ data) h target keep start len line isNew added addplace s
  = Ret true (put_file fname (head_record (update_info (use_sectors added isNew) h)
      ++ write_at (256 * (sector_of target + keep - 9)) (bytes ++ line_bytes addplace line) data) s).
Proof.
  intros Hram Hhd Hwf Hpos. unfold write_content. run. change (st s) with s. rewrite Hram.
  cbn [Z.eqb]. fold (line_bytes addplace line). rewrite fileOffset_sector.
  change (startTrack target * 16 + startSector target) with (sector_of target).
  replace (256 * sector_of target + keep * SECTOR_SZ)
    with (Z.of_nat (length hd) + 256 * (sector_of target + keep - 9)) by (rewrite Hhd; unfold SECTOR_SZ; lia).
  rewrite write_at_data by lia. rewrite write_at_head; [done|].
  by rewrite Hhd, head_record_length.
Qed.

(** The bytes of a record's sectors stay where nothing is written. *)
Lemma region_before data k bytes e :
  on_disk e → 9 ≤ sector_of e → 256 * (sector_of e + sectorLength e - 9) ≤ Z.of_nat k →
  (k + length bytes <= length data)%nat →
  region (write_at (Z.of_nat k) bytes data) e = region data e.
Proof. intros (_ & _ & H2) H3 H4 H5. unfold region. apply slice_before; [lia|done]. Qed.

Lemma contents_before data k bytes p l q :
  tiles p l q → 9 ≤ p → 256 * (q - 9) ≤ Z.of_nat k → (k + length bytes <= length data)%nat →
  contents (write_at (Z.of_nat k) bytes data) l = contents data l.
Proof.
  intros Ht Hp Hq Hk. apply list_fmap_ext. intros i e He%list_elem_of_lookup_2. unfold view. f_equal.
  destruct (tiles_in _ _ _ _ Ht He) as (H1 & H2 & H3). apply region_before; try done; lia.
Qed.

Lemma names_differ L e trdf :
  1 ≤ L → wf_record e → wf_record trdf → first_byte e = 0 → live trdf → same_name L e trdf = false.
Proof.
  intros HL [He _] [Ht _] H0 Hl. unfold same_name. apply bool_decide_eq_false. unfold live, first_byte in *.
  unfold full_name. destruct (trd_filename e) as [|x l]; [done|]. destruct (trd_filename trdf) as [|y l']; [done|].
  simpl in *. destruct (Z.to_nat L) eqn:E; [lia|]. simpl. congruence.
Qed.

Context (fname : list ascii) (total start len line : Z) (s : St) (bytes : list Z).
Context (Hram : SaveRAM (cur_device s) start len = Some (1, bytes)).

(** The file is an image in order with other contents. *)
Definition becomes (l : list tr_file → Prop) (file : list Z) : Prop :=
  ∃ used d data, disk total used d data file ∧ l (contents data used).

Lemma store_new hd data used unused d trdf L :
  laid total used unused d → (total - 9) * 256 ≤ Z.of_nat (length data) → length hd = 2304%nat →
  storable trdf → 1 ≤ L → Z.of_nat (length (bytes ++ line_bytes false line)) ≤ 256 * sectorLength trdf →
  writes (Z.of_nat (length used) < 128 ∧ sectorLength trdf ≤ numOfFreeSectors d)
    (store_file fname (hd ++ data) (head_of_disk used unused d) (numOfFiles d) trdf L start len line false)
    s fname
    (becomes (fun l => ∃ sectors, length sectors = Z.to_nat (256 * sectorLength trdf)
       ∧ bytes `prefix_of` sectors
       ∧ l = contents data used ++ [mk_tr (full_name trdf) (trd_length trdf) sectors])).
Proof.
  intros L0 Hdata Hhd Hst HL Hlen. pose proof L0 as [Hn Hrec _ Hdead _ Hc _ Htl Hf _].
  unfold store_file. destruct (Z.eqb_spec (numOfFiles d) NUM_OF_FILES_MAX) as [Hmax|Hmax].
  { apply writes_fails. unfold NUM_OF_FILES_MAX in Hmax. lia. }
  destruct unused as [|x unused].
  { rewrite app_nil_r in Hn. rewrite Hc, Hn in Hmax. by destruct Hmax. }
  rewrite Hc at 1. unfold head_of_disk at 1; cbn [catalog]. rewrite Nat2Z.id, list_lookup_middle by done.
  apply Forall_app in Hrec as [_ Hrec]. inversion_clear Hrec as [|? ? Hx _]. inversion_clear Hdead as [|? ? Hx0 _].
  destruct Hst as (S1 & S2 & S3). rewrite (names_differ L x trdf) by done. rewrite Hx0. cbn [Z.eqb negb andb].
  cbn [head_of_disk trd_info]. destruct (Z.ltb_spec (numOfFreeSectors d) (sectorLength trdf)) as [|Hfree]; [apply writes_fails; lia|].
  destruct (Z.ltb_spec 0xFF (0 + sectorLength trdf)); [lia|]. fold (stored d trdf).
  assert (update_entry (numOfFiles d) (λ _, stored d trdf) (head_of_disk used (x :: unused) d)
          = head_of_disk (used ++ [stored d trdf]) unused d) as ->.
  { rewrite Hc. unfold update_entry, head_of_disk; cbn [catalog trd_info]. rewrite Nat2Z.id, <- app_assoc.
    by rewrite <- (Nat.add_0_r (length used)), alter_app_r. }
  pose proof (laid_new _ _ _ _ _ trdf L0 ltac:(by split) Hfree) as L1.
  pose proof (free_bounds _ _ _ _ L0) as (B1 & B2 & B3).
  assert (sector_of (stored d trdf) = free_pos d) as Hpos by done.
  set (k := Z.to_nat (256 * (free_pos d - 9))).
  set (data' := write_at (Z.of_nat k) (bytes ++ line_bytes false line) data).
  assert (k + length (bytes ++ line_bytes false line) <= length data)%nat as Hk by (unfold k; lia).
  eexists true, _. split.
  { rewrite (write_content_spec _ hd data _ _ _ _ _ _ _ _ _ bytes); [reflexivity|done|done| |lia].
    exact (laid_wf _ _ _ _ L1). }
  split; [rewrite length_app in Hn; simpl in Hn; split; [lia|done]|].
  rewrite content_of_put. eexists; split; [reflexivity|].
  exists (used ++ [stored d trdf]), (use_sectors (sectorLength trdf) true d), data'. split.
  - exists unused. split; [done|]. split.
    + rewrite Hpos, Z.add_0_r. unfold data', k. by rewrite Z2Nat.id by lia.
    + unfold data'. by rewrite write_at_length.
  - exists (region data' (stored d trdf)). unfold region. rewrite Hpos. fold k. split; [|split].
    + unfold data'. rewrite slice_length; [done|]. rewrite write_at_length by done. simpl. unfold k. lia.
    + etransitivity; [by apply prefix_app_r|]. apply prefix_slice; [done|simpl; lia|simpl; unfold k; lia].
    + unfold contents at 1. rewrite fmap_app. f_equal.
      apply (contents_before data k _ SECTORS_PER_TRACK used (free_pos d)); try done. unfold k. lia.
Qed.

Lemma store_add hd data a t b unused d trdf L :
  laid total (a ++ t :: b) unused d → (total - 9) * 256 ≤ Z.of_nat (length data) → length hd = 2304%nat →
  storable trdf → same_name L t trdf = true → Z.of_nat (length bytes) ≤ 256 * sectorLength trdf →
  writes (sectorLength trdf ≤ numOfFreeSectors d ∧ sectorLength t + sectorLength trdf ≤ 255)
    (store_file fname (hd ++ data) (head_of_disk (a ++ t :: b) unused d) (Z.of_nat (length a)) trdf L
            start len line true) s fname
    (becomes (fun l => ∃ sectors, length sectors = Z.to_nat (256 * sectorLength trdf)
       ∧ bytes `prefix_of` sectors
       ∧ l = contents data a ++ mk_tr (full_name t) (trd_length t) (region data t ++ sectors) :: contents data b)).
Proof.
  intros L0 Hdata Hhd Hst Hname Hlen. destruct Hst as (_ & _ & Hs).
  pose proof (free_bounds _ _ _ _ L0) as (B1 & B2 & B3). pose proof L0 as [Hn _ _ _ _ _ _ Htl Hf Htot].
  rewrite !length_app in Hn; simpl in Hn.
  unfold store_file. rewrite (proj2 (Z.eqb_neq _ NUM_OF_FILES_MAX)) by (unfold NUM_OF_FILES_MAX; lia).
  unfold head_of_disk at 1; cbn [catalog]. rewrite Nat2Z.id, <- app_assoc. simpl app.
  rewrite list_lookup_middle by done. rewrite Hname. cbn [negb]. rewrite andb_false_r.
  cbn [head_of_disk trd_info]. set (n := sectorLength trdf) in *.
  destruct (Z.ltb_spec (numOfFreeSectors d) n) as [|Hfree]; [apply writes_fails; lia|].
  destruct (Z.ltb_spec 0xFF (sectorLength t + n)) as [|H255]; [apply writes_fails; lia|].
  fold (grown_file n t).
  assert (update_entry (Z.of_nat (length a)) (λ _, grown_file n t) (head_of_disk (a ++ t :: b) unused d)
          = head_of_disk (a ++ grown_file n t :: b) unused d) as ->.
  { unfold update_entry, head_of_disk; cbn [catalog trd_info]. rewrite Nat2Z.id, <- !app_assoc.
    by rewrite <- (Nat.add_0_r (length a)), alter_app_r. }
  rewrite (make_room_spec total a t b unused d n hd data) by (done || lia).
  pose proof (laid_add _ _ _ _ _ _ n L0 ltac:(lia) H255) as L1.
  destruct (contents_grown data bytes _ a t b _ n Htl) as (sectors & C1 & C2 & C3); [done|lia..|].
  assert (on_disk t ∧ 16 ≤ sector_of t ∧ sector_of t + sectorLength t ≤ free_pos d) as ((_ & _ & T1) & T2 & T3)
    by (eapply tiles_in; [exact Htl|apply elem_of_app; right; by left]).
  eexists true, _. split.
  { rewrite (write_content_spec _ hd _ _ _ _ _ _ _ _ _ _ bytes); [reflexivity|done|done| |].
    - exact (laid_wf _ _ _ _ L1).
    - change (sector_of (grown_file n t)) with (sector_of t). lia. }
  split; [done|].
  rewrite content_of_put. eexists; split; [reflexivity|].
  do 3 eexists. split; [|by exists sectors].
  exists unused. split; [exact L1|]. split; [|rewrite grown_length; lia].
  unfold line_bytes. cbn [negb andb]. rewrite app_nil_r. reflexivity.
Qed.
End store.

(** ** SAVETRD *)

Lemma last_split {A} (f : A → bool) (l : list A) :
  Forall (fun x => f x = false) l
  ∨ ∃ a x b, l = a ++ x :: b ∧ f x = true ∧ Forall (fun x => f x = false) b.
Proof.
  induction l as [|y l [IH|(a & x & b & -> & Hx & Hb)]]; [by left| |].
  - destruct (f y) eqn:E; [right; by exists [], y, l|left; by constructor].
  - right. by exists (y :: a), x, b.
Qed.

Definition key_of (L : Z) (e : STrdFile) : list Z := take (Z.to_nat L) (full_name e).

Lemma named_view L e trdf data :
  wf_record trdf → L = 9 ∨ L = 11 → tr_named (key_of L trdf) (view data e) = same_name L e trdf.
Proof.
  intros [Hw _] HL. unfold tr_named, same_name, key_of, view; simpl.
  assert (length (take (Z.to_nat L) (full_name trdf)) = Z.to_nat L) as ->; [|done].
  rewrite length_take. unfold full_name. rewrite length_app, Hw. simpl. lia.
Qed.

Lemma view_deleted data e : wf_record e → view data (with_first_byte 1 e) = tr_delete (view data e).
Proof. destruct e as [[|x l] ? ? ? ? ? ? ?]; intros [H _]; [done|reflexivity]. Qed.

Section names.
Context (L : Z) (trdf : STrdFile) (data : list Z) (Hwf : wf_record trdf) (HL : L = 9 ∨ L = 11).
Local Abbreviation key := (key_of L trdf).

Lemma contents_mark a :
  Forall wf_record a → contents data (mark (deleting true L trdf) a) = tr_mark key (contents data a).
Proof.
  induction 1 as [|e a He Ha IH]; [done|]. simpl. rewrite IH. f_equal.
  rewrite named_view by done. unfold deleting. simpl.
  destruct (same_name L e trdf); [by apply view_deleted|done].
Qed.

Lemma mark_none a : mark (deleting false L trdf) a = a.
Proof. unfold mark, deleting. simpl. by rewrite list_fmap_id. Qed.

Lemma others_named b : Forall (other L trdf) b → Forall (fun f => tr_named key f = false) (contents data b).
Proof.
  intros Hb. apply Forall_fmap. eapply Forall_impl; [exact Hb|]. intros e He. simpl.
  by rewrite named_view by done.
Qed.

Lemma tr_mark_none (l : list tr_file) : Forall (fun f => tr_named key f = false) l → tr_mark key l = l.
Proof. induction 1 as [|f l Hf Hl IH]; [done|]. simpl. by rewrite Hf, IH. Qed.

Lemma tr_mark_middle k l f l' :
  tr_mark k (l ++ f :: l') = tr_mark k l ++ (if tr_named k f then tr_delete f else f) :: tr_mark k l'.
Proof. unfold tr_mark. by rewrite fmap_app. Qed.

Lemma replaced_none used :
  Forall (other L trdf) used → tr_replaced key (contents data used) = contents data used.
Proof.
  intros Hu. pose proof (others_named used Hu) as Hn. unfold tr_replaced. rewrite tr_mark_none by done.
  destruct (last (contents data used)) as [f|] eqn:El; [|done].
  rewrite Forall_forall in Hn. by rewrite Hn by (by apply last_Some_elem_of).
Qed.

Lemma replaced_last a e :
  Forall wf_record a → same_name L e trdf = true →
  tr_replaced key (contents data (a ++ [e])) = contents data (mark (deleting true L trdf) a).
Proof.
  intros Ha He. unfold tr_replaced, contents. rewrite fmap_app. simpl. rewrite last_snoc.
  rewrite named_view, He by done. unfold tr_mark at 1. rewrite fmap_app. simpl.
  rewrite removelast_last. symmetry. by apply contents_mark.
Qed.

Lemma replaced_inner a e b x :
  Forall wf_record (a ++ e :: b ++ [x]) → same_name L e trdf = true → Forall (other L trdf) (b ++ [x]) →
  tr_replaced key (contents data (a ++ e :: b ++ [x]))
  = contents data (mark (deleting true L trdf) a ++ with_first_byte 1 e :: b ++ [x]).
Proof.
  intros Hw He Hb. apply Forall_app in Hw as [Ha Hw]. inversion_clear Hw as [|? ? Hwe _].
  pose proof (others_named _ Hb) as Hn.
  assert (contents data (a ++ e :: b ++ [x]) = contents data (a ++ e :: b) ++ [view data x]) as Hl
    by (unfold contents; by rewrite app_comm_cons, app_assoc, fmap_app).
  assert (contents data (a ++ e :: b ++ [x])
          = contents data a ++ view data e :: contents data (b ++ [x])) as Hr
    by (unfold contents; by rewrite fmap_app).
  unfold tr_replaced. rewrite Hl at 1. rewrite last_snoc.
  apply Forall_app in Hb as [_ Hx]. inversion_clear Hx as [|? ? Hx' _]. rewrite named_view, Hx' by done.
  rewrite Hr, tr_mark_middle, (tr_mark_none (contents data (b ++ [x]))), named_view, He by done.
  unfold contents at 3. rewrite fmap_app. simpl.
  rewrite view_deleted by done. f_equal. symmetry. by apply contents_mark.
Qed.
End names.

Section save.
Context `{FileSystem}.

Lemma noted_device' s s' : noted s s' → cur_device s' = cur_device s.
Proof. by intros (e & d & l & c & ->). Qed.
Lemma noted_content fname s s' : noted s s' → content_of fname s' = content_of fname s.
Proof. by intros (e & d & l & c & ->). Qed.

Lemma writes_impl (ok ok' : Prop) m s fname (P Q : list Z → Prop) :
  (ok ↔ ok') → (∀ file, P file → Q file) → writes ok m s fname P → writes ok' m s fname Q.
Proof.
  intros Hok HPQ ([] & s' & E & Hb & HP); eexists _, s'; (split; [exact E|]); rewrite <- Hok; [|done].
  split; [done|]. destruct HP as (file & Hc & Hp). eauto. Qed.

Lemma writes_becomes (ok ok' : Prop) m s fname total (P Q : list tr_file → Prop) :
  (ok ↔ ok') → (∀ l, P l → Q l) → writes ok m s fname (becomes total P) → writes ok' m s fname (becomes total Q).
Proof. intros Hok HPQ. apply writes_impl; [done|]. intros file (used & d & data & Hd & HP). exists used, d, data. auto. Qed.

(** The catalog part in front of the entry with the deletions of the mode. *)
Lemma find_in_disk delete L trdf total used unused d :
  laid total used unused d →
  (Forall (other L trdf) used
   ∧ find_file 128 delete L trdf 0 NUM_OF_FILES_MAX (head_of_disk used unused d)
     = (head_of_disk used unused d, NUM_OF_FILES_MAX))
  ∨ ∃ a e b n, used = a ++ e :: b ∧ same_name L e trdf = true ∧ Forall (other L trdf) b
    ∧ find_file 128 delete L trdf 0 NUM_OF_FILES_MAX (head_of_disk used unused d)
      = (head_of_disk (mark (deleting delete L trdf) a ++ e :: b) unused (counted_deleted n d),
         Z.of_nat (length a)).
Proof.
  intros [Hlen _ Hlive Hdead _ _ _ _ _ _]. rewrite length_app in Hlen.
  destruct (last_split (fun e => same_name L e trdf) used) as [Hn|(a & e & b & -> & He & Hb)].
  - left. split; [exact Hn|].
    by apply (find_file_none delete L trdf unused Hdead 128 [] used); try done; try lia.
  - right. rewrite length_app in Hlen; simpl in Hlen.
    destruct (find_file_last delete L trdf unused Hdead 128 [] a e b d 0) as (n & Hf); try done.
    { rewrite length_app; simpl; lia. } { simpl; lia. }
    by exists a, e, b, n.
Qed.

Lemma laid_middle total a e b unused d L trdf delete n :
  laid total (a ++ e :: b) unused d →
  laid total (mark (deleting delete L trdf) a ++ e :: b) unused (counted_deleted n d).
Proof. exact (laid_mark total [] a (e :: b) unused d _ n). Qed.

Lemma laid_records total used unused d : laid total used unused d → Forall wf_record used.
Proof. intros L. apply (Forall_app wf_record used unused), L. Qed.

(** The last file of an image, taken off by "replace". *)
Lemma replace_last total a e unused d :
  laid total (a ++ [e]) unused d →
  replace_file (Z.of_nat (length a)) (head_of_disk (a ++ [e]) unused d)
  = inr (head_of_disk a (with_first_byte 0 e :: unused) (released e d)).
Proof.
  intros L. destruct (laid_release _ _ _ _ _ L) as (_ & R1 & R2). destruct L as [_ _ _ _ _ Hc _ _ _ _].
  unfold replace_file, head_of_disk at 1; cbn [catalog]. rewrite Nat2Z.id, <- app_assoc; simpl app.
  rewrite list_lookup_middle by done. cbn [head_of_disk trd_info].
  rewrite length_app in Hc; simpl in Hc. rewrite (proj2 (Z.eqb_eq _ (numOfFiles d))) by lia.
  rewrite R1, R2, !Z.eqb_refl. cbn [negb orb]. f_equal.
  unfold update_entry, update_info, head_of_disk; cbn [catalog trd_info]. f_equal.
  rewrite Nat2Z.id, <- app_assoc. simpl app. by rewrite <- (Nat.add_0_r (length a)), alter_app_r.
Qed.

Lemma replace_inner total a e b unused d :
  laid total (a ++ e :: b) unused d → b ≠ [] →
  replace_file (Z.of_nat (length a)) (head_of_disk (a ++ e :: b) unused d)
  = inr (head_of_disk (a ++ with_first_byte 1 e :: b) unused (counted_deleted (u8 (numOfDeleted d + 1)) d)).
Proof.
  intros [_ _ _ _ _ Hc _ _ _ _] Hb.
  unfold replace_file, head_of_disk at 1; cbn [catalog]. rewrite Nat2Z.id, <- app_assoc; simpl app.
  rewrite list_lookup_middle by done. cbn [head_of_disk trd_info].
  rewrite length_app in Hc; simpl in Hc. assert (length b ≠ 0%nat) by (by destruct b).
  rewrite (proj2 (Z.eqb_neq _ (numOfFiles d))) by lia. f_equal.
  unfold head_of_disk. rewrite <- !app_assoc; simpl app. by rewrite delete_entry_at.
Qed.

Lemma counted_twice n m d : counted_deleted n (counted_deleted m d) = counted_deleted n d.
Proof. done. Qed.

Section modes.
Context (fname : list ascii) (total start len line : Z) (sd : option CDevice) (bytes data hd : list Z).
Context (used unused : list STrdFile) (d : STrdDisc) (trdf : STrdFile) (L : Z).
Context (Hram : SaveRAM sd start len = Some (1, bytes)).
Context (L0 : laid total used unused d) (Hdata : (total - 9) * 256 ≤ Z.of_nat (length data)).
Context (Hhd : length hd = 2304%nat) (Hst : storable trdf) (HL : L = 9 ∨ L = 11).
Context (Hlen : Z.of_nat (length bytes) + (if 0 <=? line then 4 else 0) ≤ 256 * sectorLength trdf).
Local Abbreviation key := (key_of L trdf).
Definition saved (replace addplace : bool) : list Z → Prop :=
  becomes total (tr_saved replace addplace key trdf bytes (contents data used)).

Lemma line_room addplace : Z.of_nat (length (bytes ++ line_bytes addplace line)) ≤ 256 * sectorLength trdf.
Proof. unfold line_bytes. rewrite length_app. destruct addplace, (0 <=? line); simpl; lia. Qed.

(** There is room for the record. *)
Definition room (replace addplace : bool) : Prop :=
  tr_room total (sectorLength trdf) replace addplace key (contents data used).

(** The record behind the entries [used'] of an image in order. *)
Lemma store_behind s used' unused' d' (replace : bool) :
  cur_device s = sd → laid total used' unused' d' →
  contents data used' = (if replace then tr_replaced key (contents data used) else contents data used) →
  writes (room replace false)
    (store_file fname (hd ++ data) (head_of_disk used' unused' d') (numOfFiles d') trdf L start len line false)
    s fname (saved replace false).
Proof.
  intros Hs L1 Hc. eapply writes_becomes; [| |eapply (store_new fname total start len line s bytes); try done].
  - unfold room, tr_room. cbv zeta. rewrite <- Hc, (free_sectors _ _ _ _ _ L1 Hdata).
    unfold contents. rewrite length_fmap. lia.
  - intros l (sectors & S1 & S2 & ->). exists sectors. split; [done|]. split; [done|]. by rewrite Hc.
  - by rewrite Hs.
  - lia.
  - apply line_room.
Qed.

Local Abbreviation run_mode := (fun replace addplace =>
  select_and_store fname (hd ++ data) start len line replace addplace trdf L).

Lemma answers_fail {A} message s :
  answers (_ ← ReturnWithError message fname; mret (A := option A) None) s (fun r => r = None).
Proof.
  destruct (writes_fails False message fname s fname (fun _ => False)) as ([] & s' & E & Hb & HP); [by intros []| |].
  - by destruct (proj1 Hb eq_refl).
  - exists None, s'. unfold mbind, M_bind. by rewrite E.
Qed.

Lemma writes_false (ok : Prop) s P : ¬ ok → writes ok (mret false) s fname P.
Proof. intros Hok. by exists false, s. Qed.

(** The file that "add" extends. *)
Lemma filter_others (l : list tr_file) : Forall (fun f => tr_named key f = false) l → List.filter (tr_named key) l = [].
Proof. induction 1 as [|f l Hf _ IH]; [done|]. simpl. by rewrite Hf. Qed.
Lemma room_add a e b :
  used = a ++ e :: b → same_name L e trdf = true → Forall (other L trdf) b →
  sectorLength trdf ≤ numOfFreeSectors d ∧ sectorLength e + sectorLength trdf ≤ 255 ↔ room false true.
Proof.
  intros Hu He Hb. destruct Hst as (Hw & _ & _). unfold room, tr_room. rewrite (free_sectors _ _ _ _ _ L0 Hdata).
  assert (last (List.filter (tr_named key) (contents data used)) = Some (view data e)) as ->.
  { rewrite Hu. unfold contents. rewrite fmap_app, fmap_cons, List.filter_app. cbn [List.filter].
    rewrite named_view, He by done. rewrite (filter_others (view data <$> b)); [apply last_snoc|]. by apply others_named. }
  pose proof (free_bounds _ _ _ _ L0) as (B1 & B2 & B3). pose proof L0 as [_ _ _ _ _ _ _ Ht _ _].
  destruct (tiles_in _ _ _ e Ht) as (H1 & H2 & H3); [rewrite Hu; apply elem_of_app; right; by left|].
  pose proof (region_length data e H1) as Hl. unfold SECTORS_PER_TRACK in *.
  split.
  - intros [Hf H255]. exists (view data e). cbn [view tr_data]. rewrite Hl by lia. split; [done|]. lia.
  - intros (f & [= <-] & Hf & H255). cbn [view tr_data] in Hf. rewrite Hl in Hf by lia. lia.
Qed.

Lemma save_add s replace :
  cur_device s = sd →
  writes (room replace true) (run_mode replace true (find_file 128 true L trdf 0 NUM_OF_FILES_MAX (head_of_disk used unused d)))
    s fname (saved replace true).
Proof.
  intros Hs. destruct (find_in_disk true L trdf _ _ _ _ L0) as [[Hn ->]|(a & e & b & n & Hu & He & Hb & ->)];
    unfold select_and_store, select_entry.
  - rewrite Z.eqb_refl. cbn [negb].
    eapply writes_bind; [apply answers_fail|]. intros r s1 _ ->. apply writes_false.
    intros (f & Hf & _). by rewrite filter_others in Hf by (apply others_named; done || apply Hst).
  - pose proof L0 as L2. rewrite Hu in L2. pose proof L2 as [Hn _ _ _ _ _ _ _ _ _]. rewrite !length_app in Hn; simpl in Hn.
    rewrite (proj2 (Z.eqb_neq _ NUM_OF_FILES_MAX)) by (unfold NUM_OF_FILES_MAX; lia). cbn [negb].
    pose proof (laid_middle _ _ _ _ _ _ L trdf true n L2) as L1.
    rewrite <- (length_fmap (fun e => if deleting true L trdf e then with_first_byte 1 e else e) a).
    fold (mark (deleting true L trdf) a).
    eapply (writes_becomes (sectorLength trdf ≤ numOfFreeSectors (counted_deleted n d) ∧ sectorLength e + sectorLength trdf ≤ 255));
      [exact (room_add a e b Hu He Hb)| |eapply (store_add fname total start len line s bytes); try done].
    + intros l (sectors & S1 & S2 & ->). exists sectors. split; [done|]. split; [done|].
      exists (contents data a), (view data e), (contents data b). split; [rewrite Hu; unfold contents; by rewrite fmap_app|].
      destruct Hst as (Hw & _ & _). split; [by rewrite named_view|]. split; [by apply others_named|].
      rewrite contents_mark; [done|done|done|]. apply laid_records in L2. by apply Forall_app in L2 as [? _].
    + by rewrite Hs.
    + destruct (0 <=? line); lia.
Qed.

Lemma save_replace s :
  cur_device s = sd →
  writes (room true false) (run_mode true false (find_file 128 true L trdf 0 NUM_OF_FILES_MAX (head_of_disk used unused d)))
    s fname (saved true false).
Proof.
  intros Hs. destruct Hst as (Hw & _ & _).
  destruct (find_in_disk true L trdf _ _ _ _ L0) as [[Hn ->]|(a & e & b & n & Hu & He & Hb & ->)];
    unfold select_and_store, select_entry.
  - rewrite Z.eqb_refl. cbn [negb]. apply (store_behind s used unused d true); try done.
    by rewrite replaced_none.
  - pose proof L0 as L1. rewrite Hu in L1. pose proof L1 as [Hn _ _ _ _ _ _ _ _ _].
    pose proof (laid_records _ _ _ _ L1) as Hr.
    rewrite !length_app in Hn; simpl in Hn.
    rewrite (proj2 (Z.eqb_neq _ NUM_OF_FILES_MAX)) by (unfold NUM_OF_FILES_MAX; lia). cbn [negb].
    apply (laid_middle _ _ _ _ _ _ L trdf true n) in L1.
    rewrite <- (length_fmap (fun e => if deleting true L trdf e then with_first_byte 1 e else e) a).
    fold (mark (deleting true L trdf) a).
    destruct (decide (b = [])) as [->|Hne].
    + rewrite (replace_last _ _ _ _ _ L1). destruct (laid_release _ _ _ _ _ L1) as (L2 & _).
      apply (store_behind s _ _ _ true); try done. rewrite Hu, replaced_last; try done.
      by apply Forall_app in Hr as [? _].
    + rewrite (replace_inner _ _ _ _ _ _ L1 Hne).
      apply (laid_mark _ (mark (deleting true L trdf) a) [e] b _ _ (fun _ => true) (u8 (n + 1))) in L1.
      apply (store_behind s _ unused (counted_deleted (u8 (n + 1)) (counted_deleted n d)) true); try done.
      rewrite Hu. destruct (exists_last Hne) as (b' & x & ->). by rewrite replaced_inner.
Qed.

Lemma save_new s :
  cur_device s = sd →
  writes (room false false) (run_mode false false (find_file 128 false L trdf 0 NUM_OF_FILES_MAX (head_of_disk used unused d)))
    s fname (saved false false).
Proof.
  intros Hs. assert (∀ h i, answers (select_entry fname false false i h) s
      (fun r => r = Some (h, numOfFiles (trd_info h)))) as Hsel.
  { intros h i. apply answers_says; [auto with says|]. intros s1 _. by apply answers_ret. }
  destruct (find_in_disk false L trdf _ _ _ _ L0) as [[Hn ->]|(a & e & b & n & Hu & He & Hb & ->)];
    unfold select_and_store; (eapply writes_bind; [apply Hsel|]); intros r s1 N1 ->.
  - apply (store_behind s1 used unused d false); try done. by rewrite (noted_device' s).
  - pose proof L0 as L1. rewrite Hu in L1. apply (laid_middle _ _ _ _ _ _ L trdf false n) in L1.
    rewrite mark_none in L1 |- *. apply (store_behind s1 _ unused _ false); try done.
    + by rewrite (noted_device' s).
    + by rewrite Hu.
Qed.
End modes.

(** An image in order: the arguments lead to the search and the modes. *)
Lemma TRD_AddFile_writes (ok : Prop) fname fhobname total used d data file start len line replace addplace lmv s P :
  plain_name fhobname → writable fname = true → content_of fname s = Some file → disk total used d data file →
  (ok → savable fhobname s start len line lmv) →
  (∀ s1 hd unused trdf L line1,
     noted s s1 → laid total used unused d → length hd = 2304%nat → (total - 9) * 256 ≤ Z.of_nat (length data) →
     prepared fhobname s start len line addplace lmv (Some (trdf, L, line1)) →
     writes ok (select_and_store fname (hd ++ data) start len line1 replace addplace trdf L
       (find_file 128 (addplace || replace) L trdf 0 NUM_OF_FILES_MAX (head_of_disk used unused d))) s1 fname P) →
  writes ok (TRD_AddFile fname fhobname start len line replace addplace lmv) s fname P.
Proof.
  intros Hp Hw Hc (unused & L0 & -> & Hdata) Hok Hk. unfold TRD_AddFile.
  eapply writes_bind; [by apply prepare_record_spec|].
  intros [[[trdf L] line1]|] s1 N1 HP; [|apply writes_false; intros H1; by apply HP, Hok].
  apply writes_gets. change (st s1) with s1.
  rewrite (noted_content _ s) by done. rewrite Hc, Hw. cbn [negb].
  pose proof (laid_wf _ _ _ _ L0) as Hwf. rewrite head_read_back by done.
  exact (Hk s1 (head_record (head_of_disk used unused d)) unused trdf L line1 N1 L0
           (head_record_length _ Hwf) Hdata HP).
Qed.

Lemma length_line len (bytes : list Z) line sl :
  Z.of_nat (length bytes) = len → len + (if 0 <=? line then 4 else 0) ≤ 256 * sl →
  Z.of_nat (length bytes) + (if 0 <=? line then 4 else 0) ≤ 256 * sl.
Proof. by intros ->. Qed.

(** The abstract disk after SAVETRD: [e] is the catalog record made from the arguments. *)
Definition saved_as (fhobname : list ascii) (len line lmv : Z) (replace addplace : bool) (bytes : list Z)
    (l l' : list tr_file) : Prop :=
  ∃ e, take 9 (full_name e) = take 9 (disk_bytes fhobname)
    ∧ trd_length e = (if lmv =? -1 then len else lmv) ∧ sectorLength e = sectors_of fhobname len line
    ∧ tr_saved replace addplace (compared addplace fhobname len) e bytes l l'.

Lemma TRD_AddFile_becomes fname fhobname total used d data file start len line replace addplace lmv s :
  plain_name fhobname → writable fname = true → content_of fname s = Some file →
  disk total used d data file →
  (region_ok s start len → ∃ bytes, SaveRAM (cur_device s) start len = Some (1, bytes)) →
  writes (savable fhobname s start len line lmv
          ∧ tr_room total (sectors_of fhobname len line) replace addplace (compared addplace fhobname len)
              (contents data used))
    (TRD_AddFile fname fhobname start len line replace addplace lmv) s fname
    (becomes total (fun l => ∃ bytes, SaveRAM (cur_device s) start len = Some (1, bytes)
       ∧ region_ok s start len ∧ Z.of_nat (length bytes) = len
       ∧ saved_as fhobname len line lmv replace addplace bytes (contents data used) l)).
Proof.
  intros Hp Hw Hc Hd Hram. eapply TRD_AddFile_writes; [done..|by intros []|].
  intros s1 hd unused trdf L line1 N1 L0 Hhd Hdata (Hsv & Hst & HL & Hlen & Hname & Hlmv & Hsec & Hkey).
  pose proof Hsv as (R & _ & _). destruct (Hram R) as [bytes Hb]. pose proof R as (R1 & R2 & R3 & R4).
  pose proof (SaveRAM_length _ _ _ _ Hb ltac:(lia) ltac:(lia) ltac:(lia)) as Hbl.
  pose proof (length_line _ _ _ _ Hbl Hlen) as Hl. pose proof (noted_device' s s1 N1) as Hs1.
  assert (writes (room total data used trdf L replace addplace)
     (select_and_store fname (hd ++ data) start len line1 replace addplace trdf L
     (find_file 128 (addplace || replace) L trdf 0 NUM_OF_FILES_MAX (head_of_disk used unused d))) s1 fname
     (saved total bytes data used trdf L replace addplace)) as HW.
  { destruct addplace; [|destruct replace]; cbn [orb];
      [eapply save_add | eapply save_replace | eapply save_new]; eassumption. }
  unfold room, saved, key_of in HW. rewrite Hkey, Hsec in HW.
  eapply writes_becomes; [| |exact HW].
  - split; [by split|by intros []].
  - intros l Hl'. exists bytes. do 3 (split; [done|]). by exists trdf.
Qed.

(** C18: SAVETRD refines the abstract disk in each of its modes, on an image whose files
    lie one behind the other.  It answers true exactly when the arguments are good (a
    region of the device memory, a length without variables for BASIC files only) and
    there is room: for a new file an entry and the sectors, where "replace" first takes
    the last file off when it has the name; for "add" a file of that name, which may
    have 255 sectors at most.  Then the image is still of that kind and its files are
    those of before with the saved bytes as a new file, with the files of the name
    deleted and the new one behind, or with the bytes appended to the last file of the
    name, every other file keeping its content.  Else it has only reported and the image
    is untouched. *)
Theorem TRD_AddFile_refines :
  ∀ fname fhobname total used d data file start len line replace addplace lmv s,
  plain_name fhobname → writable fname = true → content_of fname s = Some file →
  disk total used d data file →
  (region_ok s start len → ∃ bytes, SaveRAM (cur_device s) start len = Some (1, bytes)) →
  ∃ b s', TRD_AddFile fname fhobname start len line replace addplace lmv s = Ret b s'
  ∧ (b = true ↔ savable fhobname s start len line lmv
                ∧ tr_room total (sectors_of fhobname len line) replace addplace
                    (compared addplace fhobname len) (contents data used))
  ∧ if b : bool then
      ∃ file' used' d' data' bytes, content_of fname s' = Some file' ∧ disk total used' d' data' file'
      ∧ SaveRAM (cur_device s) start len = Some (1, bytes)
      ∧ saved_as fhobname len line lmv replace addplace bytes (contents data used) (contents data' used')
    else noted s s' ∧ content_of fname s' = Some file.
Proof.
  intros fname fhobname total used d data file start len line replace addplace lmv s Hp Hw Hc Hd Hram.
  destruct (TRD_AddFile_becomes fname fhobname total used d data file start len line replace addplace lmv s
              Hp Hw Hc Hd Hram) as (b & s' & E & Hok & HP). exists b, s'. split; [done|]. split; [done|]. destruct b.
  - destruct HP as (file' & Hc' & used' & d' & data' & Hd' & bytes & Hb & _ & _ & Hsv).
    by exists file', used', d', data', bytes.
  - split; [done|]. by rewrite (noted_content _ s).
Qed.

(** ** INCTRD *)

Lemma used_entries_laid total used unused d :
  laid total used unused d → used_entries (used ++ unused) = used.
Proof.
  intros [_ _ Hl Hd _ _ _ _ _ _]. induction Hl as [|e l He Hl IH]; simpl.
  - destruct Hd as [|x l Hx _]; simpl; [done|]. by rewrite Hx.
  - unfold live in He. by rewrite (proj2 (Z.eqb_neq _ _) He), IH.
Qed.

Lemma find_first {A} (f : A → bool) a e b :
  Forall (fun x => f x = false) a → f e = true → List.find f (a ++ e :: b) = Some e.
Proof. induction 1 as [|x a Hx Ha IH]; intros He; simpl; [by rewrite He|]. rewrite Hx. by apply IH. Qed.

Lemma TRD_PrepareIncFile_finds trd filename total a e b d data file s :
  disk total (a ++ e :: b) d data file → content_of (in_full trd) s = Some file →
  let '(_, bin, L) := TRD_FileNameToBytes filename in
  let named x := bool_decide (take (Z.to_nat L) (full_name x) = take (Z.to_nat L) bin) in
  named e = true → Forall (fun x => named x = false) a → 0 < trd_length e ≤ 256 * sectorLength e →
  ∃ offset, TRD_PrepareIncFile trd filename 0 INT_MAX s = Ret (Some (offset, trd_length e)) s
            ∧ slice (Z.to_nat offset) (Z.to_nat (trd_length e)) file
              = take (Z.to_nat (trd_length e)) (region data e).
Proof.
  intros (unused & L0 & -> & Hdata) Hc. unfold TRD_PrepareIncFile.
  destruct (TRD_FileNameToBytes filename) as [[status bin] L]. cbv beta iota zeta. intros He Ha Hlen.
  pose proof (laid_wf _ _ _ _ L0) as Hwf. pose proof (free_bounds _ _ _ _ L0) as (B1 & B2 & B3).
  assert (on_disk e ∧ 16 ≤ sector_of e ∧ sector_of e + sectorLength e ≤ free_pos d) as ((_ & _ & E3) & E4 & E5)
    by (eapply tiles_in; [apply L0|apply elem_of_app; right; by left]).
  assert (total < 4096) as Htot by apply L0.
  unfold mbind at 1, M_bind at 1. change (gets st s) with (Ret s s). cbv beta iota zeta.
  rewrite Hc, head_read_back by done. cbn [head_of_disk catalog].
  rewrite (used_entries_laid _ _ _ _ L0), (find_first _ a e b) by done. rewrite Z.eqb_refl, fileOffset_sector.
  change (startTrack e * 16 + startSector e) with (sector_of e).
  rewrite Z.sub_0_r, Z.add_0_l. rewrite (wrap32_id (trd_length e)) by (unfold in32, INT_MIN, INT_MAX; lia).
  rewrite (wrap32_id (256 * sector_of e)) by (unfold in32, INT_MIN, INT_MAX; lia).
  rewrite wrap32_id by (unfold in32, INT_MIN, INT_MAX; lia).
  rewrite !Z.leb_refl, (proj2 (Z.ltb_lt 0 _)) by lia. cbn [andb].
  eexists. split; [reflexivity|].
  replace (Z.to_nat (256 * sector_of e))
    with (length (head_record (head_of_disk (a ++ e :: b) unused d)) + Z.to_nat (256 * (sector_of e - 9)))%nat
    by (rewrite head_record_length by done; lia).
  unfold slice, region. rewrite drop_app_add. unfold slice. rewrite take_take. f_equal. lia.
Qed.

Lemma name_ok fhobname bin L : TRD_FileNameToBytes fhobname = (OK, bin, L) → plain_name fhobname → L = 9.
Proof.
  intros E Hp. destruct (name_bytes _ _ _ _ Hp E) as (_ & _ & HL); destruct HL; [done|subst L].
  unfold TRD_FileNameToBytes in E. cbv zeta in E. injection E as E1 _ E2. by rewrite E2 in E1.
Qed.

(** C19: A file saved with SAVETRD under an official name that was not on the disk
    is found by INCTRD, and the bytes of the image at the offset and of the length
    it gives are the saved region of the device memory. *)
Theorem SAVETRD_INCTRD :
  ∀ trd fhobname bin L total used d data file start len bytes s s',
  plain_name fhobname → writable (in_full trd) = true → content_of (in_full trd) s = Some file →
  disk total used d data file → TRD_FileNameToBytes fhobname = (OK, bin, L) →
  Forall (fun e => take 9 (full_name e) ≠ take 9 bin) used →
  SaveRAM (cur_device s) start len = Some (1, bytes) →
  TRD_AddFile (in_full trd) fhobname start len (-1) false false (-1) s = Ret true s' →
  ∃ offset file', content_of (in_full trd) s' = Some file'
    ∧ TRD_PrepareIncFile trd fhobname 0 INT_MAX s' = Ret (Some (offset, len)) s'
    ∧ slice (Z.to_nat offset) (Z.to_nat len) file' = bytes.
Proof.
  intros trd fhobname bin L total used d data file start len bytes s s' Hp Hw Hc Hd Hname Hnew Hram Hrun.
  pose proof (name_ok _ _ _ Hname Hp) as ->.
  destruct (TRD_AddFile_becomes (in_full trd) fhobname total used d data file start len (-1) false false (-1) s
              Hp Hw Hc Hd ltac:(eauto)) as (b & s1 & E & _ & HP).
  rewrite Hrun in E. injection E as <- <-.
  destruct HP as (file' & Hc' & used' & d' & data' & Hd' & bytes' & Hb & (_ & _ & Hlen & _) & Hbl & e & He & Hel & _ & Hs).
  rewrite Hram in Hb. injection Hb as <-. unfold disk_bytes in He. rewrite Hname in He. cbn [fst snd] in He.
  destruct Hs as (sectors & S1 & [rest ->] & Hl). unfold contents in Hl.
  apply fmap_app_inv in Hl as (u1 & u2 & Hu1 & Hu2 & ->).
  destruct u2 as [|e' [|? ?]]; try done. injection Hu2 as Hf Hlen' Hreg. rewrite Hel in Hlen'. cbn [Z.eqb Pos.eqb] in Hlen'.
  assert (Forall (fun x => take 9 (full_name x) ≠ take 9 bin) u1) as Hu.
  { assert (full_name <$> used = full_name <$> u1) as Hnames.
    { change full_name with (tr_name ∘ view data) at 1. change full_name with (tr_name ∘ view data').
      by rewrite !list_fmap_compose, Hu1. }
    apply (List.Forall_map full_name (fun n => take 9 n ≠ take 9 bin)).
    change (map full_name u1) with (full_name <$> u1). rewrite <- Hnames. by apply List.Forall_map. }
  pose proof (TRD_PrepareIncFile_finds trd fhobname total u1 e' [] d' data' file' s' Hd' Hc') as Hfind.
  rewrite Hname in Hfind. cbv zeta in Hfind. change (Z.to_nat 9) with 9%nat in Hfind.
  assert (length (region data' e') <= Z.to_nat (256 * sectorLength e'))%nat as Hr
    by (unfold region, slice; rewrite length_take; lia).
  rewrite <- Hreg, length_app in Hr.
  destruct Hfind as (offset & F1 & F2).
  - apply bool_decide_eq_true. by rewrite <- Hf, He.
  - eapply Forall_impl; [exact Hu|]. intros x Hx. by apply bool_decide_eq_false.
  - lia.
  - exists offset, file'. split; [done|]. rewrite <- Hlen' in F1, F2. split; [done|].
    rewrite F2, <- Hreg. replace (Z.to_nat len) with (length bytes) by lia. by rewrite take_app_length.
Qed.
End save.

(** ** EMPTYTRD *)

Definition unused_entry : STrdFile :=
  {| trd_filename := repeat 0 8; trd_ext := 0; trd_addressLo := 0; trd_addressHi := 0; trd_length := 0;
     sectorLength := 0; startSector := 0; startTrack := 0 |}.

(** C20: EMPTYTRD writes an image in order without files: 2560 sectors, the free
    ones from track 1 on, whatever the label. *)
Theorem saveEmptyWrite_disk : ∀ label,
  ∃ data, disk 2560 [] (discInfo label) data (saveEmptyWrite label)
          ∧ Z.of_nat (length (saveEmptyWrite label)) = 2560 * SECTOR_SZ.
Proof.
  intros label.
  assert (length (trd_label (discInfo label)) = 11%nat) as Hlabel.
  { unfold discInfo; cbn [trd_label]. rewrite length_app, length_drop, length_take.
    change (length (repeat 32 8 ++ repeat 0 3)) with 11%nat. unfold TRD_LABEL_SZ. lia. }
  assert (wf_info (discInfo label)) as Hwf by (repeat split; try done; exact Hlabel).
  exists (repeat 0 (Z.to_nat (7 * SECTOR_SZ)) ++ repeat 0 (Z.to_nat ((79 + 80) * SECTORS_PER_TRACK * SECTOR_SZ))).
  assert (Forall (fun e => wf_record e ∧ first_byte e = 0) (repeat unused_entry 128)) as Hu.
  { apply List.Forall_forall. intros e ->%repeat_spec. done. }
  split.
  - exists (repeat unused_entry 128). split; [|split].
    + constructor; try done; eapply Forall_impl; try exact Hu; intros ? []; done.
    + unfold saveEmptyWrite, head_record, head_of_disk; cbn [catalog trd_info app].
      rewrite <- app_assoc. f_equal.
    + rewrite length_app, !repeat_length. unfold SECTOR_SZ, SECTORS_PER_TRACK. lia.
  - unfold saveEmptyWrite. rewrite !length_app, !repeat_length, disc_record_length by done.
    unfold SECTOR_SZ, SECTORS_PER_TRACK. lia.
Qed.

(** ** A small image

    Twenty sectors with one file, and a machine whose memory holds a few bytes. *)

Definition old_file : STrdFile :=
  {| trd_filename := code <$> str "old     "; trd_ext := code "C"; trd_addressLo := 0;
     trd_addressHi := 128; trd_length := 5; sectorLength := 1; startSector := 0; startTrack := 1 |}.
Definition small_info : STrdDisc := use_sectors 1 true (with_free 0 1 4 (discInfo [])).
Definition small_data : list Z := repeat 7 (11 * 256).
Definition small_image : list Z :=
  head_record (head_of_disk [old_file] (repeat unused_entry 127) small_info) ++ small_data.

Lemma small_disk : disk 20 [old_file] small_info small_data small_image.
Proof.
  assert (Forall (fun e => wf_record e ∧ first_byte e = 0) (repeat unused_entry 127)) as Hu
    by (apply List.Forall_forall; by intros e ->%repeat_spec).
  exists (repeat unused_entry 127). split; [|split; [done|by vm_compute]].
  constructor; try (by vm_compute).
  - constructor; [done|]. eapply Forall_impl; [exact Hu|]. by intros ? [].
  - by repeat constructor.
  - eapply Forall_impl; [exact Hu|]. by intros ? [].
Qed.

Definition disk_name : list ascii := str "x.trd".
Definition with_disk : St := put_file disk_name small_image with_zx48.

(** The file that is on the disk is replaced by a longer one: its sector is free again. *)
Lemma TRD_AddFile_refines_witness :
  ∃ s', @TRD_AddFile plain_files disk_name (str "old.C") 0x5C00 1000 (-1) true false (-1) with_disk = Ret true s'
  ∧ ∃ file' used' d' data' bytes, @content_of plain_files disk_name s' = Some file'
      ∧ disk 20 used' d' data' file'
      ∧ SaveRAM (cur_device with_disk) 0x5C00 1000 = Some (1, bytes)
      ∧ map tr_length (contents data' used') = [1000].
Proof.
  edestruct (@TRD_AddFile_refines plain_files disk_name (str "old.C") 20 [old_file] small_info small_data small_image
               0x5C00 1000 (-1) true false (-1) with_disk) as (b & s' & E & Hok & H).
  - by repeat constructor.
  - reflexivity.
  - reflexivity.
  - exact small_disk.
  - intros _. assert (Hr : match SaveRAM (cur_device with_disk) 0x5C00 1000 with Some (1, _) => true | _ => false end = true)
      by by vm_compute.
    destruct (SaveRAM (cur_device with_disk) 0x5C00 1000) as [[r bytes]|]; [|discriminate].
    exists bytes. destruct (Z.eq_dec r 1) as [->|Hn]; [reflexivity|].
    exfalso. destruct r as [|[|[]|]|]; try discriminate Hr; by apply Hn.
  - assert (b = true) as ->.
    { apply Hok. split.
      - split; [repeat split; by vm_compute|]. split; [by left|by vm_compute].
      - split; by vm_compute. }
    exists s'. split; [exact E|]. destruct H as (file' & used' & d' & data' & bytes & H1 & H2 & H3 & H4).
    exists file', used', d', data', bytes. repeat (split; [assumption|]).
    destruct H4 as (e & _ & Hl & _ & sectors & _ & _ & ->). cbn in Hl.
    assert (tr_replaced (compared false (str "old.C") 1000) (contents small_data [old_file]) = []) as -> by by vm_compute.
    cbn [app map tr_length]. by rewrite Hl.
Defined.

Lemma SAVETRD_INCTRD_witness :
  ∃ s' offset file',
  @TRD_AddFile plain_files disk_name (str "new.C") 0x5C00 300 (-1) false false (-1) with_disk = Ret true s'
  ∧ @content_of plain_files disk_name s' = Some file'
  ∧ @TRD_PrepareIncFile plain_files {| in_full := disk_name; in_str := "x.trd" |} (str "new.C") 0 INT_MAX s'
    = Ret (Some (offset, 300)) s'
  ∧ Some (1, slice (Z.to_nat offset) (Z.to_nat 300) file') = SaveRAM (cur_device with_disk) 0x5C00 300.
Proof.
  assert (Hr : match SaveRAM (cur_device with_disk) 0x5C00 300 with Some (1, _) => true | _ => false end = true)
    by by vm_compute.
  assert (Ht : match @TRD_AddFile plain_files disk_name (str "new.C") 0x5C00 300 (-1) false false (-1) with_disk
               with Ret true _ => true | _ => false end = true) by by vm_compute.
  destruct (@TRD_AddFile plain_files disk_name (str "new.C") 0x5C00 300 (-1) false false (-1) with_disk)
    as [[] s'|s'| |] eqn:E; try discriminate Ht.
  destruct (SaveRAM (cur_device with_disk) 0x5C00 300) as [[r bytes]|] eqn:Hb; [|discriminate Hr].
  assert (r = 1) as -> by (destruct r as [|[|[]|]|]; try discriminate Hr; reflexivity).
  destruct (@SAVETRD_INCTRD plain_files {| in_full := disk_name; in_str := "x.trd" |} (str "new.C")
              (snd (fst (TRD_FileNameToBytes (str "new.C")))) 9 20 [old_file] small_info small_data small_image
              0x5C00 300 bytes with_disk s') as (offset & file' & H1 & H2 & H3);
    [by repeat constructor|reflexivity|reflexivity|exact small_disk|reflexivity| |exact Hb|exact E|].
  - constructor; [|constructor]. discriminate.
  - exists s', offset, file'. split; [reflexivity|]. split; [exact H1|]. split; [exact H2|].
    rewrite H3. reflexivity.
Defined.

(** ** Images out of order *)

(** An image whose information sector counts more than 128 files: the entry of the
    new file lies outside of the catalog, which the program does not notice. *)
Definition crowded_image : list Z :=
  head_record (head_of_disk [old_file] (repeat unused_entry 127) (with_counts 200 0 small_info)) ++ small_data.

Example TRD_AddFile_outside_catalog :
  @TRD_AddFile plain_files disk_name (str "new.C") 0x5C00 300 (-1) false false (-1)
    (put_file disk_name crowded_image with_zx48) = Undef.
Proof. vm_compute. reflexivity. Qed.

(** The result of adding to a BASIC file named by three letters: the name was cut
    to "B" when the file was created, but not when it is searched. *)
Definition add_to_BAS : res St bool :=
  (_ ← @TRD_AddFile plain_files disk_name (str "new.BAS") 0x5C00 300 (-1) false false (-1);
   @TRD_AddFile plain_files disk_name (str "new.BAS") 0x5C00 200 (-1) false true (-1)) with_disk.

Example TRD_AddFile_BAS_not_found :
  match add_to_BAS with
  | Ret b s => (b, d_msg <$> last (messages (err s)))
  | _ => (true, None)
  end = (false, Some "TRD image does not have a specified file to add data"%string).
Proof. vm_compute. reflexivity. Qed.
