(* ===== verification/NexSpec.v ===== *)
(** * The NEX file over a whole run

    Which states the commands of SAVENEX can leave behind, that the file can always be
    completed from them, and what the completed file holds: the banks of the machine,
    and the checksum. *)

From S2P Require Export Nex Counts Reports.

(** ** What the parsers leave alone *)

Definition same_nex (s s' : St) : Prop := nex (lin s') = nex (lin s).

#[export] Instance same_nex_preorder : PreOrder same_nex.
Proof. split; [by intros ?|]. unfold same_nex. by intros ??? -> ->. Qed.

Lemma same_nex_Error m b t : keeps same_nex (Error m b t).
Proof.
  intros s. unfold Error. destruct (Error_wrong_pass _ _); [done|].
  destruct (Error_skipped _ _); [done|]. cbv zeta. by destruct (is_type t FATAL).
Qed.
Lemma same_nex_WarningImpl i m b t : keeps same_nex (WarningImpl i m b t).
Proof. apply keeps_read. intros s. destruct (WarningsAsErrors _); [apply same_nex_Error|]. done. Qed.
#[export] Instance same_nex_out : OutFrame same_nex.
Proof. constructor; intros; try apply _; try done; [apply same_nex_Error|apply same_nex_WarningImpl]. Qed.
#[export] Instance same_nex_frame : AsmFrame same_nex := asm_of_out_frame same_nex.


#[local] Hint Resolve fr_Error1 fr_ErrorInt fr_Warning fr_Warning1 fr_WarningById fr_WarningById1
  fr_lpf fr_lpm fr_ParseExpression fr_check16 : keeps.

(** [keeps same_nex m] for parsers and reports. *)
Ltac same := intros; repeat first
  [ keep_leaf | keep_step
  | match goal with |- keeps _ (modify _) => apply keeps_modify; intros ?; first [reflexivity | progress cbv beta; repeat case_match; reflexivity] end
  | unfold_call ].

Section same.
Context `{FileSystem}.
Lemma same_Error_bp m t : keeps same_nex (Error_bp m t). Proof. same. Qed.
Lemma same_Error_lp m t : keeps same_nex (Error_lp m t). Proof. same. Qed.
Lemma same_nex_error m : keeps same_nex (nex_error m). Proof. same. Qed.
Lemma same_comma_lp : keeps same_nex comma_lp. Proof. same. Qed.
Lemma same_SkipBlanks_lp : keeps same_nex SkipBlanks_lp. Proof. same. Qed.
Lemma same_cmphstr_lp k : keeps same_nex (cmphstr_lp k). Proof. same. Qed.
Lemma same_ParseExpression_lp : keeps same_nex ParseExpression_lp. Proof. same. Qed.
Lemma same_ParseExpressionNoSyntaxError_lp : keeps same_nex ParseExpressionNoSyntaxError_lp. Proof. same. Qed.
Lemma same_the_device : keeps same_nex the_device. Proof. same. Qed.
Hint Resolve same_Error_bp same_Error_lp same_nex_error same_comma_lp same_SkipBlanks_lp same_cmphstr_lp
  same_ParseExpression_lp same_ParseExpressionNoSyntaxError_lp same_the_device : keeps.
Lemma same_getIntArguments first args : keeps same_nex (getIntArguments first args).
Proof. revert first. induction args as [|[d o] args IH]; intros; cbn [getIntArguments]; same. Qed.
Hint Resolve same_getIntArguments : keeps.
Lemma same_delimited n p acc : keeps same_nex (GetDelimitedStringEx_loop n p acc).
Proof. revert p acc. induction n as [|n IH]; intros; cbn [GetDelimitedStringEx_loop]; same. Qed.
Hint Resolve same_delimited : keeps.
Lemma same_GetOutputFileName_lp : keeps same_nex GetOutputFileName_lp. Proof. same. Qed.
Lemma same_GetInputFile_lp : keeps same_nex GetInputFile_lp. Proof. same. Qed.
Lemma same_bmp_open b : keeps same_nex (bmp_open b). Proof. same. Qed.
Lemma same_checkStackPointer : keeps same_nex checkStackPointer. Proof. same. Qed.
Lemma same_nex_open_checks a b c d e : keeps same_nex (nex_open_checks a b c d e). Proof. same. Qed.
End same.

#[local] Hint Resolve same_Error_bp same_Error_lp same_nex_error same_comma_lp same_SkipBlanks_lp same_cmphstr_lp
  same_ParseExpression_lp same_ParseExpressionNoSyntaxError_lp same_the_device same_getIntArguments
  same_GetOutputFileName_lp same_GetInputFile_lp same_bmp_open same_checkStackPointer
  same_nex_open_checks : keeps.

(** ** The states of the file *)

Definition header_sized (h : SNexHeader) : Prop :=
  length (nh_banks h) = Z.to_nat MAX_BANK ∧ length (nh_coreVersion h) = 3%nat
  ∧ length (nh_tilesScrConfig h) = 4%nat.

(** Of an open file: a header is written, no bank comes before its start is noted, the
    copper code to be written is there, a V1.3 feature is not in a V1.2 file. *)
Record open_ok (n : SNexFile) (content : list Z) : Prop := {
  ok_append : canAppend n = true;
  ok_size : (512 <= length content)%nat;
  ok_fields : header_sized (nx_h n);
  ok_version : minFileVersion n = 3 → reqFileVersion n ≠ 2;
  ok_first : nh_banksOffset (nx_h n) = 0 → lastBankIndex n = -1;
  ok_copper : nh_hasCopperCode (nx_h n) ≠ 0 → is_Some (nx_copper n)
}.
Definition nex_ok (n : SNexFile) : Prop :=
  match nx_f n with
  | None => canAppend n = false
  | Some (_, content) => open_ok n content
  end.

Lemma nex_header_length h : header_sized h → length (nex_header_bytes h) = 512%nat.
Proof.
  intros (H1 & H2 & H3). unfold nex_header_bytes. rewrite !length_app, H1, H2, H3. reflexivity.
Qed.

#[local] Opaque nex_header_bytes.

(** ** What a routine does to the file *)

Definition wp {A} (n : SNexFile) (m : M St A) (Q : A → SNexFile → Prop) : Prop :=
  ∀ s, nex (lin s) = n →
  match m s with
  | Ret a s' => Q a (nex (lin s'))
  | Exit s' => nex_ok (nex (lin s'))
  | _ => True
  end.

Section rules.
Context {A B : Type}.
Implicit Types (n : SNexFile) (m : M St A) (Q : A → SNexFile → Prop).

Lemma wp_ret n (a : A) Q : Q a n → wp n (mret a) Q.
Proof. by intros HQ s <-. Qed.
Lemma wp_bind n (m : M St B) (f : B → M St A) Q : wp n m (fun b n' => wp n' (f b) Q) → wp n (m ≫= f) Q.
Proof.
  intros Hm s Hs. specialize (Hm s Hs). unfold mbind, M_bind.
  destruct (m s) as [b s'|s'| |]; auto. exact (Hm s' eq_refl).
Qed.
Lemma wp_get n (f : SNexFile → M St A) Q : wp n (f n) Q → wp n (get_nex ≫= f) Q.
Proof. intros Hm s Hs. specialize (Hm s Hs). unfold get_nex. run. by rewrite Hs. Qed.
Lemma wp_gets n (g : St → B) (f : B → M St A) Q : (∀ b, wp n (f b) Q) → wp n (gets g ≫= f) Q.
Proof. intros Hm s Hs. exact (Hm _ s Hs). Qed.
Lemma wp_on n g (k : M St A) Q : wp (g n) k Q → wp n (on_nex g ;; k) Q.
Proof. intros Hm s Hs. unfold on_nex. run. apply Hm. cbn. by rewrite Hs. Qed.
Lemma wp_on_end n g (Q : unit → SNexFile → Prop) : Q tt (g n) → wp n (on_nex g) Q.
Proof. intros Hm s Hs. cbn. by rewrite Hs. Qed.
Lemma wp_same n m Q : keeps same_nex m → nex_ok n → (∀ a, Q a n) → wp n m Q.
Proof.
  intros Hm Hn HQ s Hs. specialize (Hm s). unfold same_nex in Hm.
  destruct (m s) as [a s'|s'| |]; auto; rewrite Hm, Hs; auto.
Qed.
Lemma wp_weaken n m Q Q' : wp n m Q' → (∀ a n', Q' a n' → Q a n') → wp n m Q.
Proof. intros Hm HQ s Hs. specialize (Hm s Hs). destruct (m s); auto. Qed.
Lemma wp_undef n Q : wp n undef Q.
Proof. by intros s Hs. Qed.
End rules.
Lemma wp_mwhen n (b : bool) (m : M St unit) (Q : unit → SNexFile → Prop) :
  (b = true → wp n m Q) → (b = false → Q tt n) → wp n (mwhen b m) Q.
Proof. destruct b; intros H1 H2; [by apply H1|]. unfold mwhen. apply wp_ret. by apply H2. Qed.
Lemma wp_massert n b (Q : unit → SNexFile → Prop) : Q tt n → wp n (massert b) Q.
Proof. destruct b; [apply wp_ret|intros _; by intros s Hs]. Qed.
Lemma wp_do_while fuel n (body : M St bool) (I : SNexFile → Prop) :
  I n → (∀ n, I n → wp n body (fun _ => I)) → wp n (do_while fuel body) (fun _ => I).
Proof.
  intros Hn Hb. revert n Hn. induction fuel as [|fuel IH]; intros n Hn; [by intros s Hs|].
  cbn [do_while]. apply wp_bind. eapply wp_weaken; [by apply Hb|].
  intros [] n' Hn'; [by apply IH|by apply wp_ret].
Qed.

(** ** Updates of an open file *)

Ltac open_file := unfold nex_ok in *; cbn in *;
  match goal with H : match nx_f ?n with _ => _ end |- _ =>
    destruct (nx_f n) as [[name content]|]; [destruct H; constructor; cbn in *; auto|done] end.

Lemma ok_header n h :
  nex_ok n → (header_sized (nx_h n) → header_sized h) → nh_banksOffset h = nh_banksOffset (nx_h n) →
  nh_hasCopperCode h = nh_hasCopperCode (nx_h n) → nex_ok (set_nx_h h n).
Proof. intros Hn Hs Ho Hc. open_file; by rewrite ?Ho, ?Hc. Qed.
Lemma ok_nex_append n bytes : nex_ok n → nex_ok (nex_append bytes n).
Proof.
  intros Hn. unfold nex_append, nex_ok in *. destruct (nx_f n) as [[name content]|] eqn:E; cbn; rewrite ?E; [|done].
  destruct Hn. constructor; auto. rewrite length_app. lia.
Qed.
Lemma ok_palDefined n b : nex_ok n → nex_ok (set_palDefined b n).
Proof. intros Hn. open_file. Qed.
Lemma ok_palette n p : nex_ok n → nex_ok (define_palette p n).
Proof. intros Hn. open_file. Qed.
Lemma ok_v13 n : nex_ok n → (reqFileVersion n =? 2) = false → nex_ok (set_minFileVersion 3 n).
Proof. intros Hn Hr%Z.eqb_neq. open_file. Qed.
Lemma ok_copper_code n l : nex_ok n → nex_ok (set_nx_copper (Some l) (set_nx_h (set_nh_hasCopperCode 1 (nx_h n)) n)).
Proof. intros Hn. open_file. Qed.
Lemma ok_bank n bankIndex : nex_ok n → (is_Some (nx_f n) → nh_banksOffset (nx_h n) ≠ 0) → nex_ok (set_lastBankIndex bankIndex n).
Proof. intros Hn Hr. open_file. intros E. by destruct Hr. Qed.

(** ** The commands keep the states *)

Definition leaves_ok {A} (n : SNexFile) (m : M St A) : Prop := wp n m (fun _ => nex_ok).

Lemma wp_nex_write n bytes (Q : unit → SNexFile → Prop) : Q tt (nex_append bytes n) → wp n (nex_write bytes) Q.
Proof. apply wp_on_end. Qed.
Lemma wp_nex_write_then {A} n bytes (k : M St A) Q : wp (nex_append bytes n) k Q → wp n (nex_write bytes ;; k) Q.
Proof. apply wp_on. Qed.
Lemma wp_header_end n f (Q : unit → SNexFile → Prop) : Q tt (set_nx_h (f (nx_h n)) n) → wp n (on_header f) Q.
Proof. apply (wp_on_end n (fun n => set_nx_h (f (nx_h n)) n)). Qed.
Lemma wp_header_then {A} n f (k : M St A) Q : wp (set_nx_h (f (nx_h n)) n) k Q → wp n (on_header f ;; k) Q.
Proof. apply (wp_on n (fun n => set_nx_h (f (nx_h n)) n)). Qed.
Lemma wp_same_then {A B} n (m : M St B) (f : B → M St A) Q :
  keeps same_nex m → nex_ok n → (∀ b, wp n (f b) Q) → wp n (m ≫= f) Q.
Proof. intros Hm Hn Hf. apply wp_bind. by apply wp_same. Qed.
Lemma wp_mwhen_then {A} n (b : bool) (m : M St unit) (k : M St A) Q :
  (b = true → wp n (m ;; k) Q) → (b = false → wp n k Q) → wp n (mwhen b m ;; k) Q.
Proof. destruct b; intros H1 H2; [by apply H1|]. intros s Hs. by apply H2. Qed.

Lemma wp_call_then {A B} n (m : M St B) (f : B → M St A) Q :
  leaves_ok n m → (∀ b n', nex_ok n' → wp n' (f b) Q) → wp n (m ≫= f) Q.
Proof. intros Hm Hf. apply wp_bind. eapply wp_weaken; [exact Hm|]. intros b n' Hn'. by apply Hf. Qed.

Lemma ok_count_bank n b : nex_ok n → nex_ok (set_nx_h (count_bank b (nx_h n)) n).
Proof.
  intros Hn. apply ok_header; try done. intros (? & ? & ?). split_and!; try done.
  cbn. by rewrite length_insert.
Qed.

(** Goals [nex_ok] of an updated file. *)
Lemma ok_screen_flags n t : nex_ok n → nex_ok (set_nx_h (screen_flags t (nx_h n)) n).
Proof. intros Hn. by apply ok_header; destruct t. Qed.
Ltac ok_leaf := solve [repeat first
  [ assumption
  | lazymatch goal with
    | |- nex_ok (nex_append _ _) => apply ok_nex_append
    | |- nex_ok (set_palDefined _ _) => apply ok_palDefined
    | |- nex_ok (define_palette _ _) => apply ok_palette
    | |- nex_ok (set_nx_copper _ _) => apply ok_copper_code
    | |- nex_ok (set_minFileVersion _ _) => apply ok_v13;
        [|first [done | match goal with E : ?b && _ = false, E' : ?b = true |- _ => by rewrite E' in E end]]
    | |- nex_ok (set_nx_h (screen_flags _ _) _) => apply ok_screen_flags
    | |- nex_ok (set_nx_h (count_bank _ _) _) => apply ok_count_bank
    | |- nex_ok (set_nx_h _ _) => apply ok_header; [|by intros (? & ? & ?); split_and!|done..]
    end ]].

Create HintDb wpok discriminated.
#[local] Hint Constants Opaque : wpok.
#[local] Hint Extern 1 (nex_ok _) => ok_leaf : wpok.

(** One step through a command. *)
Ltac wp_step :=
  match goal with
  | |- leaves_ok _ _ => unfold leaves_ok
  | |- wp _ (get_nex ≫= _) _ => apply wp_get
  | |- wp _ (gets _ ≫= _) _ => apply wp_gets; intros ?
  | |- wp _ (on_nex _ ≫= _) _ => apply wp_on
  | |- wp _ (on_nex _) _ => apply wp_on_end
  | |- wp _ (on_header _ ≫= _) _ => apply wp_header_then
  | |- wp _ (on_header _) _ => apply wp_header_end
  | |- wp _ (nex_write _ ≫= _) _ => apply wp_nex_write_then
  | |- wp _ (nex_write _) _ => apply wp_nex_write
  | |- wp _ (mwhen _ _ ≫= _) _ => apply wp_mwhen_then; intros ?
  | |- wp _ (mwhen _ _) _ => apply wp_mwhen; intros ?
  | |- wp _ (mret _) _ => apply wp_ret
  | |- wp _ undef _ => apply wp_undef
  | |- wp _ (massert _) _ => apply wp_massert
  | |- wp _ ((_ ≫= _) ≫= _) _ => apply wp_bind
  | |- wp _ (if ?b then _ else _) _ => destruct b eqn:?
  | |- wp _ (match ?x with _ => _ end) _ => destruct x eqn:?
  | |- wp _ (let _ := _ in _) _ => cbv zeta
  | |- wp _ ((fun _ => _) _) _ => cbv beta
  | |- wp _ (_ ≫= _) _ => eapply wp_call_then; [solve [eauto with wpok]|intros ? ? ?]
  | |- wp ?n ?m (fun _ => nex_ok) => change (leaves_ok n m); solve [eauto with wpok]
  | |- wp _ (_ ≫= _) _ => apply wp_same_then; [solve [same]|ok_leaf|intros ?]
  | |- wp _ (match _ with _ => _ end ≫= _) _ => apply wp_bind
  | |- wp _ _ _ => apply wp_same; [solve [same]|ok_leaf|intros ?; try ok_leaf]
  end.
Ltac wp_go := intros; repeat wp_step; try ok_leaf.

Section commands.
Context `{FileSystem}.

Lemma ok_dirNexCore n : nex_ok n → leaves_ok n dirNexCore.
Proof. unfold dirNexCore, when_open. wp_go. Qed.
Lemma ok_dirNexCfg n : nex_ok n → leaves_ok n dirNexCfg.
Proof. unfold dirNexCfg, when_open. wp_go. Qed.
Lemma ok_dirNexBar n : nex_ok n → leaves_ok n dirNexBar.
Proof. unfold dirNexBar, when_open. wp_go. Qed.
Lemma ok_dirNexCfg3 n : nex_ok n → leaves_ok n dirNexCfg3.
Proof. unfold dirNexCfg3, when_open, when_v13. wp_go. Qed.

Lemma ok_palette_mem n a b : nex_ok n → leaves_ok n (palette_mem a b).
Proof. unfold palette_mem. wp_go. Qed.
Lemma ok_palette_bmp n bmp : nex_ok n → leaves_ok n (palette_bmp bmp).
Proof. unfold palette_bmp. wp_go. Qed.
Lemma ok_writePalette n : nex_ok n → leaves_ok n writePalette.
Proof. unfold writePalette. wp_go. Qed.
Hint Resolve ok_palette_mem ok_palette_bmp ok_writePalette : wpok.

Lemma ok_select n commands otherwise :
  nex_ok n → Forall (fun c => ∀ n, nex_ok n → leaves_ok n (snd c)) commands →
  (∀ n, nex_ok n → leaves_ok n otherwise) → leaves_ok n (select_command commands otherwise).
Proof.
  intros Hn Hc Ho. revert n Hn. induction Hc as [|[k m] l Hm Hl IH]; intros n Hn; [by apply Ho|].
  cbn [select_command]. wp_step. wp_step. destruct b; [by apply Hm|by apply IH].
Qed.

Lemma ok_dirNexPaletteMem n : nex_ok n → leaves_ok n dirNexPaletteMem.
Proof. unfold dirNexPaletteMem. wp_go. Qed.
Lemma ok_dirNexPaletteBmp n : nex_ok n → leaves_ok n dirNexPaletteBmp.
Proof. unfold dirNexPaletteBmp. wp_go. Qed.
Hint Resolve ok_dirNexPaletteMem ok_dirNexPaletteBmp : wpok.
Lemma ok_dirNexPalette n : nex_ok n → leaves_ok n dirNexPalette.
Proof.
  unfold dirNexPalette, when_open. wp_go. apply ok_select; [done| |wp_go].
  repeat constructor; cbn; wp_go.
Qed.

(** *** Screens and copper code *)

Lemma ok_screen_mem n t a b c d : nex_ok n → leaves_ok n (screen_mem t a b c d).
Proof. unfold screen_mem. wp_go. Qed.
Lemma ok_write_bmp n bmp a b : nex_ok n → leaves_ok n (write_bmp bmp a b).
Proof. unfold write_bmp. wp_go. Qed.
Hint Resolve ok_screen_mem ok_write_bmp : wpok.
Lemma ok_screen_bmp n bmp a b : nex_ok n → leaves_ok n (screen_bmp bmp a b).
Proof. unfold screen_bmp. wp_go. Qed.
Hint Resolve ok_screen_bmp : wpok.
Lemma ok_dirNexScreenBmp n : nex_ok n → leaves_ok n dirNexScreenBmp.
Proof. unfold dirNexScreenBmp. wp_go. Qed.
Lemma ok_dirNexScreenUlaTimex n t : nex_ok n → leaves_ok n (dirNexScreenUlaTimex t).
Proof. unfold dirNexScreenUlaTimex. wp_go. Qed.
Lemma ok_dirNexScreenLayer2andLowRes n t : nex_ok n → leaves_ok n (dirNexScreenLayer2andLowRes t).
Proof. unfold dirNexScreenLayer2andLowRes. wp_go. Qed.
Lemma ok_dirNexCopper n : nex_ok n → leaves_ok n dirNexCopper.
Proof. unfold dirNexCopper, when_appending, when_v13. wp_go. Qed.

(** *** Banks *)

(** The start of the banks is noted. *)
Definition started (n : SNexFile) : Prop := nex_ok n ∧ (is_Some (nx_f n) → nh_banksOffset (nx_h n) ≠ 0).

Lemma started_offset n : nex_ok n →
  started (set_nx_h (set_nh_banksOffset (Z.of_nat (length (nex_content n))) (nx_h n)) n).
Proof.
  unfold started, nex_ok, nex_content. cbn. destruct (nx_f n) as [[name content]|]; [|by intros ->; split; [|intros []]].
  intros Hn. pose proof (ok_size _ _ Hn). split; [|lia]. destruct Hn. constructor; cbn; auto. lia.
Qed.

Lemma started_updateIfAhead n : nex_ok n → wp n updateIfAheadFirstBankSave (fun _ => started).
Proof.
  intros Hn. unfold updateIfAheadFirstBankSave. wp_step.
  destruct (negb (nh_banksOffset (nx_h n) =? 0) || negb (canAppend n)) eqn:E.
  - apply wp_ret. split; [done|]. intros [[name content] Hf].
    unfold nex_ok in Hn. rewrite Hf in Hn. rewrite (ok_append _ _ Hn), orb_false_r in E. by apply negb_true_iff, Z.eqb_neq in E.
  - wp_go; apply started_offset; ok_leaf.
Qed.

Lemma ok_saveBank n a b c : nex_ok n → leaves_ok n (saveBank a b c).
Proof.
  intros Hn. unfold saveBank. wp_go. apply wp_bind. eapply wp_weaken; [by apply started_updateIfAhead|].
  intros _ n' [Hn' Hs]. pose proof (ok_bank n' a Hn' Hs) as Hb. wp_go.
Qed.
Hint Resolve ok_saveBank : wpok.

Lemma ok_dirNexScreenTile n : nex_ok n → leaves_ok n dirNexScreenTile.
Proof. unfold dirNexScreenTile, when_v13. wp_go. Qed.
Hint Resolve ok_dirNexScreenTile ok_dirNexScreenBmp ok_dirNexScreenUlaTimex ok_dirNexScreenLayer2andLowRes : wpok.
Lemma ok_dirNexScreen n : nex_ok n → leaves_ok n dirNexScreen.
Proof.
  unfold dirNexScreen, when_appending. wp_go. apply ok_select; [done| |wp_go].
  repeat first [apply List.Forall_nil | apply List.Forall_cons]; intros; cbn [snd]; eauto with wpok.
Qed.
Lemma ok_nex_bank n : nex_ok n → leaves_ok n nex_bank.
Proof. unfold nex_bank, get_lp. wp_go. Qed.
Lemma ok_dirNexBank n : nex_ok n → leaves_ok n dirNexBank.
Proof.
  unfold dirNexBank, when_appending, get_lp. wp_go. apply wp_do_while; [done|]. apply ok_nex_bank.
Qed.
Lemma ok_save_banks count from n : nex_ok n → leaves_ok n (save_banks count from).
Proof. revert from n. induction count as [|count IH]; intros; cbn [save_banks]; wp_go. Qed.
Hint Resolve ok_save_banks : wpok.
Lemma ok_dirNexAuto n : nex_ok n → leaves_ok n dirNexAuto.
Proof. unfold dirNexAuto, when_appending. wp_go. Qed.

(** *** Opening *)

Lemma ok_nex_opened n fname pc sp entryBank version :
  header_sized (nx_h n) → nh_banksOffset (nx_h n) = 0 → nh_hasCopperCode (nx_h n) = 0 →
  lastBankIndex n = -1 → nex_ok (nex_opened fname pc sp entryBank version n).
Proof.
  intros Hs Ho Hc Hl. unfold nex_ok, nex_opened. cbn. constructor; try done.
  - rewrite app_nil_r, nex_header_length; done.
  - cbn. case_match; [|done]. apply Z.eqb_eq in H0 as ->. done.
Qed.
Lemma ok_dirNexOpen n : nex_ok n → leaves_ok n dirNexOpen.
Proof.
  intros Hn. unfold dirNexOpen. wp_step. wp_step. wp_step; [wp_step|].
  apply bool_decide_eq_false, eq_None_not_Some in Heqb.
  assert (Hi : nex_ok (nex_init n)) by (unfold nex_ok, nex_init in *; cbn; by rewrite Heqb in *).
  wp_go. apply wp_same; [solve [same]| |intros _]; by apply ok_nex_opened.
Qed.

(** ** Completing the file *)

(** [updateIfAheadFirstBankSave] on the file: the copper code goes in front of the banks. *)
Definition with_start (n : SNexFile) : SNexFile :=
  if negb (nh_banksOffset (nx_h n) =? 0) then n
  else
    let n := if nh_hasCopperCode (nx_h n) =? 0 then n else nex_append (default [] (nx_copper n)) n in
    set_nx_h (set_nh_banksOffset (Z.of_nat (length (nex_content n))) (nx_h n)) n.

Lemma noted_lin s s' : noted s s' → nex (lin s') = nex (lin s) ∧ saved_files (lin s') = saved_files (lin s).
Proof. by intros (e & d & l & c & ->). Qed.
Lemma noted_dev s s' : noted s s' → dev s' = dev s.
Proof. by intros (e & d & l & c & ->). Qed.

Lemma updateIfAhead_does s name content :
  nx_f (nex (lin s)) = Some (name, content) → open_ok (nex (lin s)) content →
  ∃ s', updateIfAheadFirstBankSave s = Ret tt s' ∧ nex (lin s') = with_start (nex (lin s))
    ∧ saved_files (lin s') = saved_files (lin s) ∧ dev s' = dev s.
Proof.
  intros Hf Ho. unfold updateIfAheadFirstBankSave, with_start, get_nex.
  cbv beta delta [mbind M_bind gets]. set (n := nex (lin s)) in *.
  destruct (Z.eq_dec (nh_banksOffset (nx_h n)) 0) as [E|E]; [|rewrite (proj2 (Z.eqb_neq _ _) E); by exists s].
  rewrite (proj2 (Z.eqb_eq _ _) E), (ok_append _ _ Ho), (ok_first _ _ Ho E). cbn [negb orb Z.eqb].
  set (k := mwhen (palDefined n && _) _).
  assert (Hk : says k) by (unfold k; auto with says). destruct (Hk s) as (s1 & E1 & N).
  destruct (noted_lin _ _ N) as [N1 F1]. pose proof (noted_dev _ _ N) as D1.
  cbn [negb Pos.eqb mwhen]. unfold mwhen at 1. cbv beta iota delta [mret M_ret]. rewrite E1.
  assert (Hn : nex (lin s1) = n) by (by rewrite N1).
  destruct (nh_hasCopperCode (nx_h n) =? 0) eqn:Ec; cbn [negb mwhen].
  - eexists. split; [reflexivity|]. cbn. by rewrite Hn, F1, D1.
  - destruct (ok_copper _ _ Ho) as [copper Hc]; [by apply Z.eqb_neq|]. rewrite Hc.
    eexists. split; [reflexivity|]. cbn. by rewrite Hn, F1, D1.
Qed.

(** The bytes between the header and the banks: copper code that is not written yet. *)
Definition pending_copper (n : SNexFile) : list Z :=
  if (nh_banksOffset (nx_h n) =? 0) && negb (nh_hasCopperCode (nx_h n) =? 0)
  then default [] (nx_copper n) else [].

Lemma with_start_file n name content :
  nx_f n = Some (name, content) → nx_f (with_start n) = Some (name, content ++ pending_copper n).
Proof.
  intros Hf. unfold with_start, pending_copper, nex_append.
  destruct (nh_banksOffset (nx_h n) =? 0); cbn [negb andb]; [|by rewrite app_nil_r].
  destruct (nh_hasCopperCode (nx_h n) =? 0); cbn; rewrite Hf; cbn; by rewrite ?app_nil_r.
Qed.
Lemma finalize_version_file n : nx_f (finalize_version n) = nx_f n.
Proof.
  unfold finalize_version. destruct (minFileVersion n =? 2); [done|]. unfold calculateCrc32C. cbn.
  destruct (nx_f n) as [[]|] eqn:E; [|done]. by destruct (nh_hasChecksum (nx_h n)).
Qed.

Definition final_header (n : SNexFile) : SNexHeader := nx_h (finalize_version (with_start n)).

Lemma finalizeFile_does s name content :
  nx_f (nex (lin s)) = Some (name, content) → open_ok (nex (lin s)) content →
  ∃ s', finalizeFile s = Ret tt s' ∧ nx_f (nex (lin s')) = None ∧ canAppend (nex (lin s')) = false
    ∧ saved_files (lin s') =
        (name, nex_header_bytes (final_header (nex (lin s))) ++ drop 512 (content ++ pending_copper (nex (lin s))))
        :: saved_files (lin s).
Proof.
  intros Hf Ho. destruct (updateIfAhead_does s name content Hf Ho) as (s1 & E1 & N1 & F1 & _).
  unfold finalizeFile, get_nex. cbv beta iota delta [mbind M_bind gets]. rewrite Hf.
  set (n := nex (lin s)) in *.
  assert ((minFileVersion n =? 3) && (reqFileVersion n =? 2) = false) as ->.
  { apply andb_false_iff. destruct (Z.eqb_spec (minFileVersion n) 3) as [E|]; [right|by left].
    by apply Z.eqb_neq, (ok_version _ _ Ho). }
  cbv iota beta delta [mwhen mret M_ret]. rewrite E1.
  set (n' := write_nex_header (finalize_version (with_start n))).
  assert (Hn' : nx_f n' = Some (name, nex_header_bytes (final_header n) ++ drop 512 (content ++ pending_copper n))).
  { unfold n', write_nex_header. by rewrite finalize_version_file, (with_start_file _ _ _ Hf). }
  set (file := nex_header_bytes _ ++ _) in *.
  assert (E2 : close_nex (set_nex n' s1) = set_nex (set_nx_palette None (set_nx_copper None
                 (set_canAppend false (set_nx_f None n')))) (put_file name file (set_nex n' s1)))
    by (unfold close_nex; cbn [nex lin set_nex on_lin]; by rewrite Hn').
  change (on_nex ?g s1) with (Ret (S := St) tt (set_nex (g (nex (lin s1))) s1)). cbv beta iota. rewrite N1. fold n'.
  change (modify close_nex ?t) with (Ret (S := St) tt (close_nex t)). cbv iota. rewrite E2.
  set (s2 := set_nex _ (put_file _ _ _)).
  destruct (_ && _).
  - destruct (says_Error1 "[SAVENEX] 2MB bank (48..111) stored without 2MbRamReq set in CFG" s2) as (s3 & E3 & [N3 F3]%noted_lin).
    exists s3. rewrite E3, N3, F3. split; [done|]. cbn. by rewrite F1.
  - exists s2. split; [done|]. cbn. by rewrite F1.
Qed.

Lemma ok_finalizeFile n : nex_ok n → leaves_ok n finalizeFile.
Proof.
  intros Hn s Hs. unfold nex_ok in Hn. destruct (nx_f n) as [[name content]|] eqn:E; rewrite <- Hs in *.
  - destruct (finalizeFile_does s name content E Hn) as (s' & -> & Hf & Hc & _). unfold nex_ok. by rewrite Hf.
  - unfold finalizeFile, get_nex. cbv beta iota delta [mbind M_bind gets]. rewrite E.
    change (nex_ok (nex (lin s))). unfold nex_ok. by rewrite E.
Qed.

Lemma ok_nex_append_file n : nex_ok n → leaves_ok n nex_append_file.
Proof. unfold nex_append_file. wp_go. Qed.
Lemma ok_dirNexClose n : nex_ok n → leaves_ok n dirNexClose.
Proof.
  intros Hn. unfold dirNexClose, when_appending, get_lp. wp_step. wp_step. wp_step; [wp_step|].
  apply wp_bind. eapply wp_weaken; [by apply started_updateIfAhead|]. intros _ n' [Hn' _].
  wp_step. eapply wp_call_then; [|intros _ n'' Hn''; by apply ok_finalizeFile].
  apply wp_do_while; [done|]. apply ok_nex_append_file.
Qed.
Hint Resolve ok_dirNexOpen ok_dirNexCore ok_dirNexCfg3 ok_dirNexCfg ok_dirNexBar ok_dirNexPalette
  ok_dirNexScreen ok_dirNexCopper ok_dirNexBank ok_dirNexAuto ok_dirNexClose : wpok.

Lemma ok_dirSAVENEX n : nex_ok n → leaves_ok n dirSAVENEX.
Proof.
  intros Hn. unfold dirSAVENEX. wp_go. apply ok_select; [done| |wp_go].
  repeat first [apply List.Forall_nil | apply List.Forall_cons]; intros; cbn [snd]; eauto with wpok.
Qed.

(** ** Every state that is reached *)

(** A command of SAVENEX, or anything else that leaves the file alone. *)
Inductive nex_step : St → St → Prop :=
| step_other s s' : nex (lin s') = nex (lin s) → nex_step s s'
| step_command s s' : dirSAVENEX s = Ret tt s' ∨ dirSAVENEX s = Exit s' → nex_step s s'.

Lemma ok_steps s s' : rtc nex_step s s' → nex_ok (nex (lin s)) → nex_ok (nex (lin s')).
Proof.
  induction 1 as [|s s1 s2 Hs _ IH]; [done|]. intros Hn. apply IH.
  destruct Hs as [s s1 ->|s s1 Hr]; [done|]. pose proof (ok_dirSAVENEX _ Hn s eq_refl) as Hc.
  by destruct Hr as [E|E]; rewrite E in Hc.
Qed.

(** C25: Whatever commands of SAVENEX were given, an open file has its header in front
    and can be written to, no bank was stored before the start of the banks was noted,
    the copper code that is still to be written is there, and a V1.3 feature was not put
    into a file that is to be V1.2; a closed file is not written to. *)
Theorem SAVENEX_states s s' :
  nex (lin s) = no_nex → rtc nex_step s s' → nex_ok (nex (lin s')).
Proof. intros Hs Hr. apply (ok_steps s s' Hr). by rewrite Hs. Qed.

(** C24: A NEX file that was opened is completed at the end, whatever commands came
    between: [finalizeFile] stops at none of its internal errors, closes the file, and
    leaves a file of that name with the header as it is by then, what was written behind
    the first header, and the copper code if no bank came; the other files stay. *)
Theorem SAVENEX_completes s s' name content :
  nex (lin s) = no_nex → rtc nex_step s s' → nx_f (nex (lin s')) = Some (name, content) →
  ∃ s'', finalizeFile s' = Ret tt s'' ∧ nx_f (nex (lin s'')) = None
    ∧ content_of name s'' =
        Some (nex_header_bytes (final_header (nex (lin s'))) ++ drop 512 (content ++ pending_copper (nex (lin s'))))
    ∧ ∀ other, other ≠ name → content_of other s'' = content_of other s'.
Proof.
  intros Hs Hr Hf. assert (Hn : nex_ok (nex (lin s'))) by (apply (ok_steps s s' Hr); by rewrite Hs).
  unfold nex_ok in Hn. rewrite Hf in Hn.
  destruct (finalizeFile_does s' name content Hf Hn) as (s'' & E & Ef & _ & Es).
  exists s''. split; [done|]. split; [done|]. unfold content_of. rewrite Es. split.
  - cbn. by rewrite bool_decide_eq_true_2.
  - intros other Ho. cbn. by rewrite bool_decide_eq_false_2.
Qed.
End commands.
