(* ===== verification/NexBanks.v ===== *)
(** * What the completed NEX file holds

    A reader of NEX files as a loader has it: the flags of the header say which banks
    follow, in the order 5, 2, 0, 1, 3, 4, 6, 7, 8, ...  The file that SAVENEX AUTO makes
    loads to the memory of the machine.  The checksum of a file. *)

From S2P Require Export NexSpec.

(** ** The loader *)

(** The order of the banks in the file, as the format has it. *)
Definition nex_order : list Z := [5; 2; 0; 1; 3; 4; 6; 7] ++ ((fun i => 8 + i) <$> upto 104).

Definition bank_size : nat := Z.to_nat 0x4000.

(** The banks that the flags ask for, from the bytes in front of it. *)
Fixpoint load_banks (flags : list Z) (order : list Z) (bytes : list Z) : list (Z * list Z) :=
  match order with
  | [] => []
  | b :: order =>
      if nth (Z.to_nat b) flags 0 =? 0 then load_banks flags order bytes
      else (b, take bank_size bytes) :: load_banks flags order (drop bank_size bytes)
  end.
Fixpoint loaded_bank (b : Z) (l : list (Z * list Z)) : list Z :=
  match l with
  | [] => repeat 0 bank_size
  | (b', bytes) :: l => if b' =? b then bytes else loaded_bank b l
  end.

(** The memory of the machine, zero before, once the file is loaded whose banks begin at [start]. *)
Definition load_nex (start : nat) (file : list Z) : Z → list Z :=
  fun b => loaded_bank b (load_banks (take 112 (drop 18 file)) nex_order (drop start file)).

#[local] Opaque bank_size.

(** ** The banks in the file *)

Definition bank_bytes (d : CDevice) (b : Z) : list Z := mem_bytes d (GetMemoryOffset d (b * 2) 0) 0x4000.
Definition empty_bank (d : CDevice) (b : Z) : bool := forallb (Z.eqb 0) (bank_bytes d b).
Definition stored_bank (d : CDevice) (b : Z) : list Z := if empty_bank d b then [] else bank_bytes d b.

Lemma bank_bytes_length d b : length (bank_bytes d b) = bank_size.
Proof. unfold bank_bytes, mem_bytes, upto. by rewrite !length_fmap, length_seq. Qed.

Lemma empty_bank_bytes d b : empty_bank d b = true → bank_bytes d b = repeat 0 bank_size.
Proof.
  unfold empty_bank. intros Hz. rewrite <- (bank_bytes_length d b).
  induction (bank_bytes d b) as [|x l IH]; [done|]. cbn [forallb length repeat] in *.
  apply andb_true_iff in Hz as [Hx Hl].
  apply Z.eqb_eq in Hx as <-. by rewrite <- IH.
Qed.

(** The banks of [order] that are stored. *)
Definition stored (d : CDevice) (order : list Z) : list (Z * list Z) :=
  (fun b => (b, bank_bytes d b)) <$> filter (fun b => empty_bank d b = false) order.

Lemma load_stored d flags order rest :
  (∀ b, b ∈ order → (nth (Z.to_nat b) flags 0 =? 0) = empty_bank d b) →
  load_banks flags order (flat_map (stored_bank d) order ++ rest)
  = stored d order.
Proof.
  unfold stored. induction order as [|b order IH]; intros Hf; [done|]. cbn [load_banks flat_map].
  rewrite (Hf b) by set_solver. rewrite filter_cons.
  assert (stored_bank d b = if empty_bank d b then [] else bank_bytes d b) as -> by done.
  destruct (empty_bank d b) eqn:E; cbn [app]; case_decide; try done.
  - apply IH. intros b' Hb. apply Hf. set_solver.
  - rewrite <- app_assoc, take_app_length' by (by rewrite bank_bytes_length).
    rewrite drop_app_length' by (by rewrite bank_bytes_length).
    cbn [fmap list_fmap]. f_equal. apply IH. intros b' Hb. apply Hf. set_solver.
Qed.

Lemma loaded_absent d order b : b ∉ order → loaded_bank b (stored d order) = repeat 0 bank_size.
Proof.
  unfold stored. induction order as [|b' order IH]; intros Hb; [done|].
  apply not_elem_of_cons in Hb as [Hn Hb]. rewrite filter_cons.
  case_decide; cbn [fmap list_fmap loaded_bank]; [|by apply IH].
  destruct (Z.eqb_spec b' b) as [->|]; [done|by apply IH].
Qed.
Lemma loaded_stored d order b : b ∈ order → loaded_bank b (stored d order) = bank_bytes d b.
Proof.
  induction order as [|b' order IH]; intros Hb; [set_solver|].
  destruct (decide (b ∈ order)) as [Hi|Hi].
  - specialize (IH Hi). unfold stored in *. rewrite filter_cons. case_decide; [|done].
    cbn [fmap list_fmap loaded_bank]. by destruct (Z.eqb_spec b' b) as [->|].
  - apply elem_of_cons in Hb as [->|]; [|done]. pose proof (loaded_absent d order b' Hi) as Ha.
    unfold stored in *. rewrite filter_cons. case_decide as E; cbn [fmap list_fmap loaded_bank].
    + by rewrite Z.eqb_refl.
    + rewrite Ha. symmetry. apply empty_bank_bytes. by destruct (empty_bank d b').
Qed.

(** ** Saving them *)

(** The header that counts [b], unless the bank is empty. *)
Definition count_stored (d : CDevice) (h : SNexHeader) (b : Z) : SNexHeader :=
  if empty_bank d b then h else count_bank b h.

Lemma bound_index i : 0 ≤ i < 112 → 0 ≤ getNexBankNum i < 112.
Proof.
  intros Hi. assert (Hall : forallb (fun i => (0 <=? getNexBankNum i) && (getNexBankNum i <? 112)) (upto 112) = true) by done.
  rewrite forallb_forall in Hall. specialize (Hall i).
  assert (In i (upto 112)) by (apply in_map_iff; exists (Z.to_nat i); rewrite in_seq; lia).
  specialize (Hall H). lia.
Qed.

Lemma nth_insert_same (l : list Z) k v : (k < length l)%nat → nth k (<[k:=v]> l) 0 = v.
Proof. intros Hk. rewrite nth_lookup, list_lookup_insert_eq by done. done. Qed.
Lemma nth_insert_other (l : list Z) k k' v : k ≠ k' → nth k (<[k':=v]> l) 0 = nth k l 0.
Proof. intros Hk. by rewrite !nth_lookup, list_lookup_insert_ne. Qed.

Lemma count_stored_sized d h b : length (nh_banks h) = 112%nat → length (nh_banks (count_stored d h b)) = 112%nat.
Proof. intros Hl. unfold count_stored. destruct (empty_bank d b); [done|]. cbn. by rewrite length_insert. Qed.
Lemma count_stored_empty d h b b' : 0 ≤ b → 0 ≤ b' → empty_bank d b = true →
  nth (Z.to_nat b) (nh_banks (count_stored d h b')) 0 = nth (Z.to_nat b) (nh_banks h) 0.
Proof.
  intros Hb Hb' E. unfold count_stored. destruct (empty_bank d b') eqn:E'; [done|]. cbn.
  apply nth_insert_other. intros Hn%Z2Nat.inj; [|done..]. congruence.
Qed.
Lemma count_stored_marked d h b b' : length (nh_banks h) = 112%nat → 0 ≤ b < 112 → 0 ≤ b' →
  nth (Z.to_nat b) (nh_banks h) 0 = 1 ∨ (b' = b ∧ empty_bank d b = false) →
  nth (Z.to_nat b) (nh_banks (count_stored d h b')) 0 = 1.
Proof.
  intros Hl Hb Hb' Hm. unfold count_stored. destruct (empty_bank d b') eqn:E'.
  - destruct Hm as [Hm|[-> Hm]]; congruence.
  - cbn. destruct (decide (Z.to_nat b = Z.to_nat b')) as [Eb|Hn].
    + rewrite <- Eb. apply nth_insert_same. lia.
    + rewrite nth_insert_other by done. destruct Hm as [Hm|[-> _]]; done.
Qed.

(** The flags and the count behind a run of banks. *)
Lemma counted_sized d order : ∀ h, length (nh_banks h) = 112%nat →
  length (nh_banks (foldl (count_stored d) h order)) = 112%nat.
Proof. induction order as [|b order IH]; intros h Hl; [done|]. by apply IH, count_stored_sized. Qed.
Lemma counted_empty d order b : 0 ≤ b → empty_bank d b = true → Forall (fun b => 0 ≤ b < 112) order →
  ∀ h, nth (Z.to_nat b) (nh_banks (foldl (count_stored d) h order)) 0 = nth (Z.to_nat b) (nh_banks h) 0.
Proof.
  intros Hb E. induction 1 as [|b' order Hb' _ IH]; intros h; [done|]. cbn [foldl].
  rewrite IH. by apply count_stored_empty; [|lia|].
Qed.
Lemma counted_marked d order b : 0 ≤ b < 112 → Forall (fun b => 0 ≤ b < 112) order →
  ∀ h, length (nh_banks h) = 112%nat →
  nth (Z.to_nat b) (nh_banks h) 0 = 1 ∨ (b ∈ order ∧ empty_bank d b = false) →
  nth (Z.to_nat b) (nh_banks (foldl (count_stored d) h order)) 0 = 1.
Proof.
  intros Hb. induction 1 as [|b' order Hb' _ IH]; intros h Hl Hm; cbn [foldl].
  - destruct Hm as [|[Hm _]]; [done|]. by apply not_elem_of_nil in Hm.
  - apply IH; [by apply count_stored_sized|]. destruct Hm as [Hm|[[->|Hm]%elem_of_cons E]].
    + left. apply count_stored_marked; [done..|lia|by left].
    + left. apply count_stored_marked; [done..|lia|by right].
    + by right.
Qed.
Lemma counted_number d order : ∀ h,
  nh_numBanks (foldl (count_stored d) h order) mod 256 = (nh_numBanks h + Z.of_nat (length (stored d order))) mod 256.
Proof.
  induction order as [|b order IH]; intros h; [by rewrite Z.add_0_r|]. cbn [foldl]. rewrite IH.
  unfold stored, count_stored. rewrite filter_cons. destruct (empty_bank d b) eqn:E; case_decide; try done.
  cbn [fmap list_fmap length nh_numBanks count_bank set_nh_numBanks]. unfold u8. rewrite Zplus_mod_idemp_l. f_equal. lia.
Qed.

Section save.
Context `{FileSystem}.
Context (d : CDevice) (name : list ascii).

(** What is the same of two states while banks are stored. *)
Definition bank_at (s : St) (i : Z) (content : list Z) (h : SNexHeader) : Prop :=
  cur_device s = Some d ∧ nx_f (nex (lin s)) = Some (name, content) ∧ nx_h (nex (lin s)) = h
  ∧ canAppend (nex (lin s)) = true ∧ lastBankIndex (nex (lin s)) < i ∧ nh_banksOffset h ≠ 0.
Definition bank_kept (s s' : St) : Prop :=
  saved_files (lin s') = saved_files (lin s) ∧ minFileVersion (nex (lin s')) = minFileVersion (nex (lin s))
  ∧ reqFileVersion (nex (lin s')) = reqFileVersion (nex (lin s)) ∧ nx_copper (nex (lin s')) = nx_copper (nex (lin s)).

Lemma saveBank_does s i content h : 0 ≤ i < 112 → bank_at s i content h →
  ∃ s', saveBank i (getNexBankNum i) true s = Ret true s'
    ∧ bank_at s' (i + 1) (content ++ stored_bank d (getNexBankNum i)) (count_stored d h (getNexBankNum i))
    ∧ bank_kept s s'.
Proof.
  intros Hi (Hd & Hf & Hh & Hc & Hl & Ho). pose proof (bound_index i Hi) as Hb.
  set (b := getNexBankNum i) in *. unfold saveBank, updateIfAheadFirstBankSave, get_nex, the_device.
  assert ((b <? 0) || (MAX_BANK <=? b) = false) as -> by (unfold MAX_BANK; lia).
  cbv beta iota delta [mbind M_bind gets st].
  assert ((i <=? lastBankIndex (nex (lin s))) = false) as -> by lia.
  rewrite Hh, (proj2 (Z.eqb_neq _ _) Ho). cbn [negb orb]. cbv beta iota delta [mret M_ret].
  rewrite Hd. cbv beta iota. cbn [andb].
  rewrite (eq_refl : mem_bytes d (GetMemoryOffset d (b * 2) 0) 0x4000 = bank_bytes d b).
  rewrite (eq_refl : forallb (Z.eqb 0) (bank_bytes d b) = empty_bank d b).
  unfold bank_at, bank_kept, stored_bank, count_stored, on_header, nex_write, on_nex, nex_append.
  destruct (empty_bank d b); cbv beta iota delta [modify]; eexists; (split; [reflexivity|]);
    cbn; rewrite Hf, ?app_nil_r, ?Hh; split_and!; cbn; try done; try lia.
Qed.

Definition order_from (from : Z) (count : nat) : list Z :=
  getNexBankNum <$> ((fun k => from + Z.of_nat k) <$> seq 0 count).
Lemma order_from_S from count : order_from from (S count) = getNexBankNum from :: order_from (from + 1) count.
Proof.
  unfold order_from. cbn [seq fmap list_fmap]. rewrite Z.add_0_r, <- fmap_S_seq, <- !list_fmap_compose.
  f_equal. apply list_fmap_ext. intros _ k _. cbn. f_equal. lia.
Qed.

Lemma save_banks_does count : ∀ s from content h,
  0 ≤ from → from + Z.of_nat count ≤ 112 → bank_at s from content h →
  ∃ s', save_banks count from s = Ret tt s'
    ∧ bank_at s' (from + Z.of_nat count) (content ++ flat_map (stored_bank d) (order_from from count))
        (foldl (count_stored d) h (order_from from count))
    ∧ bank_kept s s'.
Proof.
  induction count as [|count IH]; intros s from content h Hfrom Hto Hs.
  - exists s. split; [done|]. cbn. rewrite app_nil_r, Z.add_0_r. by repeat split; try apply Hs.
  - destruct (saveBank_does s from content h ltac:(lia) Hs) as (s1 & E1 & H1 & K1).
    destruct (IH s1 (from + 1) _ _ ltac:(lia) ltac:(lia) H1) as (s2 & E2 & H2 & K2).
    exists s2. cbn [save_banks]. cbv beta delta [mbind M_bind]. rewrite E1. cbn [negb].
    rewrite order_from_S. cbn [flat_map foldl]. split; [exact E2|].
    rewrite <- app_assoc in H2. replace (from + Z.of_nat (S count)) with (from + 1 + Z.of_nat count) by lia.
    split; [exact H2|]. destruct K1 as (? & ? & ? & ?), K2 as (? & ? & ? & ?).
    split_and!; congruence.
Qed.

Lemma with_start_offset n content : nx_f n = Some (name, content) → (512 <= length content)%nat →
  nh_banksOffset (nx_h (with_start n)) ≠ 0.
Proof.
  intros Hf Hl. unfold with_start. destruct (Z.eqb_spec (nh_banksOffset (nx_h n)) 0); cbn [negb]; [|done].
  pose proof (with_start_file n name content Hf) as Hw. unfold with_start in Hw.
  rewrite (proj2 (Z.eqb_eq _ _) e) in Hw. cbn [negb] in Hw. cbn in Hw |- *.
  unfold nex_content. rewrite Hw, length_app. lia.
Qed.

Lemma updateIfAhead_started s : nh_banksOffset (nx_h (nex (lin s))) ≠ 0 → updateIfAheadFirstBankSave s = Ret tt s.
Proof.
  intros Ho. unfold updateIfAheadFirstBankSave, get_nex. cbv beta iota delta [mbind M_bind gets].
  by rewrite (proj2 (Z.eqb_neq _ _) Ho).
Qed.

(** The first bank notes the start. *)
Lemma saveBank_started s s1 i b :
  0 ≤ b < 112 → updateIfAheadFirstBankSave s = Ret tt s1 → nh_banksOffset (nx_h (nex (lin s1))) ≠ 0 →
  lastBankIndex (nex (lin s1)) = lastBankIndex (nex (lin s)) → lastBankIndex (nex (lin s)) < i →
  saveBank i b true s = saveBank i b true s1.
Proof.
  intros Hb E1 E2%updateIfAhead_started El Hi. unfold saveBank, get_nex.
  assert ((b <? 0) || (MAX_BANK <=? b) = false) as -> by (unfold MAX_BANK; lia).
  cbv beta iota delta [mbind M_bind gets]. rewrite El.
  assert ((i <=? lastBankIndex (nex (lin s))) = false) as -> by lia.
  by rewrite E1, E2.
Qed.

Lemma final_header_kept n : nh_banksOffset (nx_h n) ≠ 0 →
  nh_banks (final_header n) = nh_banks (nx_h n) ∧ nh_numBanks (final_header n) = nh_numBanks (nx_h n)
  ∧ (header_sized (nx_h n) → header_sized (final_header n)).
Proof.
  intros Ho. unfold final_header, with_start. rewrite (proj2 (Z.eqb_neq _ _) Ho). cbn [negb].
  unfold finalize_version. destruct (minFileVersion n =? 2); [done|]. unfold calculateCrc32C. cbn.
  destruct (nx_f n) as [[]|]; [|done]. by destruct (nh_hasChecksum (nx_h n)).
Qed.

Lemma header_flags h rest : length (nh_banks h) = 112%nat →
  take 112 (drop 18 (nex_header_bytes h ++ rest)) = nh_banks h ∧ nth 9 (nex_header_bytes h ++ rest) 0 = nh_numBanks h.
Proof.
  intros Hl. unfold nex_header_bytes. rewrite <- !app_assoc. split; [|done].
  set (tl := [nh_loadbar h; _; _; _; _] ++ _). set (pre := (code <$> str "NextV1.") ++ _).
  change (drop 18 pre) with (nh_banks h ++ tl). rewrite <- Hl. apply take_app_length.
Qed.

Lemma order_all : order_from 0 112 = nex_order.
Proof. by vm_compute. Qed.
Lemma nex_order_complete b : 0 ≤ b < 112 → b ∈ nex_order.
Proof.
  intros Hb. assert (Hall : forallb (fun b => existsb (Z.eqb b) nex_order) (upto 112) = true) by by vm_compute.
  rewrite forallb_forall in Hall. specialize (Hall b).
  rewrite existsb_exists in Hall. destruct Hall as (b' & Hi & ->%Z.eqb_eq).
  - apply in_map_iff. exists (Z.to_nat b). rewrite in_seq. lia.
  - by apply list_elem_of_In.
Qed.
Lemma nex_order_bounds : Forall (fun b => 0 ≤ b < 112) nex_order.
Proof. apply (bool_decide_unpack _). by vm_compute. Qed.

(** The file behind all the banks. *)
Lemma all_banks_saved s content :
  nx_f (nex (lin s)) = Some (name, content) → open_ok (nex (lin s)) content →
  lastBankIndex (nex (lin s)) = -1 → cur_device s = Some d →
  ∃ s1 h, save_banks 112 0 s = Ret tt s1
    ∧ nx_f (nex (lin s1)) = Some (name, content ++ pending_copper (nex (lin s)) ++ flat_map (stored_bank d) nex_order)
    ∧ nx_h (nex (lin s1)) = foldl (count_stored d) h nex_order ∧ nh_banksOffset (nx_h (nex (lin s1))) ≠ 0
    ∧ nh_banks h = nh_banks (nx_h (nex (lin s))) ∧ nh_numBanks h = nh_numBanks (nx_h (nex (lin s))).
Proof.
  intros Hf Ho Hl Hd. destruct (updateIfAhead_does s name content Hf Ho) as (s0 & E0 & N0 & _ & D0).
  assert (Hat : bank_at s0 0 (content ++ pending_copper (nex (lin s))) (nx_h (with_start (nex (lin s))))).
  { unfold bank_at. rewrite N0. assert (cur_device s0 = Some d) as -> by (unfold cur_device; by rewrite D0).
    rewrite (with_start_file _ _ _ Hf). split_and!; try done.
    - unfold with_start, nex_append. pose proof (ok_append _ _ Ho). repeat case_match; done.
    - assert (lastBankIndex (with_start (nex (lin s))) = -1) as ->; [|lia].
      unfold with_start, nex_append. repeat case_match; done.
    - eapply with_start_offset; [done|]. apply Ho. }
  destruct (save_banks_does 112 s0 0 _ _ ltac:(lia) ltac:(lia) Hat) as (s1 & E1 & (_ & F1 & H1 & _ & _ & O1) & _).
  exists s1, (nx_h (with_start (nex (lin s)))). rewrite order_all in *.
  split; [|rewrite <- H1, <- app_assoc in *; split_and!; try done].
  - rewrite <- E1. change 112%nat with (S 111). cbn [save_banks]. cbv beta delta [mbind M_bind].
    rewrite (saveBank_started s s0 0); [done|by apply bound_index|done| | |].
    + rewrite N0. eapply with_start_offset; [done|]. apply Ho.
    + rewrite N0. unfold with_start, nex_append. repeat case_match; done.
    + rewrite Hl. lia.
  - unfold with_start, nex_append. repeat case_match; done.
  - unfold with_start, nex_append. repeat case_match; done.
Qed.

Lemma drop_over (X Y : list Z) : (512 <= length X)%nat → drop 512 (X ++ Y) = drop 512 X ++ Y.
Proof. intros Hl. rewrite drop_app, (proj2 (Nat.sub_0_le _ _)) by lia. done. Qed.

(** The part of the proof that is about the bytes. *)
Lemma loads_back h0 hf X : nh_banks h0 = repeat 0 112 → nh_banks hf = nh_banks (foldl (count_stored d) h0 nex_order) →
  header_sized hf → (512 <= length X)%nat → ∀ b, 0 ≤ b < 112 →
  load_nex (length X) (nex_header_bytes hf ++ drop 512 X ++ flat_map (stored_bank d) nex_order) b = bank_bytes d b.
Proof.
  intros H0 Hf Hs HX b Hb. unfold load_nex.
  rewrite (proj1 (header_flags _ _ (proj1 Hs))), app_assoc, Hf.
  rewrite drop_app_length' by (rewrite length_app, nex_header_length, length_drop by done; lia).
  rewrite <- (app_nil_r (flat_map _ _)), load_stored; [by apply loaded_stored, nex_order_complete|].
  intros b' Hb'. pose proof nex_order_bounds as Hall. pose proof (proj1 (Forall_forall _ _) Hall b' Hb') as Hr.
  destruct (empty_bank d b') eqn:E.
  - rewrite (counted_empty _ _ b' (proj1 Hr) E Hall), H0. apply Z.eqb_eq. apply nth_repeat.
  - rewrite (counted_marked _ _ b' Hr Hall); [done|by rewrite H0, repeat_length|by right].
Qed.

(** C23: The directive SAVENEX AUTO without arguments, with no bank stored before, makes
    a file that loads to the memory of the machine: the flags of its header and the
    order of the banks give every one of the 112 banks its bytes (a bank of zeros is not
    stored), and the header counts the banks that are. *)
Theorem SAVENEX_AUTO_roundtrip s s0 content :
  nx_f (nex (lin s)) = Some (name, content) → open_ok (nex (lin s)) content →
  lastBankIndex (nex (lin s)) = -1 → nh_banks (nx_h (nex (lin s))) = repeat 0 112 → nh_numBanks (nx_h (nex (lin s))) = 0 →
  getIntArguments true [(5, true); (111, true)] s = Ret (true, [5; 111]) s0 → cur_device s0 = Some d →
  ∃ s1 s2 file, dirNexAuto s = Ret tt s1 ∧ finalizeFile s1 = Ret tt s2 ∧ content_of name s2 = Some file
    ∧ (∀ b, 0 ≤ b < 112 →
         load_nex (length content + length (pending_copper (nex (lin s)))) file b = bank_bytes d b)
    ∧ nth 9 file 0 mod 256 = Z.of_nat (length (stored d nex_order)) mod 256.
Proof.
  intros Hf Ho Hl Hb Hc Ha Hd.
  assert (N0 : nex (lin s0) = nex (lin s)).
  { pose proof (same_getIntArguments true [(5, true); (111, true)] s) as K. by rewrite Ha in K. }
  rewrite <- N0 in *.
  destruct (all_banks_saved s0 content Hf Ho Hl Hd) as (s1 & h & E1 & F1 & H1 & O1 & B1 & C1).
  assert (Hok : nex_ok (nex (lin s1))).
  { pose proof (ok_save_banks 112 0 (nex (lin s0))) as K. unfold nex_ok at 1 in K. rewrite Hf in K.
    specialize (K Ho s0 eq_refl). by rewrite E1 in K. }
  unfold nex_ok in Hok. rewrite F1 in Hok.
  destruct (finalizeFile_does s1 name _ F1 Hok) as (s2 & E2 & _ & _ & S2).
  destruct (final_header_kept _ O1) as (B2 & C2 & Z2).
  assert (P : pending_copper (nex (lin s1)) = []).
  { unfold pending_copper. by rewrite (proj2 (Z.eqb_neq _ _) O1). }
  rewrite P, app_nil_r, app_assoc in S2.
  assert (HX : (512 <= length (content ++ pending_copper (nex (lin s0))))%nat)
    by (rewrite length_app; pose proof (ok_size _ _ Ho); lia).
  rewrite (drop_over _ _ HX) in S2.
  eexists s1, s2, _. split; [|split; [exact E2|split]].
  - unfold dirNexAuto, when_appending, get_nex. cbv beta iota delta [mbind M_bind gets].
    rewrite <- N0, (ok_append _ _ Ho). cbn [negb]. rewrite <- N0, Hl. change (getNexBankNum (-1 + 1)) with 5.
    change (MAX_BANK - 1) with 111. cbn [Z.eqb]. rewrite Ha. exact E1.
  - unfold content_of. rewrite S2. cbn [List.find fst]. by rewrite bool_decide_eq_true_2.
  - split.
    + intros b Hr. rewrite <- length_app. apply (loads_back h); [by rewrite B1|by rewrite B2, H1|by apply Z2, Hok|done|done].
    + rewrite (proj2 (header_flags _ _ (proj1 (Z2 (ok_fields _ _ Hok))))), C2, H1, counted_number, C1, Hc. done.
Qed.

(** ** The checksum *)

Lemma header_checksum h rest : header_sized h →
  take 4 (drop 508 (nex_header_bytes h ++ rest)) = dword_bytes (nh_crc32c h).
Proof.
  intros Hs. pose proof (nex_header_length h Hs) as Hl. unfold nex_header_bytes in *.
  rewrite !app_assoc in *. set (pre := _ ++ repeat 0 349) in *.
  rewrite length_app in Hl. change (length (dword_bytes (nh_crc32c h))) with 4%nat in Hl.
  by rewrite <- app_assoc, drop_app_length' by lia.
Qed.

Lemma crc32c_nil crc : crc32c crc [] = crc.
Proof. unfold crc32c. cbn. by rewrite Z.lxor_assoc, Z.lxor_nilpotent, Z.lxor_0_r. Qed.

Lemma buffer_not_empty : (0 < BUFFER_SIZE)%nat.
Proof. unfold BUFFER_SIZE. lia. Qed.
#[local] Opaque BUFFER_SIZE.
Lemma crc_buffers_all size fuel : (0 < size)%nat → ∀ crc l, (length l <= fuel)%nat → 0 ≤ crc < 2 ^ 32 → Forall is_byte l →
  crc_buffers size fuel crc l = crc32c crc l.
Proof.
  intros Hk. induction fuel as [|fuel IH]; intros crc l Hl Hc Hb.
  - destruct l; [|cbn in Hl; lia]. by rewrite crc32c_nil.
  - destruct l as [|x l]; [by rewrite crc32c_nil|]. cbn [crc_buffers].
    rewrite crc32c_append_sw_eq by (done || by apply Forall_take).
    rewrite IH; [by rewrite crc32c_parts, take_drop| | |by apply Forall_drop].
    + rewrite length_drop. cbn [length] in *. lia.
    + apply crc32c_range; [done|by apply Forall_take].
Qed.

Lemma final_checksum n name' content : nx_f (with_start n) = Some (name', content) →
  minFileVersion n ≠ 2 → nh_hasChecksum (nx_h n) = true → Forall is_byte content →
  nh_crc32c (final_header n) = crc32c 0 (drop 512 content ++ take 508 content).
Proof.
  intros Hf Hm Hc Hb.
  assert (Hm' : minFileVersion (with_start n) = minFileVersion n) by (unfold with_start, nex_append; repeat case_match; done).
  assert (Hc' : nh_hasChecksum (nx_h (with_start n)) = nh_hasChecksum (nx_h n))
    by (unfold with_start, nex_append; repeat case_match; done).
  unfold final_header, finalize_version. rewrite Hm', (proj2 (Z.eqb_neq _ _) Hm). unfold calculateCrc32C.
  cbn [nx_f nx_h set_nx_h nh_hasChecksum set_nh_version]. rewrite Hf, Hc', Hc. cbn [nx_h set_nx_h set_canAppend nh_crc32c set_nh_crc32c].
  rewrite (crc_buffers_all _ _ buffer_not_empty) by (done || by apply Forall_drop).
  rewrite crc32c_append_sw_eq; [by rewrite crc32c_parts| |by apply Forall_take].
  apply crc32c_range; [done|by apply Forall_drop].
Qed.

(** C26: With the checksum asked for, the checksum that is stored in the file is the
    CRC-32C of what lies behind the header followed by the header as it was when the
    file was opened, not by the one that is stored with it. *)
Theorem finalizeFile_checksum s content :
  nx_f (nex (lin s)) = Some (name, content) → open_ok (nex (lin s)) content →
  minFileVersion (nex (lin s)) ≠ 2 → nh_hasChecksum (nx_h (nex (lin s))) = true →
  header_sized (final_header (nex (lin s))) → Forall is_byte (content ++ pending_copper (nex (lin s))) →
  ∃ s' file, finalizeFile s = Ret tt s' ∧ content_of name s' = Some file
    ∧ drop 512 file = drop 512 (content ++ pending_copper (nex (lin s)))
    ∧ take 4 (drop 508 file) = dword_bytes (crc32c 0 (drop 512 file ++ take 508 content)).
Proof.
  intros Hf Ho Hm Hc Hs Hb. destruct (finalizeFile_does s name content Hf Ho) as (s' & E & _ & _ & S').
  assert (Hd : drop 512 (nex_header_bytes (final_header (nex (lin s))) ++ drop 512 (content ++ pending_copper (nex (lin s))))
               = drop 512 (content ++ pending_copper (nex (lin s))))
    by (by rewrite drop_app_length' by (by rewrite nex_header_length)).
  eexists s', _. split; [exact E|]. split; [|split; [exact Hd|]].
  - unfold content_of. rewrite S'. cbn [List.find fst]. by rewrite bool_decide_eq_true_2.
  - rewrite Hd, header_checksum by done.
    rewrite (final_checksum _ name (content ++ pending_copper (nex (lin s))));
      [|by apply with_start_file|done|done|done].
    rewrite (take_app_le content) by (pose proof (ok_size _ _ Ho); lia). done.
Qed.
End save.

(** ** Concrete runs *)

(** The machine in the last pass with a few bytes in bank 2. *)
Definition next_machine : St :=
  match (_ ← SetDevice (str "ZXSPECTRUMNEXT") (-1); modify (set_CurAddress 0x8000) ;;
         EmitByteNoListing 0xC9 false ;; EmitByteNoListing 7 false) last_pass with
  | Ret _ s => s
  | _ => last_pass
  end.

Definition run_nex (l : string) (s : St) : St :=
  match @dirSAVENEX plain_files (set_lp (txt l) s) with Ret _ s' | Exit s' => s' | _ => s end.
Arguments run_nex l%_string s.

Lemma run_nex_steps l s : rtc (@nex_step plain_files) s (run_nex l s).
Proof.
  unfold run_nex. assert (Hl : @nex_step plain_files s (set_lp (txt l) s)) by by apply step_other.
  destruct (dirSAVENEX _) as [[] s'|s'| |] eqn:E; [| |reflexivity..];
    (eapply rtc_l; [exact Hl|]); apply rtc_once, step_command; auto.
Qed.

(** The machine after some commands. *)
Definition session (l : list string) : St := foldl (fun s l => run_nex l s) next_machine l.
Lemma session_steps l : rtc (@nex_step plain_files) next_machine (session l).
Proof.
  unfold session. generalize next_machine. induction l as [|c l IH]; intros s; [done|].
  etransitivity; [apply run_nex_steps|apply IH].
Qed.
Definition OPEN : string := "open <x.nex>,0x8000,0xFF00".

(** The checks that a run is as it should be, computed. *)
Definition open_okb (n : SNexFile) (content : list Z) : bool :=
  canAppend n && Nat.leb 512 (length content)
  && bool_decide (length (nh_banks (nx_h n)) = 112%nat ∧ length (nh_coreVersion (nx_h n)) = 3%nat
                  ∧ length (nh_tilesScrConfig (nx_h n)) = 4%nat)
  && (negb (minFileVersion n =? 3) || negb (reqFileVersion n =? 2))
  && (negb (nh_banksOffset (nx_h n) =? 0) || (lastBankIndex n =? -1))
  && ((nh_hasCopperCode (nx_h n) =? 0) || bool_decide (is_Some (nx_copper n))).

Lemma SAVENEX_states_witness : nex_ok (nex (lin (session [OPEN; "cfg3 1"; "copper 10,0"; "close"]%string))).
Proof. apply (@SAVENEX_states plain_files next_machine); [by vm_compute|apply session_steps]. Defined.

Lemma open_okb_spec n content : open_okb n content = true → open_ok n content.
Proof.
  unfold open_okb. rewrite !andb_true_iff, !orb_true_iff, !negb_true_iff.
  intros [[[[[Ha Hl] Hs] Hv] Ho] Hc]. constructor.
  - done.
  - by apply Nat.leb_le.
  - by apply bool_decide_eq_true in Hs.
  - intros E. destruct Hv as [Hv|Hv]; [|by apply Z.eqb_neq]. by rewrite E in Hv.
  - intros E. destruct Ho as [Ho|Ho]; [by rewrite E in Ho|by apply Z.eqb_eq].
  - intros E. destruct Hc as [Hc|Hc]; [by apply Z.eqb_eq in Hc|by apply bool_decide_eq_true in Hc].
Qed.

Definition x_nex : list ascii := str "x.nex".
Definition content_now (s : St) : list Z := nex_content (nex (lin s)).

Lemma SAVENEX_completes_witness :
  ∃ s'', finalizeFile (session [OPEN; "cfg3 1"; "copper 10,0"]%string) = Ret tt s''
    ∧ nx_f (nex (lin s'')) = None ∧ is_Some (@content_of plain_files x_nex s'').
Proof.
  set (s := session _).
  assert (Hf : nx_f (nex (lin s)) = Some (x_nex, content_now s)) by by vm_compute.
  destruct (@SAVENEX_completes plain_files next_machine s x_nex (content_now s)) as (s'' & E & Ef & Ec & _);
    [by vm_compute|apply session_steps|exact Hf|].
  exists s''. split; [exact E|]. split; [exact Ef|]. eexists. exact Ec.
Defined.

(** The bytes in bank 2 are loaded back. *)
Lemma SAVENEX_AUTO_roundtrip_witness :
  let s := set_lp (txt "") (session [OPEN]) in
  ∃ s1 s2 file d, dirNexAuto s = Ret tt s1 ∧ finalizeFile s1 = Ret tt s2
    ∧ @content_of plain_files x_nex s2 = Some file ∧ load_nex 512 file 2 = bank_bytes d 2
    ∧ mem_byte d (GetMemoryOffset d 4 0) = 0xC9.
Proof.
  cbv zeta. set (s := set_lp _ _).
  assert (Ha : match getIntArguments true [(5, true); (111, true)] s with
               | Ret (ok, args) s0 => bool_decide (ok = true ∧ args = [5; 111] ∧ is_Some (cur_device s0)
                   ∧ (fun d => mem_byte d (GetMemoryOffset d 4 0)) <$> cur_device s0 = Some 0xC9)
               | _ => false
               end = true) by by vm_compute.
  destruct (getIntArguments _ _ s) as [[ok args] s0|s0| |] eqn:E; try discriminate Ha.
  apply bool_decide_eq_true in Ha as (-> & -> & [d Hd] & Hm).
  destruct (@SAVENEX_AUTO_roundtrip plain_files d x_nex s s0 (content_now s)) as (s1 & s2 & file & E1 & E2 & E3 & E4 & _);
    [by vm_compute|apply open_okb_spec; by vm_compute|by vm_compute..|exact E|exact Hd|].
  exists s1, s2, file, d. split; [exact E1|]. split; [exact E2|]. split; [exact E3|].
  rewrite Hd in Hm. apply (inj Some) in Hm. split; [|exact Hm].
  assert (Hl : (length (content_now s) + length (pending_copper (nex (lin s))))%nat = 512%nat) by by vm_compute.
  rewrite Hl in E4. apply (E4 2). lia.
Defined.

(** The checksum that a reader of the file computes is another one. *)
Lemma finalizeFile_checksum_witness :
  let s := session [OPEN; "cfg3 1"%string] in
  ∃ s' file, finalizeFile s = Ret tt s' ∧ @content_of plain_files x_nex s' = Some file
    ∧ take 4 (drop 508 file) = dword_bytes (crc32c 0 (drop 512 file ++ take 508 (content_now s)))
    ∧ take 4 (drop 508 file) ≠ dword_bytes (crc32c 0 (drop 512 file ++ take 508 file)).
Proof.
  cbv zeta. set (s := session _).
  destruct (@finalizeFile_checksum plain_files x_nex s (content_now s)) as (s' & file & E & Ef & _ & Ec);
    [by vm_compute|apply open_okb_spec; by vm_compute|by vm_compute|by vm_compute| | |].
  - apply (bool_decide_unpack _). by vm_compute.
  - apply (bool_decide_unpack _). by vm_compute.
  - exists s', file. split; [exact E|]. split; [exact Ef|]. split; [exact Ec|].
    assert (Hn : match finalizeFile s with
                 | Ret _ s' => match @content_of plain_files x_nex s' with
                               | Some file => negb (bool_decide (take 4 (drop 508 file)
                                   = dword_bytes (crc32c 0 (drop 512 file ++ take 508 file))))
                               | None => false
                               end
                 | _ => false
                 end = true) by by vm_compute.
    rewrite E, Ef in Hn. by apply negb_true_iff, bool_decide_eq_false in Hn.
Defined.
