(* ===== verification/MemorySpec.v ===== *)
(** * Files made from the memory of the device

    The bytes that the mapped slots show at the addresses of the Z80, and SAVEBIN, which
    saves them. *)

From S2P Require Import Reports DeviceSpec Numbers Files.

(** ** The mapped bytes *)

Definition mapped_byte (d : CDevice) (a : Z) : Z := mem_byte d (default 0 (offset_of d a)).
Definition mapped (d : CDevice) (a n : Z) : list Z := (fun i => mapped_byte d (a + i)) <$> upto n.

Lemma upto_add n m : 0 ≤ n → 0 ≤ m → upto (n + m) = upto n ++ ((fun i => n + i) <$> upto m).
Proof.
  intros Hn Hm. unfold upto. rewrite Z2Nat.inj_add, seq_app, fmap_app by lia. f_equal.
  replace (seq (0 + Z.to_nat n) (Z.to_nat m)) with (Nat.add (Z.to_nat n) <$> seq 0 (Z.to_nat m))
    by (rewrite fmap_add_seq; f_equal; lia).
  rewrite <- !list_fmap_compose. apply list_fmap_ext. intros i x _. cbn. lia.
Qed.
Lemma upto_In n i : i ∈ upto n ↔ 0 ≤ i < n.
Proof.
  unfold upto. rewrite list_elem_of_fmap. split.
  - intros (k & -> & Hk%elem_of_seq). lia.
  - intros Hi. exists (Z.to_nat i). rewrite Z2Nat.id, elem_of_seq by lia. split; [done|lia].
Qed.
Lemma length_mapped d a n : length (mapped d a n) = Z.to_nat n.
Proof. unfold mapped, upto. by rewrite !length_fmap, length_seq. Qed.
Lemma mapped_app d a n m : 0 ≤ n → 0 ≤ m → mapped d a (n + m) = mapped d a n ++ mapped d (a + n) m.
Proof.
  intros Hn Hm. unfold mapped. rewrite upto_add, fmap_app by done. f_equal.
  rewrite <- list_fmap_compose. apply list_fmap_ext. intros i x _. unfold compose. f_equal. lia.
Qed.
Lemma mapped_lookup d a n i : 0 ≤ i < n → mapped d a n !! Z.to_nat i = Some (mapped_byte d (a + i)).
Proof.
  intros Hi. unfold mapped, upto. rewrite !list_lookup_fmap, lookup_seq_lt by lia. cbn. do 2 f_equal. lia.
Qed.

Section tiled.
Context (size : Z) (d : CDevice) (T : tiled size d).

(** The bytes of one slot from an address on. *)
Lemma mapped_slot k sl pg a n :
  Slots d !! k = Some sl → slot_page d sl = Some pg →
  sl_Address sl ≤ a → a + n ≤ sl_Address sl + sl_Size sl → a + n ≤ 65536 →
  mapped d a n = mem_bytes d (RAM pg + (a - sl_Address sl)) n.
Proof.
  intros Hk Hpg Ha Hn Hend. destruct T as [Hs _ Hslot _]. destruct (Hslot _ _ Hk) as (HA & HS & _).
  apply list_fmap_ext. intros j i Hi. apply list_elem_of_lookup_2, upto_In in Hi.
  unfold mapped_byte, mem_byte. f_equal. f_equal.
  assert (Hidx : Z.to_nat ((a + i) / size) = k).
  { symmetry. apply (in_slot_index size d T (a + i) k sl); [lia|done|].
    unfold in_slot. apply andb_true_iff. split; [apply Z.leb_le|apply Z.ltb_lt]; lia. }
  unfold offset_of. rewrite (mem_slot_tiled size d T (a + i) sl); [|lia|by rewrite Hidx].
  cbn. rewrite Hpg. cbn. lia.
Qed.

(** The slot list from [k] on, for an address in the slot [k] or behind it: its head. *)
Lemma slots_from k a :
  0 ≤ a < 65536 → (k ≤ Z.to_nat (a / size))%nat →
  ∃ sl pg, Slots d !! k = Some sl ∧ slot_page d sl = Some pg ∧ drop k (Slots d) = sl :: drop (S k) (Slots d)
    ∧ sl_Address sl = Z.of_nat k * size ∧ sl_Size sl = size.
Proof.
  intros Ha Hk. pose proof (tiled_length size d T a Ha) as Hlen.
  destruct (lookup_lt_is_Some_2 (Slots d) k) as [sl Hsl]; [lia|].
  destruct T as [_ _ Hslot _]. destruct (Hslot _ _ Hsl) as (HA & HS & pg & Hpg).
  exists sl, pg. split_and!; try done. by apply drop_S.
Qed.

Lemma save_slots_mapped n : ∀ k start length acc,
  (List.length (Slots d) - k ≤ n)%nat → 0 ≤ start → 0 < length → start + length ≤ 65536 →
  (k ≤ Z.to_nat (start / size))%nat →
  save_slots d (drop k (Slots d)) start length acc = Some (1, acc ++ mapped d start length).
Proof.
  induction n as [|n IH]; intros k start length acc Hn H0 Hl Hend Hk;
    pose proof (tiled_length size d T start ltac:(lia)) as Hlen; [lia|].
  destruct (slots_from k start) as (sl & pg & Hsl & Hpg & Hdrop & HA & HS); [lia|done|].
  rewrite Hdrop. cbn [save_slots]. pose proof (tiled_size _ _ T) as Hsize.
  pose proof (Z.div_mod start size ltac:(lia)) as Hdiv. pose proof (Z.mod_pos_bound start size ltac:(lia)) as Hm.
  assert (Hq : 0 ≤ start / size) by (apply Z.div_pos; lia).
  unfold in_slot. rewrite HA, HS. destruct (decide (k = Z.to_nat (start / size))) as [Heq|Hne].
  - rewrite (proj2 (Z.leb_le _ _)), (proj2 (Z.ltb_lt _ _)) by nia. cbn [andb]. rewrite Hpg.
    set (rest := size - (start - Z.of_nat k * size)). assert (Hrest : 0 < rest) by (unfold rest; nia).
    set (save := if length <? rest then length else rest).
    assert (Hsave : save = Z.min length rest) by (unfold save; destruct (Z.ltb_spec length rest); lia).
    rewrite <- HA, <- (mapped_slot k sl pg start save) by (done || lia || (rewrite HA, HS; unfold rest in *; nia)).
    destruct (Z.leb_spec (length - save) 0); [by replace save with length by lia|].
    rewrite IH; [|lia..|]; cycle -1.
    { assert ((start + save) / size = Z.of_nat k + 1) as ->; [|lia].
      symmetry. apply (Z.div_unique_pos _ _ _ 0); unfold rest in *; nia. }
    rewrite <- app_assoc, <- mapped_app by lia. do 4 f_equal. lia.
  - rewrite (proj2 (Z.ltb_ge start _)) by nia. rewrite andb_false_r. apply IH; lia.
Qed.

(** The region [SaveRAM] takes: a negative start counts from the end of the memory, and
    so does a length that is not positive. *)
Definition region_start (start : Z) : Z := start mod 65536.
Definition region_length (start length : Z) : Z :=
  let a := region_start start in
  if 0 <? length then Z.min length (65536 - a) else Z.max 0 (65536 - a + length).

Lemma SaveRAM_mapped start length :
  -65536 ≤ start ≤ 65535 →
  SaveRAM (Some d) start length
  = if region_length start length =? 0 then Some (0, [])
    else Some (1, mapped d (region_start start) (region_length start length)).
Proof.
  intros Hs. unfold SaveRAM. rewrite (proj2 (Z.ltb_ge start _)), (proj2 (Z.ltb_ge _ start)) by lia. cbn [orb].
  assert (Ha : (if start <? 0 then start + 65536 else start) = region_start start).
  { unfold region_start. destruct (Z.ltb_spec start 0).
    - rewrite <- (Z.mod_add start 1 65536), Z.mod_small by lia. lia.
    - by rewrite Z.mod_small by lia. }
  rewrite Ha. pose proof (Z.mod_pos_bound start 65536 ltac:(lia)) as Hr. fold (region_start start) in Hr.
  unfold region_length. set (a := region_start start) in *. cbv zeta.
  pose proof (fun len Hl He => save_slots_mapped (List.length (Slots d)) 0 a len [] ltac:(lia) ltac:(lia) Hl He ltac:(lia)) as Hsave.
  rewrite drop_0 in Hsave. cbn [app] in Hsave.
  destruct (Z.leb_spec length 0) as [Hl|Hl]; destruct (Z.ltb_spec 0 length); try lia.
  - destruct (Z.leb_spec (length + (65536 - a)) 0) as [Hz|Hz].
    + by rewrite Z.max_l by lia.
    + rewrite Z.max_r, (proj2 (Z.eqb_neq _ _)), (proj2 (Z.ltb_ge _ _)) by lia.
      rewrite Hsave by lia. do 3 f_equal. lia.
  - rewrite (proj2 (Z.leb_gt _ _)), (proj2 (Z.eqb_neq _ _)) by lia.
    destruct (Z.ltb_spec 65536 (a + length)); rewrite Hsave by lia; do 3 f_equal; lia.
Qed.
End tiled.

(** ** SAVEBIN *)

Section files.
Context `{FileSystem}.

Lemma MemGetByte_mapped size d a s :
  cur_device s = Some d → tiled size d → pass (src s) = LASTPASS → 0 ≤ a < 65536 →
  MemGetByte a s = Ret (mapped_byte d a) s.
Proof.
  intros Hd T Hp Ha. destruct (tiled_offset size d a T Ha) as (sl & pg & _ & _ & _ & Ho).
  rewrite (MemGetByte_at a (RAM pg + (a - sl_Address sl)) (Slots d) (Pages d) (Memory d) s); [| |done|done|].
  - unfold mapped_byte. by rewrite Ho.
  - unfold map_of. by rewrite Hd.
  - intros d' HS HP. by rewrite (offset_of_map d d').
Qed.

(** C31: SAVEBIN saves the region the arguments name (from the end of the memory when
    the start is negative, to the end or to a distance of it when the length is not
    positive, never beyond it): byte by byte what an expression reads from there. *)
Theorem SAVEBIN_saves_memory : ∀ size d fname start length s,
  cur_device s = Some d → tiled size d → pass (src s) = LASTPASS → writable fname = true →
  -65536 ≤ start ≤ 65535 → region_length start length ≠ 0 →
  ∃ s' bytes, SaveBinary fname start length s = Ret true s' ∧ content_of fname s' = Some bytes
    ∧ Z.of_nat (List.length bytes) = region_length start length
    ∧ ∀ i, 0 ≤ i < region_length start length →
        ∃ b, bytes !! Z.to_nat i = Some b ∧ MemGetByte (region_start start + i) s = Ret b s.
Proof.
  intros size d fname start length s Hd T Hp Hw Hs Hn.
  unfold SaveBinary, open_for_write, SaveRAM_file. rewrite Hw. cbv beta iota delta [mbind M_bind gets st mret M_ret].
  rewrite Hd, (SaveRAM_mapped size d T) by done. rewrite (proj2 (Z.eqb_neq _ _) Hn).
  eexists _, _. split; [reflexivity|]. split; [apply content_of_put|]. cbn [app].
  pose proof (Z.mod_pos_bound start 65536 ltac:(lia)) as Hr. fold (region_start start) in Hr.
  assert (Hrl : 0 ≤ region_length start length ∧ region_start start + region_length start length ≤ 65536).
  { unfold region_length. cbv zeta. destruct (Z.ltb_spec 0 length); lia. }
  split; [rewrite length_mapped; lia|]. intros i Hi. exists (mapped_byte d (region_start start + i)).
  split; [by apply mapped_lookup|]. apply (MemGetByte_mapped size); [done..|lia].
Qed.
End files.

Lemma same_result {A} (a b : A) (m : M St A) s : m s = Ret b s → m s = Ret a s → b = a.
Proof. intros -> [= ->]. done. Qed.

(** Two bytes across the border of two slots. *)
Definition with_bytes : St :=
  match (modify (set_CurAddress 0xBFFF) ;; EmitByteNoListing 1 false ;; EmitByteNoListing 2 false) with_zx48 with
  | Ret _ s => s
  | _ => with_zx48
  end.
Lemma with_bytes_device :
  ∃ d, cur_device with_bytes = Some d ∧ tiled 16384 d.
Proof.
  destruct (cur_device with_bytes) as [d|] eqn:Hd; [|vm_compute in Hd; discriminate].
  exists d. split; [done|]. vm_compute in Hd. injection Hd as <-.
  constructor; cbn [Slots Pages].
  - lia.
  - vm_compute. discriminate.
  - intros [|[|[|[|i]]]] sl [= <-]; (split_and!; [reflexivity|reflexivity|by eexists]).
  - intros [|[|[|[|i]]]] pg [= <-]; reflexivity.
Qed.

Lemma with_bytes_data data :
  Z.of_nat (length data) = 2 →
  (∀ i, 0 ≤ i < 2 → ∃ b, data !! Z.to_nat i = Some b ∧ MemGetByte (0xBFFF + i) with_bytes = Ret b with_bytes) →
  data = [1; 2].
Proof.
  intros Hlen H. destruct (H 0 ltac:(lia)) as (b0 & H0 & E0). destruct (H 1 ltac:(lia)) as (b1 & H1 & E1).
  assert (R0 : MemGetByte 49151 with_bytes = Ret 1 with_bytes) by (vm_compute; reflexivity).
  assert (R1 : MemGetByte 49152 with_bytes = Ret 2 with_bytes) by (vm_compute; reflexivity).
  change (0xBFFF + 0) with 49151 in E0. change (0xBFFF + 1) with 49152 in E1.
  apply (same_result 1 b0) in E0; [|exact R0]. apply (same_result 2 b1) in E1; [|exact R1]. subst b0 b1.
  destruct data as [|x [|y [|z l]]]; cbn in Hlen; try lia. cbn in H0, H1. injection H0 as ->. injection H1 as ->. reflexivity.
Qed.

Lemma SAVEBIN_saves_memory_witness :
  ∃ s', @SaveBinary plain_files (str "a.bin") (-16385) 2 with_bytes = Ret true s'
    ∧ @content_of plain_files (str "a.bin") s' = Some [1; 2].
Proof.
  destruct with_bytes_device as (d & Hd & T).
  destruct (@SAVEBIN_saves_memory plain_files 16384 d (str "a.bin") (-16385) 2 with_bytes Hd T)
    as (s' & bytes & E & Hc & Hlen & H); [vm_compute; reflexivity|reflexivity|lia|discriminate|].
  exists s'. split; [exact E|]. rewrite Hc. f_equal. by apply with_bytes_data.
Defined.
