(* ===== verification/HexSpec.v ===== *)
(** * Intel HEX: a reader of the format, and what SAVEHEX writes

    The reader checks every record.  Records, lines and the slots of the machine one after
    the other give what the reader loads; HEXEND. *)

From S2P Require Import MemorySpec.
From S2P Require Import Reports DeviceSpec Numbers Files Repeat DirOutput.

(** ** A reader *)

(** The bytes of a line of hexadecimal digits. *)
Fixpoint hex_pairs (l : list ascii) : option (list Z) :=
  match l with
  | [] => Some []
  | [_] => None
  | a :: b :: l =>
      if bool_decide (Forall (is_digit_of 16) [a; b])
      then r ← hex_pairs l; Some (number 16 [a; b] :: r) else None
  end.

Definition sum_Z (l : list Z) : Z := foldr Z.add 0 l.

(** ":", the number of data bytes, address, type, data and a byte that makes the sum of
    all of them 0: the type, the address and the data. *)
Definition read_record (line : list ascii) : option (Z * Z * list Z) :=
  match line with
  | c :: l =>
      if negb (Ascii.eqb c ":") then None
      else match hex_pairs l with
           | Some (n :: ah :: al :: t :: rest) =>
               if (Z.of_nat (length rest) =? n + 1) && ((n + ah + al + t + sum_Z rest) mod 256 =? 0)
               then Some (t, ah * 256 + al, take (Z.to_nat n) rest) else None
           | _ => None
           end
  | [] => None
  end.

(** Lines ended by line feeds. *)
Fixpoint split_lines (l : list ascii) (line : list ascii) : option (list (list ascii)) :=
  match l with
  | [] => match line with [] => Some [] | _ => None end
  | c :: l =>
      if Ascii.eqb c LF then r ← split_lines l []; Some (rev line :: r)
      else split_lines l (c :: line)
  end.

(** Type 0 is data from an address on, 3 the start address, 1 the end of the file:
    what is loaded in order, and the start. *)
Definition placed (a : Z) (data : list Z) : list (Z * Z) := imap (fun i v => (a + Z.of_nat i, v)) data.
Fixpoint read_records (lines : list (list ascii)) : option (list (Z * Z) * option Z) :=
  match lines with
  | [] => None
  | line :: lines =>
      '(t, a, data) ← read_record line;
      if t =? 1 then match lines with [] => Some ([], None) | _ => None end
      else
        '(memory, start) ← read_records lines;
        if t =? 0 then Some (placed a data ++ memory, start)
        else if t =? 3 then Some (memory, Some (fold_left (fun v b => v * 256 + b) data 0))
        else None
  end.
Definition read_hex (file : list Z) : option (list (Z * Z) * option Z) :=
  lines ← split_lines (char_of <$> file) []; read_records lines.


(** ** The fields of a record *)

Lemma fmt_0X_length w n : (1 ≤ w)%nat → 0 ≤ n < 16 ^ Z.of_nat w → n < 2 ^ 32 → length (fmt_0X w n) = w.
Proof.
  intros Hw Hn H32. unfold fmt_0X, fmt_X. assert (u32 n = n) as -> by (unfold u32; rewrite Z.mod_small; lia).
  rewrite length_app, repeat_length. unfold digits.
  pose proof (digits_fuel_length 16 (S (Z.to_nat (Z.log2 n))) w n [] ltac:(lia) Hw Hn) as H. cbn [length] in H. lia.
Qed.

Definition in_field (v : Z) (l : list ascii) : Prop := Forall (is_digit_of 16) l ∧ number 16 l = v.

Lemma hex_field w v : (1 ≤ w)%nat → 0 ≤ v < 16 ^ Z.of_nat w → v < 2 ^ 32 → length (fmt_0X w v) = w ∧ in_field v (fmt_0X w v).
Proof.
  intros. split; [by apply fmt_0X_length|]. split; [apply fmt_0X_digits|].
  rewrite number_fmt_0X. unfold u32. rewrite Z.mod_small; lia.
Qed.

Lemma byte_text v : is_byte v → ∃ a b, fmt_0X 2 v = [a; b] ∧ in_field v [a; b].
Proof.
  unfold is_byte. intros Hv. destruct (hex_field 2 v) as [Hl Hf]; [lia|cbn; lia|lia|].
  destruct (fmt_0X 2 v) as [|a [|b [|c l]]]; try discriminate Hl. by exists a, b.
Qed.

Lemma digit_range c : is_digit_of 16 c → 0 ≤ getval c < 16.
Proof. by intros []. Qed.
Lemma word_text v : 0 ≤ v < 65536 →
  ∃ a b c e, fmt_0X 4 v = [a; b; c; e] ∧ in_field (v / 256) [a; b] ∧ in_field (v mod 256) [c; e].
Proof.
  intros Hv. destruct (hex_field 4 v) as [Hl [Hd Hn]]; [lia|cbn; lia|lia|].
  destruct (fmt_0X 4 v) as [|a [|b [|c [|e [|x l]]]]]; try discriminate Hl. exists a, b, c, e. split; [done|].
  rewrite !Forall_cons in Hd. destruct Hd as (Ha & Hb & Hc & He & _).
  assert (Hm : 0 ≤ number 16 [c; e] < 256).
  { apply digit_range in Hc, He. unfold number, number_from; cbn [fold_left]. lia. }
  assert (Hs : v = 256 * number 16 [a; b] + number 16 [c; e]).
  { rewrite <- Hn. unfold number, number_from; cbn [fold_left]. ring. }
  split; (split; [by rewrite !Forall_cons|]).
  - by apply (Z.div_unique_pos _ _ _ _ Hm).
  - by apply (Z.mod_unique_pos _ _ (number 16 [a; b]) _ Hm).
Qed.

Lemma hex_pairs_byte v a b l : in_field v [a; b] → hex_pairs (a :: b :: l) = (r ← hex_pairs l; Some (v :: r)).
Proof. intros [Hd Hn]. cbn [hex_pairs]. by rewrite bool_decide_true, Hn. Qed.

Definition bytes_text (data : list Z) : list ascii := concat (fmt_0X 2 <$> data).
Lemma hex_pairs_bytes data l :
  Forall is_byte data → hex_pairs (bytes_text data ++ l) = (r ← hex_pairs l; Some (data ++ r)).
Proof.
  unfold bytes_text. induction 1 as [|v data Hv _ IH]; cbn [fmap list_fmap concat app].
  - by destruct (hex_pairs l).
  - destruct (byte_text v Hv) as (a & b & -> & Hf). rewrite <- app_assoc. cbn [app].
    rewrite (hex_pairs_byte v) by done. fold (bytes_text data). unfold bytes_text at 1. rewrite IH. by destruct (hex_pairs l).
Qed.

(** ** A record *)

Definition record_crc (t a : Z) (data : list Z) : Z :=
  u8 (- Z.of_nat (length data) - a / 256 - a mod 256 - t - sum_Z data).
Definition record_line (t a : Z) (data : list Z) : list ascii :=
  ":"%char :: fmt_0X 2 (Z.of_nat (length data)) ++ fmt_0X 4 a ++ fmt_0X 2 t
  ++ bytes_text data ++ fmt_0X 2 (record_crc t a data).

Lemma PrintHex_byte v s : is_byte v → PrintHex v 2 s = Ret (fmt_0X 2 v) s.
Proof.
  intros Hv. change (PrintHex v 2 s) with (Ret (fmt_0X 2 (Z.land v 255)) s).
  assert (Z.land v 255 = v) as -> by (rewrite land255_mod, Z.mod_small; [done|exact Hv]). done.
Qed.
Lemma PrintHex_word v s : 0 ≤ v < 65536 → PrintHex v 4 s = Ret (fmt_0X 4 v) s.
Proof.
  intros Hv. change (PrintHex v 4 s) with (Ret (fmt_0X 4 (Z.land v 65535)) s).
  assert (Z.land v 65535 = v) as -> by (rewrite land65535_mod, Z.mod_small; [done|exact Hv]). done.
Qed.

Lemma hex_data_text data : Forall is_byte data → ∀ crc s,
  is_byte crc → hex_data data crc s = Ret (bytes_text data, u8 (crc - sum_Z data)) s.
Proof.
  induction 1 as [|v data Hv _ IH]; intros crc s Hc; cbn [hex_data].
  - unfold mret, M_ret, u8. cbn [sum_Z foldr]. rewrite Z.sub_0_r, Z.mod_small by exact Hc. done.
  - unfold mbind at 1, M_bind. rewrite PrintHex_byte by done. unfold mbind, M_bind.
    rewrite IH by (unfold is_byte, u8; by apply Z.mod_pos_bound). unfold mret, M_ret.
    change (bytes_text (v :: data)) with (fmt_0X 2 v ++ bytes_text data). do 2 f_equal.
    unfold u8. rewrite Zminus_mod_idemp_l. f_equal. change (sum_Z (v :: data)) with (v + sum_Z data). lia.
Qed.

Lemma u8_byte z : is_byte (u8 z).
Proof. unfold u8, is_byte. by apply Z.mod_pos_bound. Qed.

Lemma WriteHexRecord_line t a data f s :
  t = 0 ∨ t = 1 ∨ t = 3 → 0 ≤ a < 65536 → (length data ≤ 16)%nat → Forall is_byte data → FP_HEX (out s) = Some f →
  WriteHexRecord t a data s = Ret tt (set_FP_HEX (Some (f ++ [record_line t a data ++ [LF]])) s).
Proof.
  intros Ht Ha Hn Hd Hf. unfold WriteHexRecord.
  assert (Ht' : is_byte t) by (unfold is_byte; lia).
  assert ((t =? 0) || (t =? 1) || (t =? 3) = true) as -> by (destruct Ht as [-> | [-> | ->]]; done).
  rewrite (proj2 (Z.leb_le (Z.of_nat (length data)) HEX_RECORD_MAX)) by (unfold HEX_RECORD_MAX; lia).
  unfold massert. do 2 (unfold mbind at 1, M_bind, mret at 1, M_ret).
  unfold mbind at 1, M_bind. rewrite PrintHex_byte by (unfold is_byte; lia).
  unfold mbind at 1, M_bind. rewrite PrintHex_word by done.
  unfold mbind at 1, M_bind. rewrite PrintHex_byte by done.
  unfold mbind at 1, M_bind. rewrite hex_data_text by (done || apply u8_byte).
  unfold mbind at 1, M_bind. rewrite PrintHex_byte by apply u8_byte.
  cbv beta iota delta [mbind M_bind gets st]. rewrite Hf. unfold modify. do 3 f_equal.
  unfold record_line. cbn [app]. rewrite <- !app_assoc. cbn [app]. do 5 f_equal.
  f_equal. unfold record_crc, u8. rewrite Zminus_mod_idemp_l. f_equal.
  assert (Z.land (Z.shiftr a 8) 255 = a / 256) as ->.
  { rewrite land255_mod, Z.shiftr_div_pow2, Z.mod_small; [done| |lia]. change (2 ^ 8) with 256.
    split; [apply Z.div_pos; lia|apply Z.div_lt_upper_bound; lia]. }
  by rewrite land255_mod.
Qed.

Lemma read_record_line t a data :
  is_byte t → 0 ≤ a < 65536 → (length data ≤ 16)%nat → Forall is_byte data →
  read_record (record_line t a data) = Some (t, a, data).
Proof.
  intros Ht Ha Hn Hd. unfold record_line, read_record. cbn [Ascii.eqb negb Bool.eqb].
  destruct (byte_text (Z.of_nat (length data))) as (n1 & n2 & -> & Fn); [unfold is_byte; lia|].
  destruct (word_text a Ha) as (a1 & a2 & a3 & a4 & -> & Fh & Fl).
  destruct (byte_text t Ht) as (t1 & t2 & -> & Ft).
  destruct (byte_text (record_crc t a data) (u8_byte _)) as (c1 & c2 & -> & Fc).
  cbn [app]. rewrite (hex_pairs_byte _ _ _ _ Fn), (hex_pairs_byte _ _ _ _ Fh), (hex_pairs_byte _ _ _ _ Fl), (hex_pairs_byte _ _ _ _ Ft).
  rewrite hex_pairs_bytes by done. rewrite (hex_pairs_byte _ _ _ _ Fc). cbn [hex_pairs mbind option_bind].
  rewrite length_app. cbn [length].
  assert (Hs : sum_Z (data ++ [record_crc t a data]) = sum_Z data + record_crc t a data).
  { unfold sum_Z. rewrite foldr_app. cbn [foldr]. rewrite Z.add_0_r. generalize (record_crc t a data) as x. intros x.
    clear. induction data as [|v l IH]; cbn [foldr]; [lia|]. rewrite IH. lia. }
  rewrite (proj2 (Z.eqb_eq _ _)) by lia. rewrite Hs, (proj2 (Z.eqb_eq _ _)).
  - cbn [andb]. rewrite Nat2Z.id, take_app_length. do 3 f_equal. pose proof (Z.div_mod a 256). lia.
  - unfold record_crc, u8. change (2 ^ 8) with 256. rewrite Z.add_assoc, Zplus_mod_idemp_r.
    replace (_ + _) with 0; [done|]. lia.
Qed.

(** ** Lines *)

Definition ended (lines : list (list ascii)) : list (list ascii) := (fun l => l ++ [LF]) <$> lines.
Definition no_LF (line : list ascii) : Prop := Forall (fun c => Ascii.eqb c LF = false) line.

Lemma split_lines_word w : no_LF w → ∀ line l, split_lines (w ++ LF :: l) line = (r ← split_lines l []; Some ((rev line ++ w) :: r)).
Proof.
  induction 1 as [|c w Hc _ IH]; intros line l.
  - cbn [app split_lines]. rewrite Ascii.eqb_refl, app_nil_r. done.
  - cbn [app split_lines]. rewrite Hc, IH. cbn [rev]. by rewrite <- app_assoc.
Qed.

Lemma split_lines_ended lines : Forall no_LF lines → split_lines (concat (ended lines)) [] = Some lines.
Proof.
  induction 1 as [|w lines Hw _ IH]; [done|]. unfold ended in *. cbn [fmap list_fmap concat].
  rewrite <- app_assoc. cbn [app]. rewrite split_lines_word, IH by done. done.
Qed.

Lemma digit_no_LF l : Forall (is_digit_of 16) l → no_LF l.
Proof.
  intros H. eapply Forall_impl; [exact H|]. intros c [Hc _]. apply Ascii.eqb_neq. intros ->. revert Hc. vm_compute. discriminate.
Qed.
Lemma bytes_text_digits data : Forall (is_digit_of 16) (bytes_text data).
Proof.
  unfold bytes_text. induction data as [|v data IH]; cbn [fmap list_fmap concat]; [constructor|].
  apply Forall_app. split; [apply fmt_0X_digits|done].
Qed.
Lemma record_no_LF t a data : no_LF (record_line t a data).
Proof.
  apply Forall_cons. split; [done|]. apply digit_no_LF.
  rewrite !Forall_app. split_and!; apply fmt_0X_digits || apply bytes_text_digits.
Qed.

(** Lines that load the bytes [data] from the address [a] on, whatever follows them. *)
Definition loads (lines : list (list ascii)) (a : Z) (data : list Z) : Prop :=
  Forall no_LF lines ∧
  ∀ rest m start, read_records rest = Some (m, start) →
    read_records (lines ++ rest) = Some (placed a data ++ m, start).

Lemma placed_app a l k : placed a (l ++ k) = placed a l ++ placed (a + Z.of_nat (length l)) k.
Proof.
  unfold placed. rewrite imap_app. f_equal. apply imap_ext. intros i x _. cbn. f_equal. lia.
Qed.
Lemma loads_nil a : loads [] a [].
Proof. split; [constructor|done]. Qed.
Lemma loads_app lines lines' a l k :
  loads lines a l → loads lines' (a + Z.of_nat (length l)) k → loads (lines ++ lines') a (l ++ k).
Proof.
  intros [N R] [N' R']. split; [by apply Forall_app|]. intros rest m start Hr.
  rewrite <- app_assoc, (R _ _ _ (R' _ _ _ Hr)), placed_app, <- app_assoc. done.
Qed.
Lemma loads_record a data :
  0 ≤ a < 65536 → (length data ≤ 16)%nat → Forall is_byte data → loads [record_line 0 a data] a data.
Proof.
  intros Ha Hn Hd. split; [apply Forall_singleton, record_no_LF|]. intros rest m start Hr.
  cbn [app read_records]. rewrite read_record_line by (done || unfold is_byte; lia). cbn [mbind option_bind].
  change (0 =? 1) with false. change (0 =? 0) with true. cbv iota. by rewrite Hr.
Qed.

(** The data of an area in records of 16 bytes. *)
Lemma hex_records_loads fuel : ∀ data a f s,
  (length data ≤ fuel)%nat → 0 ≤ a → a + Z.of_nat (length data) ≤ 65536 → Forall is_byte data →
  FP_HEX (out s) = Some f →
  ∃ lines, loads lines a data ∧ hex_records fuel data a s = Ret tt (set_FP_HEX (Some (f ++ ended lines)) s).
Proof.
  induction fuel as [|fuel IH]; intros [|v data] a f s Hn Ha Hend Hd Hf; cbn [length] in *; try lia.
  1,2: exists []; split; [apply loads_nil|]; cbn [hex_records]; rewrite app_nil_r, <- Hf; by destruct s as [? ? ? ? ? ? ? ? [] ? ?].
  cbn [hex_records]. set (all := v :: data) in *.
  assert (Hpart : (length (take 16 all) ≤ 16)%nat ∧ (0 < length (take 16 all))%nat
                  ∧ (length (take 16 all) + length (drop 16 all))%nat = length all).
  { rewrite length_take, length_drop. unfold all. cbn [length]. lia. }
  assert (Hall : length all = S (length data)) by done.
  rewrite <- (take_drop 16 all) in Hd. apply Forall_app in Hd as [Ht Hr].
  unfold mbind, M_bind. rewrite (WriteHexRecord_line 0 a (take 16 all) f) by (done || auto || lia).
  destruct (IH (drop 16 all) (a + Z.of_nat (length (take 16 all))) (f ++ [record_line 0 a (take 16 all) ++ [LF]])
              (set_FP_HEX (Some (f ++ [record_line 0 a (take 16 all) ++ [LF]])) s)) as (lines & L & ->); [lia..|done|done|].
  exists (record_line 0 a (take 16 all) :: lines). split.
  - rewrite <- (take_drop 16 all) at 2. change (?x :: lines) with ([x] ++ lines).
    apply loads_app; [apply loads_record|done]; (done || lia).
  - cbn [ended fmap list_fmap]. rewrite <- app_assoc. done.
Qed.

(** ** The mapped area *)

Section tiled.
Context `{FileSystem} (size : Z) (d : CDevice) (T : tiled size d).

(** From the slot [k] on, for a start in it or behind it. *)
Lemma hex_slots_loads start_adr n : ∀ k start length f s,
  (List.length (Slots d) - k ≤ n)%nat → 0 ≤ start → 0 < length → start + length ≤ 65536 →
  (k ≤ Z.to_nat (start / size))%nat → Forall is_byte (mapped d start length) →
  FP_HEX (out s) = Some f → hexBytes (out s) = [] →
  ∃ lines, loads lines start (mapped d start length) ∧
    hex_slots d (drop k (Slots d)) start length start_adr s
    = CloseHex start_adr (set_FP_HEX (Some (f ++ ended lines)) s).
Proof.
  induction n as [|n IH]; intros k start length f s Hn H0 Hl Hend Hk Hb Hf He;
    pose proof (tiled_length size d T start ltac:(lia)) as Hlen; [lia|].
  destruct (slots_from size d T k start) as (sl & pg & Hsl & Hpg & Hdrop & HA & HS); [lia|done|].
  rewrite Hdrop. cbn [hex_slots]. pose proof (tiled_size _ _ T) as Hsize.
  pose proof (Z.div_mod start size ltac:(lia)) as Hdiv. pose proof (Z.mod_pos_bound start size ltac:(lia)) as Hm.
  assert (Hq : 0 ≤ start / size) by (apply Z.div_pos; lia).
  rewrite HA, HS, (proj2 (Z.ltb_ge start _)) by nia.
  destruct (decide (k = Z.to_nat (start / size))) as [Heq|Hne].
  2: rewrite (proj2 (Z.ltb_ge start _)) by nia; apply IH; done || lia.
  rewrite (proj2 (Z.ltb_lt start _)) by nia. rewrite Hpg.
  set (save := Z.min length (size - (start - Z.of_nat k * size))).
  assert (Hsave : 0 < save ≤ length) by (unfold save; nia).
  rewrite <- HA, <- (mapped_slot size d T k sl pg start save) by (done || lia || (rewrite HA, HS; unfold save in *; nia)).
  replace length with (save + (length - save)) in Hb |- * by lia.
  rewrite mapped_app in Hb |- * by lia. apply Forall_app in Hb as [Hb Hb'].
  destruct (hex_records_loads (List.length (mapped d start save)) (mapped d start save) start f s)
    as (lines & L & E); [lia|done|rewrite length_mapped; lia|done|done|].
  unfold mbind, M_bind at 1. rewrite E. replace (save + (length - save) - save) with (length - save) by lia.
  destruct (Z.leb_spec (length - save) 0) as [Hz|Hz].
  - exists lines. replace (length - save) with 0 by lia. rewrite app_nil_r. split; [done|].
    unfold gets, st, M_bind, massert. unfold hexCnt. cbn [out set_FP_HEX on_out hexBytes].
    rewrite He. done.
  - destruct (IH (S k) (start + save) (length - save) (f ++ ended lines) (set_FP_HEX (Some (f ++ ended lines)) s))
      as (lines' & L' & ->); [lia..| |done|done|done|].
    { assert ((start + save) / size = Z.of_nat k + 1) as ->; [|lia].
      symmetry. apply (Z.div_unique_pos _ _ _ 0); unfold save in *; nia. }
    exists (lines ++ lines'). split.
    + apply loads_app; [done|]. by rewrite length_mapped, Z2Nat.id by lia.
    + unfold ended. rewrite fmap_app, <- !app_assoc. done.
Qed.
End tiled.

(** ** The whole file *)

Lemma read_records_end : read_records [record_line 1 0 []] = Some ([], None).
Proof. by vm_compute. Qed.

Definition start_bytes (start : Z) : list Z :=
  [u8 (Z.shiftr start 24); u8 (Z.shiftr start 16); u8 (Z.shiftr start 8); u8 start].
Lemma start_bytes_value start : 0 ≤ start < 2 ^ 32 → fold_left (fun v b => v * 256 + b) (start_bytes start) 0 = start.
Proof.
  intros Hs. unfold start_bytes, u8. cbn [fold_left]. rewrite !Z.shiftr_div_pow2 by lia.
  change (2 ^ 8) with 256. change (2 ^ 16) with (256 * 256). change (2 ^ 24) with (256 * 256 * 256).
  rewrite <- !Z.div_div by lia. pose proof (Z.div_mod start 256). pose proof (Z.div_mod (start / 256) 256).
  pose proof (Z.div_mod (start / 256 / 256) 256).
  rewrite (Z.mod_small (start / 256 / 256 / 256)); [lia|].
  split; [repeat apply Z.div_pos; lia|]. repeat apply Z.div_lt_upper_bound; lia.
Qed.

(** The lines of the records that end the file. *)
Definition closing (start : Z) : list (list ascii) :=
  (if 0 <=? start then [record_line 3 0 (start_bytes start)] else []) ++ [record_line 1 0 []].
Lemma read_records_closing start :
  start < 2 ^ 32 → read_records (closing start) = Some ([], if 0 <=? start then Some start else None).
Proof.
  intros Hs. unfold closing. destruct (Z.leb_spec 0 start) as [H0|H0]; [|apply read_records_end].
  cbn [app]. change (read_records (?x :: ?l)) with
    ('(t, a, data) ← read_record x;
      if t =? 1 then match l with [] => Some ([], None) | _ => None end
      else '(memory, st) ← read_records l;
        if t =? 0 then Some (placed a data ++ memory, st)
        else if t =? 3 then Some (memory, Some (fold_left (fun v b => v * 256 + b) data 0)) else None).
  rewrite read_record_line; [|unfold is_byte; lia|lia|cbn; lia|].
  - cbn [mbind option_bind]. change (3 =? 1) with false. change (3 =? 0) with false. change (3 =? 3) with true. cbv iota.
    rewrite read_records_end. cbn [mbind option_bind]. by rewrite start_bytes_value.
  - unfold start_bytes. repeat (apply Forall_cons; split; [apply u8_byte|]). constructor.
Qed.

Section close.
Context `{FileSystem}.

Lemma CloseHex_lines start f s :
  FP_HEX (out s) = Some f → hexBytes (out s) = [] →
  ∃ s', CloseHex start s = Ret true s' ∧
    content_of (hexName (out s)) s' = Some (code <$> concat (f ++ ended (closing start))).
Proof.
  intros Hf He. unfold CloseHex. unfold mbind at 1, M_bind at 1, gets at 1, st at 1.
  rewrite bool_decide_false by (by rewrite Hf). unfold mbind at 1, M_bind at 1.
  assert (FlushHexBuffer s = Ret tt s) as ->.
  { unfold FlushHexBuffer, mbind, M_bind, gets, st, massert, hexCnt. rewrite He, Hf. done. }
  fold (start_bytes start).
  assert (Hb : Forall is_byte (start_bytes start)).
  { unfold start_bytes. repeat (apply Forall_cons; split; [apply u8_byte|]). constructor. }
  unfold mwhen, closing. destruct (0 <=? start); unfold mbind, M_bind.
  - rewrite (WriteHexRecord_line 3 0 _ f) by (done || auto || lia || (cbn; lia)).
    erewrite (WriteHexRecord_line 1 0 []) by solve [reflexivity | auto | lia | cbn; lia].
    eexists. split; [reflexivity|]. unfold ended. cbn [fmap list_fmap app]. rewrite <- app_assoc. apply content_of_put.
  - unfold mret, M_ret.
    erewrite (WriteHexRecord_line 1 0 []) by solve [exact Hf | auto | lia | cbn; lia].
    eexists. split; [reflexivity|]. unfold ended. cbn [fmap list_fmap app]. apply content_of_put.
Qed.
End close.

Lemma closing_no_LF start : Forall no_LF (closing start).
Proof. unfold closing. destruct (0 <=? start); repeat (apply Forall_cons; split; [apply record_no_LF|]); constructor. Qed.

Lemma read_hex_lines lines start a data :
  loads lines a data → start < 2 ^ 32 →
  read_hex (code <$> concat (ended lines ++ ended (closing start)))
  = Some (placed a data, if 0 <=? start then Some start else None).
Proof.
  intros [N R] Hs. unfold read_hex. rewrite <- list_fmap_compose.
  rewrite (list_fmap_ext _ id), list_fmap_id by (intros i c _; apply char_of_code).
  unfold ended. rewrite <- fmap_app. fold (ended (lines ++ closing start)).
  rewrite split_lines_ended by (apply Forall_app; split; [done|apply closing_no_LF]). cbn [mbind option_bind].
  rewrite (R _ [] (if 0 <=? start then Some start else None)) by by apply read_records_closing.
  by rewrite app_nil_r.
Qed.

Section SAVEHEX.
Context `{FileSystem}.

(** C32: the Intel HEX file that SAVEHEX writes is well formed (its check sums, its
    lengths, its end record), and whoever reads it gets the bytes of the region at their
    addresses - those that an expression reads from there - and the start address, when
    one was given. *)
Theorem SAVEHEX_reads_back : ∀ size d fname start length start_adr s,
  cur_device s = Some d → tiled size d → pass (src s) = LASTPASS →
  has_filename fname = true → writable fname = true → FP_HEX (out s) = None →
  (fname = str "-" → FP_RAW (out s) = None) →
  0 ≤ start → 0 < length → start + length ≤ 65536 → start_adr < 2 ^ 32 →
  Forall is_byte (mapped d start length) →
  ∃ s' file data, SaveHex fname start length start_adr s = Ret true s' ∧ content_of fname s' = Some file
    ∧ read_hex file = Some (placed start data, if 0 <=? start_adr then Some start_adr else None)
    ∧ Z.of_nat (List.length data) = length
    ∧ ∀ i, 0 ≤ i < length → ∃ b, data !! Z.to_nat i = Some b ∧ MemGetByte (start + i) s = Ret b s.
Proof.
  intros size d fname start length start_adr s Hd T Hp Hname Hw Hf Hraw H0 Hl Hend Hst Hb.
  set (s1 := set_hexName fname (set_FP_HEX (Some []) (set_hexBytes [] s))).
  assert (Ho : OpenHex fname s = Ret true s1).
  { unfold OpenHex, mbind, M_bind, gets, st. rewrite Hname, Hf, Hw. cbn [negb].
    rewrite (bool_decide_false (is_Some None)) by by intros [].
    destruct (decide (fname = str "-")) as [E|E]; [|by rewrite (bool_decide_false _ E)].
    by rewrite (Hraw E), (bool_decide_false (is_Some None)), andb_false_r by by intros []. }
  destruct (hex_slots_loads size d T start_adr (List.length (Slots d)) 0 start length [] s1)
    as (lines & L & E); [lia..|done|reflexivity|reflexivity|].
  destruct (CloseHex_lines start_adr (ended lines) (set_FP_HEX (Some ([] ++ ended lines)) s1)) as (s' & Hc & Hfile);
    [reflexivity|reflexivity|].
  exists s', (code <$> concat (ended lines ++ ended (closing start_adr))), (mapped d start length). split_and!.
  - unfold SaveHex. unfold mbind at 1, M_bind at 1, gets, st. rewrite Hd. unfold mbind, M_bind. rewrite Ho. cbn [negb].
    rewrite !(proj2 (Z.leb_le _ _)) by lia. cbn [andb massert mret M_ret]. rewrite drop_0 in E. by rewrite E.
  - exact Hfile.
  - by apply read_hex_lines.
  - rewrite length_mapped. lia.
  - intros i Hi. exists (mapped_byte d (start + i)). split; [by apply mapped_lookup|].
    apply (MemGetByte_mapped size); [done..|lia].
Qed.
End SAVEHEX.

Lemma SAVEHEX_reads_back_witness :
  ∃ s' file, @SaveHex plain_files (str "a.hex") 0xBFFF 2 0x8000 with_bytes = Ret true s'
    ∧ @content_of plain_files (str "a.hex") s' = Some file
    ∧ read_hex file = Some ([(0xBFFF, 1); (0xC000, 2)], Some 0x8000).
Proof.
  destruct with_bytes_device as (d & Hd & T).
  assert (Hb : match cur_device with_bytes with Some d => mapped d 0xBFFF 2 | None => [] end = [1; 2])
    by (vm_compute; reflexivity).
  rewrite Hd in Hb.
  destruct (@SAVEHEX_reads_back plain_files 16384 d (str "a.hex") 0xBFFF 2 0x8000 with_bytes Hd T)
    as (s' & file & data & E & Hc & R & Hlen & H);
    [vm_compute; reflexivity|reflexivity|reflexivity|vm_compute; reflexivity|discriminate|lia..| |].
  { rewrite Hb. repeat (apply Forall_cons; split; [unfold is_byte; lia|]). constructor. }
  exists s', file. split; [exact E|]. split; [exact Hc|]. rewrite R, (with_bytes_data data Hlen H). reflexivity.
Defined.

(** ** HEXEND *)

Lemma ParseExpression_nothing p s :
  aft p = [] → rel_type (rel s) = 0 → ParseExpression p s = Ret (false, 0, p) s.
Proof.
  intros Hp Hr. unfold ParseExpression. destruct p as [b a]. cbn in Hp. subst a.
  assert (ParseExpression_alternative (mk_text b []) s = Ret (false, 0) s) as E.
  { unfold ParseExpression_alternative, mbind at 1, M_bind, gets. by rewrite Hr. }
  assert (ParseExpressionEntry (mk_text b []) s = Ret (false, 0, mk_text b []) s) as E' by reflexivity.
  unfold mbind at 1, M_bind at 1. rewrite E. unfold mbind at 1, M_bind at 1. by rewrite E'.
Qed.

Section HEXEND.
Context `{FileSystem}.

(** C40: HEXEND without a start address writes a start address record of 0: the one that
    END gave is not used, although it is in the variable when the parser is called. *)
Theorem HEXEND_without_start : ∀ lines a data s,
  in_last_pass s = true → aft (lp (par s)) = [] → rel_type (rel s) = 0 →
  FP_HEX (out s) = Some (ended lines) → hexBytes (out s) = [] → loads lines a data →
  ∃ s' file, dirHEXEND s = Ret tt s' ∧ content_of (hexName (out s)) s' = Some file
    ∧ read_hex file = Some (placed a data, Some 0).
Proof.
  intros lines a data s Hp Hl Hr Hf He L. unfold dirHEXEND. unfold mbind at 1, M_bind at 1, gets at 1, st at 1.
  rewrite Hp. cbn [negb].
  assert (ParseExpression_lp s = Ret (false, 0) (set_lp (lp (par s)) s)) as E.
  { unfold ParseExpression_lp, lpm. unfold mbind, M_bind, get_lp, gets. by rewrite ParseExpression_nothing. }
  unfold mbind at 1, M_bind at 1, get_lp at 1, gets at 1. unfold mbind at 1, M_bind at 1. rewrite E.
  cbn [negb]. unfold mbind at 1 2 3, M_bind at 1 2 3, modify, mret, M_ret.
  set (s1 := set_lp _ _).
  destruct (CloseHex_lines 0 (ended lines) s1) as (s' & -> & Hc); [exact Hf|exact He|].
  exists s', (code <$> concat (ended lines ++ ended (closing 0))). split_and!; [reflexivity|exact Hc|].
  by apply read_hex_lines.
Qed.
End HEXEND.

(** An open HEX file with a byte in it, and an address given by END. *)
Definition hex_open : St :=
  set_StartAddress 0x8000 (set_FP_HEX (Some (ended [record_line 0 0x8000 [201]])) (set_hexName (str "a.hex") with_bytes)).

Lemma HEXEND_without_start_witness :
  StartAddress (lin hex_open) = 0x8000 ∧
  ∃ s' file, dirHEXEND hex_open = Ret tt s' ∧ @content_of plain_files (str "a.hex") s' = Some file
    ∧ read_hex file = Some ([(0x8000, 201)], Some 0).
Proof.
  split; [vm_compute; reflexivity|].
  destruct (@HEXEND_without_start plain_files [record_line 0 0x8000 [201]] 0x8000 [201] hex_open) as (s' & file & E & Hc & R);
    [vm_compute; reflexivity..| |].
  - apply loads_record; [lia|cbn; lia|]. apply Forall_cons. split; [unfold is_byte; lia|constructor].
  - exists s', file. split; [exact E|]. split; [exact Hc|]. exact R.
Defined.
