(* ===== verification/TapSpec.v ===== *)
(** * Tape files: a reader of the format, and what SAVETAP writes

    The reader checks the length and the parity of every block. *)

From S2P Require Import MemorySpec.
From S2P Require Import Reports DeviceSpec Files Tape.

(** ** A reader *)

(** Blocks of two bytes of length, a flag, the data and the byte that makes the exclusive
    or of them all 0: the flags and the data. Every round takes two bytes or more. *)
Fixpoint tap_blocks (fuel : nat) (l : list Z) : option (list (Z * list Z)) :=
  match l, fuel with
  | [], _ => Some []
  | lo :: hi :: l, S fuel =>
      let n := Z.to_nat (lo + 256 * hi) in
      let block := take n l in
      if Nat.leb 2 n && Nat.eqb (length block) n && (parity_of block =? 0)
      then r ← tap_blocks fuel (drop n l); Some ((hd 0 block, take (n - 2) (tail block)) :: r) else None
  | _, _ => None
  end.
Definition read_tap (l : list Z) : option (list (Z * list Z)) := tap_blocks (length l) l.

Lemma tap_blocks_fuel fuel : ∀ l m r, tap_blocks fuel l = Some r → (fuel ≤ m)%nat → tap_blocks m l = Some r.
Proof.
  induction fuel as [|fuel IH]; intros [|lo [|hi l]] [|m] r; cbn [tap_blocks]; try done; [lia|].
  case_match; [|done]. intros (r' & Hr & [= <-])%bind_Some Hm. by rewrite (IH _ m _ Hr) by lia.
Qed.

Lemma tap_blocks_app fuel : ∀ l k blocks more fuel',
  tap_blocks fuel l = Some blocks → tap_blocks fuel' k = Some more →
  tap_blocks (fuel + fuel') (l ++ k) = Some (blocks ++ more).
Proof.
  induction fuel as [|fuel IH]; intros [|lo [|hi l]] k blocks more fuel'; try done.
  1,2: by intros [= <-] Hk; apply (tap_blocks_fuel fuel'); [|lia].
  cbn [app Nat.add tap_blocks]. destruct (Nat.leb 2 _) eqn:H2; [|done].
  destruct (Nat.eqb_spec (length (take (Z.to_nat (lo + 256 * hi)) l)) (Z.to_nat (lo + 256 * hi))) as [Hn|]; [|done].
  assert (Hlen : (Z.to_nat (lo + 256 * hi) ≤ length l)%nat) by (rewrite length_take in Hn; lia).
  rewrite take_app_le, drop_app_le by done. rewrite Hn, Nat.eqb_refl.
  cbn [andb]. case_match; [|done]. intros (r & Hr & [= <-])%bind_Some Hk. by rewrite (IH _ k r more fuel') by done.
Qed.

Lemma read_tap_app l k blocks more :
  read_tap l = Some blocks → read_tap k = Some more → read_tap (l ++ k) = Some (blocks ++ more).
Proof. unfold read_tap. intros. rewrite length_app. by apply tap_blocks_app. Qed.

Lemma parity_closed l : parity_of (l ++ [parity_of l]) = 0.
Proof. unfold parity_of. rewrite fold_left_app. cbn [fold_left]. apply Z.lxor_nilpotent. Qed.

Lemma writeword_value v : 0 ≤ v < 65536 → ∃ lo hi, writeword v = [lo; hi] ∧ lo + 256 * hi = v.
Proof.
  intros Hv. unfold writeword, u8. eexists _, _. split; [reflexivity|].
  rewrite Z.shiftr_div_pow2 by lia. change (2 ^ 8) with 256. rewrite (Z.mod_small (v / 256)).
  - pose proof (Z.div_mod v 256). lia.
  - split; [apply Z.div_pos; lia|apply Z.div_lt_upper_bound; lia].
Qed.

(** A block is read back when its length fits its word. *)
Lemma read_tap_block flag data :
  Z.of_nat (length data) + 2 < 65536 → read_tap (tap_block flag data) = Some [(flag, data)].
Proof.
  intros Hn. unfold tap_block, read_tap.
  destruct (writeword_value (Z.of_nat (length data) + 2)) as (lo & hi & -> & E); [lia|].
  set (block := flag :: data ++ [parity_of (flag :: data)]).
  assert (Hb : length block = S (S (length data))).
  { unfold block. cbn [length]. rewrite length_app. cbn [length]. lia. }
  cbn [app length tap_blocks]. rewrite E. replace (Z.to_nat (Z.of_nat (length data) + 2)) with (length block) by lia.
  rewrite firstn_all, drop_all, Nat.eqb_refl. rewrite (proj2 (Nat.leb_le 2 (length block))) by lia.
  assert (parity_of block = 0) as -> by apply (parity_closed (flag :: data)).
  cbn [andb Z.eqb]. replace (length block - 2)%nat with (length data) by lia.
  destruct (length block); [lia|]. cbn [tap_blocks mbind option_bind]. unfold block. cbn [hd tail].
  by rewrite take_app_length.
Qed.

(** ** The mapped area *)

Lemma tap_memory_none d slots : ∀ start, tap_memory d slots start 0 = Some [].
Proof. induction slots as [|sl slots IH]; intros start; [done|]. cbn [tap_memory]. by case_match. Qed.

Section tiled.
Context (size : Z) (d : CDevice) (T : tiled size d).

Lemma tap_memory_mapped n : ∀ k start len,
  (length (Slots d) - k ≤ n)%nat → 0 ≤ start → 0 < len → start + len ≤ 65536 →
  (k ≤ Z.to_nat (start / size))%nat →
  tap_memory d (drop k (Slots d)) start len = Some (mapped d start len).
Proof.
  induction n as [|n IH]; intros k start len Hn H0 Hl Hend Hk;
    pose proof (tiled_length size d T start ltac:(lia)) as Hlen; [lia|].
  destruct (slots_from size d T k start) as (sl & pg & Hsl & Hpg & Hdrop & HA & HS); [lia|done|].
  rewrite Hdrop. cbn [tap_memory]. pose proof (tiled_size _ _ T) as Hsize.
  pose proof (Z.div_mod start size ltac:(lia)) as Hdiv. pose proof (Z.mod_pos_bound start size ltac:(lia)) as Hm.
  assert (Hq : 0 ≤ start / size) by (apply Z.div_pos; lia).
  rewrite HA, HS. destruct (decide (k = Z.to_nat (start / size))) as [Heq|Hne].
  2: rewrite (proj2 (Z.leb_le _ start)) by nia; apply IH; lia.
  rewrite (proj2 (Z.leb_gt _ start)), (proj2 (Z.leb_gt len 0)), (proj2 (Z.ltb_ge start _)) by nia. rewrite Hpg.
  set (save := Z.min len (size - (start - Z.of_nat k * size))).
  assert (Hsave : 0 < save ≤ len) by (unfold save; nia).
  rewrite <- HA, <- (mapped_slot size d T k sl pg start save) by (done || lia || (rewrite HA, HS; unfold save in *; nia)).
  replace (mapped d start len) with (mapped d start save ++ mapped d (start + save) (len - save))
    by (rewrite <- mapped_app by lia; f_equal; lia).
  destruct (decide (len = save)) as [Hall|Hmore].
  - rewrite <- Hall, Z.sub_diag, tap_memory_none. done.
  - rewrite IH; [done|lia..|].
    assert ((start + save) / size = Z.of_nat k + 1) as ->; [|lia].
    symmetry. apply (Z.div_unique_pos _ _ _ 0); unfold save in *; nia.
Qed.
End tiled.

(** ** SAVETAP *)

(** The bytes of a header: its type, the name in ten places, three words. *)
Definition header_bytes (flag : Z) (name : list ascii) (param1 param2 param3 : Z) : list Z :=
  flag :: (code <$> take 10 name) ++ repeat 32 (10 - length name)
    ++ writeword (u16 param1) ++ writeword (u16 param2) ++ writeword (u16 param3).

Lemma header_block flag name param1 param2 param3 :
  read_tap (writeheader flag name param1 param2 param3) = Some [(0, header_bytes flag name param1 param2 param3)].
Proof.
  unfold writeheader, header_bytes. rewrite length_fmap, length_take.
  replace (10 - (10 `min` length name))%nat with (10 - length name)%nat by lia.
  apply read_tap_block. cbn [length]. rewrite !length_app, length_fmap, length_take, repeat_length. cbn [length writeword]. lia.
Qed.

Section SAVETAP.
Context `{FileSystem}.

(** C33: SAVETAP of a CODE file adds two blocks to those of the tape file, which a reader of
    the format finds behind them with correct lengths and parities: the header with the
    name, the length, the load address and the third parameter, and the bytes of the area,
    those that an expression reads from there. *)
Theorem SAVETAP_reads_back : ∀ size d fname name start len load param blocks s,
  cur_device s = Some d → tiled size d → pass (src s) = LASTPASS → writable fname = true →
  read_tap (default [] (content_of fname s)) = Some blocks →
  0 ≤ start → 0 < len → start + len ≤ 65536 → len < 65534 → 0 ≤ load → 0 ≤ param →
  ∃ s' file data, TAP_SaveBlock fname CODE name start len load param s = Ret true s'
    ∧ content_of fname s' = Some file
    ∧ read_tap file = Some (blocks ++ [(0, header_bytes 3 name len load param); (255, data)])
    ∧ Z.of_nat (length data) = len
    ∧ ∀ i, 0 ≤ i < len → ∃ b, data !! Z.to_nat i = Some b ∧ MemGetByte (start + i) s = Ret b s.
Proof.
  intros size d fname name start len load param blocks s Hd T Hp Hw Hr H0 Hl Hend Hmax Hload Hparam.
  unfold TAP_SaveBlock. rewrite Hw. cbn [negb mwhen]. unfold mbind at 1, M_bind at 1, mret at 1, M_ret at 1.
  rewrite (proj2 (Z.ltb_ge _ (len + start))), (proj2 (Z.leb_gt len 0)) by lia.
  unfold tap_params. rewrite (proj2 (Z.ltb_ge load 0)), (proj2 (Z.ltb_ge param 0)) by lia.
  unfold mbind at 1, M_bind at 1, mret at 1, M_ret at 1. unfold mbind at 1, M_bind at 1, the_device.
  cbv beta iota delta [mbind M_bind gets st].
  rewrite Hd. cbv beta iota delta [mret M_ret].
  pose proof (tap_memory_mapped size d T (length (Slots d)) 0 start len ltac:(lia) H0 Hl Hend ltac:(lia)) as E.
  rewrite drop_0 in E. rewrite E. unfold modify. cbn [tape_flag Z.eqb].
  eexists _, _, (mapped d start len). split; [reflexivity|]. split; [apply content_of_put|]. split_and!.
  - apply read_tap_app; [done|]. apply (read_tap_app _ _ [_] [_]); [apply header_block|].
    replace len with (Z.of_nat (length (mapped d start len))) at 1 by (rewrite length_mapped; lia).
    apply read_tap_block. rewrite length_mapped. lia.
  - rewrite length_mapped. lia.
  - intros i Hi. exists (mapped_byte d (start + i)). split; [by apply mapped_lookup|].
    apply (MemGetByte_mapped size); [done..|lia].
Qed.
End SAVETAP.

Lemma SAVETAP_reads_back_witness :
  ∃ s' file, @TAP_SaveBlock plain_files (str "a.tap") CODE (str "two") 0xBFFF 2 0x8000 0x8000 with_bytes = Ret true s'
    ∧ @content_of plain_files (str "a.tap") s' = Some file
    ∧ read_tap file = Some [(0, 3 :: (code <$> str "two       ") ++ [2; 0; 0; 128; 0; 128]); (255, [1; 2])].
Proof.
  destruct with_bytes_device as (d & Hd & T).
  destruct (@SAVETAP_reads_back plain_files 16384 d (str "a.tap") (str "two") 0xBFFF 2 0x8000 0x8000 [] with_bytes Hd T)
    as (s' & file & data & E & Hc & R & Hlen & H); [vm_compute; reflexivity|reflexivity|vm_compute; reflexivity|lia..|].
  exists s', file. split; [exact E|]. split; [exact Hc|]. rewrite R, (with_bytes_data data Hlen H). reflexivity.
Defined.
