(* ===== verification/SpaceSpec.v ===== *)
(** * Padding: what ALIGN emits

    The number of the bytes and their value, for every result of the parser of the
    arguments. *)

From S2P Require Import Stream DirData.

(** ** Routines that return and keep a relation *)

Definition steps {A} (R : St → St → Prop) (m : M St A) : Prop := ∀ s, ∃ a s', m s = Ret a s' ∧ R s s'.

Section steps.
Context (R : St → St → Prop) `{!PreOrder R}.

Lemma steps_ret {A} (a : A) : steps R (mret a).
Proof. intros s. by exists a, s. Qed.
Lemma steps_gets {A} (f : St → A) : steps R (gets f).
Proof. intros s. by exists (f s), s. Qed.
Lemma steps_modify f : (∀ s, R s (f s)) → steps R (modify f).
Proof. intros H s. by exists tt, (f s). Qed.
Lemma steps_bind {A B} (m : M St A) (f : A → M St B) : steps R m → (∀ a, steps R (f a)) → steps R (m ≫= f).
Proof.
  intros Hm Hf s. destruct (Hm s) as (a & s1 & E & H1). destruct (Hf a s1) as (b & s2 & E' & H2).
  exists b, s2. split; [|by etransitivity]. unfold mbind, M_bind. by rewrite E.
Qed.
Lemma steps_mwhen (b : bool) (m : M St unit) : steps R m → steps R (mwhen b m).
Proof. destruct b; [done|]. intros _. apply steps_ret. Qed.
End steps.

Create HintDb steps discriminated.

(** [steps R m] for [m] built of what the database knows. *)
Ltac step_on :=
  repeat first
    [ solve [auto 2 with steps]
    | apply steps_ret; apply _ | apply steps_gets; apply _
    | apply steps_modify; intros ?; repeat case_match; reflexivity
    | apply steps_mwhen; [apply _|] | apply steps_bind; [apply _| |intros ?]
    | lazymatch goal with
      | |- steps _ (if ?b then _ else _) => destruct b
      | |- steps _ (let _ := _ in _) => cbv zeta
      end ].

(** ** Emission into the files only *)

Definition same_hex (s s' : St) : Prop := FP_HEX (out s') = FP_HEX (out s).
#[local] Instance same_hex_preorder : PreOrder same_hex.
Proof. unfold same_hex. split; [by intros s|]. intros s1 s2 s3 H H'. congruence. Qed.

Lemma steps_Error m b t : t ≠ FATAL → steps same_hex (Error m b t).
Proof.
  intros Ht s. destruct (Error_returns m b t s Ht) as [s' E]. exists tt, s'. split; [done|].
  unfold Error in E. destruct (Error_wrong_pass _ _); [by injection E as <-|].
  destruct (Error_skipped _ _); [by injection E as <-|]. cbv zeta in E.
  destruct (is_type t FATAL); [discriminate|]. by injection E as <-.
Qed.
Lemma steps_Warning1 m : steps same_hex (Warning1 m).
Proof.
  unfold Warning1, Warning, WarningImpl. step_on. by apply steps_Error.
Qed.
#[local] Hint Resolve steps_Warning1 : steps.
Lemma steps_CheckRamLimitExceeded : steps same_hex CheckRamLimitExceeded.
Proof. unfold CheckRamLimitExceeded. step_on. Qed.

Lemma steps_close_tap : steps same_hex (modify close_tap).
Proof. apply steps_modify. intros s. unfold close_tap. by case_match. Qed.
Lemma steps_Error1 m : steps same_hex (Error1 m).
Proof. by apply steps_Error. Qed.
#[local] Hint Resolve steps_close_tap steps_Error1 : steps.
Lemma steps_WriteTape buf : steps same_hex (WriteTape buf).
Proof. unfold WriteTape. step_on. Qed.
#[local] Hint Resolve steps_WriteTape : steps.
Lemma steps_WriteDest : steps same_hex WriteDest.
Proof. unfold WriteDest. step_on. Qed.

Lemma steps_step_address : steps same_hex step_address.
Proof. unfold step_address. step_on. Qed.

(** Without a device and without a HEX file a byte is always emitted. *)
Definition files_only (s : St) : Prop := FP_HEX (out s) = None ∧ Device (dev s) = None.

Lemma push_byte_files byte s : FP_HEX (out s) = None → ∃ s', push_byte byte s = Ret tt s' ∧ same_hex s s'.
Proof.
  intros Hf. unfold push_byte. unfold mbind at 1, M_bind at 1, gets at 1, st at 1. cbv zeta.
  destruct (LASTPASS =? pass (src s)); [|by exists s]. cbn [mwhen].
  unfold mbind at 1 2, M_bind at 1 2, modify, gets, st. set (s1 := set_WriteBuffer _ s).
  assert (Hf1 : FP_HEX (out s1) = None) by exact Hf. rewrite Hf1, (bool_decide_false (is_Some None)) by by intros [].
  change (same_hex s) with (same_hex s1). destruct (DESTBUFLEN =? WBLength s1); cbn [mwhen].
  - destruct (steps_WriteDest s1) as ([] & s2 & E & H). exists s2. unfold mbind, M_bind. by rewrite E.
  - by exists s1.
Qed.

Lemma place_byte_files byte p s :
  Device (dev s) = None → ∃ s', (place_byte byte p ;; step_address) s = Ret tt s' ∧ same_hex s s'.
Proof.
  intros Hd. destruct (steps_CheckRamLimitExceeded s) as ([] & s2 & E2 & H2).
  destruct (steps_step_address s2) as ([] & s3 & E3 & H3). exists s3.
  assert (place_byte byte p s = Ret tt s2) as Ep.
  { unfold place_byte, mbind at 1, M_bind at 1, gets at 1, st at 1. cbv zeta.
    by rewrite bool_decide_false by (rewrite Hd; by intros []). }
  unfold mbind, M_bind. rewrite Ep. split; [done|]. unfold same_hex in *. congruence.
Qed.

Lemma EmitByteNoListing_files byte p s :
  files_only s → ∃ s', EmitByteNoListing byte p s = Ret tt s' ∧ files_only s'.
Proof.
  intros [Hf Hd]. set (s0 := set_someByteEmitted true s).
  destruct (push_byte_files byte s0 Hf) as (s1 & E1 & H1).
  pose proof (keeps_at _ _ s0 (pushed_push_byte byte)) as Hp. rewrite E1 in Hp.
  assert (Hd1 : Device (dev s1) = None) by (destruct Hp as (_ & _ & _ & Hd1 & _); rewrite Hd1; exact Hd).
  destruct (place_byte_files byte p s1 Hd1) as (s2 & E2 & H2).
  assert (E : EmitByteNoListing byte p s = Ret tt s2).
  { unfold EmitByteNoListing. unfold mbind at 1, M_bind at 1, modify at 1. fold s0.
    unfold mbind at 1, M_bind at 1. by rewrite E1. }
  pose proof (keeps_at _ _ s (emitted_EmitByteNoListing byte p)) as He. rewrite E in He.
  exists s2. split; [done|]. destruct He as (_ & _ & _ & HD & _).
  unfold files_only, same_hex in *. split; [|congruence]. rewrite H2, H1. exact Hf.
Qed.

Lemma emit_block_files n : ∀ byte p emitMax s,
  files_only s → ∃ s', emit_block n byte p emitMax s = Ret tt s'.
Proof.
  induction n as [|n IH]; intros byte p emitMax s Hs; [by exists s|].
  cbn [emit_block]. unfold mbind at 1, M_bind at 1, gets at 1, st at 1. cbv zeta.
  destruct (EmitByteNoListing_files byte p s Hs) as (s1 & E & H1).
  unfold mbind at 1, M_bind at 1. rewrite E. destruct (_ && _); [|by apply IH].
  unfold mbind at 1, M_bind at 1, modify at 1. by apply IH.
Qed.

(** Whatever listens to the bytes: what is emitted when the block is complete. *)
Lemma emit_block_emits n : ∀ byte p emitMax s s',
  is_byte byte → emit_block n byte p emitMax s = Ret tt s' → emitted (repeat byte n) s s'.
Proof.
  induction n as [|n IH]; intros byte p emitMax s s' Hb E.
  { injection E as <-. by apply emitted_still. }
  cbn [emit_block repeat] in *. unfold mbind at 1, M_bind at 1, gets at 1, st at 1 in E. cbv zeta in E.
  pose proof (keeps_at _ _ s (emitted_EmitByteNoListing byte p)) as He. unfold mbind at 1, M_bind at 1 in E.
  destruct (EmitByteNoListing byte p s) as [[] s1|s1| |]; try discriminate E.
  assert (u8 byte = byte) as Hu by (unfold u8; by apply Z.mod_small). rewrite Hu in He.
  apply (emitted_app [byte] _ s s1 s' He). destruct (_ && _); [|by eapply IH].
  unfold mbind at 1, M_bind at 1, modify at 1 in E. apply IH in E; [|done].
  eapply (emitted_app []); [|exact E]. by apply emitted_still.
Qed.

Lemma EmitBlock_is byte n p emitMax s :
  0 < n → ∃ m, EmitBlock byte n p emitMax s = emit_block (Z.to_nat n) byte p m s.
Proof.
  intros Hn. unfold EmitBlock. rewrite (proj2 (Z.leb_gt n 0)) by lia.
  eexists. unfold mbind at 1, M_bind at 1, gets at 1, st at 1. cbv zeta. reflexivity.
Qed.

(** ** The distance to the next multiple *)

Lemma align_length_spec k address :
  0 ≤ k → 0 ≤ address < 2 ^ 31 →
  align_length address (2 ^ k) = (- address) mod 2 ^ k.
Proof.
  intros Hk Ha. unfold align_length.
  assert (wrap32 (- address) = - address) as -> by (apply wrap32_id; unfold in32, INT_MIN, INT_MAX; lia).
  rewrite <- Z.land_ones, Z.ones_equiv by done. f_equal; lia.
Qed.

Lemma power_of_two n : 0 < n → Z.land n (n - 1) = 0 → n = 2 ^ Z.log2 n.
Proof.
  intros Hn Hl. destruct (Z.log2_spec n Hn) as [Hlo Hhi].
  destruct (decide (n = 2 ^ Z.log2 n)) as [|Hne]; [done|exfalso].
  assert (Hlog : Z.log2 (n - 1) = Z.log2 n) by (apply Z.log2_unique; [apply Z.log2_nonneg|lia]).
  assert (Hb : Z.testbit (Z.land n (n - 1)) (Z.log2 n) = true).
  { rewrite Z.land_spec, Z.bit_log2 by lia. rewrite <- Hlog at 1. apply Z.bit_log2.
    pose proof (Z.pow_pos_nonneg 2 (Z.log2 n) ltac:(lia) (Z.log2_nonneg n)). lia. }
  by rewrite Hl, Z.bits_0 in Hb.
Qed.

(** The number of bytes to the next multiple. *)
Lemma pad_spec k a (pad := (- a) mod 2 ^ k) : 0 ≤ k → 0 ≤ pad < 2 ^ k ∧ (2 ^ k | a + pad).
Proof.
  intros Hk. assert (0 < 2 ^ k) by by apply Z.pow_pos_nonneg. split; [by apply Z.mod_pos_bound|].
  apply Z.mod_divide; [lia|]. unfold pad. rewrite Zplus_mod_idemp_r, Z.add_opp_diag_r. apply Z.mod_0_l. lia.
Qed.

(** ** The arguments of ALIGN *)

(** What parsing leaves alone. *)
Definition aside (s s' : St) : Prop :=
  org s' = org s ∧ out s' = out s ∧ dev s' = dev s ∧ opt s' = opt s ∧ pass (src s') = pass (src s).
#[local] Instance aside_preorder : PreOrder aside.
Proof.
  split; [by intros s|]. intros s1 s2 s3 (?&?&?&?&?) (?&?&?&?&?). unfold aside. split_and!; congruence.
Qed.
Lemma aside_Error m b t : keeps aside (Error m b t).
Proof.
  intros s. unfold Error. destruct (Error_wrong_pass _ _); [reflexivity|].
  destruct (Error_skipped _ _); [reflexivity|]. cbv zeta. by destruct (is_type t FATAL).
Qed.
#[local] Instance aside_frame : ParseFrame aside.
Proof.
  constructor; intros; try apply _; try (by repeat split); [apply aside_Error|].
  apply keeps_read. intros s. destruct (WarningsAsErrors _); [apply aside_Error|by apply keeps_modify].
Qed.
Lemma aside_ParseAlignArguments : keeps aside ParseAlignArguments.
Proof. frame. Qed.
Lemma aside_emitted s s' : aside s s' → emitted [] s s'.
Proof.
  intros (Ho & Hu & Hd & Hp & Hs). apply emitted_still. split; [|done].
  unfold quiet, stream. rewrite Ho, Hu, Hd, Hp, Hs. by split_and!.
Qed.

Definition power_of_2 (n : Z) : Prop := ∃ k, 0 ≤ k ≤ 15 ∧ n = 2 ^ k.
Definition wrong_alignment (n : Z) : bool :=
  (n <? 1) || (Z.shiftl 1 15 <? n) || negb (Z.land n (n - 1) =? 0).
Lemma wrong_alignment_spec n : if wrong_alignment n then ¬ power_of_2 n else power_of_2 n.
Proof.
  destruct (wrong_alignment n) eqn:E; unfold wrong_alignment in E.
  - intros (k & Hk & ->). assert (1 ≤ 2 ^ k ≤ 2 ^ 15).
    { split; [|apply Z.pow_le_mono_r; lia]. pose proof (Z.pow_pos_nonneg 2 k). lia. }
    rewrite !orb_true_iff, negb_true_iff, Z.eqb_neq, !Z.ltb_lt in E. destruct E as [[E|E]|E]; [lia| |].
    + change (Z.shiftl 1 15) with (2 ^ 15) in E. lia.
    + apply E. rewrite Z.sub_1_r, <- Z.ones_equiv, Z.land_ones by lia. by apply Z_mod_same_full.
  - apply orb_false_iff in E as [[H1%Z.ltb_ge H2%Z.ltb_ge]%orb_false_iff H3%negb_false_iff%Z.eqb_eq].
    exists (Z.log2 n). split; [|by apply power_of_two; [lia|]].
    split; [apply Z.log2_nonneg|]. apply (Z.log2_le_mono n (2 ^ 15)). exact H2.
Qed.

(** The byte to fill with, after the alignment: with a comma a value from 0 to 255.  It
    is parsed in the state that the alignment left, once its warning is out. *)
Definition fill_argument (p : text) (s1 : St) (fill : option Z) : Prop :=
  let '(more, q) := comma p in
  if more then ∃ t ok f r t', ParseExpressionEntry q t = Ret (ok, f, r) t'
                 ∧ (rel_type (rel s1) = 0 → t = set_lp q s1)
                 ∧ fill = (if ok && (0 <=? f) && (f <=? 255) then Some f else None)
  else fill = None.
Lemma fill_argument_byte p s1 fill : fill_argument p s1 fill → is_byte (default 0 fill).
Proof.
  unfold fill_argument. destruct (comma p) as [[] q]; [|by intros ->].
  intros (t & ok & f & r & t' & _ & _ & ->). destruct ok; [|done]. unfold is_byte.
  destruct (Z.leb_spec 0 f), (Z.leb_spec f 255); cbn; lia.
Qed.

Lemma bind_Ret {A B} (m : M St A) (f : A → M St B) s b s' :
  (m ≫= f) s = Ret b s' → ∃ a s1, m s = Ret a s1 ∧ f a s1 = Ret b s'.
Proof. unfold mbind, M_bind. destruct (m s) as [a s1|s1| |]; intros E; try discriminate E. by exists a, s1. Qed.

Lemma ParseAlignArguments_spec s ok v p s1 n f s2 :
  ParseExpression (blanks (lp (par s))) s = Ret (ok, v, p) s1 →
  ParseAlignArguments s = Ret (n, f) s2 →
  n = (if ok then if wrong_alignment v then 0 else v else -1)
  ∧ ∃ fill, f = default (-1) fill
    ∧ if ok && negb (wrong_alignment v) then fill_argument p s1 fill else fill = None.
Proof.
  intros E. unfold ParseAlignArguments. unfold mbind at 1, M_bind at 1, gets at 1. cbv zeta.
  unfold mbind at 1, M_bind at 1. rewrite E. unfold mbind at 1, M_bind at 1, modify at 1.
  destruct ok; cbn [negb andb]; [|intros [= <- <- <-]; split; [done|by exists None]].
  unfold mbind at 1, M_bind at 1, gets at 1, st at 1. intros (a & t & Hw & H)%bind_Ret.
  assert (Ht : rel_type (rel s1) = 0 → t = set_lp p s1).
  { intros Hr. change (rel (st (set_lp p s1))) with (rel s1) in Hw. rewrite Hr in Hw. by injection Hw. }
  fold (wrong_alignment v) in H. destruct (wrong_alignment v); cbn [negb].
  { apply bind_Ret in H as (? & ? & _ & [= <- <- _]). split; [done|]. by exists None. }
  unfold fill_argument. destruct (comma p) as [more q].
  unfold mbind at 1, M_bind at 1, modify at 1 in H.
  destruct more; cbn [negb] in H; [|injection H as <- <- _; split; [done|by exists None]].
  apply bind_Ret in H as ([[ok f'] r] & t' & Hf & H). unfold mbind at 1, M_bind at 1, modify at 1 in H.
  assert (∀ fill, n = v ∧ f = default (-1) fill ∧ fill = (if ok && (0 <=? f') && (f' <=? 255) then Some f' else None) →
    n = v ∧ ∃ fill, f = default (-1) fill ∧ ∃ t ok f r t', ParseExpressionEntry q t = Ret (ok, f, r) t'
      ∧ (rel_type (rel s1) = 0 → t = set_lp q s1) ∧ fill = (if ok && (0 <=? f) && (f <=? 255) then Some f else None)) as Hgo.
  { intros fill (-> & -> & Hfill). split; [done|]. exists fill. split; [done|]. exists (set_lp q t), ok, f', r, t'.
    split; [done|]. split; [|done]. intros Hr. by rewrite (Ht Hr). }
  destruct ok; cbn [negb andb] in *.
  2: { apply bind_Ret in H as (? & ? & _ & [= <- <- _]). by apply (Hgo None). }
  rewrite !Z.leb_antisym in Hgo. destruct (f' <? 0), (255 <? f'); cbn [orb negb andb] in *.
  4: { injection H as <- <- _. by apply (Hgo (Some f')). }
  all: apply bind_Ret in H as (? & ? & _ & [= <- <- _]); by apply (Hgo None).
Qed.

(** ** ALIGN *)

(** The bytes [pad] that ALIGN emits at an address: none when the alignment is wrong, else
    the least number of them that reaches a multiple of it. *)
Definition pads (address alignment pad : Z) : Prop :=
  (power_of_2 alignment → 0 ≤ pad < alignment ∧ (alignment | address + pad))
  ∧ (¬ power_of_2 alignment → pad = 0).

Lemma align_pads address n f (v : Z) (ok : bool) (len := align_length address (if n =? -1 then 4 else n)) :
  0 ≤ address < 2 ^ 31 - 2 ^ 15 →
  n = (if ok then if wrong_alignment v then 0 else v else -1) →
  ∃ pad, pads address (if ok then v else 4) pad ∧ 0 ≤ pad
    ∧ (if len <? 1 then mret tt else if f =? -1 then EmitBlock 0 len true 4 else EmitBlock f len false 4)
      = (if pad =? 0 then mret tt else if f =? -1 then EmitBlock 0 pad true 4 else EmitBlock f pad false 4).
Proof.
  intros Ha Hn. assert (Hlen : ∀ k, 0 ≤ k → (if n =? -1 then 4 else n) = 2 ^ k → len = (- address) mod 2 ^ k).
  { intros k Hk E. unfold len. rewrite E. apply align_length_spec; lia. }
  assert (Hp : ∀ k v, 0 ≤ k ≤ 15 → v = 2 ^ k → (if n =? -1 then 4 else n) = v → pads address v len ∧ 0 ≤ len).
  { intros k w Hk -> E. rewrite (Hlen k) by (lia || done). destruct (pad_spec k address) as [H1 H2]; [lia|].
    split; [|lia]. split; [done|]. intros Hnot. exfalso. apply Hnot. by exists k. }
  assert (Hgo : ∀ w, pads address w len ∧ 0 ≤ len → ∃ pad, pads address w pad ∧ 0 ≤ pad
    ∧ (if len <? 1 then mret tt else if f =? -1 then EmitBlock 0 len true 4 else EmitBlock f len false 4)
      = (if pad =? 0 then mret tt else if f =? -1 then EmitBlock 0 pad true 4 else EmitBlock f pad false 4)).
  { intros w [H1 H2]. exists len. split_and!; [done..|].
    destruct (Z.ltb_spec len 1), (Z.eqb_spec len 0); done || lia. }
  destruct ok; [|subst n; apply Hgo, (Hp 2); done || lia].
  pose proof (wrong_alignment_spec v) as Hw. destruct (wrong_alignment v).
  - exists 0. split; [by split|]. split; [done|]. subst n len. unfold align_length. change (0 =? -1) with false. cbv iota.
    rewrite Z.land_m1_r, wrap32_id by (unfold in32, INT_MIN, INT_MAX; lia).
    by rewrite (proj2 (Z.ltb_lt _ 1)) by lia.
  - destruct Hw as (k & Hk & E). apply Hgo, (Hp k); [done..|]. subst n.
    rewrite (proj2 (Z.eqb_neq v (-1))); [done|]. pose proof (Z.pow_pos_nonneg 2 k). lia.
Qed.

(** C34: ALIGN, whatever its arguments are and wherever the bytes go (device, HEX, DISP):
    nothing is emitted for a wrong alignment, else the least number of bytes, fewer than
    the alignment (4 when none can be read), that makes the current address a multiple of
    it; they are the byte to fill with when one is given, else 0, and then the memory of a
    device is preserved.  The block is always complete without a device and a HEX file. *)
Theorem ALIGN_pads : ∀ s ok v p s1 r s2,
  ParseExpression (blanks (lp (par s))) s = Ret (ok, v, p) s1 →
  ParseAlignArguments s = Ret r s2 →
  0 ≤ CurAddress (org s) < 2 ^ 31 - 2 ^ 15 →
  ∃ pad fill,
    pads (CurAddress (org s)) (if ok then v else 4) pad
    ∧ (if ok then power_of_2 v → fill_argument p s1 fill else fill = None)
    ∧ aside s s2
    ∧ dirALIGN s = (if pad =? 0 then mret tt else
                      match fill with Some f => EmitBlock f pad false 4 | None => EmitBlock 0 pad true 4 end) s2
    ∧ (∀ s', dirALIGN s = Ret tt s' → emitted (repeat (default 0 fill) (Z.to_nat pad)) s s')
    ∧ (FP_HEX (out s) = None → Device (dev s) = None → ∃ s', dirALIGN s = Ret tt s').
Proof.
  intros s ok v p s1 [n f] s2 E Er Ha.
  destruct (ParseAlignArguments_spec s ok v p s1 n f s2 E Er) as (Hn & fill & Hf & Hfill).
  pose proof (keeps_at _ _ s aside_ParseAlignArguments) as Hs. rewrite Er in Hs.
  destruct (align_pads (CurAddress (org s)) n f v ok Ha Hn) as (pad & Hpad & H0 & Hrun).
  assert (Hb : is_byte (default 0 fill)).
  { destruct (_ && _); [by eapply fill_argument_byte|by subst fill]. }
  assert (Hd : dirALIGN s = (if pad =? 0 then mret tt else
     match fill with Some f => EmitBlock f pad false 4 | None => EmitBlock 0 pad true 4 end) s2).
  { unfold dirALIGN. unfold mbind at 1, M_bind at 1. rewrite Er.
    unfold mbind at 1, M_bind at 1, gets at 1. cbv zeta. change (st s2) with s2.
    destruct Hs as [-> _]. rewrite Hrun. subst f.
    destruct fill as [b|]; [|done]. cbn [default from_option id] in *. unfold is_byte in Hb.
    by rewrite (proj2 (Z.eqb_neq b (-1))) by lia. }
  exists pad, fill. split; [done|]. split.
  { pose proof (wrong_alignment_spec v) as Hw. destruct ok; [|done]. intros Hv.
    by destruct (wrong_alignment v). }
  split; [done|]. split; [exact Hd|]. rewrite Hd. clear Hd Hrun.
  destruct (Z.eqb_spec pad 0) as [->|Hne].
  { split; [|intros _ _; by exists s2]. intros s' [= <-]. by apply aside_emitted. }
  assert (∃ e m, match fill with Some f => EmitBlock f pad false 4 | None => EmitBlock 0 pad true 4 end s2
                 = emit_block (Z.to_nat pad) (default 0 fill) e m s2) as (e & m & ->).
  { destruct fill as [b|]; [exists false|exists true]; apply EmitBlock_is; lia. }
  split.
  - intros s' Hs'. apply emit_block_emits in Hs'; [|done]. eapply (emitted_app []); [|exact Hs'].
    by apply aside_emitted.
  - intros HX HD. apply emit_block_files. destruct Hs as (_ & Ho & Hv & _). split; congruence.
Qed.

(** At 0x8001, before the text. *)
Definition before_align (args : string) : St :=
  set_lp (mk_text [] (str args)) (set_CurAddress 0x8001 last_pass).

(** [ALIGN 16,#FF] and the wrong [ALIGN 3]. *)
Lemma ALIGN_pads_witness :
  (∃ s', dirALIGN (before_align " 16,#FF") = Ret tt s' ∧ emitted (repeat 255 15) (before_align " 16,#FF") s'
     ∧ CurAddress (org s') mod 2 ^ 32 = 0x8010)
  ∧ ∃ s', dirALIGN (before_align " 3") = Ret tt s' ∧ emitted [] (before_align " 3") s'.
Proof.
  split.
  - edestruct (ALIGN_pads (before_align " 16,#FF")) as (pad & fill & [Hp _] & Hf & _ & _ & He & Hr);
      [vm_compute; reflexivity|vm_compute; reflexivity|cbn; lia|].
    assert (H16 : power_of_2 16) by by exists 4.
    destruct (Hp H16) as (Hpad & [q Hq]). destruct (Hf H16) as (t & ok & f & r & t' & E & Ht & Hfill).
    rewrite (Ht eq_refl) in E. vm_compute in E. injection E as <- <- _ _. cbn in Hfill, Hq. subst fill.
    assert (pad = 15) as -> by lia. destruct Hr as [s' E']; [reflexivity..|]. pose proof (He s' E') as H.
    exists s'. split; [exact E'|]. split; [exact H|]. destruct H as (_ & _ & _ & _ & _ & Hc). by rewrite Hc.
  - edestruct (ALIGN_pads (before_align " 3")) as (pad & fill & [_ Hp] & _ & _ & _ & He & Hr);
      [vm_compute; reflexivity|vm_compute; reflexivity|cbn; lia|].
    rewrite Hp in He.
    + destruct Hr as [s' E']; [reflexivity..|]. exists s'. split; [exact E'|exact (He s' E')].
    + intros (k & Hk & H3). destruct (decide (k = 0)) as [->|]; [done|].
      rewrite <- (Z.succ_pred k), Z.pow_succ_r in H3 by lia. lia.
Defined.
