(* ===== verification/StartSpec.v ===== *)
(** * The start of the program

    The words of SJASMPLUSOPTS are options like those of the command line; the copy
    of the definitions given there; the order in which the symbols are dumped, what
    an exported symbol says, and what a listing adds to its file. *)

From stdpp Require Import sorting.
From S2P Require Import Reports Numbers DefTable CmdLine.

(** ** The environment variable *)

(** White space and the word behind it. *)
Abbreviation spaced_word := (list ascii * list ascii)%type.
Definition is_spaced (e : spaced_word) : Prop :=
  Forall (fun c => White c = true) (fst e) ∧ snd e ≠ [] ∧ Forall (fun c => White c = false) (snd e).
Definition spaced_text (l : list spaced_word) : list ascii := concat ((fun e => fst e ++ snd e) <$> l).
(** The places of [temp] the words take, each with its terminator. *)
Fixpoint text_room (l : list spaced_word) : nat :=
  match l with [] => O | (_, w) :: l => (length w + 1 + text_room l)%nat end.
(** Every word but the first has white space in front. *)
Definition separated (l : list spaced_word) : Prop := Forall (fun e => fst e ≠ []) (tail l).

Lemma drop_while_white a l :
  Forall (fun c => White c = true) a → drop_while White (a ++ l) = drop_while White l.
Proof. induction 1 as [|c a Hc _ IH]; [done|]. cbn. by rewrite Hc. Qed.
Lemma drop_while_word w l :
  w ≠ [] → Forall (fun c => White c = false) w → drop_while White (w ++ l) = w ++ l.
Proof. destruct w as [|c w]; [done|]. intros _ [Hc _]%Forall_cons. cbn. by rewrite Hc. Qed.

(** What follows a word: nothing or white space. *)
Definition ends_word (l : list ascii) : Prop := match l with [] => True | c :: _ => White c = true end.
Lemma count_while_word w l :
  Forall (fun c => White c = false) w → ends_word l → count_while (fun c => negb (White c)) (w ++ l) = length w.
Proof.
  intros Hw Hl. induction Hw as [|c w Hc _ IH]; cbn.
  - destruct l as [|c l]; [done|]. cbn in *. by rewrite Hl.
  - by rewrite Hc; cbn; rewrite IH.
Qed.
Lemma ends_word_spaced l blank :
  Forall is_spaced l → Forall (fun e => fst e ≠ []) l → Forall (fun c => White c = true) blank →
  ends_word (spaced_text l ++ blank).
Proof.
  intros Hl Hs Hb. destruct l as [|[sep w] l]; cbn.
  - destruct Hb; done.
  - apply Forall_cons in Hl as [[Ha _] _]. apply Forall_cons in Hs as [Hn _]. cbn in *.
    destruct sep as [|c sep]; [done|]. by apply Forall_cons in Ha as [Hc _].
Qed.

Lemma env_words_spaced l : ∀ n charI blank,
  (length l ≤ n)%nat → Forall is_spaced l → separated l → Forall (fun c => White c = true) blank →
  (charI + text_room l < 2048)%nat →
  env_words n charI (spaced_text l ++ blank) = Some (snd <$> l, []).
Proof.
  induction l as [|[sep w] l IH]; intros n charI blank Hn Hl Hs Hb Hr.
  - cbn [spaced_text fmap list_fmap concat app]. pose proof (drop_while_white blank [] Hb) as E. rewrite app_nil_r in E.
    cbn in E. destruct n; cbn [env_words]; by rewrite E.
  - destruct n as [|n]; [cbn in Hn; lia|]. apply Forall_cons in Hl as [(Ha & Hne & Hw) Hl]. cbn in Ha, Hne, Hw, Hs.
    change (spaced_text ((sep, w) :: l)) with ((sep ++ w) ++ spaced_text l). cbn [text_room] in Hr.
    rewrite <- !app_assoc. cbn [env_words]. rewrite drop_while_white, drop_while_word by done.
    assert (He : ends_word (spaced_text l ++ blank)) by by apply ends_word_spaced.
    destruct (w ++ spaced_text l ++ blank) as [|c r] eqn:E; [by destruct w|]. rewrite <- E.
    rewrite count_while_word by done. change (Z.to_nat (LINEMAX - 1)) with 2047%nat.
    rewrite Nat.min_l by lia. cbv zeta.
    rewrite (proj2 (Z.leb_gt LINEMAX _)) by (unfold LINEMAX; lia).
    rewrite drop_app_length, take_app_length. rewrite IH; [done|cbn in Hn; lia|done| |done|lia].
    unfold separated. destruct l as [|x l]; [constructor|]. cbn. by apply Forall_cons in Hs as [_ Hs].
Qed.

(** Whether there is a next argument only matters to an option that takes it. *)
Lemma cli_option_alone arg n c s :
  takes_next arg (Some n) = false → cli_option arg (Some n) c s = cli_option arg None c s.
Proof.
  intros Ht. unfold cli_option, mbind, M_bind. destruct (syntax_option arg s) as [[] s1|s1| |]; [done| |done..].
  unfold start_option, include_path. rewrite Ht. revert Ht. unfold takes_next.
  destruct (option_parts arg) as [[dd o] val]. intros [Hd Hi]%orb_false_iff.
  rewrite Hd. done.
Qed.

Lemma GetOptions_app n : ∀ a, (length a ≤ n)%nat → ∀ b c s,
  (∀ w next, last a = Some w → takes_next w (Some next) = false) →
  GetOptions (a ++ b) c s = (c' ← GetOptions a c; GetOptions b c') s.
Proof.
  induction n as [|n IH]; intros [|arg a] Hn b c s Hl; cbn in Hn; try done; try lia.
  assert (Hla : ∀ w next, last a = Some w → takes_next w (Some next) = false).
  { intros w next Hw. apply Hl. by destruct a. }
  cbn [GetOptions app]. unfold mbind at 2, M_bind.
  destruct (Ascii.eqb (nth 0 arg NUL) "-"); [|by apply IH; [lia|]].
  destruct a as [|x a]; cbn [app head].
  - assert (E : ∀ x, takes_next arg (Some x) = false) by (intros x; by apply Hl).
    unfold mbind, M_bind, mret, M_ret. destruct b as [|b0 b]; [by destruct (cli_option _ _ _ _)|]. cbn [head hd_error].
    rewrite cli_option_alone by done. rewrite E. by destruct (cli_option _ _ _ _).
  - unfold mbind, M_bind. destruct (cli_option arg (Some x) c s) as [c1 s1|s1| |]; try done.
    destruct (takes_next arg (Some x)); [|by apply (IH (x :: a)); [cbn in *; lia|]].
    apply IH; [cbn in *; lia|]. intros w next Hw. apply Hla. by destruct a.
Qed.

(** C35: the words of SJASMPLUSOPTS, up to 32 of them with any white space between,
    are processed as if they stood in front of the arguments of the command line (the
    last one is no option that waits for an argument). *)
Theorem SJASMPLUSOPTS_prepended : ∀ l blank argv c s,
  (length l ≤ 32)%nat → Forall is_spaced l → separated l → Forall (fun c => White c = true) blank →
  (text_room l < 2048)%nat →
  (∀ w next, last (snd <$> l) = Some w → takes_next w (Some next) = false) →
  (c' ← GetOptions_env (Some (spaced_text l ++ blank)) c; GetOptions argv c') s
  = GetOptions ((snd <$> l) ++ argv) c s.
Proof.
  intros l blank argv c s Hn Hl Hs Hb Hr Hlast.
  rewrite (GetOptions_app (length (snd <$> l))) by done.
  unfold GetOptions_env. rewrite (env_words_spaced l) by done. reflexivity.
Qed.

Definition sample_words : list spaced_word :=
  [([], str "--nologo"); (str "  ", str "-DX=1"); (str " ", str "a.asm")].
Lemma SJASMPLUSOPTS_prepended_witness :
  ∃ c s, (c' ← GetOptions_env (Some (str "--nologo  -DX=1 a.asm ")) start_cli; GetOptions [str "b.asm"] c') last_pass = Ret c s
    ∧ sourceFiles c = [str "a.asm"; str "b.asm"] ∧ HideLogo c = true.
Proof.
  pose proof (SJASMPLUSOPTS_prepended sample_words (str " ") [str "b.asm"] start_cli last_pass) as H.
  change (spaced_text sample_words ++ str " ") with (str "--nologo  -DX=1 a.asm ") in H.
  rewrite H; [|cbn; lia|repeat constructor; discriminate|repeat constructor; discriminate|by repeat constructor|cbn; lia|].
  - eexists _, _. split; [reflexivity|]. by split.
  - intros w next [= <-]. reflexivity.
Defined.

(** ** The definitions of the command line *)

Section assign.

(** Every bucket holds the entries of its names, with values that end with their line. *)
Definition well_chained (t : gmap Z (list CDefineTableEntry)) : Prop :=
  ∀ b l, t !! b = Some l →
    Forall (fun e => bucket (def_name e) = b ∧ until_eol (def_value e) = def_value e) l.

Lemma find_is_head {A} (p : A → bool) l : List.find p l = head (filter p l).
Proof.
  induction l as [|x l IH]; [done|]. cbn [List.find]. destruct (p x) eqn:E.
  - rewrite filter_cons_True; [done|]. by apply Is_true_true.
  - rewrite filter_cons_False; [done|]. by apply Is_true_false.
Qed.
Lemma last_of_rev {A} (l : list A) : head (rev l) = last l.
Proof. rewrite <- head_reverse. unfold reverse. by rewrite rev_alt. Qed.
Lemma bucket_upto name : bucket name ∈ upto 128.
Proof.
  unfold bucket, upto. change 127 with (Z.ones 7). rewrite Z.land_ones by lia. set (c := code _).
  pose proof (Z.mod_pos_bound c (2 ^ 7) ltac:(lia)) as H. change (Z.to_nat 128) with 128%nat.
  apply list_elem_of_fmap. exists (Z.to_nat (c mod 2 ^ 7)). rewrite Z2Nat.id by lia. split; [done|].
  apply elem_of_seq. lia.
Qed.

(** The definitions of a name in a list of entries. *)
Abbreviation of_name k := (List.filter (is_named k)).

(** Added one after the other, whatever is reported. *)
Lemma Add_all l : ∀ s,
  Forall (fun e => until_eol (def_value e) = def_value e) l →
  ∃ s', for_each l (fun e => CDefineTable_Add (def_name e) (def_value e) (def_nss e)) s = Ret tt s'
    ∧ ∀ k, k ≠ error_name → stack_of k s' = rev (of_name k l) ++ stack_of k s.
Proof.
  induction l as [|e l IH]; intros s Hl; cbn [for_each]; [by exists s|]. apply Forall_cons in Hl as [He Hl].
  destruct (CDefineTable_Add_pushes (def_name e) (def_value e) (def_nss e) s) as (s1 & E & Hs & _).
  destruct (IH (push_define (def_name e) (def_value e) (def_nss e) s1) Hl) as (s' & E' & Hs').
  exists s'. unfold mbind, M_bind. rewrite E. split; [exact E'|]. intros k Hk.
  rewrite Hs', stack_push, Hs by done. cbn [List.filter]. unfold is_named at 2.
  unfold new_CDefineTableEntry. rewrite He. destruct (decide (def_name e = k)) as [<-|Hne].
  - rewrite bool_decide_true by done. cbn [rev]. rewrite <- app_assoc. by destruct e.
  - by rewrite bool_decide_false by congruence.
Qed.

Lemma of_name_elsewhere k b l :
  Forall (fun e => bucket (def_name e) = b) l → bucket k ≠ b → of_name k l = [].
Proof.
  intros Hl Hb. induction Hl as [|e l He Hl IH]; [done|]. cbn [List.filter].
  unfold is_named at 1. rewrite bool_decide_false by congruence. exact IH.
Qed.

Lemma assign_buckets t bs : ∀ s,
  well_chained t → NoDup bs →
  ∃ s', for_each bs (fun b => for_each (default [] (t !! b))
          (fun e => CDefineTable_Add (def_name e) (def_value e) (def_nss e))) s = Ret tt s'
    ∧ ∀ k, k ≠ error_name →
        stack_of k s' = (if decide (bucket k ∈ bs) then rev (of_name k (chain t k)) else []) ++ stack_of k s.
Proof.
  induction bs as [|b bs IH]; intros s Ht Hnd; cbn [for_each].
  - exists s. split; [done|]. intros k _. by rewrite decide_False by apply not_elem_of_nil.
  - apply NoDup_cons in Hnd as [Hb Hnd]. set (l := default [] (t !! b)).
    assert (Hl : Forall (fun e => bucket (def_name e) = b ∧ until_eol (def_value e) = def_value e) l).
    { unfold l. destruct (t !! b) as [x|] eqn:E; [by apply (Ht b)|constructor]. }
    apply Forall_and in Hl as [Hl1 Hl2]. destruct (Add_all l s Hl2) as (s1 & E1 & H1).
    destruct (IH s1 Ht Hnd) as (s' & E & Hs'). exists s'. unfold mbind, M_bind. rewrite E1. split; [exact E|].
    intros k Hk. rewrite Hs', H1 by done. destruct (decide (bucket k = b)) as [<-|Hne].
    + rewrite decide_False, decide_True by (done || apply elem_of_cons; by left). done.
    + rewrite (of_name_elsewhere k b l) by done. cbn [rev app]. f_equal. destruct (decide (bucket k ∈ bs)) as [H|H].
      * by rewrite decide_True by (apply elem_of_cons; by right).
      * rewrite decide_False; [done|]. by intros [?|?]%elem_of_cons.
Qed.
End assign.

(** C36: the copy of the definitions of the command line that every pass starts from, the
    last one too, finds the first definition of a name, although the table it is copied
    from finds the last one (and said that it replaces the old value).  Left out is the
    counter __ERRORS__, which the errors about the duplicates rewrite. *)
Theorem CDefineTable_assign_reverses : ∀ t s,
  well_chained t →
  ∃ s', CDefineTable_assign t s = Ret tt s'
    ∧ ∀ name, name ≠ str "__ERRORS__" →
        CDefineTable_find t name = head (filter (is_named name) (chain t name))
        ∧ CDefineTable_find (defs (tab s')) name = last (filter (is_named name) (chain t name)).
Proof.
  intros t s Ht. unfold CDefineTable_assign, mbind, M_bind. unfold CDefineTable_RemoveAll at 1, modify at 1.
  destruct (assign_buckets t (upto 128) (set_defs ∅ (set_DefArrayList [] s)) Ht) as (s' & E & Hs').
  { apply NoDup_fmap_2; [apply _|apply NoDup_seq]. }
  exists s'. split; [exact E|]. intros name Hname. split; [apply find_is_head|].
  rewrite chain_find, (Hs' name Hname), decide_True by apply bucket_upto.
  assert (stack_of name (set_defs ∅ (set_DefArrayList [] s)) = []) as ->.
  { unfold stack_of, chain. cbn [tab defs set_defs on_tab]. by rewrite lookup_empty. }
  rewrite app_nil_r, last_of_rev. f_equal. clear. generalize (chain t name) as l. intros l.
  induction l as [|e l IH]; [done|]. cbn [List.filter]. rewrite filter_cons. destruct (is_named name e) eqn:Hn; cbn [Is_true].
  - by rewrite decide_True, IH.
  - by rewrite decide_False, IH by (intros []).
Qed.

Definition twice_defined : gmap Z (list CDefineTableEntry) :=
  {[ 88 := [new_CDefineTableEntry (str "X") (str "2") []; new_CDefineTableEntry (str "X") (str "1") []] ]}.
Lemma CDefineTable_assign_reverses_witness :
  (* -DX=1 -DX=2 *)
  match GetOptions [str "-DX=1"; str "-DX=2"] start_cli (start_state (default_options (fun _ => true))) with
  | Ret c _ => cli_defines c = twice_defined
  | _ => False
  end
  ∧ ∃ s', CDefineTable_assign twice_defined last_pass = Ret tt s'
    ∧ def_value <$> CDefineTable_find twice_defined (str "X") = Some (str "2")
    ∧ def_value <$> CDefineTable_find (defs (tab s')) (str "X") = Some (str "1").
Proof.
  split; [vm_compute; reflexivity|].
  destruct (CDefineTable_assign_reverses twice_defined last_pass) as (s' & E & H).
  - unfold twice_defined. intros b l [<- <-]%lookup_singleton_Some. by repeat constructor.
  - exists s'. split; [exact E|]. destruct (H (str "X")) as [H1 H2]; [discriminate|]. rewrite H1, H2. by split.
Defined.

(** ** The order of the dumped symbols *)

Lemma compare_bytes_refl a : compare_bytes a a = Eq.
Proof. induction a as [|x a IH]; [done|]. cbn. by rewrite Z.compare_refl. Qed.
Lemma compare_bytes_eq a b : compare_bytes a b = Eq ↔ a = b.
Proof.
  split; [|intros ->; apply compare_bytes_refl].
  revert b. induction a as [|x a IH]; intros [|y b] H; try done. cbn in H.
  destruct (Z.compare_spec (code x) (code y)) as [E| |]; try done.
  rewrite <- (char_of_code x), <- (char_of_code y), E. f_equal. by apply IH.
Qed.
Lemma compare_bytes_antisym a : ∀ b, compare_bytes b a = CompOpp (compare_bytes a b).
Proof.
  induction a as [|x a IH]; intros [|y b]; try done. cbn. rewrite (Z.compare_antisym (code x)).
  destruct (code x ?= code y)%Z; cbn; [apply IH|done|done].
Qed.
Lemma compare_bytes_trans a : ∀ b c, compare_bytes a b ≠ Gt → compare_bytes b c ≠ Gt →
  compare_bytes a c ≠ Gt ∧ (compare_bytes a c = Eq → compare_bytes a b = Eq).
Proof.
  induction a as [|x a IH]; intros [|y b] [|z c] H1 H2; try done. cbn in *.
  destruct (Z.compare_spec (code x) (code y)), (Z.compare_spec (code y) (code z)); try done;
    destruct (Z.compare_spec (code x) (code z)); try done; try lia.
  by apply IH.
Qed.

(** Both are total orders. *)
#[local] Instance map_order_total : Total map_order.
Proof.
  intros a b. unfold map_order. rewrite (compare_bytes_antisym a b). by destruct (compare_bytes a b); cbn; auto.
Qed.
Lemma map_order_le a b : map_order a b ↔ compare_bytes a b ≠ Gt.
Proof. unfold map_order. by destruct (compare_bytes a b). Qed.
#[local] Instance map_order_trans : Transitive map_order.
Proof. intros a b c. rewrite !map_order_le. intros H1 H2. by destruct (compare_bytes_trans a b c H1 H2). Qed.
#[local] Instance map_order_antisym : AntiSymm (=) map_order.
Proof.
  intros a b. rewrite !map_order_le, (compare_bytes_antisym a b). intros H1 H2.
  apply compare_bytes_eq. by destruct (compare_bytes a b).
Qed.

#[local] Instance case_order_total : Total case_order.
Proof.
  intros a b. unfold case_order, strcasecmp. rewrite (compare_bytes_antisym (tolower <$> a) (tolower <$> b)).
  destruct (compare_bytes (tolower <$> a) (tolower <$> b)); cbn; [apply (total map_order)|by left|by right].
Qed.
#[local] Instance case_order_antisym : AntiSymm (=) case_order.
Proof.
  intros a b. unfold case_order, strcasecmp. rewrite (compare_bytes_antisym (tolower <$> a) (tolower <$> b)).
  destruct (compare_bytes (tolower <$> a) (tolower <$> b)); cbn; [|done|done]. apply (anti_symm map_order).
Qed.
#[local] Instance case_order_trans : Transitive case_order.
Proof.
  intros a b c. unfold case_order, strcasecmp. set (la := tolower <$> a). set (lb := tolower <$> b). set (lc := tolower <$> c).
  intros H1 H2. destruct (compare_bytes_trans la lb lc) as [T1 T2].
  { by destruct (compare_bytes la lb). } { by destruct (compare_bytes lb lc). }
  destruct (compare_bytes la lc) eqn:E; [|done|done]. pose proof (T2 eq_refl) as E1. rewrite E1 in H1.
  apply compare_bytes_eq in E, E1. rewrite <- E1, E, compare_bytes_refl in H2. by transitivity b.
Qed.

#[local] Instance str_inj : Inj (=) (=) str.
Proof.
  intros a b H. rewrite <- (string_of_list_ascii_of_string a), <- (string_of_list_ascii_of_string b).
  by apply (f_equal string_of_list_ascii) in H.
Qed.
Lemma names_are n (m : gmap string SLabelTableEntry) : n ∈ str <$> (map_to_list m).*1 ↔ is_Some (m !! of_chars n).
Proof.
  rewrite list_elem_of_fmap. split.
  - intros (k & -> & Hk). apply list_elem_of_fmap in Hk as ([k' e] & -> & Hk). apply elem_of_map_to_list in Hk.
    unfold of_chars, str. rewrite string_of_list_ascii_of_string. by exists e.
  - intros [e He]. exists (of_chars n). unfold of_chars, str. rewrite list_ascii_of_string_of_list_ascii. split; [done|].
    apply list_elem_of_fmap. exists (of_chars n, e). split; [done|]. by apply elem_of_map_to_list.
Qed.

(** The order of words: a proper prefix is first, else the smaller of the first two
    codes that differ. *)
Definition before (a b : list Z) : Prop :=
  (∃ y m, b = a ++ y :: m) ∨ ∃ p x y l m, a = p ++ x :: l ∧ b = p ++ y :: m ∧ x < y.
Definition by_bytes (a b : list ascii) : Prop := a = b ∨ before (code <$> a) (code <$> b).

(** Without regard to case: A to Z (65 to 90) count as a to z (97 to 122). *)
Definition folded (name : list ascii) : list Z :=
  (fun c => if (65 <=? c) && (c <=? 90) then c + 32 else c) <$> (code <$> name).
Definition by_letters (a b : list ascii) : Prop :=
  before (folded a) (folded b) ∨ folded a = folded b ∧ by_bytes a b.

Lemma before_cons z a b : before (z :: a) (z :: b) ↔ before a b.
Proof.
  split.
  - intros [(y & m & [= ->])|([|w p] & x & y & l & m & E1 & E2 & H)]; [left; by exists y, m| |].
    + injection E1 as -> ->. injection E2 as -> ->. lia.
    + injection E1 as -> ->. injection E2 as ->. right. by exists p, x, y, l, m.
  - intros [(y & m & ->)|(p & x & y & l & m & -> & -> & H)]; [left; by exists y, m|].
    right. by exists (z :: p), x, y, l, m.
Qed.
Lemma compare_before a : ∀ b, compare_bytes a b = Lt ↔ before (code <$> a) (code <$> b).
Proof.
  induction a as [|x a IH]; intros [|y b]; cbn [compare_bytes fmap list_fmap].
  - split; [done|]. by intros [(? & ? & ?)|([|? ?] & ? & ? & ? & ? & ? & ? & ?)].
  - split; [intros _; left; by exists (code y), (code <$> b)|done].
  - split; [done|]. by intros [(? & ? & ?)|([|? ?] & ? & ? & ? & ? & ? & ? & ?)].
  - destruct (Z.compare_spec (code x) (code y)) as [->|H|H].
    + by rewrite before_cons, IH.
    + split; [|done]. intros _. right. by exists [], (code x), (code y), (code <$> a), (code <$> b).
    + split; [done|]. intros [(? & ? & [= E _])|([|? ?] & ? & ? & ? & ? & [= E _] & [= E' _] & ?)]; lia.
Qed.
Lemma map_order_is a b : map_order a b ↔ by_bytes a b.
Proof.
  unfold map_order, by_bytes. rewrite <- compare_before, <- compare_bytes_eq.
  destruct (compare_bytes a b); cbn; intuition discriminate.
Qed.
Lemma folded_is name : folded name = code <$> (tolower <$> name).
Proof.
  unfold folded. rewrite <- !list_fmap_compose. apply list_fmap_ext. intros _ c _. cbn. unfold tolower, isupper, in_range.
  change (code "A") with 65. change (code "Z") with 90. destruct (Z.leb_spec 65 (code c)), (Z.leb_spec (code c) 90); cbn; try done.
  symmetry. apply code_char_of. unfold is_byte. lia.
Qed.
Lemma case_order_is a b : case_order a b ↔ by_letters a b.
Proof.
  unfold case_order, strcasecmp, by_letters. rewrite !folded_is, <- compare_before, <- map_order_is.
  assert (H : compare_bytes (tolower <$> a) (tolower <$> b) = Eq ↔ code <$> (tolower <$> a) = code <$> (tolower <$> b)).
  { rewrite compare_bytes_eq. split; [by intros ->|]. apply list_fmap_eq_inj. intros x y E.
    apply (f_equal char_of) in E. by rewrite !char_of_code in E. }
  rewrite <- H. destruct (compare_bytes _ _); cbn; intuition discriminate.
Qed.
Lemma StronglySorted_iff {A} (R R' : A → A → Prop) l :
  (∀ a b, R a b ↔ R' a b) → StronglySorted R l ↔ StronglySorted R' l.
Proof.
  intros H. assert (Hi : ∀ R R' : A → A → Prop, (∀ a b, R a b → R' a b) → StronglySorted R l → StronglySorted R' l).
  { clear. intros R R' H. induction 1; constructor; [done|]. eapply Forall_impl; [done|intros ?; apply H]. }
  split; apply Hi; intros a b; apply H.
Qed.

(** C37: the symbols are dumped each once, in the order of their bytes (a prefix first), or
    with --lstlab=sort as if the letters A to Z were small and by the bytes among equals;
    there is only one such order, so the tables do not depend on how the symbols came in. *)
Theorem getDumpOrder_sorted : ∀ s,
  let order := if SortSymbols (tex s) then by_letters else by_bytes in
  (∀ n, n ∈ getDumpOrder s ↔ is_Some (symbols (tab s) !! of_chars n))
  ∧ NoDup (getDumpOrder s) ∧ StronglySorted order (getDumpOrder s)
  ∧ ∀ l, l ≡ₚ getDumpOrder s → StronglySorted order l → l = getDumpOrder s.
Proof.
  intros s order. set (names := str <$> (map_to_list (symbols (tab s))).*1).
  assert (Hp : getDumpOrder s ≡ₚ names).
  { unfold getDumpOrder. fold names. destruct (SortSymbols _); by rewrite !merge_sort_Permutation. }
  set (code_order := if SortSymbols (tex s) then case_order else map_order).
  assert (Ho : ∀ l, StronglySorted order l ↔ StronglySorted code_order l).
  { intros l. apply StronglySorted_iff. intros a b. unfold order, code_order.
    destruct (SortSymbols _); [by rewrite case_order_is|by rewrite map_order_is]. }
  assert (Hs : StronglySorted code_order (getDumpOrder s)).
  { unfold getDumpOrder, code_order. destruct (SortSymbols _); apply StronglySorted_merge_sort; apply _. }
  split_and!; [| |by apply Ho|].
  - intros n. rewrite Hp. apply names_are.
  - rewrite Hp. apply (NoDup_fmap_2 str); [apply NoDup_fst_map_to_list].
  - intros l Hl Hsl%Ho. unfold code_order in *. destruct (SortSymbols _); by apply (StronglySorted_unique _ l _ Hsl Hs).
Qed.

(** ** What a dumped symbol says *)

(** C38: a line of --sym and of --exp is source text: the name, EQU and a literal that
    the assembler reads back, silently, as the value of the symbol. *)
Theorem WriteLabelEquValue_reads_back : ∀ name v b s,
  in32 v →
  let literal := str "0x" ++ fmt_0X 8 v in
  WriteLabelEquValue name v = name ++ str ": EQU " ++ literal ++ [LF]
  ∧ GetConstant (mk_text b literal) s = Ret (1, v, mk_text (rev literal ++ b) []) (set_getNumericValueLastErr None s).
Proof.
  intros name v b s Hv literal. subst literal. split.
  - unfold WriteLabelEquValue. by rewrite <- !app_assoc.
  - rewrite <- (app_nil_r (fmt_0X 8 v)) at 1. cbn [str list_ascii_of_string app].
    rewrite GetConstant_hex_digits; [| |apply fmt_0X_digits|done].
    + rewrite number_fmt_0X. assert (Hlt : u32 v < 2 ^ 32) by (unfold u32; by apply Z.mod_pos_bound).
      rewrite (proj2 (Z.ltb_lt _ _) Hlt). assert (Hw : wrap32 (u32 v) = v).
      { rewrite <- (wrap32_id v Hv) at 2. apply wrap32_eq. unfold u32. by rewrite Zmod_mod. }
      rewrite Hw. cbn [rev]. by rewrite <- !app_assoc.
    + unfold fmt_0X, fmt_X. intros [_ H]%app_eq_nil. by apply digits_nonempty in H.
Qed.

Lemma WriteLabelEquValue_reads_back_witness :
  WriteLabelEquValue (str "start") (-2) = str "start: EQU " ++ str "0xFFFFFFFE" ++ [LF]
  ∧ GetConstant (txt "0xFFFFFFFE") last_pass = Ret (1, -2, mk_text (rev (str "0xFFFFFFFE")) []) (set_getNumericValueLastErr None last_pass).
Proof.
  destruct (WriteLabelEquValue_reads_back (str "start") (-2) [] last_pass) as [E H]; [unfold in32, INT_MIN, INT_MAX; lia|].
  change (str "0x" ++ fmt_0X 8 (-2)) with (str "0xFFFFFFFE") in E, H. rewrite app_nil_r in H. by split.
Defined.

(** ** Listings with default names *)

Section listing.
Context `{FileSystem}.

Lemma close_listing_does lines s :
  listing (lin s) = Some lines → IsListingStderr (tex s) = false →
  close_listing s = Ret tt (set_listing None (put_file (listingFile (tex s))
    (default [] (content_of (listingFile (tex s)) s) ++ bytes_of (concat lines)) s)).
Proof.
  intros Hl He. unfold close_listing. cbv beta iota delta [mbind M_bind gets st]. by rewrite Hl, He.
Qed.

(** C39: the listing of a source under its default name overwrites the file only when it
    is opened in the first pass; opened later, as it is for every source but the
    first, it adds to what an earlier run left in the file. *)
Theorem default_listing_appends : ∀ f lines s,
  let name := replace_extension (str ".lst") (in_full f) in
  IsDefaultListingName (tex s) = true → OutputVerbosity (tex s) ≠ OV_LST → listing (lin s) = None →
  in_full f ≠ [] → writable name = true →
  ∃ s', (OpenDefaultList f ;; modify (set_listing (Some lines)) ;; close_listing) s = Ret tt s'
    ∧ content_of name s'
      = Some ((if pass (src s) <=? 1 then [] else default [] (content_of name s)) ++ bytes_of (concat lines)).
Proof.
  intros f lines s name Hd Hv Hl Hf Hw. assert (Hn : name ≠ []).
  { subst name. unfold replace_extension. intros E. apply (f_equal length) in E. rewrite !length_app in E. cbn in E. lia. }
  assert (He : IsListingStderr (tex s) = false) by by apply bool_decide_eq_false_2.
  unfold OpenDefaultList. cbv beta iota delta [mbind M_bind gets st]. rewrite He, Hd, Hl, (bool_decide_eq_false_2 _ Hf).
  rewrite bool_decide_true by done. cbn [negb andb mwhen]. fold name. unfold OpenListImp. cbv beta iota delta [mbind M_bind gets st].
  rewrite He, (bool_decide_eq_false_2 _ Hn), Hw. cbn [negb andb mwhen].
  set (s1 := if (pass (src s) <=? 1) || bool_decide (content_of name s = None) then put_file name [] s else s).
  assert (E1 : mwhen ((pass (src s) <=? 1) || bool_decide (content_of name s = None)) (modify (put_file name [])) s
               = Ret tt s1) by (unfold s1; by destruct (_ || _)).
  assert (He1 : IsListingStderr (tex s1) = false) by (unfold s1; by destruct (_ || _)).
  rewrite E1. cbv beta iota delta [modify]. rewrite (close_listing_does lines) by done.
  eexists. split; [reflexivity|]. change (content_of name (set_listing None ?t)) with (content_of name t).
  cbn [listingFile tex set_listing set_listingFile on_lin on_tex]. rewrite content_of_put. f_equal. f_equal.
  change (default [] (content_of name s1) = if pass (src s) <=? 1 then [] else default [] (content_of name s)).
  unfold s1. destruct (pass (src s) <=? 1); cbn [orb]; [by rewrite content_of_put|].
  case_bool_decide as Hc; [by rewrite content_of_put, Hc|done].
Qed.
End listing.

(** The last pass reaches the second source; its listing is left from another run. *)
Definition second_source : SInputFile := {| in_full := str "b.asm"; in_str := "b.asm" |}.
Definition with_old_listing : St :=
  put_file (str "b.lst") (bytes_of (str "old")) (set_IsDefaultListingName true last_pass).
Lemma default_listing_appends_witness :
  ∃ s', (@OpenDefaultList plain_files second_source ;; modify (set_listing (Some [str "new"])) ;; @close_listing plain_files)
          with_old_listing = Ret tt s'
    ∧ @content_of plain_files (str "b.lst") s' = Some (bytes_of (str "oldnew")).
Proof.
  destruct (@default_listing_appends plain_files second_source [str "new"] with_old_listing) as (s' & E & H);
    [reflexivity|discriminate|reflexivity|discriminate|reflexivity|].
  exists s'. split; [exact E|]. exact H.
Defined.
